(** * Tegra VI channel capture engine and CSI port controller

    A shallow embedding of the capture path of the Tegra camera driver:
    the ring-buffer bookkeeping, the per-frame capture function, the
    stream start/stop entry points and the buffer-queue callbacks of
    [drivers/media/platform/tegra/camera] (the VI channel code), the
    CSI error check of [drivers/media/platform/tegra/csi], the gang-mode
    geometry and the device-tree port lookup.

    Conventions.
    - C [unsigned int]/[u32] values are [Z] with the wrap-around written
      out ([u32]); [int] conversions go through [s32].
    - The arrays of [struct tegra_channel] are lists, read with [!!] and
      written with [<[ i := v ]>].
    - The kernel services the driver calls (videobuf2, the CSI port
      controller entry points, MMIO register writes, host1x sync points)
      are fakes that record their calls in the [world]; what the
      hardware answers on a register read or a sync-point wait is an
      input ([hw_inputs]). *)

From Stdlib Require Import ZArith Bool List String Lia.
From stdpp Require Import base decidable option list.

Local Open Scope Z_scope.

(** ** Machine integers *)

Definition u32 (z : Z) : Z := z mod 2 ^ 32.
Definition u8 (z : Z) : Z := z mod 2 ^ 8.

(** Conversion of a 32-bit pattern to C [int] (two's complement). *)
Definition s32 (z : Z) : Z :=
  let r := z mod 2 ^ 32 in if r <? 2 ^ 31 then r else r - 2 ^ 32.

Definition EINVAL : Z := 22.

(** ** Enumerations of mc_common.h, csi.h and videobuf2 *)

Inductive channel_capture_state : Set :=
  | CAPTURE_IDLE
  | CAPTURE_GOOD
  | CAPTURE_TIMEOUT
  | CAPTURE_ERROR.

(** The three [enum vb2_buffer_state] values the driver passes to
    [vb2_buffer_done]. *)
Inductive vb2_buffer_state : Set :=
  | VB2_BUF_STATE_QUEUED
  | VB2_BUF_STATE_DONE
  | VB2_BUF_STATE_ERROR.

#[global] Instance channel_capture_state_eq_dec : EqDecision channel_capture_state.
Proof. solve_decision. Defined.

#[global] Instance vb2_buffer_state_eq_dec : EqDecision vb2_buffer_state.
Proof. solve_decision. Defined.

#[global] Instance vb2_buffer_state_inhabited : Inhabited vb2_buffer_state :=
  populate VB2_BUF_STATE_ERROR.

Definition PORT_A : Z := 0.
Definition PORT_B : Z := 1.
Definition PORT_C : Z := 2.
Definition PORT_D : Z := 3.
Definition PORT_E : Z := 4.
Definition PORT_F : Z := 5.

Definition CAMERA_NO_GANG_MODE : Z := 0.
Definition CAMERA_GANG_L_R : Z := 1.
Definition CAMERA_GANG_T_B : Z := 2.
Definition CAMERA_GANG_R_L : Z := 3.
Definition CAMERA_GANG_B_T : Z := 4.

Definition QUEUED_BUFFERS : Z := 4.
Definition ENABLE : Z := 1.
Definition DISABLE : Z := 0.
Definition FRAMERATE : Z := 30.
Definition BPP_MEM : Z := 2.

(** Modelled from the spec: [PREVIOUS_BUFFER_DEC_INDEX] is defined in
    camera/registers.h, which is not among the sources.  The spec
    names the slot "two positions back" and the comment in
    [update_state_to_buffer] reads "save index decrements by 2". *)
Definition PREVIOUS_BUFFER_DEC_INDEX : Z := 2.

Inductive tegra_vf_code : Set :=
  | TEGRA_VF_RAW8
  | TEGRA_VF_RAW10
  | TEGRA_VF_RAW12
  | TEGRA_VF_YUV422
  | TEGRA_VF_RGB888.

#[global] Instance tegra_vf_code_eq_dec : EqDecision tegra_vf_code.
Proof. solve_decision. Defined.

(** ** Data model *)

(** [struct tegra_video_format] (core.c table rows): bit width of a
    pixel on the bus, bytes per pixel in memory, VI image format and
    CSI data type. *)
Record tegra_video_format : Type := Build_tegra_video_format {
  vf_code : tegra_vf_code;
  fmt_width : Z;
  bpp : Z;
  img_fmt : Z;
  img_dt : Z;
}.

(** The fields of [struct v4l2_pix_format] the capture path reads. *)
Record v4l2_pix_format : Type := Build_v4l2_pix_format {
  width : Z;
  height : Z;
  bytesperline : Z;
  sizeimage : Z;
}.

(** A videobuf2 buffer is identified by a handle. *)
Definition vb2_buffer : Set := nat.

(** [struct tegra_channel_buffer]: the vb2 buffer and its IOVA. *)
Record tegra_channel_buffer : Type := Build_tegra_channel_buffer {
  buf : vb2_buffer;
  addr : Z;
}.

(** [struct tegra_channel].  [kthread_capture_start] is [true] when the
    task pointer is set; [is_streaming] is the atomic flag. *)
Record tegra_channel : Type := Build_tegra_channel {
  format : v4l2_pix_format;
  fmtinfo : tegra_video_format;
  port : list Z;
  syncpt : list Z;
  syncpoint_fifo : list Z;
  buffer_offset : list Z;
  buffer_state : list vb2_buffer_state;
  buffers : list (option vb2_buffer);
  timeout : Z;
  save_index : Z;
  free_index : Z;
  num_buffers : Z;
  released_bufs : Z;
  kthread_capture_start : bool;
  capture : list tegra_channel_buffer;
  valid_ports : Z;
  total_ports : Z;
  numlanes : Z;
  sequence : Z;
  gang_mode : Z;
  gang_width : Z;
  gang_height : Z;
  gang_bytesperline : Z;
  gang_sizeimage : Z;
  bypass : bool;
  bfirst_fstart : bool;
  capture_state : channel_capture_state;
  is_streaming : bool;
  requested_kbyteps : Z;
  requested_hz : Z;
}.

Definition set_port (v : list Z) (c : tegra_channel) : tegra_channel :=
  {| format := format c; fmtinfo := fmtinfo c; port := v; syncpt := syncpt
     c; syncpoint_fifo := syncpoint_fifo c; buffer_offset := buffer_offset
     c; buffer_state := buffer_state c; buffers := buffers c; timeout :=
     timeout c; save_index := save_index c; free_index := free_index c;
     num_buffers := num_buffers c; released_bufs := released_bufs c;
     kthread_capture_start := kthread_capture_start c; capture := capture c;
     valid_ports := valid_ports c; total_ports := total_ports c; numlanes :=
     numlanes c; sequence := sequence c; gang_mode := gang_mode c;
     gang_width := gang_width c; gang_height := gang_height c;
     gang_bytesperline := gang_bytesperline c; gang_sizeimage :=
     gang_sizeimage c; bypass := bypass c; bfirst_fstart := bfirst_fstart c;
     capture_state := capture_state c; is_streaming := is_streaming c;
     requested_kbyteps := requested_kbyteps c; requested_hz := requested_hz
     c |}.
Definition set_syncpoint_fifo (v : list Z) (c : tegra_channel) : tegra_channel :=
  {| format := format c; fmtinfo := fmtinfo c; port := port c; syncpt :=
     syncpt c; syncpoint_fifo := v; buffer_offset := buffer_offset c;
     buffer_state := buffer_state c; buffers := buffers c; timeout :=
     timeout c; save_index := save_index c; free_index := free_index c;
     num_buffers := num_buffers c; released_bufs := released_bufs c;
     kthread_capture_start := kthread_capture_start c; capture := capture c;
     valid_ports := valid_ports c; total_ports := total_ports c; numlanes :=
     numlanes c; sequence := sequence c; gang_mode := gang_mode c;
     gang_width := gang_width c; gang_height := gang_height c;
     gang_bytesperline := gang_bytesperline c; gang_sizeimage :=
     gang_sizeimage c; bypass := bypass c; bfirst_fstart := bfirst_fstart c;
     capture_state := capture_state c; is_streaming := is_streaming c;
     requested_kbyteps := requested_kbyteps c; requested_hz := requested_hz
     c |}.
Definition set_buffer_offset (v : list Z) (c : tegra_channel) : tegra_channel :=
  {| format := format c; fmtinfo := fmtinfo c; port := port c; syncpt :=
     syncpt c; syncpoint_fifo := syncpoint_fifo c; buffer_offset := v;
     buffer_state := buffer_state c; buffers := buffers c; timeout :=
     timeout c; save_index := save_index c; free_index := free_index c;
     num_buffers := num_buffers c; released_bufs := released_bufs c;
     kthread_capture_start := kthread_capture_start c; capture := capture c;
     valid_ports := valid_ports c; total_ports := total_ports c; numlanes :=
     numlanes c; sequence := sequence c; gang_mode := gang_mode c;
     gang_width := gang_width c; gang_height := gang_height c;
     gang_bytesperline := gang_bytesperline c; gang_sizeimage :=
     gang_sizeimage c; bypass := bypass c; bfirst_fstart := bfirst_fstart c;
     capture_state := capture_state c; is_streaming := is_streaming c;
     requested_kbyteps := requested_kbyteps c; requested_hz := requested_hz
     c |}.
Definition set_buffer_state (v : list vb2_buffer_state) (c : tegra_channel) : tegra_channel :=
  {| format := format c; fmtinfo := fmtinfo c; port := port c; syncpt :=
     syncpt c; syncpoint_fifo := syncpoint_fifo c; buffer_offset :=
     buffer_offset c; buffer_state := v; buffers := buffers c; timeout :=
     timeout c; save_index := save_index c; free_index := free_index c;
     num_buffers := num_buffers c; released_bufs := released_bufs c;
     kthread_capture_start := kthread_capture_start c; capture := capture c;
     valid_ports := valid_ports c; total_ports := total_ports c; numlanes :=
     numlanes c; sequence := sequence c; gang_mode := gang_mode c;
     gang_width := gang_width c; gang_height := gang_height c;
     gang_bytesperline := gang_bytesperline c; gang_sizeimage :=
     gang_sizeimage c; bypass := bypass c; bfirst_fstart := bfirst_fstart c;
     capture_state := capture_state c; is_streaming := is_streaming c;
     requested_kbyteps := requested_kbyteps c; requested_hz := requested_hz
     c |}.
Definition set_buffers (v : list (option vb2_buffer)) (c : tegra_channel) : tegra_channel :=
  {| format := format c; fmtinfo := fmtinfo c; port := port c; syncpt :=
     syncpt c; syncpoint_fifo := syncpoint_fifo c; buffer_offset :=
     buffer_offset c; buffer_state := buffer_state c; buffers := v; timeout
     := timeout c; save_index := save_index c; free_index := free_index c;
     num_buffers := num_buffers c; released_bufs := released_bufs c;
     kthread_capture_start := kthread_capture_start c; capture := capture c;
     valid_ports := valid_ports c; total_ports := total_ports c; numlanes :=
     numlanes c; sequence := sequence c; gang_mode := gang_mode c;
     gang_width := gang_width c; gang_height := gang_height c;
     gang_bytesperline := gang_bytesperline c; gang_sizeimage :=
     gang_sizeimage c; bypass := bypass c; bfirst_fstart := bfirst_fstart c;
     capture_state := capture_state c; is_streaming := is_streaming c;
     requested_kbyteps := requested_kbyteps c; requested_hz := requested_hz
     c |}.
Definition set_timeout (v : Z) (c : tegra_channel) : tegra_channel :=
  {| format := format c; fmtinfo := fmtinfo c; port := port c; syncpt :=
     syncpt c; syncpoint_fifo := syncpoint_fifo c; buffer_offset :=
     buffer_offset c; buffer_state := buffer_state c; buffers := buffers c;
     timeout := v; save_index := save_index c; free_index := free_index c;
     num_buffers := num_buffers c; released_bufs := released_bufs c;
     kthread_capture_start := kthread_capture_start c; capture := capture c;
     valid_ports := valid_ports c; total_ports := total_ports c; numlanes :=
     numlanes c; sequence := sequence c; gang_mode := gang_mode c;
     gang_width := gang_width c; gang_height := gang_height c;
     gang_bytesperline := gang_bytesperline c; gang_sizeimage :=
     gang_sizeimage c; bypass := bypass c; bfirst_fstart := bfirst_fstart c;
     capture_state := capture_state c; is_streaming := is_streaming c;
     requested_kbyteps := requested_kbyteps c; requested_hz := requested_hz
     c |}.
Definition set_save_index (v : Z) (c : tegra_channel) : tegra_channel :=
  {| format := format c; fmtinfo := fmtinfo c; port := port c; syncpt :=
     syncpt c; syncpoint_fifo := syncpoint_fifo c; buffer_offset :=
     buffer_offset c; buffer_state := buffer_state c; buffers := buffers c;
     timeout := timeout c; save_index := v; free_index := free_index c;
     num_buffers := num_buffers c; released_bufs := released_bufs c;
     kthread_capture_start := kthread_capture_start c; capture := capture c;
     valid_ports := valid_ports c; total_ports := total_ports c; numlanes :=
     numlanes c; sequence := sequence c; gang_mode := gang_mode c;
     gang_width := gang_width c; gang_height := gang_height c;
     gang_bytesperline := gang_bytesperline c; gang_sizeimage :=
     gang_sizeimage c; bypass := bypass c; bfirst_fstart := bfirst_fstart c;
     capture_state := capture_state c; is_streaming := is_streaming c;
     requested_kbyteps := requested_kbyteps c; requested_hz := requested_hz
     c |}.
Definition set_free_index (v : Z) (c : tegra_channel) : tegra_channel :=
  {| format := format c; fmtinfo := fmtinfo c; port := port c; syncpt :=
     syncpt c; syncpoint_fifo := syncpoint_fifo c; buffer_offset :=
     buffer_offset c; buffer_state := buffer_state c; buffers := buffers c;
     timeout := timeout c; save_index := save_index c; free_index := v;
     num_buffers := num_buffers c; released_bufs := released_bufs c;
     kthread_capture_start := kthread_capture_start c; capture := capture c;
     valid_ports := valid_ports c; total_ports := total_ports c; numlanes :=
     numlanes c; sequence := sequence c; gang_mode := gang_mode c;
     gang_width := gang_width c; gang_height := gang_height c;
     gang_bytesperline := gang_bytesperline c; gang_sizeimage :=
     gang_sizeimage c; bypass := bypass c; bfirst_fstart := bfirst_fstart c;
     capture_state := capture_state c; is_streaming := is_streaming c;
     requested_kbyteps := requested_kbyteps c; requested_hz := requested_hz
     c |}.
Definition set_num_buffers (v : Z) (c : tegra_channel) : tegra_channel :=
  {| format := format c; fmtinfo := fmtinfo c; port := port c; syncpt :=
     syncpt c; syncpoint_fifo := syncpoint_fifo c; buffer_offset :=
     buffer_offset c; buffer_state := buffer_state c; buffers := buffers c;
     timeout := timeout c; save_index := save_index c; free_index :=
     free_index c; num_buffers := v; released_bufs := released_bufs c;
     kthread_capture_start := kthread_capture_start c; capture := capture c;
     valid_ports := valid_ports c; total_ports := total_ports c; numlanes :=
     numlanes c; sequence := sequence c; gang_mode := gang_mode c;
     gang_width := gang_width c; gang_height := gang_height c;
     gang_bytesperline := gang_bytesperline c; gang_sizeimage :=
     gang_sizeimage c; bypass := bypass c; bfirst_fstart := bfirst_fstart c;
     capture_state := capture_state c; is_streaming := is_streaming c;
     requested_kbyteps := requested_kbyteps c; requested_hz := requested_hz
     c |}.
Definition set_released_bufs (v : Z) (c : tegra_channel) : tegra_channel :=
  {| format := format c; fmtinfo := fmtinfo c; port := port c; syncpt :=
     syncpt c; syncpoint_fifo := syncpoint_fifo c; buffer_offset :=
     buffer_offset c; buffer_state := buffer_state c; buffers := buffers c;
     timeout := timeout c; save_index := save_index c; free_index :=
     free_index c; num_buffers := num_buffers c; released_bufs := v;
     kthread_capture_start := kthread_capture_start c; capture := capture c;
     valid_ports := valid_ports c; total_ports := total_ports c; numlanes :=
     numlanes c; sequence := sequence c; gang_mode := gang_mode c;
     gang_width := gang_width c; gang_height := gang_height c;
     gang_bytesperline := gang_bytesperline c; gang_sizeimage :=
     gang_sizeimage c; bypass := bypass c; bfirst_fstart := bfirst_fstart c;
     capture_state := capture_state c; is_streaming := is_streaming c;
     requested_kbyteps := requested_kbyteps c; requested_hz := requested_hz
     c |}.
Definition set_kthread_capture_start (v : bool) (c : tegra_channel) : tegra_channel :=
  {| format := format c; fmtinfo := fmtinfo c; port := port c; syncpt :=
     syncpt c; syncpoint_fifo := syncpoint_fifo c; buffer_offset :=
     buffer_offset c; buffer_state := buffer_state c; buffers := buffers c;
     timeout := timeout c; save_index := save_index c; free_index :=
     free_index c; num_buffers := num_buffers c; released_bufs :=
     released_bufs c; kthread_capture_start := v; capture := capture c;
     valid_ports := valid_ports c; total_ports := total_ports c; numlanes :=
     numlanes c; sequence := sequence c; gang_mode := gang_mode c;
     gang_width := gang_width c; gang_height := gang_height c;
     gang_bytesperline := gang_bytesperline c; gang_sizeimage :=
     gang_sizeimage c; bypass := bypass c; bfirst_fstart := bfirst_fstart c;
     capture_state := capture_state c; is_streaming := is_streaming c;
     requested_kbyteps := requested_kbyteps c; requested_hz := requested_hz
     c |}.
Definition set_capture (v : list tegra_channel_buffer) (c : tegra_channel) : tegra_channel :=
  {| format := format c; fmtinfo := fmtinfo c; port := port c; syncpt :=
     syncpt c; syncpoint_fifo := syncpoint_fifo c; buffer_offset :=
     buffer_offset c; buffer_state := buffer_state c; buffers := buffers c;
     timeout := timeout c; save_index := save_index c; free_index :=
     free_index c; num_buffers := num_buffers c; released_bufs :=
     released_bufs c; kthread_capture_start := kthread_capture_start c;
     capture := v; valid_ports := valid_ports c; total_ports := total_ports
     c; numlanes := numlanes c; sequence := sequence c; gang_mode :=
     gang_mode c; gang_width := gang_width c; gang_height := gang_height c;
     gang_bytesperline := gang_bytesperline c; gang_sizeimage :=
     gang_sizeimage c; bypass := bypass c; bfirst_fstart := bfirst_fstart c;
     capture_state := capture_state c; is_streaming := is_streaming c;
     requested_kbyteps := requested_kbyteps c; requested_hz := requested_hz
     c |}.
Definition set_valid_ports (v : Z) (c : tegra_channel) : tegra_channel :=
  {| format := format c; fmtinfo := fmtinfo c; port := port c; syncpt :=
     syncpt c; syncpoint_fifo := syncpoint_fifo c; buffer_offset :=
     buffer_offset c; buffer_state := buffer_state c; buffers := buffers c;
     timeout := timeout c; save_index := save_index c; free_index :=
     free_index c; num_buffers := num_buffers c; released_bufs :=
     released_bufs c; kthread_capture_start := kthread_capture_start c;
     capture := capture c; valid_ports := v; total_ports := total_ports c;
     numlanes := numlanes c; sequence := sequence c; gang_mode := gang_mode
     c; gang_width := gang_width c; gang_height := gang_height c;
     gang_bytesperline := gang_bytesperline c; gang_sizeimage :=
     gang_sizeimage c; bypass := bypass c; bfirst_fstart := bfirst_fstart c;
     capture_state := capture_state c; is_streaming := is_streaming c;
     requested_kbyteps := requested_kbyteps c; requested_hz := requested_hz
     c |}.
Definition set_numlanes (v : Z) (c : tegra_channel) : tegra_channel :=
  {| format := format c; fmtinfo := fmtinfo c; port := port c; syncpt :=
     syncpt c; syncpoint_fifo := syncpoint_fifo c; buffer_offset :=
     buffer_offset c; buffer_state := buffer_state c; buffers := buffers c;
     timeout := timeout c; save_index := save_index c; free_index :=
     free_index c; num_buffers := num_buffers c; released_bufs :=
     released_bufs c; kthread_capture_start := kthread_capture_start c;
     capture := capture c; valid_ports := valid_ports c; total_ports :=
     total_ports c; numlanes := v; sequence := sequence c; gang_mode :=
     gang_mode c; gang_width := gang_width c; gang_height := gang_height c;
     gang_bytesperline := gang_bytesperline c; gang_sizeimage :=
     gang_sizeimage c; bypass := bypass c; bfirst_fstart := bfirst_fstart c;
     capture_state := capture_state c; is_streaming := is_streaming c;
     requested_kbyteps := requested_kbyteps c; requested_hz := requested_hz
     c |}.
Definition set_sequence (v : Z) (c : tegra_channel) : tegra_channel :=
  {| format := format c; fmtinfo := fmtinfo c; port := port c; syncpt :=
     syncpt c; syncpoint_fifo := syncpoint_fifo c; buffer_offset :=
     buffer_offset c; buffer_state := buffer_state c; buffers := buffers c;
     timeout := timeout c; save_index := save_index c; free_index :=
     free_index c; num_buffers := num_buffers c; released_bufs :=
     released_bufs c; kthread_capture_start := kthread_capture_start c;
     capture := capture c; valid_ports := valid_ports c; total_ports :=
     total_ports c; numlanes := numlanes c; sequence := v; gang_mode :=
     gang_mode c; gang_width := gang_width c; gang_height := gang_height c;
     gang_bytesperline := gang_bytesperline c; gang_sizeimage :=
     gang_sizeimage c; bypass := bypass c; bfirst_fstart := bfirst_fstart c;
     capture_state := capture_state c; is_streaming := is_streaming c;
     requested_kbyteps := requested_kbyteps c; requested_hz := requested_hz
     c |}.
Definition set_gang_mode (v : Z) (c : tegra_channel) : tegra_channel :=
  {| format := format c; fmtinfo := fmtinfo c; port := port c; syncpt :=
     syncpt c; syncpoint_fifo := syncpoint_fifo c; buffer_offset :=
     buffer_offset c; buffer_state := buffer_state c; buffers := buffers c;
     timeout := timeout c; save_index := save_index c; free_index :=
     free_index c; num_buffers := num_buffers c; released_bufs :=
     released_bufs c; kthread_capture_start := kthread_capture_start c;
     capture := capture c; valid_ports := valid_ports c; total_ports :=
     total_ports c; numlanes := numlanes c; sequence := sequence c;
     gang_mode := v; gang_width := gang_width c; gang_height := gang_height
     c; gang_bytesperline := gang_bytesperline c; gang_sizeimage :=
     gang_sizeimage c; bypass := bypass c; bfirst_fstart := bfirst_fstart c;
     capture_state := capture_state c; is_streaming := is_streaming c;
     requested_kbyteps := requested_kbyteps c; requested_hz := requested_hz
     c |}.
Definition set_gang_width (v : Z) (c : tegra_channel) : tegra_channel :=
  {| format := format c; fmtinfo := fmtinfo c; port := port c; syncpt :=
     syncpt c; syncpoint_fifo := syncpoint_fifo c; buffer_offset :=
     buffer_offset c; buffer_state := buffer_state c; buffers := buffers c;
     timeout := timeout c; save_index := save_index c; free_index :=
     free_index c; num_buffers := num_buffers c; released_bufs :=
     released_bufs c; kthread_capture_start := kthread_capture_start c;
     capture := capture c; valid_ports := valid_ports c; total_ports :=
     total_ports c; numlanes := numlanes c; sequence := sequence c;
     gang_mode := gang_mode c; gang_width := v; gang_height := gang_height
     c; gang_bytesperline := gang_bytesperline c; gang_sizeimage :=
     gang_sizeimage c; bypass := bypass c; bfirst_fstart := bfirst_fstart c;
     capture_state := capture_state c; is_streaming := is_streaming c;
     requested_kbyteps := requested_kbyteps c; requested_hz := requested_hz
     c |}.
Definition set_gang_height (v : Z) (c : tegra_channel) : tegra_channel :=
  {| format := format c; fmtinfo := fmtinfo c; port := port c; syncpt :=
     syncpt c; syncpoint_fifo := syncpoint_fifo c; buffer_offset :=
     buffer_offset c; buffer_state := buffer_state c; buffers := buffers c;
     timeout := timeout c; save_index := save_index c; free_index :=
     free_index c; num_buffers := num_buffers c; released_bufs :=
     released_bufs c; kthread_capture_start := kthread_capture_start c;
     capture := capture c; valid_ports := valid_ports c; total_ports :=
     total_ports c; numlanes := numlanes c; sequence := sequence c;
     gang_mode := gang_mode c; gang_width := gang_width c; gang_height := v;
     gang_bytesperline := gang_bytesperline c; gang_sizeimage :=
     gang_sizeimage c; bypass := bypass c; bfirst_fstart := bfirst_fstart c;
     capture_state := capture_state c; is_streaming := is_streaming c;
     requested_kbyteps := requested_kbyteps c; requested_hz := requested_hz
     c |}.
Definition set_gang_bytesperline (v : Z) (c : tegra_channel) : tegra_channel :=
  {| format := format c; fmtinfo := fmtinfo c; port := port c; syncpt :=
     syncpt c; syncpoint_fifo := syncpoint_fifo c; buffer_offset :=
     buffer_offset c; buffer_state := buffer_state c; buffers := buffers c;
     timeout := timeout c; save_index := save_index c; free_index :=
     free_index c; num_buffers := num_buffers c; released_bufs :=
     released_bufs c; kthread_capture_start := kthread_capture_start c;
     capture := capture c; valid_ports := valid_ports c; total_ports :=
     total_ports c; numlanes := numlanes c; sequence := sequence c;
     gang_mode := gang_mode c; gang_width := gang_width c; gang_height :=
     gang_height c; gang_bytesperline := v; gang_sizeimage := gang_sizeimage
     c; bypass := bypass c; bfirst_fstart := bfirst_fstart c; capture_state
     := capture_state c; is_streaming := is_streaming c; requested_kbyteps
     := requested_kbyteps c; requested_hz := requested_hz c |}.
Definition set_gang_sizeimage (v : Z) (c : tegra_channel) : tegra_channel :=
  {| format := format c; fmtinfo := fmtinfo c; port := port c; syncpt :=
     syncpt c; syncpoint_fifo := syncpoint_fifo c; buffer_offset :=
     buffer_offset c; buffer_state := buffer_state c; buffers := buffers c;
     timeout := timeout c; save_index := save_index c; free_index :=
     free_index c; num_buffers := num_buffers c; released_bufs :=
     released_bufs c; kthread_capture_start := kthread_capture_start c;
     capture := capture c; valid_ports := valid_ports c; total_ports :=
     total_ports c; numlanes := numlanes c; sequence := sequence c;
     gang_mode := gang_mode c; gang_width := gang_width c; gang_height :=
     gang_height c; gang_bytesperline := gang_bytesperline c; gang_sizeimage
     := v; bypass := bypass c; bfirst_fstart := bfirst_fstart c;
     capture_state := capture_state c; is_streaming := is_streaming c;
     requested_kbyteps := requested_kbyteps c; requested_hz := requested_hz
     c |}.
Definition set_bfirst_fstart (v : bool) (c : tegra_channel) : tegra_channel :=
  {| format := format c; fmtinfo := fmtinfo c; port := port c; syncpt :=
     syncpt c; syncpoint_fifo := syncpoint_fifo c; buffer_offset :=
     buffer_offset c; buffer_state := buffer_state c; buffers := buffers c;
     timeout := timeout c; save_index := save_index c; free_index :=
     free_index c; num_buffers := num_buffers c; released_bufs :=
     released_bufs c; kthread_capture_start := kthread_capture_start c;
     capture := capture c; valid_ports := valid_ports c; total_ports :=
     total_ports c; numlanes := numlanes c; sequence := sequence c;
     gang_mode := gang_mode c; gang_width := gang_width c; gang_height :=
     gang_height c; gang_bytesperline := gang_bytesperline c; gang_sizeimage
     := gang_sizeimage c; bypass := bypass c; bfirst_fstart := v;
     capture_state := capture_state c; is_streaming := is_streaming c;
     requested_kbyteps := requested_kbyteps c; requested_hz := requested_hz
     c |}.
Definition set_capture_state (v : channel_capture_state) (c : tegra_channel) : tegra_channel :=
  {| format := format c; fmtinfo := fmtinfo c; port := port c; syncpt :=
     syncpt c; syncpoint_fifo := syncpoint_fifo c; buffer_offset :=
     buffer_offset c; buffer_state := buffer_state c; buffers := buffers c;
     timeout := timeout c; save_index := save_index c; free_index :=
     free_index c; num_buffers := num_buffers c; released_bufs :=
     released_bufs c; kthread_capture_start := kthread_capture_start c;
     capture := capture c; valid_ports := valid_ports c; total_ports :=
     total_ports c; numlanes := numlanes c; sequence := sequence c;
     gang_mode := gang_mode c; gang_width := gang_width c; gang_height :=
     gang_height c; gang_bytesperline := gang_bytesperline c; gang_sizeimage
     := gang_sizeimage c; bypass := bypass c; bfirst_fstart := bfirst_fstart
     c; capture_state := v; is_streaming := is_streaming c;
     requested_kbyteps := requested_kbyteps c; requested_hz := requested_hz
     c |}.
Definition set_is_streaming (v : bool) (c : tegra_channel) : tegra_channel :=
  {| format := format c; fmtinfo := fmtinfo c; port := port c; syncpt :=
     syncpt c; syncpoint_fifo := syncpoint_fifo c; buffer_offset :=
     buffer_offset c; buffer_state := buffer_state c; buffers := buffers c;
     timeout := timeout c; save_index := save_index c; free_index :=
     free_index c; num_buffers := num_buffers c; released_bufs :=
     released_bufs c; kthread_capture_start := kthread_capture_start c;
     capture := capture c; valid_ports := valid_ports c; total_ports :=
     total_ports c; numlanes := numlanes c; sequence := sequence c;
     gang_mode := gang_mode c; gang_width := gang_width c; gang_height :=
     gang_height c; gang_bytesperline := gang_bytesperline c; gang_sizeimage
     := gang_sizeimage c; bypass := bypass c; bfirst_fstart := bfirst_fstart
     c; capture_state := capture_state c; is_streaming := v;
     requested_kbyteps := requested_kbyteps c; requested_hz := requested_hz
     c |}.
Definition set_requested_kbyteps (v : Z) (c : tegra_channel) : tegra_channel :=
  {| format := format c; fmtinfo := fmtinfo c; port := port c; syncpt :=
     syncpt c; syncpoint_fifo := syncpoint_fifo c; buffer_offset :=
     buffer_offset c; buffer_state := buffer_state c; buffers := buffers c;
     timeout := timeout c; save_index := save_index c; free_index :=
     free_index c; num_buffers := num_buffers c; released_bufs :=
     released_bufs c; kthread_capture_start := kthread_capture_start c;
     capture := capture c; valid_ports := valid_ports c; total_ports :=
     total_ports c; numlanes := numlanes c; sequence := sequence c;
     gang_mode := gang_mode c; gang_width := gang_width c; gang_height :=
     gang_height c; gang_bytesperline := gang_bytesperline c; gang_sizeimage
     := gang_sizeimage c; bypass := bypass c; bfirst_fstart := bfirst_fstart
     c; capture_state := capture_state c; is_streaming := is_streaming c;
     requested_kbyteps := v; requested_hz := requested_hz c |}.
Definition set_requested_hz (v : Z) (c : tegra_channel) : tegra_channel :=
  {| format := format c; fmtinfo := fmtinfo c; port := port c; syncpt :=
     syncpt c; syncpoint_fifo := syncpoint_fifo c; buffer_offset :=
     buffer_offset c; buffer_state := buffer_state c; buffers := buffers c;
     timeout := timeout c; save_index := save_index c; free_index :=
     free_index c; num_buffers := num_buffers c; released_bufs :=
     released_bufs c; kthread_capture_start := kthread_capture_start c;
     capture := capture c; valid_ports := valid_ports c; total_ports :=
     total_ports c; numlanes := numlanes c; sequence := sequence c;
     gang_mode := gang_mode c; gang_width := gang_width c; gang_height :=
     gang_height c; gang_bytesperline := gang_bytesperline c; gang_sizeimage
     := gang_sizeimage c; bypass := bypass c; bfirst_fstart := bfirst_fstart
     c; capture_state := capture_state c; is_streaming := is_streaming c;
     requested_kbyteps := requested_kbyteps c; requested_hz := v |}.

(** ** The recording fakes and the hardware's answers *)

(** One call [vb2_buffer_done(vb, state)].  [v4l2_sequence] is the frame
    sequence number stamped on the buffer before the call, when the
    calling path stamps one. *)
Record done_call : Type := Build_done_call {
  vb : vb2_buffer;
  state : vb2_buffer_state;
  v4l2_sequence : option Z;
}.

(** Registers, by the names of camera/registers.h and csi.h. *)
Inductive reg : Set :=
  | TEGRA_VI_CSI_ERROR_STATUS
  | TEGRA_VI_CSI_IMAGE_DEF
  | TEGRA_VI_CSI_IMAGE_DT
  | TEGRA_VI_CSI_IMAGE_SIZE_WC
  | TEGRA_VI_CSI_IMAGE_SIZE
  | TEGRA_VI_CSI_SW_RESET
  | TEGRA_VI_CSI_SINGLE_SHOT
  | TEGRA_VI_CSI_SURFACE0_OFFSET_MSB
  | TEGRA_VI_CSI_SURFACE0_OFFSET_LSB
  | TEGRA_VI_CSI_SURFACE0_STRIDE
  | TEGRA_VI_CFG_VI_INCR_SYNCPT
  | TEGRA_VI_CFG_VI_INCR_SYNCPT_CNTRL
  | TEGRA_VI_CFG_VI_INCR_SYNCPT_ERROR
  | TEGRA_VI_CFG_CG_CTRL
  | TEGRA_CSI_PIXEL_PARSER_STATUS
  | TEGRA_CSI_CIL_STATUS
  | TEGRA_CSI_CILX_STATUS.

#[global] Instance reg_eq_dec : EqDecision reg.
Proof. solve_decision. Defined.

(** Register writes, one constructor per accessor: [csi_write] and
    [tegra_channel_write] of the VI channel code, [pp_write] and
    [cil_write] of the CSI code (the port stands for its register
    block). *)
Inductive mmio_write : Set :=
  | csi_write (index : nat) (a : reg) (val : Z)
  | tegra_channel_write (a : reg) (val : Z)
  | pp_write (port_num : Z) (a : reg) (val : Z)
  | cil_write (port_num : Z) (a : reg) (val : Z).

(** Calls into the rest of the kernel whose effect is outside the
    channel: they are recorded, in call order. *)
Inductive ext_call : Set :=
  | tegra_csi_pad_control (enable : Z)
  | tegra_csi_tpg_start_streaming (port_num : Z)
  | tegra_csi_start_streaming (port_num : Z)
  | tegra_csi_stop_streaming (port_num : Z)
  | tegra_csi_status (port_num : Z)
  | s_stream (on : bool)
  | tegra_mipi_bias_pad_enable
  | tegra_mipi_bias_pad_disable
  | tegra_channel_mipi_cal (is_bypass : Z)
  | nvhost_syncpt_incr_max_ext (index : nat)
  | nvhost_syncpt_wait_timeout_ext (index : nat)
  | nvhost_syncpt_set_min_eq_max_ext (index : nat)
  | media_entity_pipeline_start
  | media_entity_pipeline_stop
  | nvhost_module_enable_clk
  | nvhost_module_disable_clk
  | kthread_run
  | kthread_stop
  | wake_up_interruptible
  | vi_v4l2_update_isobw (kbyteps : Z)
  | vi_v4l2_set_la
  | update_clk.

(** What the hardware and the sub-devices answer during one driver
    call: the value of each register read and the status of each
    blocking call.  [syncpt_wait index] is the return value of
    [nvhost_syncpt_wait_timeout_ext] for the port at [index] (non-zero:
    timed out). *)
Record hw_inputs : Type := Build_hw_inputs {
  s_stream_ret : Z;
  syncpt_wait : nat -> Z;
  vi_csi_error_status : nat -> Z;
  vi_csi_image_def : nat -> Z;
  vi_csi_single_shot : nat -> Z;
  vi_incr_syncpt_error : Z;
  pixel_parser_status : Z -> Z;
  cil_status : Z -> Z;
  cilx_status : Z -> Z;
  pipeline_start_ret : Z;
  kthread_run_ret : Z;
}.

(** The fields of [struct tegra_mc_vi] the channel code touches. *)
Record tegra_mc_vi : Type := Build_tegra_mc_vi {
  pg_mode : Z;
  aggregated_kbyteps : Z;
}.

(** A channel, its VI device and the fakes' records: [done] holds the
    [vb2_buffer_done] calls, [recovered] the ports passed to
    [tegra_csi_error_recover], [mmio] the register writes and [calls]
    the other external calls, each oldest first. *)
Record world : Type := Build_world {
  chan : tegra_channel;
  vi : tegra_mc_vi;
  done : list done_call;
  recovered : list Z;
  mmio : list mmio_write;
  calls : list ext_call;
}.

Definition set_chan (v : tegra_channel) (w : world) : world :=
  {| chan := v; vi := vi w; done := done w; recovered := recovered w;
     mmio := mmio w; calls := calls w |}.
Definition set_vi (v : tegra_mc_vi) (w : world) : world :=
  {| chan := chan w; vi := v; done := done w; recovered := recovered w;
     mmio := mmio w; calls := calls w |}.
Definition set_done (v : list done_call) (w : world) : world :=
  {| chan := chan w; vi := vi w; done := v; recovered := recovered w;
     mmio := mmio w; calls := calls w |}.
Definition set_recovered (v : list Z) (w : world) : world :=
  {| chan := chan w; vi := vi w; done := done w; recovered := v;
     mmio := mmio w; calls := calls w |}.
Definition set_mmio (v : list mmio_write) (w : world) : world :=
  {| chan := chan w; vi := vi w; done := done w; recovered := recovered w;
     mmio := v; calls := calls w |}.
Definition set_calls (v : list ext_call) (w : world) : world :=
  {| chan := chan w; vi := vi w; done := done w; recovered := recovered w;
     mmio := mmio w; calls := v |}.

Definition on_chan (f : tegra_channel -> tegra_channel) (w : world) : world :=
  set_chan (f (chan w)) w.
Definition vb2_buffer_done (d : done_call) (w : world) : world :=
  set_done (done w ++ [d]) w.
Definition tegra_csi_error_recover (port_num : Z) (w : world) : world :=
  set_recovered (recovered w ++ [port_num]) w.
Definition writel (m : mmio_write) (w : world) : world :=
  set_mmio (mmio w ++ [m]) w.
Definition call (e : ext_call) (w : world) : world :=
  set_calls (calls w ++ [e]) w.

(** [for (index = 0; index < n; index++) body], threading the world. *)
Definition for_index (n : Z) (body : nat -> world -> world) (w : world) : world :=
  fold_left (fun w index => body index w) (seq 0 (Z.to_nat n)) w.

(** C array accesses with an [int] or [unsigned] index.  A read out of
    the list yields the default, a write out of it is dropped: the
    proofs below show the ring indices stay inside the arrays. *)
Definition array_get {A} `{Inhabited A} (l : list A) (i : Z) : A :=
  if i <? 0 then inhabitant else l !!! Z.to_nat i.
Definition array_set {A} (l : list A) (i : Z) (v : A) : list A :=
  if i <? 0 then l else <[Z.to_nat i := v]> l.

(** ** Ring buffer *)

Module Ring.

Definition tegra_channel_init_ring_buffer (c : tegra_channel) : tegra_channel :=
  let c := set_released_bufs 0 c in
  let c := set_num_buffers 0 c in
  let c := set_save_index 0 c in
  let c := set_free_index 0 c in
  set_bfirst_fstart false c.

(** One turn of the [while (frames)] loop of [free_ring_buffers].  The
    slot at [free_index] must hold a buffer: a NULL or missing slot is
    a fault ([None]). *)
Definition release_one_frame (w : world) : option world :=
  let c := chan w in
  let i := Z.to_nat (free_index c) in
  match buffers c !! i with
  | Some (Some b) =>
      let sequence0 := sequence c in
      let c := set_sequence (u32 (sequence c + 1)) c in
      let c :=
        if bool_decide (capture_state c ≠ CAPTURE_GOOD) || (released_bufs c <? 2)
        then set_buffer_state (<[i := VB2_BUF_STATE_ERROR]> (buffer_state c)) c
        else c in
      match buffer_state c !! i with
      | Some st =>
          let w := vb2_buffer_done
                     {| vb := b; state := st; v4l2_sequence := Some sequence0 |} w in
          let c := set_free_index (u32 (free_index c + 1)) c in
          let c := if QUEUED_BUFFERS <=? free_index c then set_free_index 0 c else c in
          let c := set_num_buffers (u32 (num_buffers c - 1)) c in
          let c := set_released_bufs (u32 (released_bufs c + 1)) c in
          Some (set_chan c w)
      | None => None
      end
  | _ => None
  end.

Fixpoint release_frames (frames : nat) (w : world) : option world :=
  match frames with
  | O => Some w
  | S frames' => w' ← release_one_frame w; release_frames frames' w'
  end.

(** [free_ring_buffers(chan, frames)].  The count is a C [int]; the
    callers pass [num_buffers] or 1.  A negative count is outside the
    model ([None]). *)
Definition free_ring_buffers (frames : Z) (w : world) : option world :=
  if frames <? 0 then None else release_frames (Z.to_nat frames) w.

Definition add_buffer_to_ring (b : vb2_buffer) (c : tegra_channel) : tegra_channel :=
  let c := set_buffer_state
             (array_set (buffer_state c) (save_index c) VB2_BUF_STATE_ERROR) c in
  let c := set_buffers (array_set (buffers c) (save_index c) (Some b)) c in
  let c := set_save_index (u32 (save_index c + 1)) c in
  let c := if QUEUED_BUFFERS <=? save_index c then set_save_index 0 c else c in
  set_num_buffers (u32 (num_buffers c + 1)) c.

Definition update_state_to_buffer (st : vb2_buffer_state) (c : tegra_channel)
  : tegra_channel :=
  let save_index0 := s32 (save_index c - PREVIOUS_BUFFER_DEC_INDEX) in
  let save_index1 :=
    if save_index0 <? 0 then save_index0 + QUEUED_BUFFERS else save_index0 in
  let c := set_buffer_state (array_set (buffer_state c) save_index1 st) c in
  if bool_decide (capture_state c ≠ CAPTURE_GOOD)
  then set_buffer_state (array_set (buffer_state c) (save_index c) st) c
  else c.

(** [tegra_channel_ring_buffer(chan, vb, ts, state)].  The time stamp
    copied into the buffer is not modelled. *)
Definition tegra_channel_ring_buffer (st : vb2_buffer_state) (w : world)
  : option world :=
  let w :=
    if negb (bfirst_fstart (chan w))
    then on_chan (set_bfirst_fstart true) w
    else on_chan (update_state_to_buffer st) w in
  if bool_decide (capture_state (chan w) ≠ CAPTURE_GOOD)
  then
    w' ← free_ring_buffers (s32 (num_buffers (chan w))) w;
    Some (on_chan tegra_channel_init_ring_buffer w')
  else if QUEUED_BUFFERS - 1 <=? num_buffers (chan w)
  then free_ring_buffers 1 w
  else Some w.

End Ring.

(** ** Macros of headers that are not among the sources

    camera/registers.h and the architecture's word size: the capture
    path is parametric in them. *)
Class kernel_headers : Type := Build_kernel_headers {
  BITS_PER_LONG : Z;
  TEGRA_SURFACE_ALIGNMENT : Z;
  SYNCPT_FIFO_DEPTH : Z;
  IMAGE_SIZE_HEIGHT_OFFSET : Z;
  BYPASS_PXL_TRANSFORM_OFFSET : Z;
  IMAGE_DEF_FORMAT_OFFSET : Z;
  IMAGE_DEF_DEST_MEM : Z;
  SINGLE_SHOT_CAPTURE : Z;
  VI_CSI_PP_FRAME_START : Z -> Z;
  VI_CSI_MW_ACK_DONE : Z -> Z;
  VI_CFG_VI_INCR_SYNCPT_COND : Z -> Z;
}.

(** ** CSI port controller: error check *)

Module Csi.

(** [tegra_csi_error(csi, port_num)]: the three status values read, the
    error word returned, and the write-back of each value read. *)
Definition tegra_csi_error (hw : hw_inputs) (port_num : Z) (w : world) : Z * world :=
  let err := 0 in
  let val := u32 (pixel_parser_status hw port_num) in
  let err := Z.lor err (Z.land val 0x4000) in
  let w := writel (pp_write port_num TEGRA_CSI_PIXEL_PARSER_STATUS val) w in
  let val := u32 (cil_status hw port_num) in
  let err := Z.lor err (Z.land val 0x02) in
  let w := writel (cil_write port_num TEGRA_CSI_CIL_STATUS val) w in
  let val := u32 (cilx_status hw port_num) in
  let err := Z.lor err (Z.land val 0x00020020) in
  let w := writel (cil_write port_num TEGRA_CSI_CILX_STATUS val) w in
  (s32 err, w).

End Csi.

(** ** Gang-mode geometry *)

Module Gang.
Section Gang.
Context `{kernel_headers}.

(** Bitwise complement of a 32-bit value. *)
Definition not32 (z : Z) : Z := u32 (Z.lnot z).

(** One turn of the loop of [gang_buffer_offsets]. *)
Definition gang_buffer_offset (c : tegra_channel) (i : nat) : Z :=
  let offset :=
    if bool_decide (gang_mode c = CAMERA_NO_GANG_MODE
                    ∨ gang_mode c = CAMERA_GANG_L_R
                    ∨ gang_mode c = CAMERA_GANG_R_L)
    then gang_bytesperline c
    else if bool_decide (gang_mode c = CAMERA_GANG_T_B
                         ∨ gang_mode c = CAMERA_GANG_B_T)
    then gang_sizeimage c
    else 0 in
  let offset :=
    Z.land (u32 (offset + TEGRA_SURFACE_ALIGNMENT - 1))
           (not32 (TEGRA_SURFACE_ALIGNMENT - 1)) in
  u32 (Z.of_nat i * offset).

Definition gang_buffer_offsets (c : tegra_channel) : tegra_channel :=
  fold_left
    (fun c i =>
       set_buffer_offset (<[i := gang_buffer_offset c i]> (buffer_offset c)) c)
    (seq 0 (Z.to_nat (total_ports c))) c.

Definition gang_mode_width (gang_mode width : Z) : Z :=
  if bool_decide (gang_mode = CAMERA_GANG_L_R ∨ gang_mode = CAMERA_GANG_R_L)
  then Z.shiftr width 1
  else width.

Definition gang_mode_height (gang_mode height : Z) : Z :=
  if bool_decide (gang_mode = CAMERA_GANG_T_B ∨ gang_mode = CAMERA_GANG_B_T)
  then Z.shiftr height 1
  else height.

Definition update_gang_mode_params (c : tegra_channel) : tegra_channel :=
  let c := set_gang_width (gang_mode_width (gang_mode c) (width (format c))) c in
  let c := set_gang_height (gang_mode_height (gang_mode c) (height (format c))) c in
  let c := set_gang_bytesperline (u32 (gang_width c * bpp (fmtinfo c))) c in
  let c := set_gang_sizeimage
             (u32 (gang_bytesperline c * height (format c))) c in
  gang_buffer_offsets c.

(** [width] and [height] are the [int] locals of the C function. *)
Definition update_gang_mode (c : tegra_channel) : tegra_channel :=
  let width := s32 (width (format c)) in
  let height := s32 (height (format c)) in
  let c :=
    if (1920 <? width) && (1080 <? height)
    then set_valid_ports (total_ports c) (set_gang_mode CAMERA_GANG_L_R c)
    else set_valid_ports 1 (set_gang_mode CAMERA_NO_GANG_MODE c) in
  update_gang_mode_params c.

End Gang.
End Gang.

(** ** Frame setup and capture *)

Module Capture.
Import Ring.
Section Capture.
Context `{kernel_headers}.

Definition ulong (z : Z) : Z := z mod 2 ^ BITS_PER_LONG.

(** [chan->port[index]], [chan->syncpt[index]], ... *)
Definition at_index (l : list Z) (index : nat) : Z := l !!! index.

Definition tegra_core_get_word_count (frame_width : Z) (fmt : tegra_video_format) : Z :=
  u32 (frame_width * fmt_width fmt) / 8.

Definition tegra_channel_capture_setup (w : world) : Z * world :=
  let c := chan w in
  let height := height (format c) in
  let width := width (format c) in
  let format := img_fmt (fmtinfo c) in
  let data_type := img_dt (fmtinfo c) in
  let word_count := tegra_core_get_word_count width (fmtinfo c) in
  let gang := 1 <? valid_ports c in
  let height := if gang then gang_height c else height in
  let width := if gang then gang_width c else width in
  let word_count :=
    if gang then tegra_core_get_word_count width (fmtinfo c) else word_count in
  let bypass_pixel_transform :=
    if bool_decide (pg_mode (vi w) ≠ 0
                    ∨ vf_code (fmtinfo c) = TEGRA_VF_YUV422
                    ∨ vf_code (fmtinfo c) = TEGRA_VF_RGB888)
    then 0 else 1 in
  let w :=
    for_index (valid_ports c)
      (fun index w =>
         let w := writel (csi_write index TEGRA_VI_CSI_ERROR_STATUS 0xFFFFFFFF) w in
         let w := writel (csi_write index TEGRA_VI_CSI_IMAGE_DEF
                    (Z.lor (u32 (Z.shiftl bypass_pixel_transform BYPASS_PXL_TRANSFORM_OFFSET))
                           (u32 (Z.shiftl format IMAGE_DEF_FORMAT_OFFSET)))) w in
         let w := writel (csi_write index TEGRA_VI_CSI_IMAGE_DT data_type) w in
         let w := writel (csi_write index TEGRA_VI_CSI_IMAGE_SIZE_WC word_count) w in
         writel (csi_write index TEGRA_VI_CSI_IMAGE_SIZE
                   (Z.lor (u32 (Z.shiftl height IMAGE_SIZE_HEIGHT_OFFSET)) width)) w)
      w in
  (0, w).

(** [tegra_channel_set_stream(chan, on)]; [s_stream_ret] is what the
    sub-devices' [s_stream] chain returns. *)
Definition tegra_channel_set_stream (hw : hw_inputs) (on : bool) (w : world)
  : Z * world :=
  if bool_decide (is_streaming (chan w) = on) then (0, w)
  else
    let w := call (s_stream on) w in
    let ret := s_stream_ret hw in
    if bool_decide (ret ≠ 0) then (ret, w)
    else (0, on_chan (set_is_streaming on) w).

Definition tegra_channel_enable_stream (hw : hw_inputs) (w : world) : Z * world :=
  let calibrate (ret : Z) (w : world) : Z * world :=
    let w := call tegra_mipi_bias_pad_enable w in
    let w :=
      if bool_decide (pg_mode (vi w) = 0)
      then call (tegra_channel_mipi_cal 0) w else w in
    (ret, w) in
  let w := call (tegra_csi_pad_control ENABLE) w in
  if bool_decide (pg_mode (vi w) ≠ 0)
  then
    let w := for_index (valid_ports (chan w))
               (fun i w =>
                  call (tegra_csi_tpg_start_streaming (at_index (port (chan w)) i)) w)
               w in
    calibrate 0 (on_chan (set_is_streaming true) w)
  else
    let '(ret, w) := tegra_channel_set_stream hw true w in
    if ret <? 0 then (ret, w) else calibrate ret w.

Definition tegra_channel_error_status (hw : hw_inputs) (w : world) : Z * world :=
  fold_left
    (fun '(err, w) index =>
       let val := u32 (vi_csi_error_status hw index) in
       let w := writel (csi_write index TEGRA_VI_CSI_ERROR_STATUS val) w in
       let err := s32 (Z.lor (u32 err) val) in
       let '(e, w) := Csi.tegra_csi_error hw (at_index (port (chan w)) index) w in
       (Z.lor err e, w))
    (seq 0 (Z.to_nat (valid_ports (chan w)))) (0, w).

Definition tegra_channel_capture_error (w : world) : world :=
  for_index (valid_ports (chan w))
    (fun index w => call (tegra_csi_status (at_index (port (chan w)) index)) w) w.

Definition tegra_channel_clear_singleshot (index : nat) (w : world) : world :=
  let w := writel (csi_write index TEGRA_VI_CSI_SW_RESET 0xF) w in
  writel (csi_write index TEGRA_VI_CSI_SW_RESET 0x0) w.

Definition tegra_channel_vi_csi_recover (hw : hw_inputs) (w : world) : world :=
  let error_val := u32 (vi_incr_syncpt_error hw) in
  let valid_ports := valid_ports (chan w) in
  let w := call (tegra_csi_pad_control DISABLE) w in
  let w := writel (tegra_channel_write TEGRA_VI_CFG_CG_CTRL DISABLE) w in
  let w :=
    for_index valid_ports
      (fun index w =>
         let w := tegra_csi_error_recover (at_index (port (chan w)) index) w in
         let w := writel (csi_write index TEGRA_VI_CSI_IMAGE_DEF 0) w in
         tegra_channel_clear_singleshot index w) w in
  let w :=
    for_index valid_ports
      (fun index w =>
         let frame_start := VI_CSI_PP_FRAME_START (at_index (port (chan w)) index) in
         if bool_decide (Z.land error_val frame_start ≠ 0)
         then on_chan (fun c => set_syncpoint_fifo
                                  (<[index := SYNCPT_FIFO_DEPTH]> (syncpoint_fifo c)) c) w
         else w) w in
  let w := writel (tegra_channel_write TEGRA_VI_CFG_VI_INCR_SYNCPT_ERROR error_val) w in
  let w := writel (tegra_channel_write TEGRA_VI_CFG_CG_CTRL ENABLE) w in
  let w := snd (tegra_channel_capture_setup w) in
  for_index valid_ports
    (fun index w =>
       let w := call (tegra_csi_stop_streaming (at_index (port (chan w)) index)) w in
       let w := call (tegra_csi_start_streaming (at_index (port (chan w)) index)) w in
       call (nvhost_syncpt_set_min_eq_max_ext index) w) w.

Definition tegra_channel_ec_recover (hw : hw_inputs) (w : world) : world :=
  tegra_channel_vi_csi_recover hw (tegra_channel_capture_error w).

(** The per-port [nvhost_syncpt_wait_timeout_ext] loop shared by
    [tegra_channel_capture_frame] and [tegra_channel_capture_done]: it
    stops at the first port whose wait fails, after running the
    recovery and setting [CAPTURE_TIMEOUT].  Returns the last [err]. *)
Fixpoint syncpt_wait_loop (hw : hw_inputs) (indices : list nat) (w : world)
  : Z * world :=
  match indices with
  | [] => (0, w)
  | index :: rest =>
      let w := call (nvhost_syncpt_wait_timeout_ext index) w in
      let err := syncpt_wait hw index in
      if bool_decide (err ≠ 0)
      then
        let w := tegra_channel_ec_recover hw w in
        (err, on_chan (set_capture_state CAPTURE_TIMEOUT) w)
      else syncpt_wait_loop hw rest w
  end.

(** The first loop of [tegra_channel_capture_frame]: surface address,
    stride and sync-point programming of one port. *)
Definition program_frame_start (b : tegra_channel_buffer) (index : nat) (w : world)
  : world :=
  let c := chan w in
  let w := writel (csi_write index TEGRA_VI_CSI_SURFACE0_OFFSET_MSB 0x0) w in
  let w := writel (csi_write index TEGRA_VI_CSI_SURFACE0_OFFSET_LSB
                     (u32 (addr b + at_index (buffer_offset c) index))) w in
  let w := writel (csi_write index TEGRA_VI_CSI_SURFACE0_STRIDE
                     (u32 (bytesperline (format c)))) w in
  let w := call (nvhost_syncpt_incr_max_ext index) w in
  if bool_decide (at_index (syncpoint_fifo c) index = 0)
  then
    let frame_start := VI_CSI_PP_FRAME_START (at_index (port c) index) in
    let val := Z.lor (VI_CFG_VI_INCR_SYNCPT_COND frame_start)
                     (at_index (syncpt c) index) in
    writel (tegra_channel_write TEGRA_VI_CFG_VI_INCR_SYNCPT val) w
  else
    on_chan (fun c => set_syncpoint_fifo
                        (<[index := u32 (at_index (syncpoint_fifo c) index - 1)]>
                           (syncpoint_fifo c)) c) w.

(** [tegra_channel_capture_frame(chan, buf)], from the single-shot
    arming on: everything after the first-frame stream enable. *)
Definition capture_frame_armed (hw : hw_inputs) (w : world) : option (Z * world) :=
  let valid_ports := valid_ports (chan w) in
  let w := for_index valid_ports
             (fun index w =>
                writel (csi_write index TEGRA_VI_CSI_SINGLE_SHOT SINGLE_SHOT_CAPTURE) w)
             w in
  let w := on_chan (set_capture_state CAPTURE_GOOD) w in
  let '(err, w) := syncpt_wait_loop hw (seq 0 (Z.to_nat valid_ports)) w in
  let st := if bool_decide (err ≠ 0) then VB2_BUF_STATE_ERROR else VB2_BUF_STATE_DONE in
  let '(st, w) :=
    if bool_decide (err = 0) && bool_decide (pg_mode (vi w) = 0)
    then
      let '(err, w) := tegra_channel_error_status hw w in
      if bool_decide (err ≠ 0)
      then (VB2_BUF_STATE_ERROR, on_chan (set_capture_state CAPTURE_ERROR) w)
      else (st, w)
    else (st, w) in
  w ← tegra_channel_ring_buffer st w;
  Some (0, w).

Definition tegra_channel_capture_frame (hw : hw_inputs) (b : tegra_channel_buffer)
    (w : world) : option (Z * world) :=
  let valid_ports := valid_ports (chan w) in
  let w := for_index valid_ports (program_frame_start b) w in
  if negb (bfirst_fstart (chan w))
  then
    let '(err, w) := tegra_channel_enable_stream hw w in
    if bool_decide (err ≠ 0)
    then
      let w := on_chan (set_capture_state CAPTURE_ERROR) w in
      w ← tegra_channel_ring_buffer VB2_BUF_STATE_ERROR w;
      Some (err, w)
    else
      let w := for_index valid_ports
                 (fun index w =>
                    let val := u32 (vi_csi_image_def hw index) in
                    writel (csi_write index TEGRA_VI_CSI_IMAGE_DEF
                              (Z.lor val IMAGE_DEF_DEST_MEM)) w) w in
      capture_frame_armed hw w
  else capture_frame_armed hw w.

(** [dequeue_buffer(chan)]: the head of the submission queue moves into
    the ring. *)
Definition dequeue_buffer (w : world) : option tegra_channel_buffer * world :=
  match capture (chan w) with
  | [] => (None, w)
  | b :: rest =>
      (Some b, on_chan (fun c => add_buffer_to_ring (buf b) (set_capture rest c)) w)
  end.

Definition tegra_channel_capture_done (hw : hw_inputs) (w : world) : option world :=
  let valid_ports0 := valid_ports (chan w) in
  match dequeue_buffer w with
  | (None, w) => Some w
  | (Some b, w) =>
      let w :=
        for_index valid_ports0
          (fun index w =>
             let c := chan w in
             let w := writel (csi_write index TEGRA_VI_CSI_SURFACE0_OFFSET_MSB 0x0) w in
             let w := writel (csi_write index TEGRA_VI_CSI_SURFACE0_OFFSET_LSB
                                (u32 (addr b + at_index (buffer_offset c) index))) w in
             let w := writel (csi_write index TEGRA_VI_CSI_SURFACE0_STRIDE
                                (u32 (bytesperline (format c)))) w in
             let w := call (nvhost_syncpt_incr_max_ext index) w in
             let mw_ack_done := VI_CSI_MW_ACK_DONE (at_index (port c) index) in
             let val := Z.lor (VI_CFG_VI_INCR_SYNCPT_COND mw_ack_done)
                              (at_index (syncpt c) index) in
             let w := writel (tegra_channel_write TEGRA_VI_CFG_VI_INCR_SYNCPT val) w in
             writel (csi_write index TEGRA_VI_CSI_SINGLE_SHOT SINGLE_SHOT_CAPTURE) w)
          w in
      let '(err, w) :=
        syncpt_wait_loop hw (seq 0 (Z.to_nat (valid_ports (chan w)))) w in
      let st := if bool_decide (err ≠ 0) then VB2_BUF_STATE_ERROR else VB2_BUF_STATE_DONE in
      let w := on_chan (set_capture_state CAPTURE_IDLE) w in
      tegra_channel_ring_buffer st w
  end.

(** One turn of the loop of [tegra_channel_kthread_capture_start] on a
    thread that is not asked to stop.  [err] is the thread's local
    variable: once a capture has returned an error the thread stops
    dequeuing.  An empty queue leaves the thread waiting. *)
Definition kthread_capture_turn (hw : hw_inputs) (err : Z) (w : world)
  : option (Z * world) :=
  if bool_decide (err ≠ 0) then Some (err, w)
  else
    match dequeue_buffer w with
    | (None, w) => Some (err, w)
    | (Some b, w) => tegra_channel_capture_frame hw b w
    end.

Definition tegra_channel_stop_kthreads (w : world) : world :=
  if kthread_capture_start (chan w)
  then on_chan (set_kthread_capture_start false) (call kthread_stop w)
  else w.

(** *** videobuf2 queue operations *)

Definition tegra_channel_buffer_queue (b : tegra_channel_buffer) (w : world) : world :=
  if bypass (chan w) then w
  else
    let w := on_chan (fun c => set_capture (capture c ++ [b]) c) w in
    call wake_up_interruptible w.

Definition tegra_channel_queued_buf_done (st : vb2_buffer_state) (w : world) : world :=
  let w :=
    fold_left
      (fun w b =>
         vb2_buffer_done {| vb := buf b; state := st; v4l2_sequence := None |} w)
      (capture (chan w)) w in
  on_chan (set_capture []) w.

Definition tegra_channel_update_clknbw (on : Z) (w : world) : world :=
  let c := chan w in
  let kbyteps :=
    u32 (width (format c) * height (format c) * FRAMERATE * BPP_MEM) / 1000 in
  let w := on_chan (set_requested_kbyteps
                      (s32 ((if 0 <? on then 1 else -1) * kbyteps))) w in
  let w := on_chan (set_requested_hz
                      (if 0 <? on
                       then u32 (width (format c) * height (format c) * FRAMERATE)
                       else 0)) w in
  let w := set_vi {| pg_mode := pg_mode (vi w);
                     aggregated_kbyteps :=
                       ulong (aggregated_kbyteps (vi w) + requested_kbyteps (chan w)) |} w in
  let w := call (vi_v4l2_update_isobw (aggregated_kbyteps (vi w))) w in
  let w := call vi_v4l2_set_la w in
  call update_clk w.

Definition tegra_channel_ec_init (w : world) : world :=
  let w := on_chan (set_timeout 20) w in
  writel (tegra_channel_write TEGRA_VI_CFG_VI_INCR_SYNCPT_CNTRL 0x100) w.

(** [tegra_channel_start_streaming].  [kthread_run_ret] is 0 when the
    capture thread was created and the error code of the [ERR_PTR]
    otherwise; the pointer stored in the channel is non-NULL in both
    cases. *)
Definition tegra_channel_start_streaming (hw : hw_inputs) (w : world) : Z * world :=
  let error_pipeline_start (ret : Z) (w : world) : Z * world :=
    (ret, tegra_channel_queued_buf_done VB2_BUF_STATE_QUEUED w) in
  let error_set_stream (ret : Z) (w : world) : Z * world :=
    let w := if bool_decide (pg_mode (vi w) = 0)
             then call media_entity_pipeline_stop w else w in
    error_pipeline_start ret w in
  let error_capture_setup (ret : Z) (w : world) : Z * world :=
    let w := if bool_decide (pg_mode (vi w) = 0)
             then snd (tegra_channel_set_stream hw false w) else w in
    error_set_stream ret w in
  let w := tegra_channel_ec_init w in
  let '(ret, w) :=
    if bool_decide (pg_mode (vi w) = 0)
    then (pipeline_start_ret hw, call media_entity_pipeline_start w)
    else (0, w) in
  if ret <? 0 then error_pipeline_start ret w
  else if bypass (chan w)
  then
    let '(ret, w) := tegra_channel_set_stream hw true w in
    if ret <? 0 then error_set_stream ret w
    else
      let w := call nvhost_module_enable_clk w in
      let w := call tegra_mipi_bias_pad_enable w in
      let w := call (tegra_channel_mipi_cal 1) w in
      (ret, call nvhost_module_disable_clk w)
  else
    let w := on_chan (set_capture_state CAPTURE_IDLE) w in
    let w := for_index (valid_ports (chan w))
               (fun i w =>
                  let w := call (tegra_csi_start_streaming (at_index (port (chan w)) i)) w in
                  call (nvhost_syncpt_set_min_eq_max_ext i) w) w in
    let '(ret, w) := tegra_channel_capture_setup w in
    if ret <? 0 then error_capture_setup ret w
    else
      let w := on_chan (set_sequence 0) w in
      let w := on_chan tegra_channel_init_ring_buffer w in
      let w := tegra_channel_update_clknbw 1 w in
      let w := on_chan (set_kthread_capture_start true) (call kthread_run w) in
      if bool_decide (kthread_run_ret hw ≠ 0)
      then error_capture_setup (kthread_run_ret hw) w
      else (0, w).

Definition tegra_channel_stop_streaming (hw : hw_inputs) (w : world)
  : option (Z * world) :=
  let is_streaming0 := is_streaming (chan w) in
  w ← (if negb (bypass (chan w))
       then
         let w := tegra_channel_stop_kthreads w in
         w ← (if is_streaming0 && bool_decide (capture_state (chan w) = CAPTURE_GOOD)
              then tegra_channel_capture_done hw w
              else Some w);
         w ← free_ring_buffers (s32 (num_buffers (chan w))) w;
         let w := tegra_channel_queued_buf_done VB2_BUF_STATE_ERROR w in
         let w := writel (tegra_channel_write TEGRA_VI_CFG_CG_CTRL DISABLE) w in
         let w :=
           for_index (valid_ports (chan w))
             (fun index w =>
                let w := call (tegra_csi_stop_streaming
                                 (at_index (port (chan w)) index)) w in
                if bool_decide (u32 (vi_csi_single_shot hw index) ≠ 0)
                then tegra_channel_clear_singleshot index w
                else w) w in
         let w := writel (tegra_channel_write TEGRA_VI_CFG_CG_CTRL ENABLE) w in
         Some (call (tegra_csi_pad_control DISABLE) w)
       else Some w);
  let w :=
    if bool_decide (pg_mode (vi w) = 0)
    then call media_entity_pipeline_stop (snd (tegra_channel_set_stream hw false w))
    else w in
  let w := if negb (bypass (chan w)) then tegra_channel_update_clknbw 0 w else w in
  Some (0, call tegra_mipi_bias_pad_disable w).

End Capture.
End Capture.

(** ** Device-tree port lookup *)

Module Graph.

(** A device-tree node: its name (NULL when absent), its 32-bit cell
    properties and its children in order. *)
#[warnings="-register-all"]
Inductive device_node : Type :=
  | Build_device_node
      (name : option string) (properties : list (string * Z))
      (children : list device_node).

Definition name (n : device_node) : option string :=
  match n with Build_device_node s _ _ => s end.
Definition properties (n : device_node) : list (string * Z) :=
  match n with Build_device_node _ p _ => p end.
Definition children (n : device_node) : list device_node :=
  match n with Build_device_node _ _ c => c end.

Section Graph.

(** [of_node_cmp] of linux/of.h: zero when the two names match. *)
Variable of_node_cmp : string -> string -> Z.

Definition find_property (n : device_node) (propname : string) : option Z :=
  snd <$> List.find (fun p => String.eqb (fst p) propname) (properties n).

(** [of_property_read_u32(np, propname, &value)] writing to the [int]
    local [value]: the status returned and the new content of
    [value].  A property that is absent gives [-EINVAL] and leaves
    [value] as it was. *)
Definition of_property_read_u32 (n : device_node) (propname : string) (value : Z)
  : Z * Z :=
  match find_property n propname with
  | Some v => (0, s32 v)
  | None => (- EINVAL, value)
  end.

Definition node_is (n : device_node) (s : string) : bool :=
  match name n with
  | Some nm => bool_decide (of_node_cmp nm s = 0)
  | None => false
  end.

Definition of_get_child_by_name (n : device_node) (s : string) : option device_node :=
  List.find (fun child => node_is child s) (children n).

(** The locals [value] and [ret] together with the channel. *)
Record locals : Type := Build_locals {
  l_chan : tegra_channel;
  value : Z;
  ret : Z;
}.

(** Outcome of a loop body: the function returned, or the loop goes on. *)
Inductive flow : Type :=
  | Return (code : Z) (c : tegra_channel)
  | Next (l : locals).

(** [for (i = 1; value > 0; i++, value -= 4)]: one more CSI brick per
    four lanes.  [turns] bounds the number of turns. *)
Fixpoint add_bricks (turns : nat) (i : nat) (value : Z) (c : tegra_channel)
  : Z * tegra_channel :=
  match turns with
  | O => (value, c)
  | S turns' =>
      if 0 <? value
      then
        let next_port := Capture.at_index (port c) (i - 1) + 2 in
        let next_port := Z.rem next_port (PORT_F + 1) in
        add_bricks turns' (S i) (s32 (value - 4))
          (set_port (<[i := u8 next_port]> (port c)) c)
      else (value, c)
  end.

(** Body of the inner [for_each_child_of_node(port, ep)]. *)
Definition visit_endpoint (l : locals) (ep : device_node) : flow :=
  if negb (node_is ep "endpoint") then Next l
  else
    let c := l_chan l in
    let '(ret, value) := of_property_read_u32 ep "csi-port" (value l) in
    let c := set_port (<[0%nat := u8 value]> (port c)) c in
    let '(ret, value) := of_property_read_u32 ep "bus-width" value in
    let c := set_numlanes (u32 value) c in
    if 12 <? value then Return (- EINVAL) c
    else
      let value := s32 (value - 4) in
      let '(value, c) := add_bricks (Z.to_nat value) 1 value c in
      Next {| l_chan := c; value := value; ret := ret |}.

Fixpoint for_each_child (body : locals -> device_node -> flow)
    (nodes : list device_node) (l : locals) : flow :=
  match nodes with
  | [] => Next l
  | n :: rest =>
      match body l n with
      | Return code c => Return code c
      | Next l' => for_each_child body rest l'
      end
  end.

(** Body of the outer [for_each_child_of_node(ports, port)]. *)
Definition visit_port (index : Z) (l : locals) (p : device_node) : flow :=
  if negb (node_is p "port") then Next l
  else
    let '(ret, value) := of_property_read_u32 p "reg" (value l) in
    let l := {| l_chan := l_chan l; value := value; ret := ret |} in
    if ret <? 0 then Next l
    else if bool_decide (u32 value ≠ index) then Next l
    else for_each_child visit_endpoint (children p) l.

(** The node whose children [tegra_vi_get_port_info] walks: the child
    named ports when there is one, the node itself otherwise. *)
Definition ports_of (node : device_node) : device_node :=
  match of_get_child_by_name node "ports" with
  | Some ports => ports
  | None => node
  end.

(** A child the outer loop passes over for the port [index]: it is not
    named port, has no reg property, or its reg is another index. *)
Definition skips_port (index : Z) (p : device_node) : Prop :=
  node_is p "port" = false
  ∨ find_property p "reg" = None
  ∨ ∃ r, find_property p "reg" = Some r ∧ u32 (s32 r) ≠ index.

(** [tegra_vi_get_port_info(chan, node, index)]: the value returned and
    the channel as the call leaves it. *)
Definition tegra_vi_get_port_info (c : tegra_channel) (node : device_node) (index : Z)
  : Z * tegra_channel :=
  let ports :=
    match of_get_child_by_name node "ports" with
    | Some ports => ports
    | None => node
    end in
  match for_each_child (visit_port index) (children ports)
          {| l_chan := c; value := 0xFFFF; ret := 0 |} with
  | Return code c => (code, c)
  | Next l => (ret l, l_chan l)
  end.

End Graph.
End Graph.

(** ** Call sequences

    The ring-buffer functions are static: the driver reaches them only
    through the capture thread and the stream start/stop callbacks.  The
    definitions below name the sequences of calls the statements
    quantify over. *)

Module Scenario.
Import Ring Capture.

(** Direct calls of the ring-buffer functions.  [FrameStart cs st] is
    the frame-start acknowledgement as the capture functions issue it:
    they store the capture state [cs] in the channel and call
    [tegra_channel_ring_buffer] with the buffer state [st]. *)
Inductive ring_op : Type :=
  | Init
  | Add (b : vb2_buffer)
  | FrameStart (cs : channel_capture_state) (st : vb2_buffer_state)
  | Free (frames : Z)
  | FreeAll.

Definition run_op (o : ring_op) (w : world) : option world :=
  match o with
  | Init => Some (on_chan tegra_channel_init_ring_buffer w)
  | Add b => Some (on_chan (add_buffer_to_ring b) w)
  | FrameStart cs st =>
      tegra_channel_ring_buffer st (on_chan (set_capture_state cs) w)
  | Free frames => free_ring_buffers frames w
  | FreeAll => free_ring_buffers (s32 (num_buffers (chan w))) w
  end.

Fixpoint run_ops (ops : list ring_op) (w : world) : option world :=
  match ops with
  | [] => Some w
  | o :: rest => w' ← run_op o w; run_ops rest w'
  end.

(** The order in which the driver calls them: [add_buffer_to_ring]
    (in [dequeue_buffer]) is always followed by the frame-start
    acknowledgement of the same buffer, and [free_ring_buffers] outside
    of it drains the whole ring. *)
Fixpoint driver_order (ops : list ring_op) : bool :=
  match ops with
  | [] => true
  | Init :: rest => driver_order rest
  | FreeAll :: rest => driver_order rest
  | Add _ :: [] => true
  | Add _ :: (FrameStart _ _ :: rest) => driver_order rest
  | _ => false
  end.

(** A channel with an initialised, empty ring and no recorded
    completion. *)
Definition fresh_ring (w : world) : world :=
  set_done [] (on_chan tegra_channel_init_ring_buffer w).

(** Whether the last call of the sequence is [add_buffer_to_ring]: the
    buffer's frame start is still to be acknowledged. *)
Definition ends_with_add (ops : list ring_op) : bool :=
  match last ops with
  | Some (Add _) => true
  | _ => false
  end.

(** The buffers handed to [add_buffer_to_ring], in call order. *)
Definition added (ops : list ring_op) : list vb2_buffer :=
  omap (fun o => match o with Add b => Some b | _ => None end) ops.

(** A streaming session seen from the buffer queue: buffers are
    submitted ([tegra_channel_buffer_queue]) and the capture thread
    takes turns, in any interleaving.  The thread's local [err] is
    threaded along with the world. *)
Inductive action : Type :=
  | Submit (b : tegra_channel_buffer)
  | Turn (hw : hw_inputs).

Section Session.
Context `{kernel_headers}.

Definition run_action (a : action) (s : Z * world) : option (Z * world) :=
  match a with
  | Submit b => Some (fst s, tegra_channel_buffer_queue b (snd s))
  | Turn hw => kthread_capture_turn hw (fst s) (snd s)
  end.

Fixpoint run_actions (acts : list action) (s : Z * world) : option (Z * world) :=
  match acts with
  | [] => Some s
  | a :: rest => s' ← run_action a s; run_actions rest s'
  end.

(** Start the stream, run the actions, stop the stream. *)
Definition session (hw_start : hw_inputs) (acts : list action) (hw_stop : hw_inputs)
    (w : world) : option world :=
  let '(ret, w) := tegra_channel_start_streaming hw_start w in
  if bool_decide (ret ≠ 0) then None
  else
    s ← run_actions acts (0, w);
    snd <$> tegra_channel_stop_streaming hw_stop (snd s).

End Session.

Definition submitted (acts : list action) : list tegra_channel_buffer :=
  omap (fun a => match a with Submit b => Some b | _ => None end) acts.

(** Length of the submission queue after the actions, when it held [q]
    buffers before and every turn of the thread captures one. *)
Fixpoint pending (acts : list action) (q : nat) : nat :=
  match acts with
  | [] => q
  | Submit _ :: rest => pending rest (S q)
  | Turn _ :: rest => pending rest (Nat.pred q)
  end.

(** Hardware that completes every frame in time with no error status
    set: every sync-point wait succeeds and every status register reads
    zero; the sub-devices start streaming. *)
Definition hw_good (hw : hw_inputs) : Prop :=
  s_stream_ret hw = 0
  ∧ (∀ index, syncpt_wait hw index = 0)
  ∧ (∀ index, vi_csi_error_status hw index = 0)
  ∧ (∀ p, pixel_parser_status hw p = 0)
  ∧ (∀ p, cil_status hw p = 0)
  ∧ (∀ p, cilx_status hw p = 0).

Definition turns_good (acts : list action) : Prop :=
  ∀ hw, Turn hw ∈ acts → hw_good hw.

End Scenario.

(** ** Sample data *)

Module Sample.

(** Values in the style of the Tegra X1 register header, used where a
    statement is evaluated on concrete data. *)
#[local] Instance headers : kernel_headers :=
  {| BITS_PER_LONG := 64;
     TEGRA_SURFACE_ALIGNMENT := 64;
     SYNCPT_FIFO_DEPTH := 2;
     IMAGE_SIZE_HEIGHT_OFFSET := 16;
     BYPASS_PXL_TRANSFORM_OFFSET := 24;
     IMAGE_DEF_FORMAT_OFFSET := 16;
     IMAGE_DEF_DEST_MEM := 1;
     SINGLE_SHOT_CAPTURE := 1;
     VI_CSI_PP_FRAME_START := fun port_num => 5 + port_num * 4;
     VI_CSI_MW_ACK_DONE := fun port_num => 7 + port_num * 4;
     VI_CFG_VI_INCR_SYNCPT_COND := fun x => Z.shiftl (Z.land x 0xff) 8 |}.

Definition raw10 : tegra_video_format :=
  {| vf_code := TEGRA_VF_RAW10; fmt_width := 10; bpp := 2; img_fmt := 32; img_dt := 43 |}.

Definition pix (w h : Z) : v4l2_pix_format :=
  {| width := w; height := h; bytesperline := u32 (w * 2);
     sizeimage := u32 (u32 (w * 2) * h) |}.

(** A single-port channel on port A as [tegra_channel_csi_init] and a
    zeroed allocation leave it, with a 1920x1080 RAW10 format. *)
Definition channel : tegra_channel :=
  {| format := pix 1920 1080; fmtinfo := raw10;
     port := [0; 255; 255]; syncpt := [7; 0; 0]; syncpoint_fifo := [0; 0; 0];
     buffer_offset := [0; 0; 0];
     buffer_state := [VB2_BUF_STATE_QUEUED; VB2_BUF_STATE_QUEUED;
                      VB2_BUF_STATE_QUEUED; VB2_BUF_STATE_QUEUED];
     buffers := [None; None; None; None];
     timeout := 0; save_index := 0; free_index := 0; num_buffers := 0;
     released_bufs := 0; kthread_capture_start := false; capture := [];
     valid_ports := 1; total_ports := 1; numlanes := 2; sequence := 0;
     gang_mode := CAMERA_NO_GANG_MODE; gang_width := 0; gang_height := 0;
     gang_bytesperline := 0; gang_sizeimage := 0;
     bypass := false; bfirst_fstart := false; capture_state := CAPTURE_IDLE;
     is_streaming := false; requested_kbyteps := 0; requested_hz := 0 |}.

Definition world0 : world :=
  {| chan := channel; vi := {| pg_mode := 0; aggregated_kbyteps := 0 |};
     done := []; recovered := []; mmio := []; calls := [] |}.

(** Hardware that answers every wait in time and reads zero on every
    register. *)
Definition hw_ok : hw_inputs :=
  {| s_stream_ret := 0;
     syncpt_wait := fun _ => 0;
     vi_csi_error_status := fun _ => 0;
     vi_csi_image_def := fun _ => 0;
     vi_csi_single_shot := fun _ => 0;
     vi_incr_syncpt_error := 0;
     pixel_parser_status := fun _ => 0;
     cil_status := fun _ => 0;
     cilx_status := fun _ => 0;
     pipeline_start_ret := 0;
     kthread_run_ret := 0 |}.

Definition buffer (n : nat) : tegra_channel_buffer :=
  {| buf := n; addr := 0x80000000 + Z.of_nat n * 0x400000 |}.

(** The same hardware, except that every sync-point wait times out. *)
Definition hw_timeout : hw_inputs :=
  {| s_stream_ret := 0;
     syncpt_wait := fun _ => -11;
     vi_csi_error_status := fun _ => 0;
     vi_csi_image_def := fun _ => 0;
     vi_csi_single_shot := fun _ => 0;
     vi_incr_syncpt_error := 0;
     pixel_parser_status := fun _ => 0;
     cil_status := fun _ => 0;
     cilx_status := fun _ => 0;
     pipeline_start_ret := 0;
     kthread_run_ret := 0 |}.

(** The same hardware, except that the pixel parser reports the
    uncorrectable header error (bit 14) next to a correctable one. *)
Definition hw_error : hw_inputs :=
  {| s_stream_ret := 0;
     syncpt_wait := fun _ => 0;
     vi_csi_error_status := fun _ => 0;
     vi_csi_image_def := fun _ => 0;
     vi_csi_single_shot := fun _ => 0;
     vi_incr_syncpt_error := 0;
     pixel_parser_status := fun _ => 0x4001;
     cil_status := fun _ => 0;
     cilx_status := fun _ => 0;
     pipeline_start_ret := 0;
     kthread_run_ret := 0 |}.

(** The channel with buffer 1 taken from the queue into the ring, as
    [dequeue_buffer] leaves it before [tegra_channel_capture_frame],
    in capture state [CAPTURE_GOOD]. *)
Definition world_in_flight : world :=
  on_chan (fun c => Ring.add_buffer_to_ring (buf (buffer 1))
                      (set_capture_state CAPTURE_GOOD c))
    world0.

(** Five buffers, each submitted and then captured. *)
Definition five_buffers : list Scenario.action :=
  [Scenario.Submit (buffer 1); Scenario.Turn hw_ok;
   Scenario.Submit (buffer 2); Scenario.Turn hw_ok;
   Scenario.Submit (buffer 3); Scenario.Turn hw_ok;
   Scenario.Submit (buffer 4); Scenario.Turn hw_ok;
   Scenario.Submit (buffer 5); Scenario.Turn hw_ok].

(** Node names compared as [of_node_cmp] does for names of one case. *)
Definition of_node_cmp (s1 s2 : string) : Z :=
  if String.eqb s1 s2 then 0 else 1.

Definition endpoint (csi_port bus_width : Z) : Graph.device_node :=
  Graph.Build_device_node (Some "endpoint"%string)
    [("csi-port"%string, csi_port); ("bus-width"%string, bus_width)] [].

Definition port_node (reg : Z) (eps : list Graph.device_node) : Graph.device_node :=
  Graph.Build_device_node (Some "port"%string) [("reg"%string, reg)] eps.

(** A VI node with two ports; the endpoint of port 0 asks for sixteen
    lanes on CSI port C. *)
Definition vi_node : Graph.device_node :=
  Graph.Build_device_node (Some "vi"%string) []
    [Graph.Build_device_node (Some "ports"%string) []
       [port_node 1 [endpoint 4 4]; port_node 0 [endpoint 2 16]]].

(** A two-port channel with a 3840x2160 RAW10 format. *)
Definition channel_4k : tegra_channel :=
  {| format := pix 3840 2160; fmtinfo := raw10;
     port := [0; 2; 255]; syncpt := [7; 8; 0]; syncpoint_fifo := [0; 0; 0];
     buffer_offset := [0; 0; 0];
     buffer_state := [VB2_BUF_STATE_QUEUED; VB2_BUF_STATE_QUEUED;
                      VB2_BUF_STATE_QUEUED; VB2_BUF_STATE_QUEUED];
     buffers := [None; None; None; None];
     timeout := 0; save_index := 0; free_index := 0; num_buffers := 0;
     released_bufs := 0; kthread_capture_start := false; capture := [];
     valid_ports := 1; total_ports := 2; numlanes := 8; sequence := 0;
     gang_mode := CAMERA_NO_GANG_MODE; gang_width := 0; gang_height := 0;
     gang_bytesperline := 0; gang_sizeimage := 0;
     bypass := false; bfirst_fstart := false; capture_state := CAPTURE_IDLE;
     is_streaming := false; requested_kbyteps := 0; requested_hz := 0 |}.

End Sample.

(** ** Invariants of the ring and of a streaming session *)

Module Inv.
Import Ring Capture Scenario.

(** The ring-buffer bookkeeping of a channel, as one value. *)
Record ring_state : Type := Build_ring_state {
  r_buffers : list (option vb2_buffer);
  r_buffer_state : list vb2_buffer_state;
  r_save_index : Z;
  r_free_index : Z;
  r_num_buffers : Z;
  r_released_bufs : Z;
  r_bfirst_fstart : bool;
  r_sequence : Z;
}.

Definition ring_of (c : tegra_channel) : ring_state :=
  {| r_buffers := buffers c; r_buffer_state := buffer_state c;
     r_save_index := save_index c; r_free_index := free_index c;
     r_num_buffers := num_buffers c; r_released_bufs := released_bufs c;
     r_bfirst_fstart := bfirst_fstart c; r_sequence := sequence c |}.

Definition with_ring (r : ring_state) (c : tegra_channel) : tegra_channel :=
  set_buffers (r_buffers r)
    (set_buffer_state (r_buffer_state r)
       (set_save_index (r_save_index r)
          (set_free_index (r_free_index r)
             (set_num_buffers (r_num_buffers r)
                (set_released_bufs (r_released_bufs r)
                   (set_bfirst_fstart (r_bfirst_fstart r)
                      (set_sequence (r_sequence r) c))))))).

(** The ring-buffer functions read and write only the bookkeeping
    (and read the capture state): here they are once more as functions
    of a [ring_state], returning the completions they issue.  The
    lemmas [*_ring] below prove each equal to the function of the
    driver it mirrors. *)
Definition ring_init (r : ring_state) : ring_state :=
  {| r_buffers := r_buffers r; r_buffer_state := r_buffer_state r;
     r_save_index := 0; r_free_index := 0; r_num_buffers := 0;
     r_released_bufs := 0; r_bfirst_fstart := false;
     r_sequence := r_sequence r |}.

Definition ring_release (cs : channel_capture_state) (r : ring_state)
  : option (done_call * ring_state) :=
  let i := Z.to_nat (r_free_index r) in
  match r_buffers r !! i with
  | Some (Some b) =>
      let bs :=
        if bool_decide (cs ≠ CAPTURE_GOOD) || (r_released_bufs r <? 2)
        then <[i := VB2_BUF_STATE_ERROR]> (r_buffer_state r)
        else r_buffer_state r in
      match bs !! i with
      | Some st =>
          let fi := u32 (r_free_index r + 1) in
          Some ({| vb := b; state := st; v4l2_sequence := Some (r_sequence r) |},
                {| r_buffers := r_buffers r; r_buffer_state := bs;
                   r_save_index := r_save_index r;
                   r_free_index := if QUEUED_BUFFERS <=? fi then 0 else fi;
                   r_num_buffers := u32 (r_num_buffers r - 1);
                   r_released_bufs := u32 (r_released_bufs r + 1);
                   r_bfirst_fstart := r_bfirst_fstart r;
                   r_sequence := u32 (r_sequence r + 1) |})
      | None => None
      end
  | _ => None
  end.

Fixpoint ring_release_frames (cs : channel_capture_state) (frames : nat)
    (r : ring_state) : option (list done_call * ring_state) :=
  match frames with
  | O => Some ([], r)
  | S frames' =>
      '(d, r') ← ring_release cs r;
      '(ds, r'') ← ring_release_frames cs frames' r';
      Some (d :: ds, r'')
  end.

Definition ring_free (cs : channel_capture_state) (frames : Z) (r : ring_state)
  : option (list done_call * ring_state) :=
  if frames <? 0 then None else ring_release_frames cs (Z.to_nat frames) r.

Definition ring_add (b : vb2_buffer) (r : ring_state) : ring_state :=
  let si := u32 (r_save_index r + 1) in
  {| r_buffers := array_set (r_buffers r) (r_save_index r) (Some b);
     r_buffer_state :=
       array_set (r_buffer_state r) (r_save_index r) VB2_BUF_STATE_ERROR;
     r_save_index := if QUEUED_BUFFERS <=? si then 0 else si;
     r_free_index := r_free_index r;
     r_num_buffers := u32 (r_num_buffers r + 1);
     r_released_bufs := r_released_bufs r;
     r_bfirst_fstart := r_bfirst_fstart r;
     r_sequence := r_sequence r |}.

Definition ring_set_buffer_state (bs : list vb2_buffer_state) (r : ring_state)
  : ring_state :=
  {| r_buffers := r_buffers r; r_buffer_state := bs;
     r_save_index := r_save_index r; r_free_index := r_free_index r;
     r_num_buffers := r_num_buffers r; r_released_bufs := r_released_bufs r;
     r_bfirst_fstart := r_bfirst_fstart r; r_sequence := r_sequence r |}.

Definition ring_update_state (cs : channel_capture_state) (st : vb2_buffer_state)
    (r : ring_state) : ring_state :=
  let save_index0 := s32 (r_save_index r - PREVIOUS_BUFFER_DEC_INDEX) in
  let save_index1 :=
    if save_index0 <? 0 then save_index0 + QUEUED_BUFFERS else save_index0 in
  let bs := array_set (r_buffer_state r) save_index1 st in
  ring_set_buffer_state
    (if bool_decide (cs ≠ CAPTURE_GOOD) then array_set bs (r_save_index r) st else bs)
    r.

Definition ring_frame_start (cs : channel_capture_state) (st : vb2_buffer_state)
    (r : ring_state) : option (list done_call * ring_state) :=
  let r :=
    if negb (r_bfirst_fstart r)
    then {| r_buffers := r_buffers r; r_buffer_state := r_buffer_state r;
            r_save_index := r_save_index r; r_free_index := r_free_index r;
            r_num_buffers := r_num_buffers r;
            r_released_bufs := r_released_bufs r;
            r_bfirst_fstart := true; r_sequence := r_sequence r |}
    else ring_update_state cs st r in
  if bool_decide (cs ≠ CAPTURE_GOOD)
  then
    '(ds, r') ← ring_free cs (s32 (r_num_buffers r)) r;
    Some (ds, ring_init r')
  else if QUEUED_BUFFERS - 1 <=? r_num_buffers r
  then ring_free cs 1 r
  else Some ([], r).

(** The world after a ring-buffer function that issued the completions
    [ds] and left the bookkeeping [r]. *)
Definition ring_result (w : world) (res : option (list done_call * ring_state))
  : option world :=
  '(ds, r) ← res; Some (set_done (done w ++ ds) (on_chan (with_ring r) w)).

(** The ring slot [k] places after [free_index]. *)
Definition slot (r : ring_state) (k : nat) : nat :=
  Z.to_nat ((r_free_index r + Z.of_nat k) mod QUEUED_BUFFERS).

(** Buffers and buffer states of the occupied slots, oldest first. *)
Definition outstanding (r : ring_state) : list (option vb2_buffer) :=
  (fun k => mjoin (r_buffers r !! slot r k)) <$> seq 0 (Z.to_nat (r_num_buffers r)).
Definition outstanding_states (r : ring_state) : list (option vb2_buffer_state) :=
  (fun k => r_buffer_state r !! slot r k) <$> seq 0 (Z.to_nat (r_num_buffers r)).

(** A well-formed ring holding the buffers [out], oldest first: the
    arrays have [QUEUED_BUFFERS] entries, the indices are inside them,
    [save_index] is [num_buffers] places after [free_index] and the
    occupied slots hold [out]. *)
Definition ring_ok (r : ring_state) (out : list vb2_buffer) : Prop :=
  length (r_buffers r) = 4%nat ∧ length (r_buffer_state r) = 4%nat
  ∧ 0 ≤ r_free_index r < 4
  ∧ r_num_buffers r = Z.of_nat (length out) ∧ (length out ≤ 3)%nat
  ∧ r_save_index r = (r_free_index r + r_num_buffers r) mod 4
  ∧ 0 ≤ r_released_bufs r < 2 ^ 32
  ∧ 0 ≤ r_sequence r < 2 ^ 32
  ∧ outstanding r = Some <$> out.

(** The ring between two frames of an error-free run: empty before the
    first frame start; afterwards at most two buffers are outstanding,
    the newest still carries the [VB2_BUF_STATE_ERROR] mark of
    [add_buffer_to_ring], the one before it is confirmed. *)
Definition ring_good (r : ring_state) (out : list vb2_buffer) : Prop :=
  ring_ok r out ∧ (length out ≤ 2)%nat
  ∧ match out with
    | [] => r_bfirst_fstart r = false
    | _ =>
        r_bfirst_fstart r = true
        ∧ outstanding_states r
          = replicate (length out - 1) (Some VB2_BUF_STATE_DONE)
            ++ [Some VB2_BUF_STATE_ERROR]
    end.

(** The completion [free_ring_buffers] issues for a buffer whose slot
    holds the state [st], when [rel] buffers were released before it
    and the sequence counter is [sq], in capture state
    [CAPTURE_GOOD]. *)
Definition release_call (rel sq : Z) (st : vb2_buffer_state) (b : vb2_buffer)
  : done_call :=
  {| vb := b;
     state := if rel <? 2 then VB2_BUF_STATE_ERROR else st;
     v4l2_sequence := Some sq |}.

(** The parts of the world that the register programming, the external
    calls and the stream bookkeeping write to, blanked: two worlds with
    the same image differ at most in the register and call records, the
    sync-point debt, the streaming flag, the thread handle, the timeout
    and the bandwidth request. *)
Definition hw_erase (w : world) : world :=
  set_mmio []
    (set_calls []
       (set_vi {| pg_mode := pg_mode (vi w); aggregated_kbyteps := 0 |}
          (on_chan
             (fun c =>
                set_syncpoint_fifo []
                  (set_is_streaming false
                     (set_timeout 0
                        (set_kthread_capture_start false
                           (set_requested_kbyteps 0 (set_requested_hz 0 c))))))
             w))).

(** The completion the session records for the [i]-th submitted buffer
    of [n]. *)
Definition expected_done (n : nat) (i : nat) (b : tegra_channel_buffer) : done_call :=
  {| vb := buf b;
     state := if (2 <=? i)%nat && (i + 1 <? n)%nat
              then VB2_BUF_STATE_DONE else VB2_BUF_STATE_ERROR;
     v4l2_sequence := Some (Z.of_nat i) |}.

(** A step that only programs the hardware. *)
Definition hw_only (f : world → world) : Prop :=
  ∀ w, hw_erase (f w) = hw_erase w.

(** The completions of the buffers [rel] released during an error-free
    run, after the record [d0]. *)
Definition run_done (d0 : list done_call) (rel : list tegra_channel_buffer)
  : list done_call :=
  d0 ++ imap (fun i b => release_call (Z.of_nat i) (Z.of_nat i)
                           VB2_BUF_STATE_DONE (buf b)) rel.

(** A session in an error-free run: [rel] have been released, [out]
    are in the ring, [q] wait in the submission queue. *)
Definition session_inv (d0 : list done_call) (w : world)
    (rel out q : list tegra_channel_buffer) : Prop :=
  capture (chan w) = q
  ∧ ring_good (ring_of (chan w)) (buf <$> out)
  ∧ done w = run_done d0 rel
  ∧ released_bufs (chan w) = Z.of_nat (length rel)
  ∧ sequence (chan w) = Z.of_nat (length rel)
  ∧ (out ≠ [] → capture_state (chan w) = CAPTURE_GOOD)
  ∧ (rel ≠ [] → length out = 2%nat)
  ∧ bypass (chan w) = false.

(** The world [tegra_channel_capture_frame] leaves, up to the hardware
    records: the frame start has been acknowledged in capture state
    [cs], leaving the bookkeeping [r] after the completions [ds], and
    [rec] holds the recovery calls. *)
Definition after_frame (w : world) (cs : channel_capture_state) (rec : list Z)
    (ds : list done_call) (r : ring_state) : world :=
  set_done (done w ++ ds)
    (set_recovered rec
       (on_chan (fun c => with_ring r (set_capture_state cs c)) w)).

(** The stream is enabled already, or enabling it succeeds. *)
Definition stream_enables (hw : hw_inputs) (w : world) : Prop :=
  bfirst_fstart (chan w) = true ∨ pg_mode (vi w) ≠ 0 ∨ s_stream_ret hw = 0.

(** The completions [ds] are issued with [rel] buffers released
    before them and leave the count [rel']: the count does not run
    ahead of the completions, and a completion issued while the count
    is below two carries [VB2_BUF_STATE_ERROR]. *)
Definition releases (rel : Z) (ds : list done_call) (rel' : Z) : Prop :=
  0 ≤ rel'
  ∧ (rel + Z.of_nat (length ds) ≤ 2 → rel' ≤ rel + Z.of_nat (length ds))
  ∧ ∀ k d, ds !! k = Some d → rel + Z.of_nat k < 2 →
           state d = VB2_BUF_STATE_ERROR.

(** The release count is not ahead of the recorded completions while
    fewer than two are recorded, and the first two recorded
    completions carry [VB2_BUF_STATE_ERROR]. *)
Definition first_two_error (w : world) : Prop :=
  0 ≤ released_bufs (chan w)
  ∧ (Z.of_nat (length (done w)) < 2 →
     released_bufs (chan w) ≤ Z.of_nat (length (done w)))
  ∧ ∀ k d, (k < 2)%nat → done w !! k = Some d →
           state d = VB2_BUF_STATE_ERROR.

(** The call sequence of an error-free run over the buffers [bufs]:
    each is added to the ring and its frame start acknowledged in
    capture state [CAPTURE_GOOD]. *)
Fixpoint good_frames (bufs : list vb2_buffer) : list ring_op :=
  match bufs with
  | [] => []
  | b :: rest =>
      Add b :: FrameStart CAPTURE_GOOD VB2_BUF_STATE_DONE :: good_frames rest
  end.

(** A step that leaves the channel, the VI device and the completion
    and recovery records as they are: it writes registers or calls out
    of the driver. *)
Definition io_only (f : world → world) : Prop :=
  ∀ w, chan (f w) = chan w ∧ vi (f w) = vi w
       ∧ done (f w) = done w ∧ recovered (f w) = recovered w.

(** A stopped channel: not streaming, no capture thread, nothing in the
    ring or in the submission queue. *)
Definition stopped (w : world) : Prop :=
  is_streaming (chan w) = false
  ∧ kthread_capture_start (chan w) = false
  ∧ num_buffers (chan w) = 0
  ∧ capture (chan w) = [].

(** The bandwidth [tegra_channel_update_clknbw] computes for the
    channel's format, in kilobytes per second. *)
Definition format_kbyteps (c : tegra_channel) : Z :=
  u32 (width (format c) * height (format c) * FRAMERATE * BPP_MEM) / 1000.

(** [x] rounded up to a multiple of [a]. *)
Definition round_up (x a : Z) : Z := (x + a - 1) / a * a.

(** The values written to [TEGRA_VI_CSI_IMAGE_SIZE], with the index
    of the port written to, in write order. *)
Definition image_size_writes (l : list mmio_write) : list (nat * Z) :=
  omap (fun m =>
          match m with
          | csi_write index TEGRA_VI_CSI_IMAGE_SIZE val => Some (index, val)
          | _ => None
          end) l.

(** Modelled from the spec: the CSI status registers are cleared by
    writing back what was read; a bit written as one is cleared.
    [w1c old val] is the register content [old] after the write of
    [val]. *)
Definition w1c (old val : Z) : Z := Z.land old (Z.lnot val).

(** The channel [c'] is [c] up to the fields [port] and [numlanes]. *)
Definition ports_differ (c c' : tegra_channel) : Prop :=
  c' = set_numlanes (numlanes c') (set_port (port c') c).

Section Frame.
Context `{kernel_headers}.

(** The loop body of [tegra_channel_error_status], as a function. *)
Definition error_status_body (hw : hw_inputs) : Z * world → nat → Z * world :=
  fun '(err, w) index =>
    let val := u32 (vi_csi_error_status hw index) in
    let w := writel (csi_write index TEGRA_VI_CSI_ERROR_STATUS val) w in
    let err := s32 (Z.lor (u32 err) val) in
    let '(e, w) := Csi.tegra_csi_error hw (at_index (port (chan w)) index) w in
    (Z.lor err e, w).

(** The ports of the channel's valid port indices, in index order. *)
Definition valid_port_list (w : world) : list Z :=
  at_index (port (chan w)) <$> seq 0 (Z.to_nat (valid_ports (chan w))).

End Frame.

End Inv.

(** ** Further notions used by the statements *)

Module Props.
Import Ring Capture Scenario Inv.

(** The completions [tegra_channel_queued_buf_done] issues for the
    submission queue [q]: one per buffer, in queue order, with the
    given state and no sequence number. *)
Definition queued_done (st : vb2_buffer_state) (q : list tegra_channel_buffer)
  : list done_call :=
  (fun b => {| vb := buf b; state := st; v4l2_sequence := None |}) <$> q.

(** A call sequence that does not re-initialise the ring. *)
Definition no_init (ops : list ring_op) : bool :=
  forallb (fun o => match o with Init => false | _ => true end) ops.

(** The sequence numbers [free_ring_buffers] stamps on [n] completions
    when the counter stands at [sq]. *)
Definition sequence_numbers (sq : Z) (n : nat) : list (option Z) :=
  (fun i => Some (u32 (sq + Z.of_nat i))) <$> seq 0 n.

(** What a call leaves of the buffers handed to the driver: [w'] has
    completed none of them and its submission queue is that of [w]. *)
Definition keeps_queue (w w' : world) : Prop :=
  done w' = done w ∧ capture (chan w') = capture (chan w)
  ∧ recovered w' = recovered w.

(** [w'] has handed the whole submission queue of [w] back in state
    [st], in order. *)
Definition returns_queue (st : vb2_buffer_state) (w w' : world) : Prop :=
  done w' = done w ++ queued_done st (capture (chan w))
  ∧ capture (chan w') = []
  ∧ recovered w' = recovered w.

(** The CSI brick that follows brick [p] when an endpoint needs more
    than four lanes: two ports further, modulo the six ports, stored
    in the [unsigned char] array [port]. *)
Definition next_brick (p : Z) : Z := u8 (Z.rem (p + 2) (PORT_F + 1)).

Fixpoint brick_chain (n : nat) (p : Z) : list Z :=
  match n with
  | O => []
  | S n' => p :: brick_chain n' (next_brick p)
  end.

(** One brick for every four lanes or part of four, and at least one. *)
Definition bricks_needed (lanes : Z) : nat := Z.to_nat (Z.max 1 ((lanes + 3) / 4)).

(** What the capture path is not supposed to touch: the VI device with
    its bandwidth aggregate, the negotiated format and the bypass
    flag. *)
Definition static (w : world) : tegra_mc_vi * v4l2_pix_format * bool :=
  (vi w, format (chan w), bypass (chan w)).

Definition keeps_static (f : world -> world) : Prop :=
  forall w, static (f w) = static w.

(** The resources a running stream holds: the VI device with its
    bandwidth aggregate, the channel's bandwidth and clock requests
    and its capture thread handle. *)
Definition resources (w : world) : tegra_mc_vi * Z * Z * bool :=
  (vi w, requested_kbyteps (chan w), requested_hz (chan w),
   kthread_capture_start (chan w)).

End Props.

(** ** Format table lookups (camera/core.c) *)

Module Core.

(** A row of [tegra_video_formats]: [struct tegra_video_format] with
    the media bus code, the 4CC and the description next to the fields
    the capture path reads. *)
Record format_entry : Type := Build_format_entry {
  e_vf_code : tegra_vf_code;
  e_width : Z;
  e_code : Z;
  e_bpp : Z;
  e_img_fmt : Z;
  e_img_dt : Z;
  e_fourcc : Z;
  e_description : string;
}.

Section Formats.
Context `{kernel_headers}.

(** The table and the default 4CC: the lookups are parametric in the
    rows, whose codes come from the videodev2 and media-bus headers. *)
Variable tegra_video_formats : list format_entry.
Variable V4L2_PIX_FMT_SGRBG10 : Z.

(** [ARRAY_SIZE(tegra_video_formats)], a [size_t]. *)
Definition ARRAY_SIZE : Z := Z.of_nat (length tegra_video_formats).

(** [tegra_core_get_fourcc_by_idx(index)]; [None] is a read past the
    end of the table. *)
Definition tegra_core_get_fourcc_by_idx (index : Z) : option Z :=
  if Capture.ulong (ARRAY_SIZE - 1) <? index then Some V4L2_PIX_FMT_SGRBG10
  else e_fourcc <$> tegra_video_formats !! Z.to_nat index.

(** The loop of [tegra_core_get_idx_by_code] from row [i] on; [i] is
    an [unsigned int] and the value returned an [int]. *)
Fixpoint get_idx_by_code_from (rows : list format_entry) (i : Z) (code : Z) : Z :=
  match rows with
  | [] => -1
  | r :: rest =>
      if bool_decide (e_code r = code) then s32 i
      else get_idx_by_code_from rest (u32 (i + 1)) code
  end.

Definition tegra_core_get_idx_by_code (code : Z) : Z :=
  get_idx_by_code_from tegra_video_formats 0 code.

(** [tegra_core_get_format_by_code(code)]: the row pointed to, [None]
    for NULL. *)
Fixpoint get_format_by_code_from (rows : list format_entry) (code : Z)
  : option format_entry :=
  match rows with
  | [] => None
  | r :: rest =>
      if bool_decide (e_code r = code) then Some r
      else get_format_by_code_from rest code
  end.

Definition tegra_core_get_format_by_code (code : Z) : option format_entry :=
  get_format_by_code_from tegra_video_formats code.

Fixpoint get_format_by_fourcc_from (rows : list format_entry) (fourcc : Z)
  : option format_entry :=
  match rows with
  | [] => None
  | r :: rest =>
      if bool_decide (e_fourcc r = fourcc) then Some r
      else get_format_by_fourcc_from rest fourcc
  end.

Definition tegra_core_get_format_by_fourcc (fourcc : Z) : option format_entry :=
  get_format_by_fourcc_from tegra_video_formats fourcc.

End Formats.
End Core.

(** ** Test pattern generator formats (csi/csi.h) *)

Module Tpg.

(** The fields of [struct v4l2_mbus_framefmt] and of
    [struct v4l2_frmsize_discrete] the CSI sub-device reads. *)
Record v4l2_mbus_framefmt : Type := Build_v4l2_mbus_framefmt {
  mf_width : Z;
  mf_height : Z;
  mf_code : Z;
  mf_field : Z;
  mf_colorspace : Z;
}.

Record v4l2_frmsize_discrete : Type := Build_v4l2_frmsize_discrete {
  fs_width : Z;
  fs_height : Z;
}.

Section Tpg.

(** Macros of mc_common.h and of the V4L2 headers. *)
Variable TEGRA_DEF_WIDTH TEGRA_DEF_HEIGHT : Z.
Variable V4L2_MBUS_FMT_SRGGB10_1X10 V4L2_MBUS_FMT_RGBA8888_4X8_LE : Z.
Variable V4L2_FIELD_NONE V4L2_COLORSPACE_SRGB : Z.

Definition tegra_csi_tpg_fmts : list v4l2_mbus_framefmt :=
  [ {| mf_width := TEGRA_DEF_WIDTH; mf_height := TEGRA_DEF_HEIGHT;
       mf_code := V4L2_MBUS_FMT_SRGGB10_1X10;
       mf_field := V4L2_FIELD_NONE; mf_colorspace := V4L2_COLORSPACE_SRGB |};
    {| mf_width := TEGRA_DEF_WIDTH; mf_height := TEGRA_DEF_HEIGHT;
       mf_code := V4L2_MBUS_FMT_RGBA8888_4X8_LE;
       mf_field := V4L2_FIELD_NONE; mf_colorspace := V4L2_COLORSPACE_SRGB |} ].

Definition tegra_csi_tpg_sizes : list v4l2_frmsize_discrete :=
  [ {| fs_width := 1280; fs_height := 720 |};
    {| fs_width := 1920; fs_height := 1080 |};
    {| fs_width := 3840; fs_height := 2160 |} ].

(** The two nested loops of [tegra_csi_try_mbus_fmt]: some row of
    [tegra_csi_tpg_fmts] has the code, field and colorspace of [mf]
    and some row of [tegra_csi_tpg_sizes] its width and height. *)
Definition tpg_supported (mf : v4l2_mbus_framefmt) : bool :=
  existsb
    (fun fmt =>
       bool_decide (mf_code mf = mf_code fmt ∧ mf_field mf = mf_field fmt
                    ∧ mf_colorspace mf = mf_colorspace fmt)
       && existsb
            (fun sizes =>
               bool_decide (mf_width mf = fs_width sizes
                            ∧ mf_height mf = fs_height sizes))
            tegra_csi_tpg_sizes)
    tegra_csi_tpg_fmts.

(** [tegra_csi_try_mbus_fmt(sd, mf)] on a device whose [pg_mode] is
    given: the value returned and [*mf] afterwards. *)
Definition tegra_csi_try_mbus_fmt (pg_mode : Z) (mf : v4l2_mbus_framefmt)
  : Z * v4l2_mbus_framefmt :=
  if bool_decide (pg_mode = 0) then (- EINVAL, mf)
  else if tpg_supported mf then (0, mf)
  else
    match tegra_csi_tpg_fmts with
    | first :: _ => (0, first)
    | [] => (0, mf)
    end.

(** [tegra_csi_s_mbus_fmt(sd, fmt)]: the value returned, [*fmt]
    afterwards and the formats of the device's ports; the result of
    the try is not looked at. *)
Definition tegra_csi_s_mbus_fmt (pg_mode : Z) (num_ports : Z)
    (ports : list v4l2_mbus_framefmt) (fmt : v4l2_mbus_framefmt)
  : Z * v4l2_mbus_framefmt * list v4l2_mbus_framefmt :=
  if bool_decide (pg_mode = 0) then (- EINVAL, fmt, ports)
  else
    let fmt := snd (tegra_csi_try_mbus_fmt pg_mode fmt) in
    (0, fmt,
     fold_left (fun ports i => <[i := fmt]> ports) (seq 0 (Z.to_nat num_ports)) ports).

Definition tegra_csi_g_mbus_fmt (pg_mode : Z) (fmt : v4l2_mbus_framefmt)
  : Z * v4l2_mbus_framefmt :=
  tegra_csi_try_mbus_fmt pg_mode fmt.

End Tpg.
End Tpg.

(** ** Further sample data *)

Module Cases.
Import Capture Scenario.

(** Sub-devices that refuse to start streaming ([-ENODEV]). *)
Definition hw_refused : hw_inputs :=
  {| s_stream_ret := -19;
     syncpt_wait := fun _ => 0;
     vi_csi_error_status := fun _ => 0;
     vi_csi_image_def := fun _ => 0;
     vi_csi_single_shot := fun _ => 0;
     vi_incr_syncpt_error := 0;
     pixel_parser_status := fun _ => 0;
     cil_status := fun _ => 0;
     cilx_status := fun _ => 0;
     pipeline_start_ret := 0;
     kthread_run_ret := 0 |}.

(** A kernel that cannot create the capture thread ([-ENOMEM]). *)
Definition hw_no_thread : hw_inputs :=
  {| s_stream_ret := 0;
     syncpt_wait := fun _ => 0;
     vi_csi_error_status := fun _ => 0;
     vi_csi_image_def := fun _ => 0;
     vi_csi_single_shot := fun _ => 0;
     vi_incr_syncpt_error := 0;
     pixel_parser_status := fun _ => 0;
     cil_status := fun _ => 0;
     cilx_status := fun _ => 0;
     pipeline_start_ret := 0;
     kthread_run_ret := -12 |}.

(** The sample channel with buffers 1 and 2 submitted. *)
Definition world_queued : world :=
  on_chan (set_capture [Sample.buffer 1; Sample.buffer 2]) Sample.world0.

(** The sample channel before the first frame, buffer 1 in the ring. *)
Definition world_first_frame : world :=
  on_chan (Ring.add_buffer_to_ring (buf (Sample.buffer 1))) Sample.world0.

(** Streaming in state [CAPTURE_GOOD] with buffer 1 in the ring and
    buffers 2 and 3 waiting. *)
Definition world_streaming : world :=
  on_chan (fun c => set_capture [Sample.buffer 2; Sample.buffer 3]
                      (set_is_streaming true c))
    Sample.world_in_flight.

(** A VI node whose port 0 has an endpoint with eight lanes on CSI
    port B, after a port without [reg]. *)
Definition vi_node_8 : Graph.device_node :=
  Graph.Build_device_node (Some "vi"%string) []
    [Graph.Build_device_node (Some "ports"%string) []
       [Graph.Build_device_node (Some "port"%string) [] [];
        Sample.port_node 0 [Sample.endpoint 1 8]]].

(** Three rows in the layout of [tegra_video_formats]; the last two
    share a 4CC. *)
Definition formats : list Core.format_entry :=
  [ {| Core.e_vf_code := TEGRA_VF_RAW10; Core.e_width := 10; Core.e_code := 0x300f;
       Core.e_bpp := 2; Core.e_img_fmt := 32; Core.e_img_dt := 43;
       Core.e_fourcc := 0x30314752; Core.e_description := "RAW10" |};
    {| Core.e_vf_code := TEGRA_VF_YUV422; Core.e_width := 16; Core.e_code := 0x200f;
       Core.e_bpp := 2; Core.e_img_fmt := 193; Core.e_img_dt := 30;
       Core.e_fourcc := 0x59565955; Core.e_description := "YUV 4:2:2" |};
    {| Core.e_vf_code := TEGRA_VF_YUV422; Core.e_width := 16; Core.e_code := 0x2006;
       Core.e_bpp := 2; Core.e_img_fmt := 193; Core.e_img_dt := 30;
       Core.e_fourcc := 0x59565955; Core.e_description := "YUV 4:2:2" |} ].

(** A 1920x1080 request for media bus code 0x300f. *)
Definition full_hd : Tpg.v4l2_mbus_framefmt :=
  {| Tpg.mf_width := 1920; Tpg.mf_height := 1080; Tpg.mf_code := 0x300f;
     Tpg.mf_field := 1; Tpg.mf_colorspace := 8 |}.

(** Three frames acknowledged in good state, in the order of the
    capture thread. *)
Definition three_frames : list ring_op :=
  [Add 1%nat; FrameStart CAPTURE_GOOD VB2_BUF_STATE_DONE;
   Add 2%nat; FrameStart CAPTURE_GOOD VB2_BUF_STATE_DONE;
   Add 3%nat; FrameStart CAPTURE_GOOD VB2_BUF_STATE_DONE].

(** The sample channel streaming: started, five buffers submitted and
    captured on hardware without errors, a sixth submitted. *)
Definition world_running : world :=
  match @run_actions Sample.headers
          (Sample.five_buffers ++ [Submit (Sample.buffer 6)])
          (0, snd (@tegra_channel_start_streaming Sample.headers Sample.hw_ok
                     Sample.world0)) with
  | Some s => snd s
  | None => Sample.world0
  end.

(** The same channel after [tegra_channel_stop_streaming]. *)
Definition world_stopped : world :=
  match @tegra_channel_stop_streaming Sample.headers Sample.hw_ok world_running with
  | Some r => snd r
  | None => Sample.world0
  end.

(** The ring after two frames acknowledged in good state: buffer 1
    confirmed, buffer 2 still carrying the mark of
    [add_buffer_to_ring]. *)
Definition two_frames : list ring_op :=
  [Add 1%nat; FrameStart CAPTURE_GOOD VB2_BUF_STATE_DONE;
   Add 2%nat; FrameStart CAPTURE_GOOD VB2_BUF_STATE_DONE].

Definition world_two_frames : world :=
  match run_ops two_frames (fresh_ring Sample.world0) with
  | Some w => w
  | None => Sample.world0
  end.

(** A VI node whose port 0 has an endpoint with eight lanes on CSI
    port B followed by one that asks for sixteen lanes on CSI
    port C. *)
Definition vi_node_wide : Graph.device_node :=
  Graph.Build_device_node (Some "vi"%string) []
    [Graph.Build_device_node (Some "ports"%string) []
       [Sample.port_node 1 [Sample.endpoint 4 4];
        Sample.port_node 0 [Sample.endpoint 1 8; Sample.endpoint 2 16]]].

End Cases.

(** * Proofs *)

Import Ring Capture Scenario Inv.

Lemma u32_small z : 0 ≤ z < 2 ^ 32 → u32 z = z.
Proof. intros. unfold u32. apply Z.mod_small. lia. Qed.

Lemma u32_nonneg z : 0 ≤ u32 z.
Proof. unfold u32. apply Z.mod_pos_bound. lia. Qed.

Lemma u32_lt z : u32 z < 2 ^ 32.
Proof. unfold u32. apply Z.mod_pos_bound. lia. Qed.

Lemma s32_small z : 0 ≤ z < 2 ^ 31 → s32 z = z.
Proof.
  intros. unfold s32. rewrite Z.mod_small by lia.
  destruct (Z.ltb_spec z (2 ^ 31)); lia.
Qed.

(** Normalise record updates and projections (call by value, so that
    nested updates do not grow). *)
Ltac rsimpl :=
  cbv beta iota zeta delta
    [
      format fmtinfo port syncpt syncpoint_fifo buffer_offset buffer_state
      buffers timeout save_index free_index num_buffers released_bufs
      kthread_capture_start capture valid_ports total_ports numlanes
      sequence gang_mode gang_width gang_height gang_bytesperline
      gang_sizeimage bypass bfirst_fstart capture_state is_streaming
      requested_kbyteps requested_hz set_port set_syncpoint_fifo
      set_buffer_offset set_buffer_state set_buffers set_timeout
      set_save_index set_free_index set_num_buffers set_released_bufs
      set_kthread_capture_start set_capture set_valid_ports set_numlanes
      set_sequence set_gang_mode set_gang_width set_gang_height
      set_gang_bytesperline set_gang_sizeimage set_bfirst_fstart
      set_capture_state set_is_streaming set_requested_kbyteps
      set_requested_hz chan vi done recovered mmio calls set_chan set_vi
      set_done set_recovered set_mmio set_calls pg_mode aggregated_kbyteps on_chan vb2_buffer_done
      tegra_csi_error_recover writel call
      r_buffers r_buffer_state r_save_index r_free_index r_num_buffers
      r_released_bufs r_bfirst_fstart r_sequence ring_of with_ring
      ring_init ring_set_buffer_state hw_erase ring_result
    ].
Ltac rsimpl_in H :=
  cbv beta iota zeta delta
    [
      format fmtinfo port syncpt syncpoint_fifo buffer_offset buffer_state
      buffers timeout save_index free_index num_buffers released_bufs
      kthread_capture_start capture valid_ports total_ports numlanes
      sequence gang_mode gang_width gang_height gang_bytesperline
      gang_sizeimage bypass bfirst_fstart capture_state is_streaming
      requested_kbyteps requested_hz set_port set_syncpoint_fifo
      set_buffer_offset set_buffer_state set_buffers set_timeout
      set_save_index set_free_index set_num_buffers set_released_bufs
      set_kthread_capture_start set_capture set_valid_ports set_numlanes
      set_sequence set_gang_mode set_gang_width set_gang_height
      set_gang_bytesperline set_gang_sizeimage set_bfirst_fstart
      set_capture_state set_is_streaming set_requested_kbyteps
      set_requested_hz chan vi done recovered mmio calls set_chan set_vi
      set_done set_recovered set_mmio set_calls pg_mode aggregated_kbyteps on_chan vb2_buffer_done
      tegra_csi_error_recover writel call
      r_buffers r_buffer_state r_save_index r_free_index r_num_buffers
      r_released_bufs r_bfirst_fstart r_sequence ring_of with_ring
      ring_init ring_set_buffer_state hw_erase ring_result
    ] in H.

Lemma ring_of_with_ring r c : ring_of (with_ring r c) = r.
Proof. destruct r; reflexivity. Qed.

Lemma with_ring_of c : with_ring (ring_of c) c = c.
Proof. destruct c; reflexivity. Qed.

Lemma init_ring c :
  tegra_channel_init_ring_buffer c = with_ring (ring_init (ring_of c)) c.
Proof. destruct c; reflexivity. Qed.

Lemma add_ring b c : add_buffer_to_ring b c = with_ring (ring_add b (ring_of c)) c.
Proof.
  destruct c; unfold add_buffer_to_ring, ring_add; simpl.
  destruct (QUEUED_BUFFERS <=? u32 (_ + 1)); reflexivity.
Qed.

Lemma update_state_ring st c :
  update_state_to_buffer st c
  = with_ring (ring_update_state (capture_state c) st (ring_of c)) c.
Proof.
  destruct c; unfold update_state_to_buffer, ring_update_state; simpl.
  destruct (bool_decide (_ ≠ CAPTURE_GOOD)); reflexivity.
Qed.

Lemma release_one_frame_ring w :
  release_one_frame w
  = ring_result w
      ('(d, r) ← ring_release (capture_state (chan w)) (ring_of (chan w));
       Some ([d], r)).
Proof.
  destruct w as [c v d r m cl]; destruct c.
  unfold release_one_frame, ring_release, ring_result; simpl.
  destruct (_ !! Z.to_nat _) as [[b|]|]; try reflexivity.
  destruct (bool_decide (_ ≠ CAPTURE_GOOD) || (_ <? 2)); simpl.
  - destruct (_ !! _); simpl; [|reflexivity].
    destruct (QUEUED_BUFFERS <=? u32 (_ + 1)); reflexivity.
  - destruct (_ !! _); simpl; [|reflexivity].
    destruct (QUEUED_BUFFERS <=? u32 (_ + 1)); reflexivity.
Qed.

Lemma release_frames_ring n w :
  release_frames n w
  = ring_result w (ring_release_frames (capture_state (chan w)) n (ring_of (chan w))).
Proof.
  revert w. induction n as [|n IH]; intros w; simpl.
  - unfold ring_result; simpl. destruct w as [c v d r m cl]; simpl.
    unfold set_done, on_chan; simpl. rewrite app_nil_r, with_ring_of. reflexivity.
  - rewrite release_one_frame_ring.
    destruct (ring_release _ _) as [[d1 r1]|]; [|reflexivity]. simpl.
    rewrite IH. simpl. rewrite ring_of_with_ring.
    destruct (ring_release_frames _ n r1) as [[ds r2]|]; [|reflexivity]. simpl.
    unfold ring_result; simpl. destruct w; simpl. unfold set_done, on_chan; simpl.
    rewrite <- app_assoc. reflexivity.
Qed.

Lemma free_ring_buffers_ring frames w :
  free_ring_buffers frames w
  = ring_result w (ring_free (capture_state (chan w)) frames (ring_of (chan w))).
Proof.
  unfold free_ring_buffers, ring_free.
  destruct (frames <? 0); [reflexivity|]. apply release_frames_ring.
Qed.

Lemma ring_result_frame_start w r1 :
  let w1 := on_chan (with_ring r1) w in
  (if bool_decide (capture_state (chan w1) ≠ CAPTURE_GOOD)
   then
     w' ← free_ring_buffers (s32 (num_buffers (chan w1))) w1;
     Some (on_chan tegra_channel_init_ring_buffer w')
   else if QUEUED_BUFFERS - 1 <=? num_buffers (chan w1)
   then free_ring_buffers 1 w1
   else Some w1)
  = ring_result w
      (let cs := capture_state (chan w) in
       if bool_decide (cs ≠ CAPTURE_GOOD)
       then '(ds, r') ← ring_free cs (s32 (r_num_buffers r1)) r1; Some (ds, ring_init r')
       else if QUEUED_BUFFERS - 1 <=? r_num_buffers r1
       then ring_free cs 1 r1
       else Some ([], r1)).
Proof.
  intros w1.
  assert (Hcs1 : capture_state (chan w1) = capture_state (chan w))
    by (subst w1; rsimpl; reflexivity).
  assert (Hn1 : num_buffers (chan w1) = r_num_buffers r1)
    by (subst w1; destruct r1; rsimpl; reflexivity).
  assert (Hr1 : ring_of (chan w1) = r1)
    by (subst w1; destruct r1; rsimpl; reflexivity).
  rewrite Hcs1, Hn1. cbv zeta.
  destruct (bool_decide (capture_state (chan w) ≠ CAPTURE_GOOD)).
  - rewrite free_ring_buffers_ring, Hcs1, Hr1.
    destruct (ring_free _ _ r1) as [[ds r2]|]; [|reflexivity].
    subst w1; destruct r2; rsimpl; reflexivity.
  - destruct (QUEUED_BUFFERS - 1 <=? r_num_buffers r1).
    + rewrite free_ring_buffers_ring, Hcs1, Hr1.
      destruct (ring_free _ _ r1) as [[ds r2]|]; [|reflexivity].
      subst w1; destruct r2; rsimpl; reflexivity.
    + subst w1. unfold ring_result; simpl. rewrite app_nil_r. rsimpl. reflexivity.
Qed.

Lemma tegra_channel_ring_buffer_ring st w :
  tegra_channel_ring_buffer st w
  = ring_result w
      (ring_frame_start (capture_state (chan w)) st (ring_of (chan w))).
Proof.
  unfold tegra_channel_ring_buffer, ring_frame_start.
  assert (Hb : r_bfirst_fstart (ring_of (chan w)) = bfirst_fstart (chan w))
    by reflexivity.
  rewrite Hb.
  destruct (bfirst_fstart (chan w)) eqn:Ef; cbn [negb].
  - set (r1 := ring_update_state _ _ _).
    assert (Hw : on_chan (update_state_to_buffer st) w = on_chan (with_ring r1) w).
    { unfold on_chan. rewrite update_state_ring. reflexivity. }
    rewrite Hw. apply ring_result_frame_start.
  - set (r1 := Build_ring_state _ _ _ _ _ _ _ _).
    assert (Hw : on_chan (set_bfirst_fstart true) w = on_chan (with_ring r1) w).
    { subst r1. rsimpl. reflexivity. }
    rewrite Hw. apply ring_result_frame_start.
Qed.

#[local] Arguments u32 : simpl never.
#[local] Arguments s32 : simpl never.

Ltac four_cases H :=
  match type of H with
  | 0 ≤ ?x < 4 =>
      let E := fresh "E" in
      assert (E : x = 0 ∨ x = 1 ∨ x = 2 ∨ x = 3) by lia;
      clear H;
      destruct E as [E | [E | [E | E]]]
  end.

Ltac list4 l :=
  destruct l as [| ? [| ? [| ? [| ? [| ? ?]]]]]; try discriminate.

Ltac out3 out :=
  destruct out as [| ? [| ? [| ? [| ? ?]]]]; simpl length in *; try lia.

(** Simplify, evaluating the 32-bit wrap-around of closed or bounded
    values. *)
Ltac wsimpl :=
  repeat (simpl; rewrite ?u32_small, ?s32_small by lia).

(** Bring a well-formed ring to concrete indices and four-slot arrays. *)
Ltac ring_concrete r out H :=
  let Hb := fresh "Hb" in
  let Hs := fresh "Hs" in
  let Hf := fresh "Hf" in
  let Hn := fresh "Hn" in
  let Hl := fresh "Hl" in
  let Hsv := fresh "Hsv" in
  let Hout := fresh "Hout" in
  let Hrel := fresh "Hrel" in
  let Hseq := fresh "Hseq" in
  destruct H as (Hb & Hs & Hf & Hn & Hl & Hsv & Hrel & Hseq & Hout);
  let bf := fresh "bf" in
  let bs := fresh "bs" in
  let rel := fresh "rel" in
  let sq := fresh "sq" in
  let fst := fresh "fst" in
  destruct r as [bf bs ? ? ? rel fst sq];
  unfold outstanding, slot in Hout; simpl in *;
  four_cases Hf; subst;
  out3 out; list4 bs; list4 bf;
  clear Hb Hs Hl; vm_compute in Hout; repeat case_match; simplify_eq.

Lemma ring_add_ok b r out :
  ring_ok r out → (length out ≤ 2)%nat →
  ring_ok (ring_add b r) (out ++ [b])
  ∧ outstanding_states (ring_add b r)
    = outstanding_states r ++ [Some VB2_BUF_STATE_ERROR]
  ∧ r_bfirst_fstart (ring_add b r) = r_bfirst_fstart r
  ∧ r_released_bufs (ring_add b r) = r_released_bufs r
  ∧ r_sequence (ring_add b r) = r_sequence r.
Proof.
  intros Hok Hlen.
  ring_concrete r out Hok.
  all: unfold ring_ok, ring_add, outstanding, outstanding_states, slot, array_set.
  all: wsimpl; repeat split; try done; try lia.
Qed.

Ltac split_ltb :=
  repeat match goal with
         | |- context [?a <? 2] => destruct (Z.ltb_spec a 2); wsimpl
         end.

Ltac ring_steps :=
  repeat (progress (unfold ring_release;
                    rewrite ?bool_decide_true, ?bool_decide_false
                      by (try done; naive_solver);
                    wsimpl; split_ltb)).

Ltac ring_ok_tac :=
  unfold ring_ok, ring_init, ring_set_buffer_state, outstanding,
    outstanding_states, slot;
  wsimpl; repeat split; try done; try lia;
  try apply u32_nonneg; try apply u32_lt.

Lemma ring_frame_start_ok cs st r out :
  ring_ok r out →
  ∃ ds r' out',
    ring_frame_start cs st r = Some (ds, r')
    ∧ (vb <$> ds) ++ out' = out
    ∧ ring_ok r' out' ∧ (length out' ≤ 2)%nat
    ∧ (cs ≠ CAPTURE_GOOD →
       out' = [] ∧ Forall (fun d => state d = VB2_BUF_STATE_ERROR) ds)
    ∧ (cs = CAPTURE_GOOD → length ds = (length out - 2)%nat).
Proof.
  intros Hok.
  ring_concrete r out Hok.
  all: destruct fst, (decide (cs = CAPTURE_GOOD)) as [->|Hcs].
  all: unfold ring_frame_start, ring_update_state, ring_free, array_set,
         PREVIOUS_BUFFER_DEC_INDEX.
  all: rewrite ?bool_decide_true, ?bool_decide_false by (try done; naive_solver).
  all: wsimpl; ring_steps.
  all: eexists _, _, _; split; [reflexivity|]; split; [reflexivity|].
  all: split; [ring_ok_tac|]; split; [simpl; lia|].
  all: split; [try (intros ?; split; [reflexivity|repeat constructor]); done|].
  all: intros ?; try reflexivity; congruence.
Qed.

Lemma ring_free_all_ok cs r out :
  ring_ok r out →
  ∃ ds r',
    ring_free cs (s32 (r_num_buffers r)) r = Some (ds, r')
    ∧ vb <$> ds = out
    ∧ ring_ok r' []
    ∧ r_bfirst_fstart r' = r_bfirst_fstart r
    ∧ (cs ≠ CAPTURE_GOOD → Forall (fun d => state d = VB2_BUF_STATE_ERROR) ds).
Proof.
  intros Hok.
  ring_concrete r out Hok.
  all: destruct (decide (cs = CAPTURE_GOOD)) as [->|Hcs].
  all: unfold ring_free.
  all: wsimpl; ring_steps.
  all: eexists _, _; split; [reflexivity|]; split; [reflexivity|].
  all: split; [ring_ok_tac|]; split; [reflexivity|].
  all: try (intros ?; repeat constructor); done.
Qed.

(** One turn of the release loop on a well-formed ring that holds a
    buffer: the oldest buffer leaves with the state its slot held, or
    with [VB2_BUF_STATE_ERROR] when the state is forced. *)
Lemma ring_release_ok cs r out :
  ring_ok r out → out ≠ [] →
  ∃ d r' s b out',
    out = b :: out'
    ∧ ring_release cs r = Some (d, r')
    ∧ outstanding_states r = Some s :: outstanding_states r'
    ∧ vb d = b ∧ v4l2_sequence d = Some (r_sequence r)
    ∧ (cs ≠ CAPTURE_GOOD ∨ r_released_bufs r < 2 → state d = VB2_BUF_STATE_ERROR)
    ∧ (cs = CAPTURE_GOOD → 2 ≤ r_released_bufs r → state d = s)
    ∧ ring_ok r' out'
    ∧ r_released_bufs r' = u32 (r_released_bufs r + 1)
    ∧ r_sequence r' = u32 (r_sequence r + 1).
Proof.
  intros Hok Hne.
  ring_concrete r out Hok; try congruence.
  all: destruct (decide (cs = CAPTURE_GOOD)) as [->|Hcs].
  all: wsimpl; ring_steps.
  all: eexists _, _, _, _, _; split; [reflexivity|]; split; [reflexivity|].
  all: split; [unfold outstanding_states, slot; wsimpl; reflexivity|].
  all: split; [reflexivity|]; split; [reflexivity|].
  all: split; [intros [?|?]; first [reflexivity|congruence|lia]|].
  all: split; [intros ? ?; first [reflexivity|congruence|lia]|].
  all: split; [ring_ok_tac|].
  all: split; reflexivity.
Qed.

Lemma ring_good_frame b r out :
  ring_good r out →
  ∃ ds r' out',
    ring_frame_start CAPTURE_GOOD VB2_BUF_STATE_DONE (ring_add b r) = Some (ds, r')
    ∧ (vb <$> ds) ++ out' = out ++ [b]
    ∧ ring_good r' out' ∧ out' ≠ []
    ∧ ds = release_call (r_released_bufs r) (r_sequence r) VB2_BUF_STATE_DONE
           <$> take (length out - 1) out
    ∧ r_released_bufs r' = u32 (r_released_bufs r + Z.of_nat (length ds))
    ∧ r_sequence r' = u32 (r_sequence r + Z.of_nat (length ds)).
Proof.
  intros (Hok & Hlen & Hst).
  ring_concrete r out Hok.
  all: try (unfold outstanding_states, slot in Hst; simpl in Hst).
  all: try destruct Hst as [-> Hst]; subst; simplify_eq.
  all: unfold ring_frame_start, ring_update_state, ring_free, ring_add, array_set,
         PREVIOUS_BUFFER_DEC_INDEX, release_call.
  all: rewrite ?bool_decide_true, ?bool_decide_false by (try done; naive_solver).
  all: wsimpl; ring_steps.
  all: eexists _, _, _; split; [reflexivity|]; split; [reflexivity|].
  all: split; [split; [ring_ok_tac|]; split; [simpl; lia|]; unfold outstanding_states, slot; wsimpl; done|].
  all: split; [done|]; split; [wsimpl; try done|].
  all: unfold ring_set_buffer_state; wsimpl; split; first [reflexivity | lia].
Qed.

Lemma ring_good_drain r out :
  ring_good r out →
  ∃ ds r',
    ring_free CAPTURE_GOOD (s32 (r_num_buffers r)) r = Some (ds, r')
    ∧ ds = imap (fun k b =>
                   release_call (r_released_bufs r + Z.of_nat k)
                     (u32 (r_sequence r + Z.of_nat k))
                     (if bool_decide (S k = length out)
                      then VB2_BUF_STATE_ERROR else VB2_BUF_STATE_DONE) b) out
    ∧ r_num_buffers r' = 0.
Proof.
  intros (Hok & Hlen & Hst).
  ring_concrete r out Hok.
  all: try (unfold outstanding_states, slot in Hst; simpl in Hst).
  all: try destruct Hst as [-> Hst]; subst; simplify_eq.
  all: unfold ring_free, release_call.
  all: wsimpl; ring_steps.
  all: eexists _, _; split; [reflexivity|]; split; [|wsimpl; lia].
  all: wsimpl; rewrite ?Z.add_0_r; split_ltb.
  all: first [reflexivity | exfalso; lia].
Qed.

Section Hw.
Context `{kernel_headers}.


Lemma hw_only_writel m : hw_only (writel m).
Proof. intros w. rsimpl. reflexivity. Qed.

Lemma hw_only_call e : hw_only (call e).
Proof. intros w. rsimpl. reflexivity. Qed.

Lemma hw_only_fifo f : hw_only (on_chan (fun c => set_syncpoint_fifo (f c) c)).
Proof. intros w. rsimpl. reflexivity. Qed.

Lemma hw_only_streaming b : hw_only (on_chan (set_is_streaming b)).
Proof. intros w. rsimpl. reflexivity. Qed.

Lemma hw_only_comp f g : hw_only f → hw_only g → hw_only (fun w => g (f w)).
Proof. intros Hf Hg w. rewrite Hg, Hf. reflexivity. Qed.

Lemma hw_only_for_index n body :
  (∀ i, hw_only (body i)) → hw_only (for_index n body).
Proof.
  intros Hb w. unfold for_index.
  generalize (seq 0 (Z.to_nat n)). intros l. revert w.
  induction l as [|i l IH]; intros w; simpl; [reflexivity|].
  rewrite IH. apply Hb.
Qed.

(** What a projection that ignores the blanked fields sees. *)
Lemma erase_proj {A} (f : world → A) w1 w2 :
  (∀ w, f (hw_erase w) = f w) → hw_erase w1 = hw_erase w2 → f w1 = f w2.
Proof. intros Hf He. rewrite <- (Hf w1), <- (Hf w2), He. reflexivity. Qed.

Lemma hw_only_program_frame_start b index : hw_only (program_frame_start b index).
Proof.
  intros w. unfold program_frame_start.
  destruct (bool_decide _); rsimpl; reflexivity.
Qed.

Lemma hw_only_capture_setup : hw_only (fun w => snd (tegra_channel_capture_setup w)).
Proof.
  intros w. unfold tegra_channel_capture_setup. cbn [snd].
  apply hw_only_for_index. intros i w'. rsimpl. reflexivity.
Qed.


Lemma erase_port w1 w2 :
  hw_erase w1 = hw_erase w2 → port (chan w1) = port (chan w2).
Proof. apply (erase_proj (fun w => port (chan w))). intros w; rsimpl; reflexivity. Qed.

Lemma erase_valid_ports w1 w2 :
  hw_erase w1 = hw_erase w2 → valid_ports (chan w1) = valid_ports (chan w2).
Proof.
  apply (erase_proj (fun w => valid_ports (chan w))). intros w; rsimpl; reflexivity.
Qed.

Lemma erase_pg_mode w1 w2 :
  hw_erase w1 = hw_erase w2 → pg_mode (vi w1) = pg_mode (vi w2).
Proof.
  apply (erase_proj (fun w => pg_mode (vi w))). intros w; rsimpl; reflexivity.
Qed.

Lemma erase_bfirst w1 w2 :
  hw_erase w1 = hw_erase w2 → bfirst_fstart (chan w1) = bfirst_fstart (chan w2).
Proof.
  apply (erase_proj (fun w => bfirst_fstart (chan w))). intros w; rsimpl; reflexivity.
Qed.

Lemma erase_ring w1 w2 :
  hw_erase w1 = hw_erase w2 → ring_of (chan w1) = ring_of (chan w2).
Proof.
  apply (erase_proj (fun w => ring_of (chan w))). intros w; rsimpl; reflexivity.
Qed.

Lemma erase_capture_state w1 w2 :
  hw_erase w1 = hw_erase w2 → capture_state (chan w1) = capture_state (chan w2).
Proof.
  apply (erase_proj (fun w => capture_state (chan w))). intros w; rsimpl; reflexivity.
Qed.

Lemma erase_done w1 w2 : hw_erase w1 = hw_erase w2 → done w1 = done w2.
Proof. apply (erase_proj done). intros w; rsimpl; reflexivity. Qed.

Lemma erase_recovered w1 w2 :
  hw_erase w1 = hw_erase w2 → recovered w1 = recovered w2.
Proof. apply (erase_proj recovered). intros w; rsimpl; reflexivity. Qed.

Lemma erase_capture w1 w2 :
  hw_erase w1 = hw_erase w2 → capture (chan w1) = capture (chan w2).
Proof.
  apply (erase_proj (fun w => capture (chan w))). intros w; rsimpl; reflexivity.
Qed.

Lemma erase_bypass w1 w2 :
  hw_erase w1 = hw_erase w2 → bypass (chan w1) = bypass (chan w2).
Proof.
  apply (erase_proj (fun w => bypass (chan w))). intros w; rsimpl; reflexivity.
Qed.

(** Blanking commutes with the updates of the fields it keeps. *)
Lemma erase_set_capture_state cs w :
  hw_erase (on_chan (set_capture_state cs) w)
  = on_chan (set_capture_state cs) (hw_erase w).
Proof. rsimpl. reflexivity. Qed.

Lemma erase_set_recovered l w :
  hw_erase (set_recovered l w) = set_recovered l (hw_erase w).
Proof. rsimpl. reflexivity. Qed.

Lemma erase_idem w : hw_erase (hw_erase w) = hw_erase w.
Proof. rsimpl. reflexivity. Qed.

(** *** The stream enable *)

Lemma set_stream_ok hw on w :
  s_stream_ret hw = 0 →
  ∃ w', tegra_channel_set_stream hw on w = (0, w') ∧ hw_erase w' = hw_erase w.
Proof.
  intros Hs. unfold tegra_channel_set_stream.
  destruct (bool_decide (is_streaming (chan w) = on)); [eauto|].
  rewrite Hs. rewrite bool_decide_false by (intros ?; congruence).
  eexists; split; [reflexivity|]. rsimpl. reflexivity.
Qed.

Lemma enable_stream_ok hw w :
  pg_mode (vi w) ≠ 0 ∨ s_stream_ret hw = 0 →
  ∃ w', tegra_channel_enable_stream hw w = (0, w') ∧ hw_erase w' = hw_erase w.
Proof.
  intros Hok. unfold tegra_channel_enable_stream.
  assert (Hpg : pg_mode (vi (call (tegra_csi_pad_control ENABLE) w)) = pg_mode (vi w))
    by reflexivity.
  rewrite Hpg.
  destruct (decide (pg_mode (vi w) = 0)) as [Hz|Hnz].
  - rewrite bool_decide_false by (intros ?; congruence).
    destruct Hok as [?|Hs]; [congruence|].
    destruct (set_stream_ok hw true (call (tegra_csi_pad_control ENABLE) w) Hs)
      as (w1 & -> & He).
    assert (Hv : pg_mode (vi w1) = pg_mode (vi w)).
    { rewrite (erase_pg_mode _ _ He). reflexivity. }
    cbn [Z.ltb Z.compare].
    assert (Hpg1 : pg_mode (vi (call tegra_mipi_bias_pad_enable w1)) = pg_mode (vi w))
      by exact Hv.
    rewrite Hpg1. rewrite bool_decide_true by exact Hz.
    eexists; split; [reflexivity|].
    rewrite hw_only_call, hw_only_call, He, hw_only_call. reflexivity.
  - rewrite bool_decide_true by exact Hnz.
    set (w1 := on_chan _ (for_index _ _ _)).
    assert (He : hw_erase w1 = hw_erase w).
    { subst w1. rewrite hw_only_streaming.
      rewrite hw_only_for_index by (intros i w'; rsimpl; reflexivity).
      apply hw_only_call. }
    assert (Hpg1 : pg_mode (vi (call tegra_mipi_bias_pad_enable w1)) = pg_mode (vi w)).
    { change (vi (call tegra_mipi_bias_pad_enable w1)) with (vi w1).
      rewrite (erase_pg_mode _ _ He). reflexivity. }
    rewrite Hpg1. rewrite bool_decide_false by exact Hnz.
    eexists; split; [reflexivity|]. rewrite hw_only_call. exact He.
Qed.


(** *** The error-status check *)

Lemma csi_error_erase hw p w : hw_erase (snd (Csi.tegra_csi_error hw p w)) = hw_erase w.
Proof. unfold Csi.tegra_csi_error. cbn [snd]. rsimpl. reflexivity. Qed.

Lemma csi_error_word hw p w1 w2 :
  fst (Csi.tegra_csi_error hw p w1) = fst (Csi.tegra_csi_error hw p w2).
Proof. reflexivity. Qed.


Lemma error_status_body_erase hw e w1 w2 index :
  hw_erase w1 = hw_erase w2 →
  fst (error_status_body hw (e, w1) index) = fst (error_status_body hw (e, w2) index)
  ∧ hw_erase (snd (error_status_body hw (e, w1) index)) = hw_erase w1.
Proof.
  intros He. unfold error_status_body.
  set (w1' := writel _ w1). set (w2' := writel _ w2).
  assert (Hp : port (chan w1') = port (chan w2')).
  { subst w1' w2'. apply erase_port. rewrite !hw_only_writel. exact He. }
  rewrite Hp.
  destruct (Csi.tegra_csi_error hw _ w1') as [e1 w1''] eqn:E1.
  destruct (Csi.tegra_csi_error hw _ w2') as [e2 w2''] eqn:E2.
  cbn [fst snd]. split.
  - f_equal.
    change e1 with (fst (e1, w1'')). rewrite <- E1.
    change e2 with (fst (e2, w2'')). rewrite <- E2. reflexivity.
  - change w1'' with (snd (e1, w1'')). rewrite <- E1.
    rewrite csi_error_erase. subst w1'. apply hw_only_writel.
Qed.

Lemma error_status_fold_erase hw l :
  ∀ e w1 w2,
    hw_erase w1 = hw_erase w2 →
    fst (fold_left (error_status_body hw) l (e, w1))
    = fst (fold_left (error_status_body hw) l (e, w2))
    ∧ hw_erase (snd (fold_left (error_status_body hw) l (e, w1))) = hw_erase w1.
Proof.
  induction l as [|i l IH]; intros e w1 w2 He; cbn [fold_left]; [done|].
  destruct (error_status_body_erase hw e w1 w2 i He) as [Hf Hs].
  destruct (error_status_body_erase hw e w2 w1 i (eq_sym He)) as [_ Hs2].
  destruct (error_status_body hw (e, w1) i) as [e1 w1'].
  destruct (error_status_body hw (e, w2) i) as [e2 w2'].
  cbn [fst snd] in *. subst e2.
  destruct (IH e1 w1' w2') as [Hf' Hs']; [congruence|].
  split; [exact Hf'|]. rewrite Hs'. exact Hs.
Qed.

Lemma error_status_erase hw w1 w2 :
  hw_erase w1 = hw_erase w2 →
  fst (tegra_channel_error_status hw w1) = fst (tegra_channel_error_status hw w2)
  ∧ hw_erase (snd (tegra_channel_error_status hw w1)) = hw_erase w1.
Proof.
  intros He. unfold tegra_channel_error_status.
  rewrite (erase_valid_ports _ _ He).
  apply (error_status_fold_erase hw _ 0 w1 w2 He).
Qed.

Lemma error_status_fold_port hw l :
  ∀ e w1 w2,
    port (chan w1) = port (chan w2) →
    fst (fold_left (error_status_body hw) l (e, w1))
    = fst (fold_left (error_status_body hw) l (e, w2)).
Proof.
  induction l as [|i l IH]; intros e w1 w2 Hp; cbn [fold_left]; [done|].
  destruct (error_status_body_erase hw e w1 w1 i eq_refl) as [_ Hs1].
  destruct (error_status_body_erase hw e w2 w2 i eq_refl) as [_ Hs2].
  assert (Hf : fst (error_status_body hw (e, w1) i) = fst (error_status_body hw (e, w2) i)).
  { unfold error_status_body.
    set (w1' := writel _ w1). set (w2' := writel _ w2).
    assert (Hp' : port (chan w1') = port (chan w2')) by exact Hp.
    rewrite Hp'. reflexivity. }
  destruct (error_status_body hw (e, w1) i) as [e1 w1'].
  destruct (error_status_body hw (e, w2) i) as [e2 w2'].
  cbn [fst snd] in *. subst e2. apply IH.
  rewrite (erase_port _ _ Hs1), (erase_port _ _ Hs2). exact Hp.
Qed.

Lemma error_status_capture_state hw cs w :
  fst (tegra_channel_error_status hw (on_chan (set_capture_state cs) w))
  = fst (tegra_channel_error_status hw w).
Proof.
  unfold tegra_channel_error_status.
  assert (Hv : valid_ports (chan (on_chan (set_capture_state cs) w)) = valid_ports (chan w))
    by reflexivity.
  rewrite Hv. apply (error_status_fold_port hw _ 0). reflexivity.
Qed.

Lemma error_status_good hw w :
  hw_good hw → fst (tegra_channel_error_status hw w) = 0.
Proof.
  intros (_ & _ & Hvi & Hpp & Hcil & Hcilx). unfold tegra_channel_error_status.
  generalize (seq 0 (Z.to_nat (valid_ports (chan w)))). intros l. revert w.
  induction l as [|i l IH]; intros w; simpl; [reflexivity|].
  unfold Csi.tegra_csi_error. rewrite Hvi, Hpp, Hcil, Hcilx.
  change (Z.lor (s32 (Z.lor (u32 0) (u32 0))) _) with 0.
  apply IH.
Qed.

(** *** The sync-point waits *)

Lemma syncpt_wait_loop_ok hw l w :
  (∀ index, index ∈ l → syncpt_wait hw index = 0) →
  ∃ w', syncpt_wait_loop hw l w = (0, w') ∧ hw_erase w' = hw_erase w.
Proof.
  revert w. induction l as [|i l IH]; intros w Hw; cbn [syncpt_wait_loop].
  - eauto.
  - rewrite Hw by (left). rewrite bool_decide_false by (intros Hn; apply Hn; reflexivity).
    destruct (IH (call (nvhost_syncpt_wait_timeout_ext i) w)) as (w' & -> & He).
    { intros ? ?; apply Hw; right; assumption. }
    eexists; split; [reflexivity|]. rewrite He. apply hw_only_call.
Qed.

(** *** Error recovery *)


Lemma set_recovered_twice a b w : set_recovered a (set_recovered b w) = set_recovered a w.
Proof. rsimpl. reflexivity. Qed.

Lemma recover_loop_erase l :
  ∀ w,
    hw_erase
      (fold_left
         (fun w index =>
            tegra_channel_clear_singleshot index
              (writel (csi_write index TEGRA_VI_CSI_IMAGE_DEF 0)
                 (tegra_csi_error_recover (at_index (port (chan w)) index) w)))
         l w)
    = hw_erase
        (set_recovered (recovered w ++ (at_index (port (chan w)) <$> l)) w).
Proof.
  induction l as [|i l IH]; intros w; cbn [fold_left fmap list_fmap].
  - rewrite app_nil_r. rsimpl. reflexivity.
  - rewrite IH. clear IH.
    set (w' := tegra_channel_clear_singleshot _ _).
    assert (Hr : recovered w' = recovered w ++ [at_index (port (chan w)) i])
      by (subst w'; unfold tegra_channel_clear_singleshot; rsimpl; reflexivity).
    assert (Hp : port (chan w') = port (chan w))
      by (subst w'; unfold tegra_channel_clear_singleshot; rsimpl; reflexivity).
    assert (He : hw_erase w' = hw_erase (set_recovered (recovered w') w))
      by (subst w'; unfold tegra_channel_clear_singleshot; rsimpl; reflexivity).
    rewrite Hr in *. rewrite Hp.
    rewrite !erase_set_recovered, He, erase_set_recovered, set_recovered_twice.
    rewrite <- app_assoc. reflexivity.
Qed.

Lemma vi_csi_recover_erase hw w :
  hw_erase (tegra_channel_vi_csi_recover hw w)
  = hw_erase (set_recovered (recovered w ++ valid_port_list w) w).
Proof.
  unfold tegra_channel_vi_csi_recover.
  rewrite hw_only_for_index by (intros i w'; rsimpl; reflexivity).
  rewrite (hw_only_capture_setup _). rewrite !hw_only_writel.
  rewrite hw_only_for_index
    by (intros i w'; destruct (bool_decide _); rsimpl; reflexivity).
  unfold for_index at 1. rewrite recover_loop_erase.
  rsimpl. reflexivity.
Qed.

Lemma ec_recover_erase hw w :
  hw_erase (tegra_channel_ec_recover hw w)
  = hw_erase (set_recovered (recovered w ++ valid_port_list w) w).
Proof.
  unfold tegra_channel_ec_recover. rewrite vi_csi_recover_erase.
  set (w1 := tegra_channel_capture_error w).
  assert (He : hw_erase w1 = hw_erase w).
  { subst w1. unfold tegra_channel_capture_error.
    apply hw_only_for_index. intros i w'. rsimpl. reflexivity. }
  unfold valid_port_list.
  rewrite (erase_port _ _ He), (erase_valid_ports _ _ He), (erase_recovered _ _ He).
  rewrite !erase_set_recovered, He. reflexivity.
Qed.

Lemma syncpt_wait_loop_timeout hw l w :
  (∃ index, index ∈ l ∧ syncpt_wait hw index ≠ 0) →
  ∃ err w',
    syncpt_wait_loop hw l w = (err, w') ∧ err ≠ 0
    ∧ hw_erase w'
      = hw_erase (set_recovered (recovered w ++ valid_port_list w)
                    (on_chan (set_capture_state CAPTURE_TIMEOUT) w)).
Proof.
  revert w. induction l as [|i l IH]; intros w (j & Hj & Hne); cbn [syncpt_wait_loop].
  - inversion Hj.
  - destruct (decide (syncpt_wait hw i = 0)) as [Hz|Hnz].
    + rewrite bool_decide_false by (intros Hn; apply Hn; exact Hz).
      destruct (IH (call (nvhost_syncpt_wait_timeout_ext i) w)) as (err & w' & -> & ? & He).
      { exists j. split; [|exact Hne]. inversion Hj; subst; [congruence|assumption]. }
      eexists _, _; split; [reflexivity|]; split; [assumption|].
      rewrite He. rsimpl. reflexivity.
    + rewrite bool_decide_true by exact Hnz.
      eexists _, _; split; [reflexivity|]; split; [assumption|].
      rewrite erase_set_capture_state, ec_recover_erase.
      unfold valid_port_list. rsimpl. reflexivity.
Qed.

(** *** One frame *)


Lemma capture_frame_prefix hw b w :
  stream_enables hw w →
  ∃ w0, hw_erase w0 = hw_erase w
        ∧ tegra_channel_capture_frame hw b w = capture_frame_armed hw w0.
Proof.
  intros Hen. unfold tegra_channel_capture_frame.
  set (w1 := for_index _ (program_frame_start b) w).
  assert (He1 : hw_erase w1 = hw_erase w).
  { subst w1. apply hw_only_for_index. intros i. apply hw_only_program_frame_start. }
  rewrite (erase_bfirst _ _ He1).
  destruct (bfirst_fstart (chan w)) eqn:Eb; cbn [negb].
  - exists w1. split; [exact He1|reflexivity].
  - destruct (enable_stream_ok hw w1) as (w2 & -> & He2).
    { rewrite (erase_pg_mode _ _ He1). destruct Hen as [?|Hen]; [congruence|exact Hen]. }
    rewrite bool_decide_false by (intros Hn; apply Hn; reflexivity).
    eexists; split; [|reflexivity].
    rewrite hw_only_for_index by (intros i w'; rsimpl; reflexivity).
    rewrite He2. exact He1.
Qed.

Lemma zero_ne_zero : bool_decide (0 ≠ 0) = false.
Proof. reflexivity. Qed.

Lemma zero_eq_zero : bool_decide (0 = 0) = true.
Proof. reflexivity. Qed.

Lemma capture_frame_armed_good hw w :
  (∀ index, (index < Z.to_nat (valid_ports (chan w)))%nat → syncpt_wait hw index = 0) →
  (pg_mode (vi w) = 0 → fst (tegra_channel_error_status hw w) = 0) →
  ∃ w1, hw_erase w1 = hw_erase (on_chan (set_capture_state CAPTURE_GOOD) w)
        ∧ capture_frame_armed hw w
          = (w' ← tegra_channel_ring_buffer VB2_BUF_STATE_DONE w1; Some (0, w')).
Proof.
  intros Hwait Herr. unfold capture_frame_armed.
  set (w1 := on_chan (set_capture_state CAPTURE_GOOD) (for_index _ _ w)).
  assert (He1 : hw_erase w1 = hw_erase (on_chan (set_capture_state CAPTURE_GOOD) w)).
  { subst w1. rewrite !erase_set_capture_state.
    rewrite hw_only_for_index by (intros i w'; rsimpl; reflexivity). reflexivity. }
  destruct (syncpt_wait_loop_ok hw (seq 0 (Z.to_nat (valid_ports (chan w)))) w1)
    as (w2 & -> & He2).
  { intros i Hi. apply Hwait. apply elem_of_seq in Hi. lia. }
  rewrite zero_ne_zero, zero_eq_zero. cbn [andb].
  assert (He2' : hw_erase w2 = hw_erase (on_chan (set_capture_state CAPTURE_GOOD) w))
    by (rewrite He2; exact He1).
  assert (Hvi : pg_mode (vi w2) = pg_mode (vi w))
    by (rewrite (erase_pg_mode _ _ He2'); reflexivity).
  rewrite Hvi.
  destruct (decide (pg_mode (vi w) = 0)) as [Hz|Hnz].
  - rewrite bool_decide_true by exact Hz.
    destruct (error_status_erase hw w2 (on_chan (set_capture_state CAPTURE_GOOD) w) He2')
      as [Hf Hs].
    rewrite error_status_capture_state in Hf.
    destruct (tegra_channel_error_status hw w2) as [err w3]. cbn [fst snd] in *.
    rewrite Hf, (Herr Hz), zero_ne_zero.
    exists w3. split; [rewrite Hs; exact He2'|reflexivity].
  - rewrite bool_decide_false by exact Hnz.
    exists w2. split; [exact He2'|reflexivity].
Qed.

Lemma capture_frame_armed_error hw w :
  (∀ index, (index < Z.to_nat (valid_ports (chan w)))%nat → syncpt_wait hw index = 0) →
  pg_mode (vi w) = 0 → fst (tegra_channel_error_status hw w) ≠ 0 →
  ∃ w1, hw_erase w1 = hw_erase (on_chan (set_capture_state CAPTURE_ERROR) w)
        ∧ capture_frame_armed hw w
          = (w' ← tegra_channel_ring_buffer VB2_BUF_STATE_ERROR w1; Some (0, w')).
Proof.
  intros Hwait Hz Herr. unfold capture_frame_armed.
  set (w1 := on_chan (set_capture_state CAPTURE_GOOD) (for_index _ _ w)).
  assert (He1 : hw_erase w1 = hw_erase (on_chan (set_capture_state CAPTURE_GOOD) w)).
  { subst w1. rewrite !erase_set_capture_state.
    rewrite hw_only_for_index by (intros i w'; rsimpl; reflexivity). reflexivity. }
  destruct (syncpt_wait_loop_ok hw (seq 0 (Z.to_nat (valid_ports (chan w)))) w1)
    as (w2 & -> & He2).
  { intros i Hi. apply Hwait. apply elem_of_seq in Hi. lia. }
  rewrite zero_ne_zero, zero_eq_zero. cbn [andb].
  assert (He2' : hw_erase w2 = hw_erase (on_chan (set_capture_state CAPTURE_GOOD) w))
    by (rewrite He2; exact He1).
  assert (Hvi : pg_mode (vi w2) = pg_mode (vi w))
    by (rewrite (erase_pg_mode _ _ He2'); reflexivity).
  rewrite Hvi. rewrite bool_decide_true by exact Hz.
  destruct (error_status_erase hw w2 (on_chan (set_capture_state CAPTURE_GOOD) w) He2')
    as [Hf Hs].
  rewrite error_status_capture_state in Hf.
  destruct (tegra_channel_error_status hw w2) as [err w3]. cbn [fst snd] in *.
  rewrite bool_decide_true by (rewrite Hf; exact Herr).
  exists (on_chan (set_capture_state CAPTURE_ERROR) w3). split; [|reflexivity].
  rewrite erase_set_capture_state, Hs, He2'. rsimpl. reflexivity.
Qed.

Lemma capture_frame_armed_timeout hw w :
  (∃ index, (index < Z.to_nat (valid_ports (chan w)))%nat ∧ syncpt_wait hw index ≠ 0) →
  ∃ w1, hw_erase w1
        = hw_erase (set_recovered (recovered w ++ valid_port_list w)
                      (on_chan (set_capture_state CAPTURE_TIMEOUT) w))
        ∧ capture_frame_armed hw w
          = (w' ← tegra_channel_ring_buffer VB2_BUF_STATE_ERROR w1; Some (0, w')).
Proof.
  intros (j & Hj & Hne). unfold capture_frame_armed.
  set (w1 := on_chan (set_capture_state CAPTURE_GOOD) (for_index _ _ w)).
  assert (He1 : hw_erase w1 = hw_erase (on_chan (set_capture_state CAPTURE_GOOD) w)).
  { subst w1. rewrite !erase_set_capture_state.
    rewrite hw_only_for_index by (intros i w'; rsimpl; reflexivity). reflexivity. }
  destruct (syncpt_wait_loop_timeout hw (seq 0 (Z.to_nat (valid_ports (chan w)))) w1)
    as (err & w2 & -> & Herr & He2).
  { exists j. split; [|exact Hne]. apply elem_of_seq. lia. }
  rewrite (bool_decide_true (err ≠ 0)) by exact Herr.
  rewrite (bool_decide_false (err = 0)) by exact Herr. cbn [andb].
  exists w2. split; [|reflexivity].
  rewrite He2. unfold valid_port_list.
  rewrite (erase_port _ _ He1), (erase_valid_ports _ _ He1), (erase_recovered _ _ He1).
  rewrite !erase_set_recovered, !erase_set_capture_state, He1.
  rsimpl. reflexivity.
Qed.

End Hw.

Section Turn.
Context `{kernel_headers}.


Lemma erase_ring_result w1 ds r :
  hw_erase (set_done (done w1 ++ ds) (on_chan (with_ring r) w1))
  = set_done (done (hw_erase w1) ++ ds) (on_chan (with_ring r) (hw_erase w1)).
Proof. rsimpl. reflexivity. Qed.

Lemma frame_step w cs st rec w1 ds r :
  hw_erase w1 = hw_erase (set_recovered rec (on_chan (set_capture_state cs) w)) →
  ring_frame_start cs st (ring_of (chan w)) = Some (ds, r) →
  ∃ w', (w' ← tegra_channel_ring_buffer st w1; Some (0, w')) = Some (0, w')
        ∧ hw_erase w' = hw_erase (after_frame w cs rec ds r).
Proof.
  intros He Hr.
  rewrite tegra_channel_ring_buffer_ring.
  assert (Hring : ring_of (chan w1) = ring_of (chan w)).
  { rewrite (erase_ring _ _ He). rsimpl. reflexivity. }
  assert (Hcs : capture_state (chan w1) = cs).
  { rewrite (erase_capture_state _ _ He). rsimpl. reflexivity. }
  rewrite Hring, Hcs, Hr. unfold ring_result. cbn [mbind option_bind].
  eexists. split; [reflexivity|].
  rewrite erase_ring_result, He. unfold after_frame.
  destruct r. rsimpl. reflexivity.
Qed.

Lemma after_frame_ring w cs rec ds r w' :
  hw_erase w' = hw_erase (after_frame w cs rec ds r) → ring_of (chan w') = r.
Proof.
  intros He. rewrite (erase_ring _ _ He). unfold after_frame. destruct r.
  rsimpl. reflexivity.
Qed.

Lemma after_frame_done w cs rec ds r w' :
  hw_erase w' = hw_erase (after_frame w cs rec ds r) → done w' = done w ++ ds.
Proof. intros He. rewrite (erase_done _ _ He). reflexivity. Qed.

Lemma after_frame_recovered w cs rec ds r w' :
  hw_erase w' = hw_erase (after_frame w cs rec ds r) → recovered w' = rec.
Proof. intros He. rewrite (erase_recovered _ _ He). reflexivity. Qed.

Lemma after_frame_capture_state w cs rec ds r w' :
  hw_erase w' = hw_erase (after_frame w cs rec ds r) → capture_state (chan w') = cs.
Proof. intros He. rewrite (erase_capture_state _ _ He). reflexivity. Qed.

Lemma after_frame_capture w cs rec ds r w' :
  hw_erase w' = hw_erase (after_frame w cs rec ds r) →
  capture (chan w') = capture (chan w).
Proof. intros He. rewrite (erase_capture _ _ He). reflexivity. Qed.

Lemma after_frame_bypass w cs rec ds r w' :
  hw_erase w' = hw_erase (after_frame w cs rec ds r) →
  bypass (chan w') = bypass (chan w).
Proof. intros He. rewrite (erase_bypass _ _ He). reflexivity. Qed.

Lemma set_recovered_same w : set_recovered (recovered w) w = w.
Proof. destruct w. reflexivity. Qed.

(** C2.  When a sync-point wait of [tegra_channel_capture_frame] times
    out, the channel is left in [CAPTURE_TIMEOUT],
    [tegra_csi_error_recover] has been called once for the port of each
    valid port index, in index order, and every buffer of the ring, the
    in-flight buffer last, has been completed with
    [VB2_BUF_STATE_ERROR]. *)
Theorem capture_frame_timeout hw w b out :
  ring_ok (ring_of (chan w)) (out ++ [buf b]) →
  stream_enables hw w →
  (∃ index, (index < Z.to_nat (valid_ports (chan w)))%nat ∧ syncpt_wait hw index ≠ 0) →
  ∃ w' ds,
    tegra_channel_capture_frame hw b w = Some (0, w')
    ∧ capture_state (chan w') = CAPTURE_TIMEOUT
    ∧ recovered w' = recovered w ++ valid_port_list w
    ∧ done w' = done w ++ ds
    ∧ vb <$> ds = out ++ [buf b]
    ∧ Forall (fun d => state d = VB2_BUF_STATE_ERROR) ds.
Proof.
  intros Hok Hen Hto.
  destruct (capture_frame_prefix hw b w Hen) as (w0 & He0 & ->).
  destruct (capture_frame_armed_timeout hw w0) as (w1 & He1 & ->).
  { rewrite (erase_valid_ports _ _ He0). exact Hto. }
  destruct (ring_frame_start_ok CAPTURE_TIMEOUT VB2_BUF_STATE_ERROR _ _ Hok)
    as (ds & r & out' & Hr & Hvb & _ & _ & Hcs & _).
  destruct Hcs as [-> Herr]; [discriminate|]. rewrite app_nil_r in Hvb.
  destruct (frame_step w CAPTURE_TIMEOUT VB2_BUF_STATE_ERROR
              (recovered w ++ valid_port_list w) w1 ds r) as (w' & -> & He').
  { rewrite He1. unfold valid_port_list.
    rewrite (erase_port _ _ He0), (erase_valid_ports _ _ He0), (erase_recovered _ _ He0).
    rewrite !erase_set_recovered, !erase_set_capture_state, He0. reflexivity. }
  { exact Hr. }
  exists w', ds. split; [reflexivity|].
  split; [exact (after_frame_capture_state _ _ _ _ _ _ He')|].
  split; [exact (after_frame_recovered _ _ _ _ _ _ He')|].
  split; [exact (after_frame_done _ _ _ _ _ _ He')|].
  split; [exact Hvb|exact Herr].
Qed.

(** C3.  When the waits succeed and the post-capture error-status
    check of [tegra_channel_capture_frame] reports a non-zero word (not
    in test-pattern mode), the channel is left in [CAPTURE_ERROR],
    every buffer of the ring, the in-flight buffer last, has been
    completed with [VB2_BUF_STATE_ERROR], and [tegra_csi_error_recover]
    has not been called. *)
Theorem capture_frame_error_status hw w b out :
  ring_ok (ring_of (chan w)) (out ++ [buf b]) →
  stream_enables hw w →
  (∀ index, (index < Z.to_nat (valid_ports (chan w)))%nat → syncpt_wait hw index = 0) →
  pg_mode (vi w) = 0 →
  fst (tegra_channel_error_status hw w) ≠ 0 →
  ∃ w' ds,
    tegra_channel_capture_frame hw b w = Some (0, w')
    ∧ capture_state (chan w') = CAPTURE_ERROR
    ∧ recovered w' = recovered w
    ∧ done w' = done w ++ ds
    ∧ vb <$> ds = out ++ [buf b]
    ∧ Forall (fun d => state d = VB2_BUF_STATE_ERROR) ds.
Proof.
  intros Hok Hen Hwait Hpg Herr.
  destruct (capture_frame_prefix hw b w Hen) as (w0 & He0 & ->).
  destruct (capture_frame_armed_error hw w0) as (w1 & He1 & ->).
  { rewrite (erase_valid_ports _ _ He0). exact Hwait. }
  { rewrite (erase_pg_mode _ _ He0). exact Hpg. }
  { destruct (error_status_erase hw w0 w He0) as [-> _]. exact Herr. }
  destruct (ring_frame_start_ok CAPTURE_ERROR VB2_BUF_STATE_ERROR _ _ Hok)
    as (ds & r & out' & Hr & Hvb & _ & _ & Hcs & _).
  destruct Hcs as [-> Hst]; [discriminate|]. rewrite app_nil_r in Hvb.
  destruct (frame_step w CAPTURE_ERROR VB2_BUF_STATE_ERROR (recovered w) w1 ds r)
    as (w' & -> & He').
  { rewrite He1, erase_set_capture_state, He0. rsimpl. reflexivity. }
  { exact Hr. }
  exists w', ds. split; [reflexivity|].
  split; [exact (after_frame_capture_state _ _ _ _ _ _ He')|].
  split; [exact (after_frame_recovered _ _ _ _ _ _ He')|].
  split; [exact (after_frame_done _ _ _ _ _ _ He')|].
  split; [exact Hvb|exact Hst].
Qed.


(** *** An error-free turn of the capture thread *)

Lemma dequeue_ring w b q :
  capture (chan w) = b :: q →
  dequeue_buffer w
  = (Some b, on_chan (fun c => with_ring (ring_add (buf b) (ring_of (chan w)))
                                 (set_capture q c)) w).
Proof.
  intros Hq. unfold dequeue_buffer. rewrite Hq. f_equal.
  unfold on_chan. rewrite add_ring. reflexivity.
Qed.

Lemma good_turn hw w q b out :
  hw_good hw →
  capture (chan w) = b :: q →
  ring_good (ring_of (chan w)) out →
  ∃ w' ds r' out',
    kthread_capture_turn hw 0 w = Some (0, w')
    ∧ ring_of (chan w') = r' ∧ ring_good r' out' ∧ out' ≠ []
    ∧ (vb <$> ds) ++ out' = out ++ [buf b]
    ∧ ds = release_call (released_bufs (chan w)) (sequence (chan w)) VB2_BUF_STATE_DONE
           <$> take (length out - 1) out
    ∧ r_released_bufs r' = u32 (released_bufs (chan w) + Z.of_nat (length ds))
    ∧ r_sequence r' = u32 (sequence (chan w) + Z.of_nat (length ds))
    ∧ done w' = done w ++ ds
    ∧ capture (chan w') = q
    ∧ capture_state (chan w') = CAPTURE_GOOD
    ∧ bypass (chan w') = bypass (chan w).
Proof.
  intros Hgood Hq Hring.
  destruct Hgood as (Hs & Hwait & Hvi & Hpp & Hcil & Hcilx).
  unfold kthread_capture_turn. rewrite zero_ne_zero.
  rewrite (dequeue_ring w b q Hq).
  set (wd := on_chan _ w).
  destruct (capture_frame_prefix hw b wd) as (w0 & He0 & ->).
  { right. right. exact Hs. }
  destruct (capture_frame_armed_good hw w0) as (w1 & He1 & ->).
  { intros i _. apply Hwait. }
  { intros _. apply error_status_good. repeat split; assumption. }
  destruct (ring_good_frame (buf b) _ _ Hring)
    as (ds & r' & out' & Hr & Hvb & Hg' & Hne & Hds & Hrel & Hseq).
  destruct (frame_step wd CAPTURE_GOOD VB2_BUF_STATE_DONE (recovered wd) w1 ds r')
    as (w' & -> & He').
  { rewrite He1, erase_set_capture_state, He0. rsimpl. reflexivity. }
  { assert (Hrd : ring_of (chan wd) = ring_add (buf b) (ring_of (chan w))).
    { subst wd. destruct (ring_add _ _). rsimpl. reflexivity. }
    rewrite Hrd. exact Hr. }
  exists w', ds, r', out'. split; [reflexivity|].
  split; [exact (after_frame_ring _ _ _ _ _ _ He')|].
  split; [exact Hg'|]. split; [exact Hne|]. split; [exact Hvb|].
  split; [exact Hds|]. split; [exact Hrel|]. split; [exact Hseq|].
  split; [rewrite (after_frame_done _ _ _ _ _ _ He'); reflexivity|].
  split; [rewrite (after_frame_capture _ _ _ _ _ _ He'); reflexivity|].
  split; [exact (after_frame_capture_state _ _ _ _ _ _ He')|].
  rewrite (after_frame_bypass _ _ _ _ _ _ He'). reflexivity.
Qed.

End Turn.

Section Session.
Context `{kernel_headers}.

Lemma run_done_snoc d0 rel b :
  run_done d0 rel
  ++ [release_call (Z.of_nat (length rel)) (Z.of_nat (length rel))
        VB2_BUF_STATE_DONE (buf b)]
  = run_done d0 (rel ++ [b]).
Proof.
  unfold run_done. rewrite imap_app, <- app_assoc. cbn [imap].
  rewrite Nat.add_0_r. reflexivity.
Qed.

Lemma submit_inv d0 w rel out q b :
  session_inv d0 w rel out q →
  session_inv d0 (tegra_channel_buffer_queue b w) rel out (q ++ [b]).
Proof.
  intros (Hq & Hg & Hd & Hr & Hs & Hcs & Hl & Hb).
  unfold tegra_channel_buffer_queue. rewrite Hb.
  set (w' := call _ _).
  assert (Hq' : capture (chan w') = capture (chan w) ++ [b]) by reflexivity.
  assert (Hring : ring_of (chan w') = ring_of (chan w)) by reflexivity.
  unfold session_inv. rewrite Hq', Hring, Hq.
  split; [reflexivity|]. split; [exact Hg|]. split; [exact Hd|].
  split; [exact Hr|]. split; [exact Hs|]. split; [exact Hcs|].
  split; [exact Hl|exact Hb].
Qed.

Lemma turn_inv d0 hw w rel out q :
  hw_good hw →
  session_inv d0 w rel out q →
  Z.of_nat (length (rel ++ out ++ q)) < 2 ^ 32 →
  ∃ w' rel' out' q',
    kthread_capture_turn hw 0 w = Some (0, w')
    ∧ session_inv d0 w' rel' out' q'
    ∧ rel' ++ out' ++ q' = rel ++ out ++ q
    ∧ length q' = Nat.pred (length q).
Proof.
  intros Hgood (Hq & Hg & Hd & Hr & Hs & Hcs & Hl & Hb) Hlen.
  destruct q as [|b q].
  - exists w, rel, out, []. split.
    + unfold kthread_capture_turn, dequeue_buffer. rewrite zero_ne_zero, Hq. reflexivity.
    + split; [|done]. unfold session_inv. done.
  - destruct (good_turn hw w q b _ Hgood Hq Hg)
      as (w' & ds & r' & o' & Ht & Hr' & Hg' & Hne & Hvb & Hds & Hrel & Hseq
          & Hd' & Hq' & Hcs' & Hb').
    rewrite !length_app in Hlen. cbn [length] in Hlen.
    assert (Hlo : (length out ≤ 2)%nat).
    { destruct Hg as (_ & Hg & _). rewrite length_fmap in Hg. exact Hg. }
    destruct out as [|o1 [|o2 [|o3 out]]]; cbn [length] in *; try lia.
    + (* first frame *)
      cbn in Hds. subst ds. cbn in Hvb. subst o'.
      exists w', rel, [b], q. split; [exact Ht|]. split; [|split; reflexivity].
      cbn [length] in *. rewrite Z.add_0_r in Hrel, Hseq.
      rewrite u32_small in Hrel, Hseq by lia.
      subst r'. unfold session_inv.
      split; [exact Hq'|]. split; [exact Hg'|].
      split; [rewrite Hd', app_nil_r; exact Hd|].
      split; [exact (eq_trans Hrel Hr)|]. split; [exact (eq_trans Hseq Hs)|].
      split; [intros _; exact Hcs'|].
      split; [intros Hn; specialize (Hl Hn); discriminate|].
      rewrite Hb'. exact Hb.
    + (* second frame *)
      cbn in Hds. subst ds. cbn in Hvb. subst o'.
      exists w', rel, [o1; b], q. split; [exact Ht|]. split; [|split; reflexivity].
      cbn [length] in *. rewrite Z.add_0_r in Hrel, Hseq.
      rewrite u32_small in Hrel, Hseq by lia.
      subst r'. unfold session_inv.
      split; [exact Hq'|]. split; [exact Hg'|].
      split; [rewrite Hd', app_nil_r; exact Hd|].
      split; [exact (eq_trans Hrel Hr)|]. split; [exact (eq_trans Hseq Hs)|].
      split; [intros _; exact Hcs'|].
      split; [intros _; reflexivity|].
      rewrite Hb'. exact Hb.
    + (* steady state: the oldest buffer is released *)
      cbn in Hds. subst ds. cbn in Hvb. injection Hvb as Hvb. subst o'.
      exists w', (rel ++ [o1]), [o2; b], q. split; [exact Ht|].
      split; [|split; [rewrite <- !app_assoc; reflexivity|reflexivity]].
      cbn [length] in *.
      rewrite u32_small in Hrel, Hseq by lia.
      subst r'. unfold session_inv. rewrite length_app. cbn [length].
      split; [exact Hq'|]. split; [exact Hg'|].
      split; [rewrite Hd', Hd, Hr, Hs; apply run_done_snoc|].
      change (r_released_bufs (ring_of (chan w'))) with (released_bufs (chan w')) in Hrel.
      change (r_sequence (ring_of (chan w'))) with (sequence (chan w')) in Hseq.
      split; [rewrite Hrel, Hr; lia|].
      split; [rewrite Hseq, Hs; lia|].
      split; [intros _; exact Hcs'|].
      split; [intros _; reflexivity|].
      rewrite Hb'. exact Hb.
Qed.

Lemma run_actions_inv d0 acts :
  ∀ w rel out q,
    turns_good acts →
    session_inv d0 w rel out q →
    Z.of_nat (length (rel ++ out ++ q ++ submitted acts)) < 2 ^ 32 →
    ∃ w' rel' out' q',
      run_actions acts (0, w) = Some (0, w')
      ∧ session_inv d0 w' rel' out' q'
      ∧ rel' ++ out' ++ q' = rel ++ out ++ q ++ submitted acts
      ∧ length q' = pending acts (length q).
Proof.
  induction acts as [|a acts IH]; intros w rel out q Hgood Hinv Hlen.
  - exists w, rel, out, q. cbn. rewrite app_nil_r. done.
  - assert (Hsub : ∀ b, submitted (Submit b :: acts) = b :: submitted acts)
      by reflexivity.
    assert (Htrn : ∀ hw, submitted (Turn hw :: acts) = submitted acts)
      by reflexivity.
    assert (Hgood' : turns_good acts).
    { intros hw Hin. apply Hgood. right. exact Hin. }
    destruct a as [b|hw]; cbn [run_actions run_action fst snd mbind option_bind].
    + destruct (IH _ rel out (q ++ [b]) Hgood' (submit_inv _ _ _ _ _ b Hinv))
        as (w' & rel' & out' & q' & Hrun & Hinv' & Hall & Hpend).
      { rewrite Hsub in Hlen. rewrite <- app_assoc. exact Hlen. }
      exists w', rel', out', q'. split; [exact Hrun|]. split; [exact Hinv'|].
      split.
      * rewrite Hall, Hsub, <- app_assoc. reflexivity.
      * rewrite Hpend, length_app. cbn [length pending]. f_equal. apply Nat.add_1_r.
    + destruct (turn_inv d0 hw w rel out q) as (w1 & rel1 & out1 & q1 & Ht & Hinv1 & Hall1 & Hq1).
      { apply Hgood. left. }
      { exact Hinv. }
      { rewrite Htrn in Hlen. rewrite !length_app in *. lia. }
      rewrite Ht.
      destruct (IH w1 rel1 out1 q1 Hgood' Hinv1)
        as (w' & rel' & out' & q' & Hrun & Hinv' & Hall & Hpend).
      { rewrite Htrn in Hlen.
        assert (Hl1 : length (rel1 ++ out1 ++ q1) = length (rel ++ out ++ q))
          by (rewrite Hall1; reflexivity).
        rewrite !length_app in *. lia. }
      exists w', rel', out', q'. split; [exact Hrun|]. split; [exact Hinv'|].
      split.
      * rewrite Hall, Htrn.
        rewrite !app_assoc. f_equal. rewrite <- !app_assoc. exact Hall1.
      * rewrite Hpend, Hq1. reflexivity.
Qed.


(** *** Stream start and stop *)

Lemma hw_only_update_clknbw on : hw_only (tegra_channel_update_clknbw on).
Proof. intros w. unfold tegra_channel_update_clknbw. rsimpl. reflexivity. Qed.

Lemma hw_only_ec_init : hw_only tegra_channel_ec_init.
Proof. intros w. unfold tegra_channel_ec_init. rsimpl. reflexivity. Qed.

Lemma hw_only_set_stream hw on :
  hw_only (fun w => snd (tegra_channel_set_stream hw on w)).
Proof.
  intros w. unfold tegra_channel_set_stream.
  destruct (bool_decide (is_streaming (chan w) = on)); [reflexivity|].
  destruct (bool_decide (s_stream_ret hw ≠ 0)); cbn [snd]; rsimpl; reflexivity.
Qed.

Lemma hw_only_stop_kthreads : hw_only tegra_channel_stop_kthreads.
Proof.
  intros w. unfold tegra_channel_stop_kthreads.
  destruct (kthread_capture_start (chan w)); [|reflexivity]. rsimpl. reflexivity.
Qed.

Lemma start_streaming_ok hw w0 :
  bypass (chan w0) = false →
  pg_mode (vi w0) ≠ 0 ∨ 0 ≤ pipeline_start_ret hw →
  kthread_run_ret hw = 0 →
  ∃ w1,
    tegra_channel_start_streaming hw w0 = (0, w1)
    ∧ hw_erase w1
      = hw_erase
          (on_chan (fun c => tegra_channel_init_ring_buffer
                               (set_sequence 0 (set_capture_state CAPTURE_IDLE c))) w0).
Proof.
  intros Hb Hpipe Hk. unfold tegra_channel_start_streaming. cbv zeta.
  set (wa := tegra_channel_ec_init w0).
  assert (Hea : hw_erase wa = hw_erase w0) by apply hw_only_ec_init.
  rewrite (erase_pg_mode _ _ Hea).
  set (p := if bool_decide (pg_mode (vi w0) = 0)
            then (pipeline_start_ret hw, call media_entity_pipeline_start wa)
            else (0, wa)).
  assert (Hp : 0 ≤ fst p ∧ hw_erase (snd p) = hw_erase w0).
  { subst p. destruct (bool_decide (pg_mode (vi w0) = 0)) eqn:E; cbn [fst snd].
    - apply bool_decide_eq_true in E. split; [|rewrite hw_only_call; exact Hea].
      destruct Hpipe; [congruence|assumption].
    - split; [lia|exact Hea]. }
  destruct p as [ret wb]. cbn [fst snd] in Hp. destruct Hp as [Hret Heb].
  destruct (Z.ltb_spec ret 0); [lia|].
  rewrite (erase_bypass _ _ Heb), Hb.
  set (wd := for_index _ _ _).
  assert (Hed : hw_erase wd = hw_erase (on_chan (set_capture_state CAPTURE_IDLE) w0)).
  { subst wd. rewrite hw_only_for_index by (intros i w'; rsimpl; reflexivity).
    rewrite !erase_set_capture_state, Heb. reflexivity. }
  unfold tegra_channel_capture_setup at 1.
  change (0 <? 0) with false. cbv iota.
  set (we := for_index _ _ wd).
  assert (Hee : hw_erase we = hw_erase wd)
    by (subst we; apply hw_only_for_index; intros i w'; rsimpl; reflexivity).
  rewrite Hk, zero_ne_zero.
  eexists. split; [reflexivity|].
  assert (Hk1 : ∀ w, hw_erase (on_chan (set_kthread_capture_start true) w) = hw_erase w)
    by (intros; rsimpl; reflexivity).
  rewrite Hk1, hw_only_call, hw_only_update_clknbw.
  assert (Hc : ∀ w,
             hw_erase (on_chan tegra_channel_init_ring_buffer
                         (on_chan (set_sequence 0) w))
             = on_chan (fun c => tegra_channel_init_ring_buffer (set_sequence 0 c))
                 (hw_erase w))
    by (intros; unfold tegra_channel_init_ring_buffer; rsimpl; reflexivity).
  rewrite Hc, Hee, Hed. unfold tegra_channel_init_ring_buffer. rsimpl. reflexivity.
Qed.

Lemma start_streaming_inv hw w0 :
  bypass (chan w0) = false →
  length (buffers (chan w0)) = 4%nat →
  length (buffer_state (chan w0)) = 4%nat →
  pg_mode (vi w0) ≠ 0 ∨ 0 ≤ pipeline_start_ret hw →
  kthread_run_ret hw = 0 →
  ∃ w1,
    tegra_channel_start_streaming hw w0 = (0, w1)
    ∧ session_inv (done w0) w1 [] [] (capture (chan w0)).
Proof.
  intros Hb Hlb Hls Hpipe Hk.
  destruct (start_streaming_ok hw w0 Hb Hpipe Hk) as (w1 & Hs & He).
  exists w1. split; [exact Hs|].
  unfold session_inv.
  rewrite (erase_capture _ _ He), (erase_ring _ _ He), (erase_done _ _ He),
    (erase_bypass _ _ He).
  assert (Hrel : released_bufs (chan w1) = 0).
  { change (released_bufs (chan w1)) with (r_released_bufs (ring_of (chan w1))).
    rewrite (erase_ring _ _ He). reflexivity. }
  assert (Hseq : sequence (chan w1) = 0).
  { change (sequence (chan w1)) with (r_sequence (ring_of (chan w1))).
    rewrite (erase_ring _ _ He). reflexivity. }
  rewrite Hrel, Hseq.
  split; [reflexivity|]. split.
  { unfold ring_good, ring_ok, outstanding. cbn.
    repeat split; try done; try lia. }
  split; [unfold run_done; cbn; rewrite app_nil_r; reflexivity|].
  split; [reflexivity|]. split; [reflexivity|].
  split; [intros Hn; exfalso; apply Hn; reflexivity|].
  split; [intros Hn; exfalso; apply Hn; reflexivity|exact Hb].
Qed.

Lemma capture_done_empty hw w :
  capture (chan w) = [] → tegra_channel_capture_done hw w = Some w.
Proof.
  intros Hq. unfold tegra_channel_capture_done, dequeue_buffer. rewrite Hq. reflexivity.
Qed.

Lemma queued_buf_done_empty st w :
  capture (chan w) = [] → tegra_channel_queued_buf_done st w = w.
Proof.
  intros Hq. unfold tegra_channel_queued_buf_done. rewrite Hq. cbn [fold_left].
  destruct w as [c ? ? ? ? ?]; destruct c; cbn in Hq; subst; reflexivity.
Qed.

(** What the stream stop leaves after the ring has been drained. *)
Lemma stop_streaming_drained hw w :
  bypass (chan w) = false →
  capture (chan w) = [] →
  ∃ w1 w',
    tegra_channel_stop_streaming hw w
    = (wf ← free_ring_buffers (s32 (num_buffers (chan w1))) w1; Some (0, w' wf))
    ∧ hw_erase w1 = hw_erase w
    ∧ ∀ wf, capture (chan wf) = [] → bypass (chan wf) = false →
            hw_erase (w' wf) = hw_erase wf.
Proof.
  intros Hb Hq. unfold tegra_channel_stop_streaming. rewrite Hb. cbn [negb].
  set (wk := tegra_channel_stop_kthreads w).
  assert (Hek : hw_erase wk = hw_erase w) by apply hw_only_stop_kthreads.
  assert (Hcd : (if is_streaming (chan w)
                    && bool_decide (capture_state (chan wk) = CAPTURE_GOOD)
                 then tegra_channel_capture_done hw wk else Some wk) = Some wk).
  { destruct (_ && _); [|reflexivity]. apply capture_done_empty.
    rewrite (erase_capture _ _ Hek). exact Hq. }
  rewrite Hcd. cbn [mbind option_bind].
  eexists wk, _. split; [|split; [exact Hek|]].
  - destruct (free_ring_buffers _ wk) as [wf|]; cbn [mbind option_bind]; [|reflexivity].
    instantiate (1 := fun wf => _). cbv beta. reflexivity.
  - intros wf Hqf Hbf. cbv beta.
    rewrite hw_only_call.
    set (w2 := call _ _).
    assert (He2 : hw_erase w2 = hw_erase wf).
    { subst w2. rewrite hw_only_call, hw_only_writel.
      rewrite hw_only_for_index.
      2:{ intros i w''. cbv beta zeta. destruct (bool_decide (u32 _ ≠ 0)).
          - unfold tegra_channel_clear_singleshot. rsimpl. reflexivity.
          - rsimpl. reflexivity. }
      rewrite hw_only_writel, (queued_buf_done_empty _ _ Hqf). reflexivity. }
    set (w3 := if bool_decide (pg_mode (vi w2) = 0) then _ else w2).
    assert (He3 : hw_erase w3 = hw_erase wf).
    { subst w3. destruct (bool_decide (pg_mode _ = 0)); [|exact He2].
      rewrite hw_only_call, (hw_only_set_stream hw false w2). exact He2. }
    rewrite (erase_bypass _ _ He3), Hbf. cbn [negb].
    rewrite hw_only_update_clknbw. exact He3.
Qed.

Lemma ring_free_nothing cs r :
  r_num_buffers r = 0 → ring_free cs (s32 (r_num_buffers r)) r = Some ([], r).
Proof. intros ->. reflexivity. Qed.

Lemma expected_released n (rel : list tegra_channel_buffer) :
  (rel ≠ [] → (length rel + 2 ≤ n)%nat) →
  imap (expected_done n) rel
  = imap (fun i b => release_call (Z.of_nat i) (Z.of_nat i)
                       VB2_BUF_STATE_DONE (buf b)) rel.
Proof.
  intros Hn. apply imap_ext. intros i b Hi.
  apply lookup_lt_Some in Hi.
  assert (Hne : rel ≠ []) by (intros ->; cbn in Hi; lia).
  specialize (Hn Hne).
  unfold expected_done, release_call. f_equal.
  destruct (Z.ltb_spec (Z.of_nat i) 2), (Nat.leb_spec 2 i), (Nat.ltb_spec (i + 1) n);
    cbn [andb]; try reflexivity; lia.
Qed.

Lemma expected_drained n (rel out : list tegra_channel_buffer) :
  n = (length rel + length out)%nat → Z.of_nat n < 2 ^ 32 →
  imap (fun k b =>
          release_call (Z.of_nat (length rel) + Z.of_nat k)
            (u32 (Z.of_nat (length rel) + Z.of_nat k))
            (if bool_decide (S k = length (buf <$> out))
             then VB2_BUF_STATE_ERROR else VB2_BUF_STATE_DONE) b) (buf <$> out)
  = imap (fun k b => expected_done n (length rel + k) b) out.
Proof.
  intros -> Hlt. rewrite imap_fmap. apply imap_ext. intros k b Hk.
  apply lookup_lt_Some in Hk. cbv beta. unfold compose.
  unfold expected_done, release_call. rewrite length_fmap.
  rewrite u32_small by lia. f_equal.
  - destruct (Z.ltb_spec (Z.of_nat (length rel) + Z.of_nat k) 2),
      (Nat.leb_spec 2 (length rel + k)),
      (Nat.ltb_spec (length rel + k + 1) (length rel + length out));
      cbn [andb]; try lia; try reflexivity.
    + rewrite bool_decide_false by lia. reflexivity.
    + rewrite bool_decide_true by lia. reflexivity.
  - f_equal. lia.
Qed.

(** C1 (amended).  A streaming session on a channel that is not in
    bypass mode, with error-free hardware, in which every submitted
    buffer has been captured when the stream is stopped: the session
    returns, every submitted buffer has been completed exactly once
    through [free_ring_buffers], in submission order, and
    [num_buffers] is back to 0.  The completion state is
    [VB2_BUF_STATE_DONE] for all buffers but the first two and the
    last one, which are completed with [VB2_BUF_STATE_ERROR]. *)
Theorem session_completions hw_start acts hw_stop w0 :
  bypass (chan w0) = false →
  length (buffers (chan w0)) = 4%nat →
  length (buffer_state (chan w0)) = 4%nat →
  pg_mode (vi w0) ≠ 0 ∨ 0 ≤ pipeline_start_ret hw_start →
  kthread_run_ret hw_start = 0 →
  turns_good acts →
  pending acts (length (capture (chan w0))) = 0%nat →
  Z.of_nat (length (capture (chan w0) ++ submitted acts)) < 2 ^ 32 →
  ∃ w',
    session hw_start acts hw_stop w0 = Some w'
    ∧ done w'
      = done w0
        ++ imap (expected_done (length (capture (chan w0) ++ submitted acts)))
             (capture (chan w0) ++ submitted acts)
    ∧ num_buffers (chan w') = 0.
Proof.
  intros Hb Hlb Hls Hpipe Hk Hgood Hpend Hlen.
  destruct (start_streaming_inv hw_start w0 Hb Hlb Hls Hpipe Hk) as (w1 & Hstart & Hinv1).
  destruct (run_actions_inv (done w0) acts w1 [] [] (capture (chan w0)) Hgood Hinv1)
    as (w2 & rel & out & q & Hrun & Hinv2 & Hall & Hq).
  { exact Hlen. }
  rewrite Hpend in Hq. destruct q; [|discriminate]. clear Hq.
  cbn [app] in Hall. rewrite app_nil_r in Hall.
  rewrite <- Hall in *. clear Hall.
  destruct Hinv2 as (Hq2 & Hg2 & Hd2 & Hr2 & Hs2 & Hcs2 & Hl2 & Hb2).
  destruct (stop_streaming_drained hw_stop w2 Hb2 Hq2) as (wk & wfin & Hstop & Hek & Hfin).
  unfold session. rewrite Hstart, zero_ne_zero, Hrun.
  cbn [mbind option_bind snd]. rewrite Hstop. clear Hstop Hstart Hrun.
  rewrite free_ring_buffers_ring.
  change (num_buffers (chan wk)) with (r_num_buffers (ring_of (chan wk))).
  rewrite (erase_ring _ _ Hek), (erase_capture_state _ _ Hek).
  assert (Hres : ∃ ds r',
             ring_free (capture_state (chan w2))
               (s32 (r_num_buffers (ring_of (chan w2)))) (ring_of (chan w2))
             = Some (ds, r')
             ∧ r_num_buffers r' = 0
             ∧ run_done (done w0) rel ++ ds
               = done w0 ++ imap (expected_done (length (rel ++ out))) (rel ++ out)).
  { destruct out as [|o out].
    - assert (rel = []) as ->.
      { destruct rel; [reflexivity|]. specialize (Hl2 ltac:(discriminate)). discriminate. }
      assert (Hn : r_num_buffers (ring_of (chan w2)) = 0).
      { destruct Hg2 as ((_ & _ & _ & Hn & _) & _). exact Hn. }
      exists [], (ring_of (chan w2)). split; [apply ring_free_nothing; exact Hn|].
      split; [exact Hn|]. unfold run_done. cbn. rewrite !app_nil_r. reflexivity.
    - rewrite (Hcs2 ltac:(discriminate)).
      destruct (ring_good_drain _ _ Hg2) as (ds & r' & Hf & Hds & Hn).
      exists ds, r'. split; [exact Hf|]. split; [exact Hn|].
      unfold run_done. rewrite <- app_assoc. f_equal.
      rewrite imap_app. f_equal.
      + symmetry. apply expected_released. intros Hne.
        specialize (Hl2 Hne). rewrite length_app. lia.
      + rewrite Hds.
        change (r_released_bufs (ring_of (chan w2))) with (released_bufs (chan w2)).
        change (r_sequence (ring_of (chan w2))) with (sequence (chan w2)).
        rewrite Hr2, Hs2.
        apply expected_drained; [apply length_app|].
        rewrite !length_app in *. cbn [length] in *. lia. }
  destruct Hres as (ds & r' & -> & Hn & Hdone).
  unfold ring_result. cbn [mbind option_bind fmap option_fmap option_map snd].
  set (wf := set_done _ _).
  assert (Hfin' : hw_erase (wfin wf) = hw_erase wf).
  { apply Hfin.
    - subst wf. change (capture (chan wk) = []).
      rewrite (erase_capture _ _ Hek). exact Hq2.
    - subst wf. change (bypass (chan wk) = false).
      rewrite (erase_bypass _ _ Hek). exact Hb2. }
  eexists. split; [reflexivity|]. split.
  - rewrite (erase_done _ _ Hfin'). subst wf.
    change (done wk ++ ds = done w0 ++ imap (expected_done (length (rel ++ out))) (rel ++ out)).
    rewrite (erase_done _ _ Hek), Hd2. exact Hdone.
  - change (r_num_buffers (ring_of (chan (wfin wf))) = 0).
    rewrite (erase_ring _ _ Hfin'). subst wf. destruct r'. exact Hn.
Qed.

End Session.

(** ** Call sequences on the ring *)

Lemma ring_result_Some w res w' :
  ring_result w res = Some w' →
  ∃ ds r, res = Some (ds, r)
          ∧ w' = set_done (done w ++ ds) (on_chan (with_ring r) w).
Proof.
  destruct res as [[ds r]|]; [|discriminate].
  unfold ring_result; simpl. intros [= <-]. eauto.
Qed.

Lemma ring_release_state cs r d r' :
  ring_release cs r = Some (d, r') →
  (cs ≠ CAPTURE_GOOD ∨ r_released_bufs r < 2 → state d = VB2_BUF_STATE_ERROR)
  ∧ r_released_bufs r' = u32 (r_released_bufs r + 1).
Proof.
  unfold ring_release.
  destruct (r_buffers r !! _) as [[b|]|]; try discriminate.
  destruct (bool_decide (cs ≠ CAPTURE_GOOD) || (r_released_bufs r <? 2)) eqn:Ef.
  - destruct (<[_ := _]> _ !! _) as [st|] eqn:El; [|discriminate].
    intros [= <- <-]; simpl. split; [|reflexivity]. intros _.
    apply list_lookup_insert_Some in El as [(_ & <- & _)|[Hne _]]; [reflexivity|].
    exfalso; apply Hne; reflexivity.
  - destruct (_ !! _) as [st|]; [|discriminate].
    intros [= <- <-]; simpl. split; [|reflexivity].
    apply orb_false_iff in Ef as [Ecs Erel].
    apply bool_decide_eq_false in Ecs. apply Z.ltb_ge in Erel.
    intros [?|?]; [tauto|lia].
Qed.

Lemma ring_release_frames_state cs n : ∀ r ds r',
  0 ≤ r_released_bufs r →
  ring_release_frames cs n r = Some (ds, r') →
  length ds = n
  ∧ 0 ≤ r_released_bufs r'
  ∧ (r_released_bufs r + Z.of_nat n ≤ 2 →
     r_released_bufs r' = r_released_bufs r + Z.of_nat n)
  ∧ ∀ k d, ds !! k = Some d →
           cs ≠ CAPTURE_GOOD ∨ r_released_bufs r + Z.of_nat k < 2 →
           state d = VB2_BUF_STATE_ERROR.
Proof.
  induction n as [|n IH]; intros r ds r' Hrel; simpl.
  - intros [= <- <-]. repeat split; [lia..|]. intros k d Hk. discriminate.
  - destruct (ring_release cs r) as [[d1 r1]|] eqn:E1; [|discriminate]. simpl.
    destruct (ring_release_frames cs n r1) as [[ds1 r2]|] eqn:E2; [|discriminate].
    simpl. intros [= <- <-].
    apply ring_release_state in E1 as [Hd1 Hr1].
    assert (Hrel1 : 0 ≤ r_released_bufs r1) by (rewrite Hr1; apply u32_nonneg).
    destruct (IH _ _ _ Hrel1 E2) as (Hlen & Hpos & Hcount & Hst).
    split; [simpl; lia|]. split; [exact Hpos|]. split.
    + intros Hle. rewrite Hcount; rewrite Hr1, u32_small; lia.
    + intros [|k] d; simpl.
      * intros [= <-] Hc. apply Hd1. destruct Hc; [tauto|right; lia].
      * intros Hk Hc. apply (Hst _ _ Hk).
        destruct Hc as [?|Hc]; [tauto|right]. rewrite Hr1, u32_small; lia.
Qed.

Lemma ring_release_frames_releases cs n r ds r' :
  0 ≤ r_released_bufs r →
  ring_release_frames cs n r = Some (ds, r') →
  releases (r_released_bufs r) ds (r_released_bufs r').
Proof.
  intros Hrel E.
  destruct (ring_release_frames_state _ _ _ _ _ Hrel E) as (Hlen & Hpos & Hc & Hst).
  split; [exact Hpos|]. split; [rewrite Hlen; intros; rewrite Hc; lia|].
  intros k d Hk Hlt. apply (Hst _ _ Hk). right; exact Hlt.
Qed.

Lemma ring_free_releases cs frames r ds r' :
  0 ≤ r_released_bufs r →
  ring_free cs frames r = Some (ds, r') →
  releases (r_released_bufs r) ds (r_released_bufs r').
Proof.
  unfold ring_free. destruct (frames <? 0); [discriminate|].
  apply ring_release_frames_releases.
Qed.

Lemma releases_nil rel : 0 ≤ rel → releases rel [] rel.
Proof.
  intros Hrel. split; [exact Hrel|]. split; [simpl; lia|].
  intros k d Hk. discriminate.
Qed.

Lemma releases_reset rel ds rel' :
  releases rel ds rel' → 0 ≤ rel → releases rel ds 0.
Proof.
  intros (_ & _ & Hst) Hrel. split; [lia|]. split; [lia|exact Hst].
Qed.

Lemma ring_frame_start_releases cs st r ds r' :
  0 ≤ r_released_bufs r →
  ring_frame_start cs st r = Some (ds, r') →
  releases (r_released_bufs r) ds (r_released_bufs r').
Proof.
  intros Hrel. unfold ring_frame_start.
  set (r1 := if negb (r_bfirst_fstart r) then _ else _).
  assert (Hr1 : r_released_bufs r1 = r_released_bufs r).
  { subst r1. destruct (negb _); [reflexivity|].
    unfold ring_update_state. reflexivity. }
  rewrite <- Hr1 in *. clearbody r1.
  destruct (bool_decide (cs ≠ CAPTURE_GOOD)).
  - destruct (ring_free cs _ r1) as [[ds1 r2]|] eqn:E; [|discriminate].
    simpl. intros [= <- <-]. simpl.
    apply (releases_reset _ _ (r_released_bufs r2)); [|exact Hrel].
    apply (ring_free_releases _ _ _ _ _ Hrel E).
  - destruct (QUEUED_BUFFERS - 1 <=? r_num_buffers r1).
    + apply ring_free_releases. exact Hrel.
    + intros [= <- <-]. apply releases_nil. exact Hrel.
Qed.

Lemma first_two_error_step w ds r :
  first_two_error w →
  releases (released_bufs (chan w)) ds (r_released_bufs r) →
  first_two_error (set_done (done w ++ ds) (on_chan (with_ring r) w)).
Proof.
  intros (Hrel & Hcount & Hfirst) (Hpos & Hle & Hst).
  assert (Hd : done (set_done (done w ++ ds) (on_chan (with_ring r) w))
               = done w ++ ds) by reflexivity.
  assert (Hr : released_bufs (chan (set_done (done w ++ ds) (on_chan (with_ring r) w)))
               = r_released_bufs r) by (destruct r; reflexivity).
  unfold first_two_error. rewrite Hd, Hr, length_app.
  split; [exact Hpos|]. split; [lia|].
  intros k d Hk Hl. apply lookup_app_Some in Hl as [Hl|[Hge Hl]].
  - apply (Hfirst _ _ Hk Hl).
  - apply (Hst _ _ Hl). lia.
Qed.

Lemma first_two_error_chan f w :
  released_bufs (f (chan w)) = released_bufs (chan w) →
  first_two_error w → first_two_error (on_chan f w).
Proof.
  intros Hf (Hrel & Hcount & Hfirst).
  assert (Hd : done (on_chan f w) = done w) by reflexivity.
  assert (Hr : released_bufs (chan (on_chan f w)) = released_bufs (chan w))
    by exact Hf.
  unfold first_two_error. rewrite Hd, Hr. auto.
Qed.

Lemma first_two_error_init w :
  first_two_error w → first_two_error (on_chan tegra_channel_init_ring_buffer w).
Proof.
  intros (Hrel & Hcount & Hfirst).
  assert (Hd : done (on_chan tegra_channel_init_ring_buffer w) = done w)
    by reflexivity.
  assert (Hr : released_bufs (chan (on_chan tegra_channel_init_ring_buffer w)) = 0)
    by reflexivity.
  unfold first_two_error. rewrite Hd, Hr. split; [lia|]. split; [lia|exact Hfirst].
Qed.

Lemma first_two_error_free frames w w' :
  first_two_error w → free_ring_buffers frames w = Some w' → first_two_error w'.
Proof.
  intros Hw E. rewrite free_ring_buffers_ring in E.
  apply ring_result_Some in E as (ds & r & E & ->).
  apply first_two_error_step; [exact Hw|].
  apply (ring_free_releases _ _ (ring_of (chan w)) _ _ (proj1 Hw) E).
Qed.

Lemma first_two_error_op o w w' :
  first_two_error w → run_op o w = Some w' → first_two_error w'.
Proof.
  intros Hw. destruct o as [|b|cs st|frames|]; simpl.
  - intros [= <-]. apply first_two_error_init, Hw.
  - intros [= <-]. apply first_two_error_chan; [|exact Hw].
    destruct (chan w); unfold add_buffer_to_ring; simpl.
    destruct (QUEUED_BUFFERS <=? _); reflexivity.
  - rewrite tegra_channel_ring_buffer_ring. intros E.
    apply ring_result_Some in E as (ds & r & E & ->).
    apply first_two_error_step.
    + apply first_two_error_chan; [reflexivity|exact Hw].
    + apply (ring_frame_start_releases _ _ (ring_of (chan w)) _ _ (proj1 Hw) E).
  - apply first_two_error_free, Hw.
  - apply first_two_error_free, Hw.
Qed.

Lemma first_two_error_ops ops : ∀ w w',
  first_two_error w → run_ops ops w = Some w' → first_two_error w'.
Proof.
  induction ops as [|o ops IH]; intros w w' Hw; simpl.
  - intros [= <-]. exact Hw.
  - destruct (run_op o w) as [w1|] eqn:E; [|discriminate]. simpl.
    apply IH. apply (first_two_error_op _ _ _ Hw E).
Qed.

Lemma first_two_error_fresh w : first_two_error (fresh_ring w).
Proof.
  split; [reflexivity|]. split; [reflexivity|].
  intros k d _ Hl. discriminate.
Qed.

Lemma u32_add_l a b : u32 (u32 a + b) = u32 (a + b).
Proof. unfold u32. apply Zplus_mod_idemp_l. Qed.

Lemma ring_release_frames_ok cs n : ∀ r out,
  ring_ok r out → (n ≤ length out)%nat →
  ∃ ds r',
    ring_release_frames cs n r = Some (ds, r')
    ∧ vb <$> ds = take n out
    ∧ ring_ok r' (drop n out)
    ∧ outstanding_states r' = drop n (outstanding_states r)
    ∧ r_released_bufs r' = u32 (r_released_bufs r + Z.of_nat n)
    ∧ r_sequence r' = u32 (r_sequence r + Z.of_nat n)
    ∧ ∀ k d, ds !! k = Some d →
        v4l2_sequence d = Some (u32 (r_sequence r + Z.of_nat k))
        ∧ (cs ≠ CAPTURE_GOOD ∨ u32 (r_released_bufs r + Z.of_nat k) < 2 →
           state d = VB2_BUF_STATE_ERROR)
        ∧ (cs = CAPTURE_GOOD → 2 ≤ u32 (r_released_bufs r + Z.of_nat k) →
           outstanding_states r !! k = Some (Some (state d))).
Proof.
  induction n as [|n IH]; intros r out Hok Hn.
  - exists [], r. cbn [ring_release_frames take drop fmap list_fmap].
    assert (Hrel : 0 ≤ r_released_bufs r < 2 ^ 32) by apply Hok.
    assert (Hseq : 0 ≤ r_sequence r < 2 ^ 32) by apply Hok.
    rewrite !Z.add_0_r, !u32_small by assumption.
    split; [reflexivity|]. split; [reflexivity|]. split; [exact Hok|].
    split; [reflexivity|]. split; [reflexivity|]. split; [reflexivity|].
    intros k d Hk. rewrite lookup_nil in Hk. discriminate Hk.
  - assert (Hne : out ≠ []) by (intros ->; cbn [length] in Hn; lia).
    assert (Hrel : 0 ≤ r_released_bufs r < 2 ^ 32) by apply Hok.
    assert (Hseq : 0 ≤ r_sequence r < 2 ^ 32) by apply Hok.
    destruct (ring_release_ok cs r out Hok Hne)
      as (d & r1 & s & b & out1 & -> & E1 & Hst & Hvb & Hsq & Hforce & Hkeep
          & Hok1 & Hrel1 & Hseq1).
    cbn [length] in Hn.
    destruct (IH r1 out1 Hok1 ltac:(lia))
      as (ds & r2 & E2 & Hvbs & Hok2 & Hst2 & Hrel2 & Hseq2 & Hall).
    exists (d :: ds), r2.
    cbn [ring_release_frames]. rewrite E1. cbn [mbind option_bind]. rewrite E2.
    cbn [mbind option_bind].
    split; [reflexivity|].
    split; [cbn [fmap list_fmap take]; rewrite Hvb; f_equal; exact Hvbs|].
    split; [exact Hok2|].
    split; [rewrite Hst2, Hst; reflexivity|].
    split; [rewrite Hrel2, Hrel1, u32_add_l; f_equal; lia|].
    split; [rewrite Hseq2, Hseq1, u32_add_l; f_equal; lia|].
    intros [|k] d0 Hk.
    + injection Hk as <-. rewrite !Z.add_0_r, !u32_small by assumption.
      split; [exact Hsq|]. split; [exact Hforce|].
      intros Hcs Hge. rewrite Hst, (Hkeep Hcs Hge). reflexivity.
    + cbn [lookup list_lookup] in Hk.
      destruct (Hall k d0 Hk) as (Hs & Hf & Hkp).
      rewrite Hseq1, u32_add_l in Hs.
      rewrite Hrel1, u32_add_l in Hf, Hkp.
      replace (r_sequence r + 1 + Z.of_nat k) with (r_sequence r + Z.of_nat (S k))
        in Hs by lia.
      replace (r_released_bufs r + 1 + Z.of_nat k)
        with (r_released_bufs r + Z.of_nat (S k)) in Hf, Hkp by lia.
      split; [exact Hs|]. split; [exact Hf|].
      intros Hcs Hge. rewrite Hst. exact (Hkp Hcs Hge).
Qed.

(** C10: [free_ring_buffers], called for [frames] of the buffers of a
    well-formed ring, returns and completes exactly the [frames]
    oldest buffers, oldest first, and takes them out of the ring.
    Each of them is completed with [VB2_BUF_STATE_ERROR] when the
    capture state is not [CAPTURE_GOOD] and also when fewer than two
    buffers had been released since the ring was initialised
    ([released_bufs], a 32-bit counter, below 2 at its turn), whatever
    state its slot held; only in capture state [CAPTURE_GOOD] with two
    or more released does it carry the state its slot held.  Hence on
    a channel reached from a fresh ring by any sequence of ring-buffer
    calls the first two completions carry [VB2_BUF_STATE_ERROR]. *)
Theorem free_ring_buffers_forces_error ops w w1 out frames :
  run_ops ops (fresh_ring w) = Some w1 →
  ring_ok (ring_of (chan w1)) out →
  0 ≤ frames ≤ Z.of_nat (length out) →
  ∃ w2 ds,
    free_ring_buffers frames w1 = Some w2
    ∧ done w2 = done w1 ++ ds
    ∧ vb <$> ds = take (Z.to_nat frames) out
    ∧ ring_ok (ring_of (chan w2)) (drop (Z.to_nat frames) out)
    ∧ released_bufs (chan w2) = u32 (released_bufs (chan w1) + frames)
    ∧ (∀ k d, ds !! k = Some d →
         (capture_state (chan w1) ≠ CAPTURE_GOOD
          ∨ u32 (released_bufs (chan w1) + Z.of_nat k) < 2 →
          state d = VB2_BUF_STATE_ERROR)
         ∧ (capture_state (chan w1) = CAPTURE_GOOD →
            2 ≤ u32 (released_bufs (chan w1) + Z.of_nat k) →
            outstanding_states (ring_of (chan w1)) !! k = Some (Some (state d))))
    ∧ (∀ k d, (k < 2)%nat → done w2 !! k = Some d →
              state d = VB2_BUF_STATE_ERROR).
Proof.
  intros Hops Hok Hframes.
  pose proof (first_two_error_ops _ _ _ (first_two_error_fresh w) Hops) as Hw1.
  destruct (ring_release_frames_ok (capture_state (chan w1)) (Z.to_nat frames)
              (ring_of (chan w1)) out Hok ltac:(lia))
    as (ds & r & E & Hvb & Hok' & _ & Hrel & _ & Hall).
  assert (Hfree : free_ring_buffers frames w1
                  = Some (set_done (done w1 ++ ds) (on_chan (with_ring r) w1))).
  { rewrite free_ring_buffers_ring. unfold ring_free.
    destruct (Z.ltb_spec frames 0); [lia|]. rewrite E. reflexivity. }
  exists (set_done (done w1 ++ ds) (on_chan (with_ring r) w1)), ds.
  split; [exact Hfree|]. split; [reflexivity|]. split; [exact Hvb|].
  assert (Hr : ring_of (chan (set_done (done w1 ++ ds) (on_chan (with_ring r) w1))) = r)
    by (destruct r; reflexivity).
  split; [rewrite Hr; exact Hok'|].
  split.
  { change (released_bufs (chan ?x)) with (r_released_bufs (ring_of (chan x))).
    rewrite Hr, Hrel, Z2Nat.id by lia. reflexivity. }
  split.
  { intros k d Hk. destruct (Hall k d Hk) as (_ & Hf & Hkeep).
    split; [exact Hf|exact Hkeep]. }
  apply (first_two_error_free _ _ _ Hw1 Hfree).
Qed.

(** *** Capacity *)

Lemma run_ops_cons o rest w : run_ops (o :: rest) w = run_op o w ≫= run_ops rest.
Proof. reflexivity. Qed.

Lemma run_op_add b w : run_op (Add b) w = Some (on_chan (add_buffer_to_ring b) w).
Proof. reflexivity. Qed.

Lemma run_op_frame_start cs st w :
  run_op (FrameStart cs st) w
  = tegra_channel_ring_buffer st (on_chan (set_capture_state cs) w).
Proof. reflexivity. Qed.

Lemma run_op_init w :
  run_op Init w = Some (on_chan tegra_channel_init_ring_buffer w).
Proof. reflexivity. Qed.

Lemma bind_Some_l {A B} (x : A) (f : A → option B) : Some x ≫= f = f x.
Proof. reflexivity. Qed.

Lemma ring_init_ok r out : ring_ok r out → ring_ok (ring_init r) [].
Proof.
  intros (Hb & Hs & Hf & Hn & Hl & Hsv & Hrel & Hseq & Hout).
  unfold ring_ok, ring_init, outstanding; simpl.
  repeat split; try done; try lia.
Qed.

Lemma fresh_ring_ok w :
  length (buffers (chan w)) = 4%nat →
  length (buffer_state (chan w)) = 4%nat →
  0 ≤ sequence (chan w) < 2 ^ 32 →
  ring_ok (ring_of (chan (fresh_ring w))) [].
Proof.
  intros Hb Hs Hseq.
  unfold ring_ok, fresh_ring, outstanding; simpl.
  repeat split; try done; try lia.
Qed.

Lemma add_op_ok b w out :
  ring_ok (ring_of (chan w)) out → (length out ≤ 2)%nat →
  ring_ok (ring_of (chan (on_chan (add_buffer_to_ring b) w))) (out ++ [b])
  ∧ done (on_chan (add_buffer_to_ring b) w) = done w.
Proof.
  intros Hok Hlen. split; [|reflexivity].
  assert (Hr : ring_of (chan (on_chan (add_buffer_to_ring b) w))
               = ring_add b (ring_of (chan w))).
  { unfold on_chan. rewrite add_ring.
    change (chan (set_chan ?c _)) with c. apply ring_of_with_ring. }
  rewrite Hr. apply ring_add_ok; assumption.
Qed.

Lemma frame_start_op_ok cs st w out :
  ring_ok (ring_of (chan w)) out →
  ∃ w' ds out',
    run_op (FrameStart cs st) w = Some w'
    ∧ done w' = done w ++ ds
    ∧ (vb <$> ds) ++ out' = out
    ∧ ring_ok (ring_of (chan w')) out' ∧ (length out' ≤ 2)%nat
    ∧ (cs = CAPTURE_GOOD → length ds = (length out - 2)%nat).
Proof.
  intros Hok.
  change (run_op (FrameStart cs st) w)
    with (tegra_channel_ring_buffer st (on_chan (set_capture_state cs) w)).
  set (w0 := on_chan (set_capture_state cs) w).
  rewrite tegra_channel_ring_buffer_ring.
  change (capture_state (chan w0)) with cs.
  change (ring_of (chan w0)) with (ring_of (chan w)).
  destruct (ring_frame_start_ok cs st _ _ Hok)
    as (ds & r & out' & E & Hvb & Hok' & Hlen & _ & Hgood).
  rewrite E.
  exists (set_done (done w0 ++ ds) (on_chan (with_ring r) w0)), ds, out'.
  split; [reflexivity|]. split; [reflexivity|]. split; [exact Hvb|].
  split; [|split; [exact Hlen|exact Hgood]].
  assert (Hr' : ring_of (chan (set_done (done w0 ++ ds) (on_chan (with_ring r) w0)))
                = r) by (destruct r; reflexivity).
  rewrite Hr'. exact Hok'.
Qed.

Lemma free_all_op_ok w out :
  ring_ok (ring_of (chan w)) out →
  ∃ w', run_op FreeAll w = Some w' ∧ ring_ok (ring_of (chan w')) [].
Proof.
  intros Hok.
  change (run_op FreeAll w)
    with (free_ring_buffers (s32 (r_num_buffers (ring_of (chan w)))) w).
  rewrite free_ring_buffers_ring.
  destruct (ring_free_all_ok (capture_state (chan w)) _ _ Hok)
    as (ds & r & E & _ & Hok' & _).
  rewrite E.
  exists (set_done (done w ++ ds) (on_chan (with_ring r) w)).
  split; [reflexivity|].
  assert (Hr' : ring_of (chan (set_done (done w ++ ds) (on_chan (with_ring r) w))) = r)
    by (destruct r; reflexivity).
  rewrite Hr'. exact Hok'.
Qed.

Lemma driver_order_ok n : ∀ ops w out,
  (length ops ≤ n)%nat → driver_order ops = true →
  ring_ok (ring_of (chan w)) out → (length out ≤ 2)%nat →
  ∃ w' out',
    run_ops ops w = Some w' ∧ ring_ok (ring_of (chan w')) out'
    ∧ (length out' ≤ if ends_with_add ops then 3 else 2)%nat.
Proof.
  induction n as [n IH] using (well_founded_induction lt_wf).
  intros ops w out Hn Hord Hok Hlen.
  destruct ops as [|o rest].
  { exists w, out. split; [reflexivity|]. split; [exact Hok|exact Hlen]. }
  assert (Hlast : ∀ o', rest ≠ [] → ends_with_add (o' :: rest) = ends_with_add rest).
  { intros o' Hne. unfold ends_with_add. destruct rest; [done|reflexivity]. }
  assert (Hnil : ∀ (w1 w2 : world), run_ops [] w1 = Some w2 → w1 = w2).
  { intros w1 w2 [= ->]. reflexivity. }
  cbn [length] in Hn.
  destruct o as [|b|cs st|frames|]; cbn [driver_order] in Hord; try discriminate.
  - (* Init *)
    assert (Hok1 : ring_ok (ring_of (chan (on_chan tegra_channel_init_ring_buffer w))) []).
    { unfold on_chan. rewrite init_ring.
      assert (Hc : ∀ c w0, chan (set_chan c w0) = c) by reflexivity.
      rewrite Hc, ring_of_with_ring. apply (ring_init_ok _ _ Hok). }
    destruct (IH (length rest) ltac:(lia) rest _ [] ltac:(lia) Hord Hok1
                ltac:(cbn [length]; lia)) as (w' & out' & E & Hok' & Hlen').
    exists w', out'. split.
    { rewrite run_ops_cons, run_op_init, bind_Some_l. exact E. }
    split; [exact Hok'|].
    destruct rest; [|rewrite Hlast by done; exact Hlen'].
    apply Hnil in E. exact Hlen'.
  - (* Add *)
    destruct (add_op_ok b w out Hok Hlen) as [Hok1 _].
    destruct rest as [|o2 rest].
    { eexists _, _. split; [rewrite run_ops_cons, run_op_add, bind_Some_l; reflexivity|].
      split; [exact Hok1|]. unfold ends_with_add; cbn [last].
      rewrite length_app; cbn [length]; lia. }
    destruct o2 as [|b2|cs st|frames|]; try discriminate.
    destruct (frame_start_op_ok cs st _ _ Hok1)
      as (w2 & ds & out2 & E2 & _ & _ & Hok2 & Hlen2 & _).
    cbn [length] in Hn.
    destruct (IH (length rest) ltac:(lia) rest w2 out2
                ltac:(lia) Hord Hok2 Hlen2) as (w' & out' & E & Hok' & Hlen').
    exists w', out'. split.
    { rewrite run_ops_cons, run_op_add, bind_Some_l, run_ops_cons, E2, bind_Some_l.
      exact E. }
    split; [exact Hok'|].
    rewrite Hlast by done.
    assert (Hlast2 : rest ≠ [] →
                     ends_with_add (FrameStart cs st :: rest) = ends_with_add rest).
    { intros Hne. unfold ends_with_add. destruct rest; [done|reflexivity]. }
    destruct rest; [|rewrite Hlast2 by done; exact Hlen'].
    apply Hnil in E. exact Hlen'.
  - (* FreeAll *)
    destruct (free_all_op_ok w out Hok) as (w1 & E1 & Hok1).
    destruct (IH (length rest) ltac:(lia) rest w1 []
                ltac:(lia) Hord Hok1 ltac:(cbn [length]; lia))
      as (w' & out' & E & Hok' & Hlen').
    exists w', out'. split.
    { rewrite run_ops_cons, E1, bind_Some_l. exact E. }
    split; [exact Hok'|].
    destruct rest; [|rewrite Hlast by done; exact Hlen'].
    apply Hnil in E. exact Hlen'.
Qed.

(** C4: on every state the ring reaches from
    [tegra_channel_init_ring_buffer] by calls in the order the driver
    makes them ([add_buffer_to_ring], called from [dequeue_buffer]
    only, is followed by the frame-start acknowledgement of its
    buffer; [free_ring_buffers] outside of that drains the ring),
    every call returns and [num_buffers] does not exceed
    [QUEUED_BUFFERS]: it is at most [QUEUED_BUFFERS - 1], and at most
    [QUEUED_BUFFERS - 2] once the last added buffer's frame start is
    acknowledged.  A frame-start acknowledgement that finds
    [QUEUED_BUFFERS - 1] buffers outstanding releases the oldest one
    first, so that no more accumulate: it leaves at most
    [QUEUED_BUFFERS - 2], releasing in capture state [CAPTURE_GOOD]
    exactly the oldest one at [QUEUED_BUFFERS - 1] and none below. *)
Theorem ring_capacity_driver_order ops w :
  length (buffers (chan w)) = 4%nat →
  length (buffer_state (chan w)) = 4%nat →
  0 ≤ sequence (chan w) < 2 ^ 32 →
  driver_order ops = true →
  ∃ w' out,
    run_ops ops (fresh_ring w) = Some w'
    ∧ ring_ok (ring_of (chan w')) out
    ∧ 0 ≤ num_buffers (chan w') ≤ QUEUED_BUFFERS
    ∧ num_buffers (chan w')
      ≤ (if ends_with_add ops then QUEUED_BUFFERS - 1 else QUEUED_BUFFERS - 2)
    ∧ ∀ cs st, ∃ w'' ds out',
        run_op (FrameStart cs st) w' = Some w''
        ∧ done w'' = done w' ++ ds
        ∧ (vb <$> ds) ++ out' = out
        ∧ ring_ok (ring_of (chan w'')) out'
        ∧ num_buffers (chan w'') ≤ QUEUED_BUFFERS - 2
        ∧ (num_buffers (chan w') = QUEUED_BUFFERS - 1 →
           ∃ d ds', ds = d :: ds' ∧ head out = Some (vb d))
        ∧ (cs = CAPTURE_GOOD →
           Z.of_nat (length ds) = Z.max 0 (num_buffers (chan w') - 2)).
Proof.
  intros Hb Hs Hseq Hord.
  destruct (driver_order_ok (length ops) ops (fresh_ring w) []
              ltac:(lia) Hord (fresh_ring_ok _ Hb Hs Hseq) ltac:(simpl; lia))
    as (w' & out & E & Hok & Hlen).
  exists w', out. split; [exact E|]. split; [exact Hok|].
  assert (Hnum : ∀ w1 out1, ring_ok (ring_of (chan w1)) out1 →
                            num_buffers (chan w1) = Z.of_nat (length out1)).
  { intros w1 out1 Hok1. apply Hok1. }
  split.
  { rewrite (Hnum _ _ Hok). unfold QUEUED_BUFFERS.
    destruct (ends_with_add ops); lia. }
  split.
  { rewrite (Hnum _ _ Hok). unfold QUEUED_BUFFERS.
    destruct (ends_with_add ops); lia. }
  intros cs st.
  destruct (frame_start_op_ok cs st _ _ Hok)
    as (w'' & ds & out' & E' & Hd & Hvb & Hok' & Hlen' & Hgood).
  exists w'', ds, out'. split; [exact E'|]. split; [exact Hd|].
  split; [exact Hvb|]. split; [exact Hok'|]. split.
  { rewrite (Hnum _ _ Hok'). unfold QUEUED_BUFFERS. lia. }
  split.
  { rewrite (Hnum _ _ Hok). unfold QUEUED_BUFFERS. intros Hfull.
    destruct ds as [|d ds'].
    - cbn [fmap list_fmap app] in Hvb. subst out'. lia.
    - exists d, ds'. split; [reflexivity|]. rewrite <- Hvb. reflexivity. }
  intros Hcs. rewrite (Hgood Hcs), (Hnum _ _ Hok). lia.
Qed.

(** *** The two-frame lag *)

Lemma good_frames_ok bufs : ∀ w out,
  ring_good (ring_of (chan w)) out →
  ∃ w',
    run_ops (good_frames bufs) w = Some w'
    ∧ vb <$> done w'
      = (vb <$> done w)
        ++ take (length (out ++ bufs) - 2) (out ++ bufs)
    ∧ ring_good (ring_of (chan w')) (drop (length (out ++ bufs) - 2) (out ++ bufs)).
Proof.
  induction bufs as [|b bufs IH]; intros w out Hgood.
  - exists w. split; [reflexivity|].
    destruct Hgood as (Hok & Hlen & Hst).
    assert (Hz : (length (out ++ []) - 2 = 0)%nat)
      by (rewrite length_app; cbn [length]; lia).
    rewrite Hz, app_nil_r. cbn [take drop]. rewrite app_nil_r.
    split; [reflexivity|]. split; [exact Hok|]. split; [exact Hlen|exact Hst].
  - destruct (ring_good_frame b _ _ Hgood)
      as (ds & r & out' & E & Hvb & Hgood' & Hne & Hds & _).
    cbn [good_frames].
    rewrite run_ops_cons, run_op_add, bind_Some_l, run_ops_cons, run_op_frame_start.
    set (w1 := on_chan (set_capture_state CAPTURE_GOOD)
                 (on_chan (add_buffer_to_ring b) w)).
    assert (Hr1 : ring_of (chan w1) = ring_add b (ring_of (chan w))).
    { subst w1. unfold on_chan at 2. rewrite add_ring.
      destruct (ring_add b (ring_of (chan w))); reflexivity. }
    assert (Hcs1 : capture_state (chan w1) = CAPTURE_GOOD) by reflexivity.
    rewrite tegra_channel_ring_buffer_ring, Hr1, Hcs1, E.
    set (w2 := set_done (done w1 ++ ds) (on_chan (with_ring r) w1)).
    assert (E2 : ring_result w1 (Some (ds, r)) = Some w2) by reflexivity.
    rewrite E2, bind_Some_l.
    assert (Hr2 : ring_of (chan w2) = r) by (subst w2; destruct r; reflexivity).
    assert (Hd2 : done w2 = done w ++ ds) by reflexivity.
    destruct (IH w2 out') as (w' & E' & Hdone & Hgood'').
    { rewrite Hr2. exact Hgood'. }
    exists w'. split; [exact E'|].
    rewrite Hd2, fmap_app, <- app_assoc in Hdone.
    assert (Hl : out ++ b :: bufs = (vb <$> ds) ++ out' ++ bufs).
    { rewrite (app_assoc (vb <$> ds)), Hvb, <- app_assoc. reflexivity. }
    assert (Hn : (length ((vb <$> ds) ++ out' ++ bufs) - 2
                  = length (vb <$> ds) + (length (out' ++ bufs) - 2))%nat).
    { destruct Hgood as (_ & Hlen & _).
      assert (Hlds : length (vb <$> ds) = (length out - 1)%nat).
      { rewrite Hds, !length_fmap, length_take. lia. }
      assert (Hlo : (length (vb <$> ds) + length out' = length out + 1)%nat).
      { rewrite <- length_app, Hvb, length_app. reflexivity. }
      rewrite !length_app. lia. }
    rewrite Hl, Hn. split.
    + rewrite Hdone. f_equal. rewrite take_app_add'; reflexivity.
    + rewrite drop_app_add'; [exact Hgood''|reflexivity].
Qed.

Lemma fresh_ring_good w :
  length (buffers (chan w)) = 4%nat →
  length (buffer_state (chan w)) = 4%nat →
  0 ≤ sequence (chan w) < 2 ^ 32 →
  ring_good (ring_of (chan (fresh_ring w))) [].
Proof.
  intros Hb Hs Hseq. split; [apply fresh_ring_ok; assumption|].
  split; [simpl; lia|reflexivity].
Qed.

(** C5, amended: in an error-free run from an initialised ring, after
    the frame-start acknowledgement of the [k]-th buffer exactly the
    first [k - 2] buffers have been released, in order, so buffer [N]
    is released at the frame start of buffer [N + 2]; of the two
    buffers still in the ring the older one carries its confirmed
    state [VB2_BUF_STATE_DONE], written at the frame start of the
    buffer after it, and the newest the [VB2_BUF_STATE_ERROR] mark of
    [add_buffer_to_ring]. *)
Theorem two_frame_lag bufs w :
  length (buffers (chan w)) = 4%nat →
  length (buffer_state (chan w)) = 4%nat →
  0 ≤ sequence (chan w) < 2 ^ 32 →
  ∃ w',
    run_ops (good_frames bufs) (fresh_ring w) = Some w'
    ∧ vb <$> done w' = take (length bufs - 2) bufs
    ∧ outstanding (ring_of (chan w')) = Some <$> drop (length bufs - 2) bufs
    ∧ (bufs ≠ [] →
       outstanding_states (ring_of (chan w'))
       = replicate (length (drop (length bufs - 2) bufs) - 1)
           (Some VB2_BUF_STATE_DONE)
         ++ [Some VB2_BUF_STATE_ERROR]).
Proof.
  intros Hb Hs Hseq.
  destruct (good_frames_ok bufs _ _ (fresh_ring_good _ Hb Hs Hseq))
    as (w' & E & Hdone & Hok & Hlen & Hst).
  simpl in Hdone, Hok, Hlen, Hst.
  exists w'. split; [exact E|]. split; [exact Hdone|].
  split; [apply Hok|].
  intros Hne.
  destruct (drop (length bufs - 2) bufs) eqn:Ed.
  - apply (f_equal length) in Ed. rewrite length_drop in Ed. simpl in Ed.
    destruct bufs; [done|simpl in Ed; lia].
  - apply Hst.
Qed.

(** ** The CSI error check *)

Lemma u32_land_ones z : u32 z = Z.land z (Z.ones 32).
Proof. unfold u32. rewrite Z.land_ones by lia. reflexivity. Qed.

Lemma u32_testbit z i : 0 ≤ i < 32 → Z.testbit (u32 z) i = Z.testbit z i.
Proof.
  intros Hi. rewrite u32_land_ones, Z.land_spec, Z.ones_spec_low by lia.
  apply andb_true_r.
Qed.

Lemma land_bit_zero v n :
  0 ≤ n → (Z.land v (2 ^ n) = 0 ↔ Z.testbit v n = false).
Proof.
  intros Hn. split.
  - intros Hz. apply (f_equal (fun z => Z.testbit z n)) in Hz.
    rewrite Z.land_spec, Z.pow2_bits_true, andb_true_r, Z.bits_0 in Hz by lia.
    exact Hz.
  - intros Hb. apply Z.bits_inj'. intros i Hi.
    rewrite Z.land_spec, Z.bits_0.
    destruct (Z.eq_dec i n) as [->|Hne].
    + rewrite Hb. reflexivity.
    + rewrite Z.pow2_bits_false by lia. apply andb_false_r.
Qed.

Lemma land_bit_nonzero v n :
  0 ≤ n → (Z.land v (2 ^ n) ≠ 0 ↔ Z.testbit v n = true).
Proof.
  intros Hn. rewrite (land_bit_zero v n Hn).
  destruct (Z.testbit v n); split; congruence.
Qed.

Lemma land_mask_bound v m : 0 ≤ m → 0 ≤ Z.land v m ≤ m.
Proof.
  intros Hm. split; [apply Z.land_nonneg; right; exact Hm|].
  destruct (Z.eq_dec m 0) as [->|Hne]; [rewrite Z.land_0_r; lia|].
  assert (Hnn : 0 ≤ Z.land v m) by (apply Z.land_nonneg; right; exact Hm).
  assert (Hsub : Z.ldiff (Z.land v m) m = 0).
  { apply Z.bits_inj'. intros i Hi.
    rewrite Z.ldiff_spec, Z.land_spec, Z.bits_0.
    destruct (Z.testbit v i), (Z.testbit m i); reflexivity. }
  apply Z.ldiff_le in Hsub; lia.
Qed.

Lemma s32_zero_iff z : 0 ≤ z < 2 ^ 31 → (s32 z ≠ 0 ↔ z ≠ 0).
Proof. intros Hz. rewrite s32_small by exact Hz. reflexivity. Qed.

Lemma csi_error_word_bits pp cil cilx :
  let err := Z.lor (Z.lor (Z.lor 0 (Z.land pp 0x4000)) (Z.land cil 0x02))
               (Z.land cilx 0x00020020) in
  0 ≤ err < 2 ^ 31
  ∧ (err ≠ 0 ↔
     Z.testbit pp 14 = true ∨ Z.testbit cil 1 = true
     ∨ Z.testbit cilx 5 = true ∨ Z.testbit cilx 17 = true).
Proof.
  intros err. subst err. rewrite Z.lor_0_l.
  pose proof (land_mask_bound pp 0x4000 ltac:(lia)) as Hpp.
  pose proof (land_mask_bound cil 0x02 ltac:(lia)) as Hcil.
  pose proof (land_mask_bound cilx 0x00020020 ltac:(lia)) as Hcilx.
  split.
  - split.
    + apply Z.lor_nonneg. split; [apply Z.lor_nonneg|]; lia.
    + assert (Hle : ∀ a b, 0 ≤ a → 0 ≤ b → Z.lor a b ≤ a + b).
      { intros a b Ha Hb. pose proof (Z.add_lor_land a b) as Hs.
        assert (0 ≤ Z.land a b) by (apply Z.land_nonneg; left; exact Ha). lia. }
      assert (H1 : 0 ≤ Z.lor (Z.land pp 16384) (Z.land cil 2))
        by (apply Z.lor_nonneg; lia).
      pose proof (Hle (Z.land pp 16384) (Z.land cil 2) ltac:(lia) ltac:(lia)).
      pose proof (Hle (Z.lor (Z.land pp 16384) (Z.land cil 2)) (Z.land cilx 131104)
                    H1 ltac:(lia)).
      lia.
  - change 0x4000 with (2 ^ 14). change 0x02 with (2 ^ 1).
    change 0x00020020 with (Z.lor (2 ^ 5) (2 ^ 17)).
    rewrite Z.land_lor_distr_r.
    rewrite <- (land_bit_nonzero pp 14), <- (land_bit_nonzero cil 1),
      <- (land_bit_nonzero cilx 5), <- (land_bit_nonzero cilx 17) by lia.
    rewrite !Z.lor_eq_0_iff.
    destruct (Z.eq_dec (Z.land pp (2 ^ 14)) 0), (Z.eq_dec (Z.land cil (2 ^ 1)) 0),
      (Z.eq_dec (Z.land cilx (2 ^ 5)) 0), (Z.eq_dec (Z.land cilx (2 ^ 17)) 0);
      tauto.
Qed.

(** C8: [tegra_csi_error] writes back to each of the three status
    registers of the port exactly the value it read from it, which
    clears every bit that was set, and changes nothing else; the value
    it returns is non-zero if and only if bit 14 of the pixel-parser
    status, bit 1 of the CIL status, or bit 5 or 17 of the CILX status
    was set: it is the same for any two readings that agree on these
    four bits. *)
Theorem tegra_csi_error_uncorrectable hw port_num w :
  let pp := u32 (pixel_parser_status hw port_num) in
  let cil := u32 (cil_status hw port_num) in
  let cilx := u32 (cilx_status hw port_num) in
  let '(err, w') := Csi.tegra_csi_error hw port_num w in
  mmio w' = mmio w ++ [pp_write port_num TEGRA_CSI_PIXEL_PARSER_STATUS pp;
                       cil_write port_num TEGRA_CSI_CIL_STATUS cil;
                       cil_write port_num TEGRA_CSI_CILX_STATUS cilx]
  ∧ w1c pp pp = 0 ∧ w1c cil cil = 0 ∧ w1c cilx cilx = 0
  ∧ chan w' = chan w ∧ vi w' = vi w ∧ done w' = done w
  ∧ recovered w' = recovered w ∧ calls w' = calls w
  ∧ (err ≠ 0 ↔
     Z.testbit pp 14 = true ∨ Z.testbit cil 1 = true
     ∨ Z.testbit cilx 5 = true ∨ Z.testbit cilx 17 = true)
  ∧ ∀ hw',
      Z.land (pixel_parser_status hw' port_num) 0x4000
      = Z.land (pixel_parser_status hw port_num) 0x4000 →
      Z.land (cil_status hw' port_num) 0x02
      = Z.land (cil_status hw port_num) 0x02 →
      Z.land (cilx_status hw' port_num) 0x00020020
      = Z.land (cilx_status hw port_num) 0x00020020 →
      fst (Csi.tegra_csi_error hw' port_num w) = err.
Proof.
  intros pp cil cilx. unfold Csi.tegra_csi_error. cbv zeta.
  fold pp cil cilx.
  destruct (csi_error_word_bits pp cil cilx) as [Hrange Hiff]. cbv zeta in Hrange, Hiff.
  split.
  { destruct w; rsimpl. rewrite <- !app_assoc. reflexivity. }
  unfold w1c. rewrite !Z.land_lnot_diag.
  do 3 (split; [reflexivity|]).
  do 5 (split; [reflexivity|]).
  split.
  { rewrite s32_zero_iff by exact Hrange. exact Hiff. }
  intros hw' Hpp Hcil Hcilx. cbn [fst]. f_equal.
  assert (Hmask : ∀ v m, 0 ≤ m < 2 ^ 32 → Z.land (u32 v) m = Z.land v m).
  { intros v m Hm. rewrite u32_land_ones, <- Z.land_assoc.
    f_equal. rewrite Z.land_comm, Z.land_ones by lia. apply Z.mod_small. lia. }
  subst pp cil cilx. rewrite !Hmask by lia. rewrite Hpp, Hcil, Hcilx. reflexivity.
Qed.

(** ** The device-tree port lookup *)

Section Lookup.
Import Graph.
Variable of_node_cmp : string → string → Z.

Lemma for_each_child_skip body pre rest : ∀ l,
  Forall (fun n => ∀ l', ∃ l'', body l' n = Next l'' ∧ l_chan l'' = l_chan l') pre →
  ∃ l', for_each_child body (pre ++ rest) l = for_each_child body rest l'
        ∧ l_chan l' = l_chan l.
Proof.
  induction pre as [|n pre IH]; intros l Hpre.
  - exists l. split; reflexivity.
  - apply Forall_cons in Hpre as [Hn Hpre].
    destruct (Hn l) as (l1 & E1 & Hc1).
    destruct (IH l1 Hpre) as (l2 & E2 & Hc2).
    exists l2. split; [|congruence].
    cbn [app for_each_child]. rewrite E1. exact E2.
Qed.

Lemma visit_port_skips index p l :
  skips_port of_node_cmp index p →
  ∃ l', visit_port of_node_cmp index l p = Next l' ∧ l_chan l' = l_chan l.
Proof.
  unfold visit_port, of_property_read_u32.
  intros [Hname|[Hreg|(r & Hreg & Hne)]].
  - rewrite Hname. exists l. split; reflexivity.
  - destruct (node_is of_node_cmp p "port"); [|exists l; split; reflexivity].
    rewrite Hreg. cbn. eexists. split; reflexivity.
  - destruct (node_is of_node_cmp p "port"); [|exists l; split; reflexivity].
    rewrite Hreg. cbn. rewrite bool_decide_true by exact Hne.
    eexists. split; reflexivity.
Qed.

Lemma visit_endpoint_skips e l :
  node_is of_node_cmp e "endpoint" = false → visit_endpoint of_node_cmp l e = Next l.
Proof. intros Hname. unfold visit_endpoint. rewrite Hname. reflexivity. Qed.

Lemma visit_endpoint_wide_bus l ep csi bw :
  node_is of_node_cmp ep "endpoint" = true →
  find_property ep "csi-port" = Some csi →
  find_property ep "bus-width" = Some bw →
  12 < bw < 2 ^ 31 →
  visit_endpoint of_node_cmp l ep
  = Return (- EINVAL)
      (set_numlanes bw (set_port (<[0%nat := u8 (s32 csi)]> (port (l_chan l))) (l_chan l))).
Proof.
  intros Hname Hcsi Hbw Hrange.
  unfold visit_endpoint, of_property_read_u32.
  rewrite Hname, Hcsi, Hbw. cbn [negb].
  rewrite (s32_small bw) by lia.
  rewrite (u32_small bw) by lia.
  destruct (Z.ltb_spec 12 bw); [reflexivity|lia].
Qed.

Lemma ports_differ_refl c : ports_differ c c.
Proof. unfold ports_differ. destruct c. reflexivity. Qed.

Lemma ports_differ_trans c1 c2 c3 :
  ports_differ c1 c2 → ports_differ c2 c3 → ports_differ c1 c3.
Proof.
  unfold ports_differ. intros H12 H23. rewrite H23 at 1. rewrite H12 at 1.
  destruct c1. reflexivity.
Qed.

Lemma ports_differ_port l c : ports_differ c (set_port l c).
Proof. unfold ports_differ. destruct c. reflexivity. Qed.

Lemma ports_differ_numlanes n c : ports_differ c (set_numlanes n c).
Proof. unfold ports_differ. destruct c. reflexivity. Qed.

Lemma add_bricks_ports turns : ∀ i v c,
  ports_differ c (snd (add_bricks turns i v c)).
Proof.
  induction turns as [|turns IH]; intros i v c; cbn [add_bricks].
  - apply ports_differ_refl.
  - destruct (0 <? v); [|apply ports_differ_refl].
    eapply ports_differ_trans; [apply ports_differ_port|apply IH].
Qed.

Lemma visit_endpoint_ports l e l' :
  visit_endpoint of_node_cmp l e = Next l' → ports_differ (l_chan l) (l_chan l').
Proof.
  unfold visit_endpoint.
  destruct (negb (node_is of_node_cmp e "endpoint"));
    [intros [= <-]; apply ports_differ_refl|].
  destruct (of_property_read_u32 e "csi-port" (value l)) as [r1 v1].
  destruct (of_property_read_u32 e "bus-width" v1) as [r2 v2].
  destruct (12 <? v2); [discriminate|].
  pose proof (add_bricks_ports (Z.to_nat (s32 (v2 - 4))) 1 (s32 (v2 - 4))
                (set_numlanes (u32 v2)
                   (set_port (<[0%nat := u8 v1]> (port (l_chan l))) (l_chan l))))
    as Hb.
  destruct (add_bricks _ _ _ _) as [v3 c3]. cbn [snd] in Hb.
  intros [= <-]. cbn [l_chan].
  eapply ports_differ_trans; [|exact Hb].
  eapply ports_differ_trans; [apply ports_differ_port|apply ports_differ_numlanes].
Qed.

Lemma visit_endpoints_ports es : ∀ l l',
  for_each_child (visit_endpoint of_node_cmp) es l = Next l' →
  ports_differ (l_chan l) (l_chan l').
Proof.
  induction es as [|e es IH]; intros l l'; cbn [for_each_child].
  - intros [= <-]. apply ports_differ_refl.
  - destruct (visit_endpoint of_node_cmp l e) as [code c1|l1] eqn:E; [discriminate|].
    intros E'. eapply ports_differ_trans;
      [apply (visit_endpoint_ports _ _ _ E)|apply (IH _ _ E')].
Qed.

Lemma visit_port_ports index l p l' :
  visit_port of_node_cmp index l p = Next l' → ports_differ (l_chan l) (l_chan l').
Proof.
  unfold visit_port.
  destruct (negb (node_is of_node_cmp p "port"));
    [intros [= <-]; apply ports_differ_refl|].
  destruct (of_property_read_u32 p "reg" (value l)) as [r1 v1].
  destruct (r1 <? 0); [intros [= <-]; apply ports_differ_refl|].
  destruct (bool_decide (u32 v1 ≠ index)); [intros [= <-]; apply ports_differ_refl|].
  intros E. apply (visit_endpoints_ports _ _ _ E).
Qed.

Lemma visit_ports_ports index ps : ∀ l l',
  for_each_child (visit_port of_node_cmp index) ps l = Next l' →
  ports_differ (l_chan l) (l_chan l').
Proof.
  induction ps as [|p ps IH]; intros l l'; cbn [for_each_child].
  - intros [= <-]. apply ports_differ_refl.
  - destruct (visit_port of_node_cmp index l p) as [code c1|l1] eqn:E; [discriminate|].
    intros E'. eapply ports_differ_trans;
      [apply (visit_port_ports _ _ _ _ E)|apply (IH _ _ E')].
Qed.

Lemma for_each_child_next body pre rest l l' :
  for_each_child body pre l = Next l' →
  for_each_child body (pre ++ rest) l = for_each_child body rest l'.
Proof.
  revert l. induction pre as [|n pre IH]; intros l; cbn [app for_each_child].
  - intros [= ->]. reflexivity.
  - destruct (body l n); [discriminate|]. apply IH.
Qed.

(** C9, amended: when the lookup for the port [index] reaches an
    endpoint that has a [csi-port] property and a [bus-width] above 12
    (and below [2^31]), that is when the walk over the children before
    the port and over the endpoints before it in the port has not
    returned, [tegra_vi_get_port_info] returns [-EINVAL] at once,
    having stored the endpoint's csi-port in [port[0]] and its
    bus-width in [numlanes] before the check.  Nothing is rolled back:
    the channel it leaves is the channel as the endpoints visited
    before left it, with these two stores.  No field other than
    [port] and [numlanes] is changed by the walk, and when no endpoint
    was visited before, [port[0]] and [numlanes] are the only
    changes. *)
Theorem get_port_info_wide_bus c node index pre p post epre ep epost reg csi bw l1 l2 :
  children (ports_of of_node_cmp node) = pre ++ p :: post →
  for_each_child (visit_port of_node_cmp index) pre
    {| l_chan := c; value := 0xFFFF; ret := 0 |} = Next l1 →
  node_is of_node_cmp p "port" = true →
  find_property p "reg" = Some reg →
  u32 (s32 reg) = index →
  children p = epre ++ ep :: epost →
  for_each_child (visit_endpoint of_node_cmp) epre
    {| l_chan := l_chan l1; value := s32 reg; ret := 0 |} = Next l2 →
  node_is of_node_cmp ep "endpoint" = true →
  find_property ep "csi-port" = Some csi →
  find_property ep "bus-width" = Some bw →
  12 < bw < 2 ^ 31 →
  tegra_vi_get_port_info of_node_cmp c node index
  = (- EINVAL,
     set_numlanes bw
       (set_port (<[0%nat := u8 (s32 csi)]> (port (l_chan l2))) (l_chan l2)))
  ∧ ports_differ c (l_chan l2)
  ∧ (Forall (skips_port of_node_cmp index) pre →
     Forall (fun e => node_is of_node_cmp e "endpoint" = false) epre →
     l_chan l2 = c).
Proof.
  intros Hports Hpre Hname Hreg Hindex Heps Hepre Hep Hcsi Hbw Hrange.
  split; [|split].
  - unfold tegra_vi_get_port_info. fold (ports_of of_node_cmp node).
    rewrite Hports, (for_each_child_next _ _ _ _ _ Hpre). cbn [for_each_child].
    assert (Hvisit : visit_port of_node_cmp index l1 p
                     = Return (- EINVAL)
                         (set_numlanes bw
                            (set_port (<[0%nat := u8 (s32 csi)]> (port (l_chan l2)))
                               (l_chan l2)))).
    { unfold visit_port, of_property_read_u32.
      rewrite Hname, Hreg. cbn [negb].
      change (0 <? 0) with false. cbv iota.
      rewrite bool_decide_false by (intros Hne; apply Hne; exact Hindex).
      rewrite Heps, (for_each_child_next _ _ _ _ _ Hepre). cbn [for_each_child].
      rewrite (visit_endpoint_wide_bus l2 ep csi bw Hep Hcsi Hbw Hrange).
      reflexivity. }
    rewrite Hvisit. reflexivity.
  - eapply ports_differ_trans.
    + apply (visit_ports_ports _ _ _ _ Hpre).
    + apply (visit_endpoints_ports _ _ _ Hepre).
  - intros Hskip Hnone.
    destruct (for_each_child_skip (visit_port of_node_cmp index) pre []
                {| l_chan := c; value := 0xFFFF; ret := 0 |}) as (l1' & E1 & Hc1).
    { eapply Forall_impl; [exact Hskip|]. intros n Hn l'.
      apply visit_port_skips. exact Hn. }
    rewrite app_nil_r, Hpre in E1. cbn [for_each_child] in E1.
    injection E1 as <-. cbn [l_chan] in Hc1.
    destruct (for_each_child_skip (visit_endpoint of_node_cmp) epre []
                {| l_chan := l_chan l1; value := s32 reg; ret := 0 |})
      as (l2' & E2 & Hc2).
    { eapply Forall_impl; [exact Hnone|]. intros e He l'.
      exists l'. split; [apply visit_endpoint_skips; exact He|reflexivity]. }
    rewrite app_nil_r, Hepre in E2. cbn [for_each_child] in E2.
    injection E2 as <-. cbn [l_chan] in Hc2. congruence.
Qed.

End Lookup.

(** ** Gang-mode geometry *)

Lemma u32_idemp z : u32 (u32 z) = u32 z.
Proof. unfold u32. apply Z.mod_mod. lia. Qed.

Lemma align_round_up x k :
  0 ≤ k →
  Z.land (u32 (x + 2 ^ k - 1)) (Gang.not32 (2 ^ k - 1)) = u32 (round_up x (2 ^ k)).
Proof.
  intros Hk. unfold Gang.not32, round_up.
  assert (Hones : 2 ^ k - 1 = Z.ones k) by (rewrite Z.ones_equiv; lia).
  rewrite Hones.
  replace (x + 2 ^ k - 1) with (x + Z.ones k) by lia.
  rewrite <- Z.shiftr_div_pow2, <- Z.shiftl_mul_pow2 by exact Hk.
  rewrite <- Z.ldiff_ones_r by exact Hk.
  rewrite !u32_land_ones.
  apply Z.bits_inj'. intros i Hi.
  rewrite !Z.land_spec, Z.ldiff_spec, Z.lnot_spec by exact Hi.
  destruct (Z.testbit (x + Z.ones k) i), (Z.testbit (Z.ones 32) i),
    (Z.testbit (Z.ones k) i); reflexivity.
Qed.

Lemma round_up_multiple x a :
  0 < a → x ≤ round_up x a < x + a ∧ round_up x a mod a = 0.
Proof.
  intros Ha. unfold round_up.
  pose proof (Z.div_mod (x + a - 1) a ltac:(lia)) as Hdm.
  pose proof (Z.mod_pos_bound (x + a - 1) a Ha) as Hm.
  split; [nia|]. apply Z.mod_mul. lia.
Qed.

Lemma image_size_field h x off :
  0 ≤ off → 0 ≤ x < 2 ^ off →
  Z.lor (u32 (Z.shiftl h off)) x mod 2 ^ off = x.
Proof.
  intros Hoff Hx.
  rewrite <- Z.land_ones, Z.land_lor_distr_l by exact Hoff.
  assert (Hlow : Z.land (u32 (Z.shiftl h off)) (Z.ones off) = 0).
  { apply Z.bits_inj'. intros i Hi.
    rewrite u32_land_ones, !Z.land_spec, Z.bits_0.
    destruct (Z.ltb_spec i off).
    - rewrite Z.shiftl_spec_low by lia. reflexivity.
    - rewrite (Z.ones_spec_high off) by lia. apply andb_false_r. }
  rewrite Hlow, Z.lor_0_l, Z.land_ones by exact Hoff.
  apply Z.mod_small. exact Hx.
Qed.

Section Geometry.
Context `{kernel_headers}.

(** C7: on a channel with two ports whose format is wider than 1920
    and higher than 1080, [update_gang_mode] selects the left-right
    gang mode with both ports valid and [gang_width = W / 2]; with a
    power of two for [TEGRA_SURFACE_ALIGNMENT], [buffer_offset[1]] is
    [gang_bytesperline] rounded up to a multiple of it, in 32-bit
    arithmetic; and [tegra_channel_capture_setup] then writes to
    [TEGRA_VI_CSI_IMAGE_SIZE] of port index 0 and of port index 1 the
    gang height shifted by [IMAGE_SIZE_HEIGHT_OFFSET], or-ed with
    [W / 2], whose width field reads [W / 2]. *)
Theorem gang_left_right_geometry c k :
  total_ports c = 2 →
  1920 < s32 (width (format c)) →
  1080 < s32 (height (format c)) →
  TEGRA_SURFACE_ALIGNMENT = 2 ^ k → 0 ≤ k →
  (2 ≤ length (buffer_offset c))%nat →
  let c' := Gang.update_gang_mode c in
  let W := width (format c) in
  let size := Z.lor (u32 (Z.shiftl (gang_height c') IMAGE_SIZE_HEIGHT_OFFSET)) (W / 2) in
  gang_mode c' = CAMERA_GANG_L_R
  ∧ valid_ports c' = 2
  ∧ gang_width c' = W / 2
  ∧ gang_bytesperline c' = u32 (W / 2 * bpp (fmtinfo c))
  ∧ buffer_offset c' !! 1%nat
    = Some (u32 (round_up (gang_bytesperline c') TEGRA_SURFACE_ALIGNMENT))
  ∧ (gang_bytesperline c' + TEGRA_SURFACE_ALIGNMENT ≤ 2 ^ 32 →
     buffer_offset c' !! 1%nat
     = Some (round_up (gang_bytesperline c') TEGRA_SURFACE_ALIGNMENT))
  ∧ (∀ w, chan w = c' →
          image_size_writes (mmio (snd (tegra_channel_capture_setup w)))
          = image_size_writes (mmio w) ++ [(0%nat, size); (1%nat, size)])
  ∧ (0 ≤ IMAGE_SIZE_HEIGHT_OFFSET → 0 ≤ W / 2 < 2 ^ IMAGE_SIZE_HEIGHT_OFFSET →
     size mod 2 ^ IMAGE_SIZE_HEIGHT_OFFSET = W / 2).
Proof.
  intros Hports Hw Hh Halign Hk Hlen c' W size.
  assert (Hc' : c' = Gang.gang_buffer_offsets
                       (set_gang_sizeimage
                          (u32 (u32 (W / 2 * bpp (fmtinfo c)) * height (format c)))
                          (set_gang_bytesperline (u32 (W / 2 * bpp (fmtinfo c)))
                             (set_gang_height (height (format c))
                                (set_gang_width (W / 2)
                                   (set_valid_ports 2
                                      (set_gang_mode CAMERA_GANG_L_R c))))))).
  { subst c' W. unfold Gang.update_gang_mode.
    destruct (Z.ltb_spec 1920 (s32 (width (format c)))); [|lia].
    destruct (Z.ltb_spec 1080 (s32 (height (format c)))); [|lia].
    cbn [andb]. rewrite Hports.
    unfold Gang.update_gang_mode_params, Gang.gang_mode_width, Gang.gang_mode_height.
    destruct c; rsimpl.
    rewrite bool_decide_true by (left; reflexivity).
    rewrite bool_decide_false by (intros [?|?]; discriminate).
    rewrite Z.shiftr_div_pow2 by lia. reflexivity. }
  set (gbpl := u32 (W / 2 * bpp (fmtinfo c))) in *.
  assert (Hoff : ∃ o0,
            buffer_offset c'
            = <[1%nat := u32 (round_up gbpl TEGRA_SURFACE_ALIGNMENT)]>
                (<[0%nat := o0]> (buffer_offset c))
            ∧ gang_mode c' = CAMERA_GANG_L_R ∧ valid_ports c' = 2
            ∧ gang_width c' = W / 2 ∧ gang_bytesperline c' = gbpl
            ∧ gang_height c' = height (format c)
            ∧ fmtinfo c' = fmtinfo c ∧ format c' = format c).
  { rewrite Hc'. unfold Gang.gang_buffer_offsets.
    assert (Htp : ∀ c0, total_ports (set_gang_sizeimage (u32 (gbpl * height (format c)))
                    (set_gang_bytesperline gbpl
                       (set_gang_height (height (format c))
                          (set_gang_width (W / 2)
                             (set_valid_ports 2 (set_gang_mode CAMERA_GANG_L_R c0))))))
                        = total_ports c0) by (intros c0; reflexivity).
    rewrite Htp, Hports.
    change (seq 0 (Z.to_nat 2)) with [0%nat; 1%nat]. cbn [fold_left].
    unfold Gang.gang_buffer_offset.
    destruct c; rsimpl.
    rewrite !(bool_decide_true (_ ∨ _)) by (right; left; reflexivity).
    rewrite Halign, align_round_up by exact Hk.
    rewrite Z.mul_1_l, u32_idemp.
    eexists. repeat split; reflexivity. }
  destruct Hoff as (o0 & Hbo & Hgm & Hvp & Hgw & Hgb & Hgh & Hfi & Hfmt).
  split; [exact Hgm|]. split; [exact Hvp|]. split; [exact Hgw|].
  split; [exact Hgb|].
  assert (Hl1 : buffer_offset c' !! 1%nat
                = Some (u32 (round_up gbpl TEGRA_SURFACE_ALIGNMENT))).
  { rewrite Hbo. apply list_lookup_insert_eq. rewrite length_insert. lia. }
  split; [rewrite Hgb; exact Hl1|].
  split.
  { intros Hfit. rewrite Hgb in *. rewrite Hl1. f_equal.
    apply u32_small.
    assert (Hpos : 0 < TEGRA_SURFACE_ALIGNMENT)
      by (rewrite Halign; apply Z.pow_pos_nonneg; lia).
    pose proof (round_up_multiple gbpl _ Hpos) as [Hr _].
    assert (0 ≤ gbpl) by apply u32_nonneg. lia. }
  split.
  { intros w Hchan. unfold tegra_channel_capture_setup. cbv zeta.
    rewrite Hchan, Hvp. change (1 <? 2) with true. cbv iota.
    change (for_index 2 ?body ?w0) with (body 1%nat (body 0%nat w0)).
    cbv beta. rewrite Hgw. fold size.
    destruct w; rsimpl. cbn [snd]. rsimpl.
    unfold image_size_writes. rewrite <- !app_assoc, omap_app. reflexivity. }
  intros Hoffset Hfield. apply image_size_field; assumption.
Qed.

End Geometry.

(** ** Stopping a stopped channel *)

Section Stop.
Context `{kernel_headers}.

Lemma io_only_writel m : io_only (writel m).
Proof. intros w. repeat split. Qed.

Lemma io_only_call e : io_only (call e).
Proof. intros w. repeat split. Qed.

Lemma io_only_then f g : io_only f → io_only g → io_only (fun w => g (f w)).
Proof.
  intros Hf Hg w. destruct (Hf w) as (? & ? & ? & ?).
  destruct (Hg (f w)) as (? & ? & ? & ?). repeat split; congruence.
Qed.

Lemma io_only_apply f w w0 :
  io_only f →
  chan w = chan w0 ∧ vi w = vi w0 ∧ done w = done w0 ∧ recovered w = recovered w0 →
  chan (f w) = chan w0 ∧ vi (f w) = vi w0
  ∧ done (f w) = done w0 ∧ recovered (f w) = recovered w0.
Proof.
  intros Hf (? & ? & ? & ?). destruct (Hf w) as (? & ? & ? & ?).
  repeat split; congruence.
Qed.

Lemma io_only_list {A} (body : A → world → world) (l : list A) :
  (∀ i, io_only (body i)) →
  io_only (fun w => fold_left (fun w i => body i w) l w).
Proof.
  intros Hbody. induction l as [|i l IH]; intros w; cbn [fold_left].
  - repeat split.
  - destruct (Hbody i w) as (? & ? & ? & ?).
    destruct (IH (body i w)) as (? & ? & ? & ?). repeat split; congruence.
Qed.

Lemma io_only_for_index n body :
  (∀ i, io_only (body i)) → io_only (for_index n body).
Proof. intros Hbody. apply (io_only_list body). exact Hbody. Qed.

Lemma io_only_clear_singleshot index : io_only (tegra_channel_clear_singleshot index).
Proof. intros w. repeat split. Qed.

Lemma set_stream_stopped hw w :
  is_streaming (chan w) = false → tegra_channel_set_stream hw false w = (0, w).
Proof.
  intros Hs. unfold tegra_channel_set_stream.
  rewrite bool_decide_true by exact Hs. reflexivity.
Qed.

Lemma queued_buf_done_nothing st w :
  capture (chan w) = [] → tegra_channel_queued_buf_done st w = w.
Proof.
  intros Hq. unfold tegra_channel_queued_buf_done. rewrite Hq. cbn [fold_left].
  destruct w as [c v d r m cl]. destruct c. cbn in Hq. subst. reflexivity.
Qed.

Lemma update_clknbw_off w :
  let w' := tegra_channel_update_clknbw 0 w in
  chan w' = set_requested_hz 0
              (set_requested_kbyteps (s32 (- format_kbyteps (chan w))) (chan w))
  ∧ vi w' = {| pg_mode := pg_mode (vi w);
               aggregated_kbyteps :=
                 ulong (aggregated_kbyteps (vi w) + s32 (- format_kbyteps (chan w))) |}
  ∧ done w' = done w ∧ recovered w' = recovered w.
Proof.
  unfold tegra_channel_update_clknbw, format_kbyteps.
  change (0 <? 0) with false. cbv iota zeta.
  destruct w as [c v d r m cl]. destruct c, v. rsimpl.
  assert (He : ∀ z, -1 * z = - z) by (intros; lia).
  rewrite !He. repeat split.
Qed.

Lemma stop_streaming_tail hw w :
  is_streaming (chan w) = false →
  let w2 :=
    if bool_decide (pg_mode (vi w) = 0)
    then call media_entity_pipeline_stop (snd (tegra_channel_set_stream hw false w))
    else w in
  let w3 := if negb (bypass (chan w2)) then tegra_channel_update_clknbw 0 w2 else w2 in
  let w' := call tegra_mipi_bias_pad_disable w3 in
  chan w'
  = (if bypass (chan w) then chan w
     else set_requested_hz 0
            (set_requested_kbyteps (s32 (- format_kbyteps (chan w))) (chan w)))
  ∧ vi w'
    = (if bypass (chan w) then vi w
       else {| pg_mode := pg_mode (vi w);
               aggregated_kbyteps :=
                 ulong (aggregated_kbyteps (vi w) + s32 (- format_kbyteps (chan w))) |})
  ∧ done w' = done w ∧ recovered w' = recovered w.
Proof.
  intros Hs w2 w3 w'.
  assert (H2 : chan w2 = chan w ∧ vi w2 = vi w
               ∧ done w2 = done w ∧ recovered w2 = recovered w).
  { subst w2. rewrite set_stream_stopped by exact Hs. cbn [snd].
    destruct (bool_decide _); repeat split. }
  destruct H2 as (Hc2 & Hv2 & Hd2 & Hr2).
  assert (H3 : chan w' = chan w3 ∧ vi w' = vi w3
               ∧ done w' = done w3 ∧ recovered w' = recovered w3)
    by apply io_only_call.
  destruct H3 as (-> & -> & -> & ->).
  subst w3. rewrite Hc2. destruct (bypass (chan w)); cbn [negb].
  - repeat split; assumption.
  - destruct (update_clknbw_off w2) as (Hc3 & Hv3 & Hd3 & Hr3).
    cbv zeta in Hc3, Hv3, Hd3, Hr3.
    rewrite Hc3, Hv3, Hd3, Hr3, Hc2, Hv2. repeat split; assumption.
Qed.

(** On a channel that is not streaming and holds no buffer,
    [tegra_channel_stop_streaming] returns 0 and leaves the capture
    state, the ring, the submission queue and the completion and
    recovery records as they are; outside bypass mode it stores the
    bandwidth request of a stopped channel and subtracts the
    bandwidth from the VI device's [aggregated_kbyteps]. *)
Lemma stop_on_stopped hw w :
  stopped w →
  ∃ w',
    tegra_channel_stop_streaming hw w = Some (0, w')
    ∧ capture_state (chan w') = capture_state (chan w)
    ∧ chan w'
      = (if bypass (chan w) then chan w
         else set_requested_hz 0
                (set_requested_kbyteps (s32 (- format_kbyteps (chan w))) (chan w)))
    ∧ (requested_kbyteps (chan w) = s32 (- format_kbyteps (chan w)) →
       requested_hz (chan w) = 0 → chan w' = chan w)
    ∧ vi w'
      = (if bypass (chan w) then vi w
         else {| pg_mode := pg_mode (vi w);
                 aggregated_kbyteps :=
                   ulong (aggregated_kbyteps (vi w)
                          + s32 (- format_kbyteps (chan w))) |})
    ∧ done w' = done w ∧ recovered w' = recovered w.
Proof.
  intros (Hs & Hk & Hn & Hq).
  unfold tegra_channel_stop_streaming. cbv zeta.
  match goal with
  | |- ∃ w', ?first ≫= _ = _ ∧ _ =>
      assert (Hfirst : ∃ w1, first = Some w1
                ∧ chan w1 = chan w ∧ vi w1 = vi w
                ∧ done w1 = done w ∧ recovered w1 = recovered w)
  end.
  { destruct (bypass (chan w)); cbn [negb]; [exists w; repeat split|].
    rewrite Hs. cbn [andb]. rewrite bind_Some_l.
    unfold tegra_channel_stop_kthreads. rewrite Hk.
    rewrite Hn. change (s32 0) with 0.
    change (free_ring_buffers 0 w) with (Some w). rewrite bind_Some_l.
    rewrite queued_buf_done_nothing by exact Hq.
    eexists. split; [reflexivity|].
    apply (io_only_apply _ _ _ (io_only_call _)).
    apply (io_only_apply _ _ _ (io_only_writel _)).
    apply (io_only_apply (for_index _ _)).
    { apply io_only_for_index. intros index w0.
      destruct (bool_decide _).
      - apply (io_only_then _ _ (io_only_call _) (io_only_clear_singleshot index)).
      - apply io_only_call. }
    apply (io_only_apply _ _ _ (io_only_writel _)).
    repeat split. }
  destruct Hfirst as (w1 & E1 & Hc1 & Hv1 & Hd1 & Hr1).
  rewrite E1, bind_Some_l.
  assert (Hs1 : is_streaming (chan w1) = false) by (rewrite Hc1; exact Hs).
  destruct (stop_streaming_tail hw w1 Hs1) as (Hc & Hv & Hd & Hr).
  cbv zeta in Hc, Hv, Hd, Hr.
  eexists. split; [reflexivity|].
  rewrite Hc, Hv, Hd, Hr, Hc1, Hv1, Hd1, Hr1.
  split; [destruct (bypass (chan w)); reflexivity|].
  split; [reflexivity|].
  split; [|repeat split].
  intros Hkb Hhz. destruct (bypass (chan w)); [reflexivity|].
  destruct (chan w). cbn in Hkb, Hhz. rsimpl. rewrite <- Hkb, Hhz. reflexivity.
Qed.

(** What every return of [tegra_channel_stop_streaming] leaves in the
    channel's bandwidth request. *)
Lemma stop_leaves_requests hw w r w' :
  tegra_channel_stop_streaming hw w = Some (r, w') →
  bypass (chan w') = true
  ∨ (requested_kbyteps (chan w') = s32 (- format_kbyteps (chan w'))
     ∧ requested_hz (chan w') = 0).
Proof.
  unfold tegra_channel_stop_streaming. cbv zeta.
  match goal with
  | |- ?first ≫= _ = _ → _ => destruct first as [w1|]; [|discriminate]
  end.
  rewrite bind_Some_l.
  match goal with
  | |- context [if bool_decide (pg_mode (vi w1) = 0) then ?a else ?b] =>
      generalize (if bool_decide (pg_mode (vi w1) = 0) then a else b)
  end.
  intros w2 [= <- <-].
  destruct (io_only_call tegra_mipi_bias_pad_disable
              (if negb (bypass (chan w2)) then tegra_channel_update_clknbw 0 w2 else w2))
    as (-> & _).
  destruct (bypass (chan w2)) eqn:Hb; cbn [negb]; [left; exact Hb|right].
  destruct (update_clknbw_off w2) as (-> & _).
  destruct (chan w2). split; reflexivity.
Qed.


End Stop.

(** ** The statements on sample data *)

Section Samples.
#[local] Existing Instance Sample.headers.

Lemma hw_ok_good : hw_good Sample.hw_ok.
Proof. repeat split. Qed.

Lemma five_buffers_good : turns_good Sample.five_buffers.
Proof.
  intros hw Hin. unfold Sample.five_buffers in Hin.
  repeat (apply elem_of_cons in Hin as [Heq|Hin];
          [first [discriminate Heq | injection Heq as ->; exact hw_ok_good]|]).
  apply elem_of_nil in Hin. destruct Hin.
Qed.

Lemma world_in_flight_ok :
  ring_ok (ring_of (chan Sample.world_in_flight)) ([] ++ [buf (Sample.buffer 1)]).
Proof.
  unfold ring_ok.
  repeat split;
    first [ vm_compute; reflexivity | vm_compute; intros; discriminate
          | vm_compute; lia ].
Qed.

(** C1 as stated fails: five buffers submitted and captured on
    hardware that completes every frame in time with no error status
    are completed in submission order, the ring is empty after the
    stop, but the first two and the last are completed with
    [VB2_BUF_STATE_ERROR]. *)
Lemma session_not_all_done :
  hw_good Sample.hw_ok
  ∧ done <$> session Sample.hw_ok Sample.five_buffers Sample.hw_ok Sample.world0
    = Some [ {| vb := 1%nat; state := VB2_BUF_STATE_ERROR; v4l2_sequence := Some 0 |};
             {| vb := 2%nat; state := VB2_BUF_STATE_ERROR; v4l2_sequence := Some 1 |};
             {| vb := 3%nat; state := VB2_BUF_STATE_DONE; v4l2_sequence := Some 2 |};
             {| vb := 4%nat; state := VB2_BUF_STATE_DONE; v4l2_sequence := Some 3 |};
             {| vb := 5%nat; state := VB2_BUF_STATE_ERROR; v4l2_sequence := Some 4 |} ]
  ∧ ¬ (∀ w', session Sample.hw_ok Sample.five_buffers Sample.hw_ok Sample.world0
             = Some w' →
             Forall (fun d => state d = VB2_BUF_STATE_DONE) (done w')).
Proof.
  split; [exact hw_ok_good|]. split; [vm_compute; reflexivity|].
  intros Hall.
  destruct (session Sample.hw_ok Sample.five_buffers Sample.hw_ok Sample.world0)
    as [w'|] eqn:E; [|vm_compute in E; discriminate E].
  specialize (Hall w' eq_refl).
  assert (Hd : done <$> Some w' = done <$> session Sample.hw_ok Sample.five_buffers
                                     Sample.hw_ok Sample.world0)
    by (rewrite E; reflexivity).
  vm_compute in Hd. injection Hd as Hd.
  change (done w') with (let (_, _, d, _, _, _) := w' in d) in Hall.
  rewrite Hd in Hall. apply Forall_cons in Hall as [Hall _]. discriminate Hall.
Qed.

Lemma session_completions_witness :
  ∃ w',
    session Sample.hw_ok Sample.five_buffers Sample.hw_ok Sample.world0 = Some w'
    ∧ done w'
      = done Sample.world0
        ++ imap (expected_done
                   (length (capture (chan Sample.world0)
                            ++ submitted Sample.five_buffers)))
             (capture (chan Sample.world0) ++ submitted Sample.five_buffers)
    ∧ num_buffers (chan w') = 0.
Proof.
  apply (session_completions Sample.hw_ok Sample.five_buffers Sample.hw_ok
           Sample.world0).
  - reflexivity.
  - reflexivity.
  - reflexivity.
  - right. vm_compute. discriminate.
  - reflexivity.
  - exact five_buffers_good.
  - reflexivity.
  - vm_compute. reflexivity.
Defined.

Lemma capture_frame_timeout_witness :
  ∃ w' ds,
    tegra_channel_capture_frame Sample.hw_timeout (Sample.buffer 1)
      Sample.world_in_flight = Some (0, w')
    ∧ capture_state (chan w') = CAPTURE_TIMEOUT
    ∧ recovered w' = recovered Sample.world_in_flight
                     ++ valid_port_list Sample.world_in_flight
    ∧ done w' = done Sample.world_in_flight ++ ds
    ∧ vb <$> ds = [] ++ [buf (Sample.buffer 1)]
    ∧ Forall (fun d => state d = VB2_BUF_STATE_ERROR) ds.
Proof.
  apply (capture_frame_timeout Sample.hw_timeout Sample.world_in_flight
           (Sample.buffer 1) []).
  - exact world_in_flight_ok.
  - right. right. reflexivity.
  - exists 0%nat. split; [vm_compute; lia|vm_compute; discriminate].
Defined.

Lemma capture_frame_error_status_witness :
  ∃ w' ds,
    tegra_channel_capture_frame Sample.hw_error (Sample.buffer 1)
      Sample.world_in_flight = Some (0, w')
    ∧ capture_state (chan w') = CAPTURE_ERROR
    ∧ recovered w' = recovered Sample.world_in_flight
    ∧ done w' = done Sample.world_in_flight ++ ds
    ∧ vb <$> ds = [] ++ [buf (Sample.buffer 1)]
    ∧ Forall (fun d => state d = VB2_BUF_STATE_ERROR) ds.
Proof.
  apply (capture_frame_error_status Sample.hw_error Sample.world_in_flight
           (Sample.buffer 1) []).
  - exact world_in_flight_ok.
  - right. right. reflexivity.
  - intros index _. reflexivity.
  - reflexivity.
  - vm_compute. discriminate.
Defined.

Lemma ring_capacity_driver_order_witness :
  ∃ w' out,
    run_ops [Add 1%nat; FrameStart CAPTURE_GOOD VB2_BUF_STATE_DONE;
             Add 2%nat; FrameStart CAPTURE_GOOD VB2_BUF_STATE_DONE;
             Add 3%nat; FrameStart CAPTURE_GOOD VB2_BUF_STATE_DONE;
             Add 4%nat]
      (fresh_ring Sample.world0) = Some w'
    ∧ ring_ok (ring_of (chan w')) out
    ∧ 0 ≤ num_buffers (chan w') ≤ QUEUED_BUFFERS
    ∧ num_buffers (chan w')
      ≤ (if ends_with_add
              [Add 1%nat; FrameStart CAPTURE_GOOD VB2_BUF_STATE_DONE;
               Add 2%nat; FrameStart CAPTURE_GOOD VB2_BUF_STATE_DONE;
               Add 3%nat; FrameStart CAPTURE_GOOD VB2_BUF_STATE_DONE;
               Add 4%nat]
         then QUEUED_BUFFERS - 1 else QUEUED_BUFFERS - 2)
    ∧ ∀ cs st, ∃ w'' ds out',
        run_op (FrameStart cs st) w' = Some w''
        ∧ done w'' = done w' ++ ds
        ∧ (vb <$> ds) ++ out' = out
        ∧ ring_ok (ring_of (chan w'')) out'
        ∧ num_buffers (chan w'') ≤ QUEUED_BUFFERS - 2
        ∧ (num_buffers (chan w') = QUEUED_BUFFERS - 1 →
           ∃ d ds', ds = d :: ds' ∧ head out = Some (vb d))
        ∧ (cs = CAPTURE_GOOD →
           Z.of_nat (length ds) = Z.max 0 (num_buffers (chan w') - 2)).
Proof.
  apply (ring_capacity_driver_order
           [Add 1%nat; FrameStart CAPTURE_GOOD VB2_BUF_STATE_DONE;
            Add 2%nat; FrameStart CAPTURE_GOOD VB2_BUF_STATE_DONE;
            Add 3%nat; FrameStart CAPTURE_GOOD VB2_BUF_STATE_DONE;
            Add 4%nat]
           Sample.world0).
  - reflexivity.
  - reflexivity.
  - vm_compute. split; [intros; discriminate|reflexivity].
  - reflexivity.
Defined.

(** C5 as stated fails: the confirmed state of buffer 1 is in its slot
    after the frame-start acknowledgement of buffer 2, one frame after
    its own, not two; the slot held the [VB2_BUF_STATE_ERROR] mark
    before that acknowledgement and the buffer is not yet released. *)
Lemma state_written_one_frame_later :
  (fun w' => (buffers (chan w'), buffer_state (chan w'), done w'))
    <$> run_ops [Init; Add 1%nat; FrameStart CAPTURE_GOOD VB2_BUF_STATE_DONE;
                 Add 2%nat]
          Sample.world0
  = Some ([Some 1%nat; Some 2%nat; None; None],
          [VB2_BUF_STATE_ERROR; VB2_BUF_STATE_ERROR;
           VB2_BUF_STATE_QUEUED; VB2_BUF_STATE_QUEUED], [])
  ∧ (fun w' => (buffers (chan w'), buffer_state (chan w'), done w'))
      <$> run_ops [Init; Add 1%nat; FrameStart CAPTURE_GOOD VB2_BUF_STATE_DONE;
                   Add 2%nat; FrameStart CAPTURE_GOOD VB2_BUF_STATE_DONE]
            Sample.world0
    = Some ([Some 1%nat; Some 2%nat; None; None],
            [VB2_BUF_STATE_DONE; VB2_BUF_STATE_ERROR;
             VB2_BUF_STATE_QUEUED; VB2_BUF_STATE_QUEUED], []).
Proof. split; vm_compute; reflexivity. Qed.

Lemma two_frame_lag_witness :
  ∃ w',
    run_ops (good_frames [1; 2; 3; 4; 5]%nat) (fresh_ring Sample.world0) = Some w'
    ∧ vb <$> done w' = take (length [1; 2; 3; 4; 5]%nat - 2) [1; 2; 3; 4; 5]%nat
    ∧ outstanding (ring_of (chan w'))
      = Some <$> drop (length [1; 2; 3; 4; 5]%nat - 2) [1; 2; 3; 4; 5]%nat
    ∧ ([1; 2; 3; 4; 5]%nat ≠ [] →
       outstanding_states (ring_of (chan w'))
       = replicate
           (length (drop (length [1; 2; 3; 4; 5]%nat - 2) [1; 2; 3; 4; 5]%nat) - 1)
           (Some VB2_BUF_STATE_DONE)
         ++ [Some VB2_BUF_STATE_ERROR]).
Proof.
  apply (two_frame_lag [1; 2; 3; 4; 5]%nat Sample.world0).
  - reflexivity.
  - reflexivity.
  - vm_compute. split; [intros; discriminate|reflexivity].
Defined.


Lemma gang_left_right_geometry_witness :
  let c' := Gang.update_gang_mode Sample.channel_4k in
  let W := width (format Sample.channel_4k) in
  let size := Z.lor (u32 (Z.shiftl (gang_height c') IMAGE_SIZE_HEIGHT_OFFSET)) (W / 2) in
  gang_mode c' = CAMERA_GANG_L_R
  ∧ valid_ports c' = 2
  ∧ gang_width c' = W / 2
  ∧ gang_bytesperline c' = u32 (W / 2 * bpp (fmtinfo Sample.channel_4k))
  ∧ buffer_offset c' !! 1%nat
    = Some (u32 (round_up (gang_bytesperline c') TEGRA_SURFACE_ALIGNMENT))
  ∧ (gang_bytesperline c' + TEGRA_SURFACE_ALIGNMENT ≤ 2 ^ 32 →
     buffer_offset c' !! 1%nat
     = Some (round_up (gang_bytesperline c') TEGRA_SURFACE_ALIGNMENT))
  ∧ (∀ w, chan w = c' →
          image_size_writes (mmio (snd (tegra_channel_capture_setup w)))
          = image_size_writes (mmio w) ++ [(0%nat, size); (1%nat, size)])
  ∧ (0 ≤ IMAGE_SIZE_HEIGHT_OFFSET → 0 ≤ W / 2 < 2 ^ IMAGE_SIZE_HEIGHT_OFFSET →
     size mod 2 ^ IMAGE_SIZE_HEIGHT_OFFSET = W / 2).
Proof.
  apply (gang_left_right_geometry Sample.channel_4k 6).
  - reflexivity.
  - vm_compute. reflexivity.
  - vm_compute. reflexivity.
  - reflexivity.
  - lia.
  - simpl. lia.
Defined.

Lemma tegra_csi_error_uncorrectable_witness :
  let pp := u32 (pixel_parser_status Sample.hw_error 0) in
  let cil := u32 (cil_status Sample.hw_error 0) in
  let cilx := u32 (cilx_status Sample.hw_error 0) in
  let '(err, w') := Csi.tegra_csi_error Sample.hw_error 0 Sample.world0 in
  mmio w' = mmio Sample.world0
            ++ [pp_write 0 TEGRA_CSI_PIXEL_PARSER_STATUS pp;
                cil_write 0 TEGRA_CSI_CIL_STATUS cil;
                cil_write 0 TEGRA_CSI_CILX_STATUS cilx]
  ∧ w1c pp pp = 0 ∧ w1c cil cil = 0 ∧ w1c cilx cilx = 0
  ∧ chan w' = chan Sample.world0 ∧ vi w' = vi Sample.world0
  ∧ done w' = done Sample.world0
  ∧ recovered w' = recovered Sample.world0 ∧ calls w' = calls Sample.world0
  ∧ (err ≠ 0 ↔
     Z.testbit pp 14 = true ∨ Z.testbit cil 1 = true
     ∨ Z.testbit cilx 5 = true ∨ Z.testbit cilx 17 = true)
  ∧ ∀ hw',
      Z.land (pixel_parser_status hw' 0) 0x4000
      = Z.land (pixel_parser_status Sample.hw_error 0) 0x4000 →
      Z.land (cil_status hw' 0) 0x02
      = Z.land (cil_status Sample.hw_error 0) 0x02 →
      Z.land (cilx_status hw' 0) 0x00020020
      = Z.land (cilx_status Sample.hw_error 0) 0x00020020 →
      fst (Csi.tegra_csi_error hw' 0 Sample.world0) = err.
Proof. exact (tegra_csi_error_uncorrectable Sample.hw_error 0 Sample.world0). Defined.

(** C9 as stated fails: the endpoint of port 0 asks for sixteen lanes;
    the call returns [-EINVAL] but has overwritten [port[0]] and
    [numlanes]. *)
Lemma wide_bus_commits_partial_state :
  let r := Graph.tegra_vi_get_port_info Sample.of_node_cmp Sample.channel
             Sample.vi_node 0 in
  fst r = - EINVAL
  ∧ numlanes Sample.channel = 2 ∧ numlanes (snd r) = 16
  ∧ port Sample.channel = [0; 255; 255] ∧ port (snd r) = [2; 255; 255].
Proof. vm_compute. repeat split. Qed.

Lemma get_port_info_wide_bus_witness :
  let c8 := set_numlanes 8 (set_port [1; 3; 255] Sample.channel) in
  Graph.tegra_vi_get_port_info Sample.of_node_cmp Sample.channel Cases.vi_node_wide 0
  = (- EINVAL, set_numlanes 16 (set_port (<[0%nat := u8 (s32 2)]> (port c8)) c8))
  ∧ ports_differ Sample.channel c8
  ∧ (Forall (Graph.skips_port Sample.of_node_cmp 0)
       [Sample.port_node 1 [Sample.endpoint 4 4]] →
     Forall (fun e => Graph.node_is Sample.of_node_cmp e "endpoint" = false)
       [Sample.endpoint 1 8] →
     c8 = Sample.channel).
Proof.
  apply (get_port_info_wide_bus Sample.of_node_cmp Sample.channel Cases.vi_node_wide 0
           [Sample.port_node 1 [Sample.endpoint 4 4]]
           (Sample.port_node 0 [Sample.endpoint 1 8; Sample.endpoint 2 16]) []
           [Sample.endpoint 1 8] (Sample.endpoint 2 16) [] 0 2 16
           {| Graph.l_chan := Sample.channel; Graph.value := 1; Graph.ret := 0 |}
           {| Graph.l_chan := set_numlanes 8 (set_port [1; 3; 255] Sample.channel);
              Graph.value := 0; Graph.ret := 0 |}).
  - reflexivity.
  - vm_compute. reflexivity.
  - reflexivity.
  - reflexivity.
  - reflexivity.
  - reflexivity.
  - vm_compute. reflexivity.
  - reflexivity.
  - reflexivity.
  - reflexivity.
  - lia.
Defined.

Lemma world_two_frames_ring :
  ring_ok (ring_of (chan Cases.world_two_frames)) [1%nat; 2%nat].
Proof.
  unfold ring_ok.
  repeat split;
    first [vm_compute; reflexivity | vm_compute; intros; discriminate | vm_compute; lia].
Qed.

Lemma free_ring_buffers_forces_error_witness :
  capture_state (chan Cases.world_two_frames) = CAPTURE_GOOD
  ∧ outstanding_states (ring_of (chan Cases.world_two_frames))
    = [Some VB2_BUF_STATE_DONE; Some VB2_BUF_STATE_ERROR]
  ∧ released_bufs (chan Cases.world_two_frames) = 0
  ∧ ∃ w2 ds,
      free_ring_buffers 2 Cases.world_two_frames = Some w2
      ∧ done w2 = done Cases.world_two_frames ++ ds
      ∧ vb <$> ds = take (Z.to_nat 2) [1%nat; 2%nat]
      ∧ ring_ok (ring_of (chan w2)) (drop (Z.to_nat 2) [1%nat; 2%nat])
      ∧ released_bufs (chan w2) = u32 (released_bufs (chan Cases.world_two_frames) + 2)
      ∧ (∀ k d, ds !! k = Some d →
           (capture_state (chan Cases.world_two_frames) ≠ CAPTURE_GOOD
            ∨ u32 (released_bufs (chan Cases.world_two_frames) + Z.of_nat k) < 2 →
            state d = VB2_BUF_STATE_ERROR)
           ∧ (capture_state (chan Cases.world_two_frames) = CAPTURE_GOOD →
              2 ≤ u32 (released_bufs (chan Cases.world_two_frames) + Z.of_nat k) →
              outstanding_states (ring_of (chan Cases.world_two_frames)) !! k
              = Some (Some (state d))))
      ∧ (∀ k d, (k < 2)%nat → done w2 !! k = Some d →
                state d = VB2_BUF_STATE_ERROR).
Proof.
  split; [reflexivity|]. split; [vm_compute; reflexivity|]. split; [reflexivity|].
  apply (free_ring_buffers_forces_error Cases.two_frames Sample.world0
           Cases.world_two_frames [1%nat; 2%nat] 2).
  - vm_compute. reflexivity.
  - exact world_two_frames_ring.
  - cbn [length]. lia.
Defined.

End Samples.

(** * Further properties *)

Import Props.

(** * Further properties of the capture path *)

(** ** The aggregate error status *)

Lemma s32_range z : - 2 ^ 31 ≤ s32 z < 2 ^ 31.
Proof.
  unfold s32. pose proof (Z.mod_pos_bound z (2 ^ 32) ltac:(lia)).
  destruct (Z.ltb_spec (z mod 2 ^ 32) (2 ^ 31)); lia.
Qed.

Lemma s32_zero z : s32 z = 0 ↔ u32 z = 0.
Proof.
  unfold s32, u32. pose proof (Z.mod_pos_bound z (2 ^ 32) ltac:(lia)).
  destruct (Z.ltb_spec (z mod 2 ^ 32) (2 ^ 31)); lia.
Qed.

Lemma u32_zero_int e : - 2 ^ 31 ≤ e < 2 ^ 31 → (u32 e = 0 ↔ e = 0).
Proof.
  intros He. unfold u32. split; [|intros ->; reflexivity].
  intros Hz. destruct (Z.neg_nonneg_cases e) as [Hneg|Hpos].
  - rewrite <- (Z_mod_plus_full e 1 (2 ^ 32)) in Hz.
    rewrite Z.mod_small in Hz by lia. lia.
  - rewrite Z.mod_small in Hz by lia. exact Hz.
Qed.

Lemma lor_u32_range a b :
  0 ≤ a < 2 ^ 32 → 0 ≤ b < 2 ^ 32 → 0 ≤ Z.lor a b < 2 ^ 32.
Proof.
  intros Ha Hb.
  assert (Hu : u32 (Z.lor a b) = Z.lor a b).
  { rewrite u32_land_ones, Z.land_lor_distr_l, <- !u32_land_ones.
    rewrite !u32_small by assumption. reflexivity. }
  rewrite <- Hu. split; [apply u32_nonneg|apply u32_lt].
Qed.

Lemma lor_int_range a e :
  - 2 ^ 31 ≤ a < 2 ^ 31 → 0 ≤ e < 2 ^ 31 → - 2 ^ 31 ≤ Z.lor a e < 2 ^ 31.
Proof.
  intros Ha He.
  pose proof (Z.add_lor_land a e) as Hs.
  pose proof (land_mask_bound a e ltac:(lia)) as Hl.
  destruct (Z.neg_nonneg_cases a) as [Hneg|Hpos].
  - assert (Z.lor a e < 0) by (apply Z.lor_neg; left; exact Hneg). lia.
  - assert (Hhalf : ∀ x, 0 ≤ x < 2 ^ 31 → Z.land x (Z.ones 31) = x).
    { intros x Hx. rewrite Z.land_ones by lia. apply Z.mod_small. exact Hx. }
    assert (Hu : Z.land (Z.lor a e) (Z.ones 31) = Z.lor a e).
    { rewrite Z.land_lor_distr_l, !Hhalf by lia. reflexivity. }
    rewrite <- Hu, Z.land_ones by lia.
    pose proof (Z.mod_pos_bound (Z.lor a e) (2 ^ 31) ltac:(lia)). lia.
Qed.

Lemma csi_error_range hw p w : 0 ≤ fst (Csi.tegra_csi_error hw p w) < 2 ^ 31.
Proof.
  unfold Csi.tegra_csi_error. cbn [fst].
  destruct (csi_error_word_bits (u32 (pixel_parser_status hw p)) (u32 (cil_status hw p))
              (u32 (cilx_status hw p))) as [Hr _].
  cbv zeta in Hr. rewrite s32_small by exact Hr. exact Hr.
Qed.

Section ErrorStatus.
Context `{kernel_headers}.

Lemma error_status_body_value hw e w index :
  ∃ w',
    error_status_body hw (e, w) index
    = (Z.lor (s32 (Z.lor (u32 e) (u32 (vi_csi_error_status hw index))))
             (fst (Csi.tegra_csi_error hw (at_index (port (chan w)) index) w)),
       w')
    ∧ port (chan w') = port (chan w).
Proof.
  unfold error_status_body.
  set (w1 := writel _ w).
  assert (Hp : port (chan w1) = port (chan w)) by reflexivity.
  rewrite Hp.
  rewrite (csi_error_word hw (at_index (port (chan w)) index) w w1).
  destruct (Csi.tegra_csi_error hw _ w1) as [ce w2] eqn:E.
  exists w2. split; [reflexivity|].
  assert (He : hw_erase w2 = hw_erase w1).
  { change w2 with (snd (ce, w2)). rewrite <- E. apply csi_error_erase. }
  rewrite (erase_port _ _ He). exact Hp.
Qed.

Lemma error_status_fold_zero hw w l : ∀ e w0,
  - 2 ^ 31 ≤ e < 2 ^ 31 →
  port (chan w0) = port (chan w) →
  let r := fst (fold_left (error_status_body hw) l (e, w0)) in
  - 2 ^ 31 ≤ r < 2 ^ 31
  ∧ (r = 0 ↔
     e = 0
     ∧ ∀ index, index ∈ l →
         u32 (vi_csi_error_status hw index) = 0
         ∧ fst (Csi.tegra_csi_error hw (at_index (port (chan w)) index) w) = 0).
Proof.
  induction l as [|i l IH]; intros e w0 He Hp; cbn [fold_left fst].
  - split; [exact He|]. split; [intros ->; split; [reflexivity|]|tauto].
    intros index Hin. apply elem_of_nil in Hin. destruct Hin.
  - destruct (error_status_body_value hw e w0 i) as (w1 & E & Hp1).
    rewrite E, Hp.
    rewrite (csi_error_word hw (at_index (port (chan w)) i) w0 w).
    set (val := u32 (vi_csi_error_status hw i)).
    set (ce := fst (Csi.tegra_csi_error hw (at_index (port (chan w)) i) w)).
    set (e1 := Z.lor (s32 (Z.lor (u32 e) val)) ce).
    assert (Hce : 0 ≤ ce < 2 ^ 31) by apply csi_error_range.
    assert (Hval : 0 ≤ val < 2 ^ 32) by (split; [apply u32_nonneg|apply u32_lt]).
    assert (He1 : - 2 ^ 31 ≤ e1 < 2 ^ 31)
      by (apply lor_int_range; [apply s32_range|exact Hce]).
    assert (Hz1 : e1 = 0 ↔ e = 0 ∧ val = 0 ∧ ce = 0).
    { subst e1. rewrite Z.lor_eq_0_iff, s32_zero.
      assert (Hin : 0 ≤ Z.lor (u32 e) val < 2 ^ 32).
      { apply lor_u32_range; [split; [apply u32_nonneg|apply u32_lt]|exact Hval]. }
      rewrite (u32_small _ Hin), Z.lor_eq_0_iff, (u32_zero_int e He). tauto. }
    destruct (IH e1 w1 He1 ltac:(congruence)) as [Hr Hiff].
    cbv zeta in Hr, Hiff. split; [exact Hr|].
    rewrite Hiff, Hz1. split.
    + intros ((He0 & Hv0 & Hc0) & Hall). split; [exact He0|].
      intros index Hin. apply elem_of_cons in Hin as [->|Hin]; [tauto|].
      apply Hall. exact Hin.
    + intros (He0 & Hall). split.
      * split; [exact He0|]. apply Hall. apply elem_of_cons. left; reflexivity.
      * intros index Hin. apply Hall. apply elem_of_cons. right; exact Hin.
Qed.

Lemma error_status_fold_keeps hw l : ∀ e w,
  chan (snd (fold_left (error_status_body hw) l (e, w))) = chan w
  ∧ vi (snd (fold_left (error_status_body hw) l (e, w))) = vi w
  ∧ done (snd (fold_left (error_status_body hw) l (e, w))) = done w
  ∧ recovered (snd (fold_left (error_status_body hw) l (e, w))) = recovered w
  ∧ calls (snd (fold_left (error_status_body hw) l (e, w))) = calls w.
Proof.
  induction l as [|i l IH]; intros e w; cbn [fold_left snd].
  - repeat split.
  - destruct (error_status_body hw (e, w) i) as [e1 w1] eqn:E.
    assert (Hw1 : chan w1 = chan w ∧ vi w1 = vi w ∧ done w1 = done w
                  ∧ recovered w1 = recovered w ∧ calls w1 = calls w).
    { change w1 with (snd (e1, w1)). rewrite <- E. unfold error_status_body.
      unfold Csi.tegra_csi_error. cbn [snd]. repeat split. }
    destruct Hw1 as (Hc1 & Hv1 & Hd1 & Hr1 & Hl1).
    destruct (IH e1 w1) as (Hc & Hv & Hd & Hr & Hl).
    rewrite Hc, Hv, Hd, Hr, Hl. repeat split; assumption.
Qed.

(** X1: [tegra_channel_error_status] returns zero exactly when, for
    every valid port of the channel, the VI CSI error status reads
    zero and [tegra_csi_error] returns zero for the port: one set bit
    on one port is never masked by the other ports.  The call changes
    nothing but the record of register writes: the channel, the VI
    device and the completion, recovery and call records are as
    before. *)
Theorem error_status_zero_iff hw w :
  (fst (tegra_channel_error_status hw w) = 0 ↔
   ∀ index, (index < Z.to_nat (valid_ports (chan w)))%nat →
     u32 (vi_csi_error_status hw index) = 0
     ∧ fst (Csi.tegra_csi_error hw (at_index (port (chan w)) index) w) = 0)
  ∧ chan (snd (tegra_channel_error_status hw w)) = chan w
  ∧ vi (snd (tegra_channel_error_status hw w)) = vi w
  ∧ done (snd (tegra_channel_error_status hw w)) = done w
  ∧ recovered (snd (tegra_channel_error_status hw w)) = recovered w
  ∧ calls (snd (tegra_channel_error_status hw w)) = calls w.
Proof.
  split.
  - unfold tegra_channel_error_status.
    change (fold_left _ ?l ?a) with (fold_left (error_status_body hw) l a).
    destruct (error_status_fold_zero hw w (seq 0 (Z.to_nat (valid_ports (chan w))))
                0 w ltac:(lia) eq_refl) as [_ Hiff].
    cbv zeta in Hiff. rewrite Hiff. split.
    + intros [_ Hall] index Hlt. apply Hall. apply elem_of_seq. lia.
    + intros Hall. split; [reflexivity|]. intros index Hin.
      apply elem_of_seq in Hin. apply Hall. lia.
  - unfold tegra_channel_error_status.
    change (fold_left _ ?l ?a) with (fold_left (error_status_body hw) l a).
    apply error_status_fold_keeps.
Qed.

End ErrorStatus.

(** ** Order and numbering of the completions *)

Lemma u32_succ s : u32 (u32 s + 1) = u32 (s + 1).
Proof. unfold u32. apply Zplus_mod_idemp_l. Qed.

Lemma sequence_numbers_cons s n :
  sequence_numbers s (S n) = Some (u32 s) :: sequence_numbers (s + 1) n.
Proof.
  unfold sequence_numbers. cbn [seq fmap list_fmap]. rewrite Z.add_0_r. f_equal.
  rewrite <- fmap_S_seq, <- list_fmap_compose. apply list_fmap_ext.
  intros i x _. cbn. do 2 f_equal. lia.
Qed.

Lemma sequence_numbers_app s n m :
  sequence_numbers s (n + m)
  = sequence_numbers s n ++ sequence_numbers (s + Z.of_nat n) m.
Proof.
  revert s. induction n as [|n IH]; intros s.
  - cbn [Nat.add]. rewrite Z.add_0_r. reflexivity.
  - cbn [Nat.add]. rewrite !sequence_numbers_cons, IH. cbn [app]. do 3 f_equal. lia.
Qed.

Lemma ring_release_seq cs r d r' :
  ring_release cs r = Some (d, r') →
  v4l2_sequence d = Some (r_sequence r) ∧ r_sequence r' = u32 (r_sequence r + 1).
Proof.
  unfold ring_release.
  destruct (r_buffers r !! _) as [[b|]|]; try discriminate.
  destruct (_ !! _) as [st|]; [|discriminate].
  intros [= <- <-]. split; reflexivity.
Qed.

Lemma ring_release_frames_seq cs n : ∀ r ds r' s,
  r_sequence r = u32 s →
  ring_release_frames cs n r = Some (ds, r') →
  v4l2_sequence <$> ds = sequence_numbers s n
  ∧ r_sequence r' = u32 (s + Z.of_nat n).
Proof.
  induction n as [|n IH]; intros r ds r' s Hs; cbn [ring_release_frames].
  - intros [= <- <-]. split; [reflexivity|]. rewrite Z.add_0_r. exact Hs.
  - destruct (ring_release cs r) as [[d1 r1]|] eqn:E1; [|discriminate].
    rewrite bind_Some_l.
    destruct (ring_release_frames cs n r1) as [[ds1 r2]|] eqn:E2; [|discriminate].
    rewrite bind_Some_l. intros [= <- <-].
    apply ring_release_seq in E1 as [Hd1 Hr1].
    assert (Hs1 : r_sequence r1 = u32 (s + 1)) by (rewrite Hr1, Hs; apply u32_succ).
    destruct (IH _ _ _ _ Hs1 E2) as [Hds Hr2].
    split.
    + rewrite sequence_numbers_cons. cbn [fmap list_fmap]. rewrite Hd1, Hs. f_equal.
      exact Hds.
    + rewrite Hr2. f_equal. lia.
Qed.

Lemma ring_free_seq cs frames r ds r' s :
  r_sequence r = u32 s →
  ring_free cs frames r = Some (ds, r') →
  v4l2_sequence <$> ds = sequence_numbers s (length ds)
  ∧ r_sequence r' = u32 (s + Z.of_nat (length ds)).
Proof.
  unfold ring_free. destruct (frames <? 0); [discriminate|]. intros Hs E.
  destruct (ring_release_frames_seq _ _ _ _ _ _ Hs E) as [Hds Hr].
  assert (Hlen : length ds = Z.to_nat frames).
  { apply (f_equal length) in Hds. unfold sequence_numbers in Hds.
    rewrite !length_fmap, length_seq in Hds. exact Hds. }
  rewrite Hlen. split; assumption.
Qed.

Lemma ring_frame_start_seq cs st r ds r' s :
  r_sequence r = u32 s →
  ring_frame_start cs st r = Some (ds, r') →
  v4l2_sequence <$> ds = sequence_numbers s (length ds)
  ∧ r_sequence r' = u32 (s + Z.of_nat (length ds)).
Proof.
  intros Hs. unfold ring_frame_start.
  set (r1 := if negb (r_bfirst_fstart r) then _ else _).
  assert (Hr1 : r_sequence r1 = u32 s).
  { subst r1. destruct (negb _); [exact Hs|]. unfold ring_update_state. exact Hs. }
  clearbody r1.
  destruct (bool_decide (cs ≠ CAPTURE_GOOD)).
  - destruct (ring_free cs _ r1) as [[ds1 r2]|] eqn:E; [|discriminate].
    rewrite bind_Some_l. intros [= <- <-].
    apply (ring_free_seq _ _ _ _ _ _ Hr1 E).
  - destruct (QUEUED_BUFFERS - 1 <=? r_num_buffers r1).
    + apply ring_free_seq. exact Hr1.
    + intros [= <- <-]. split; [reflexivity|]. cbn [length]. rewrite Z.add_0_r.
      exact Hr1.
Qed.

Lemma numbered_step s0 w ds r :
  v4l2_sequence <$> done w = sequence_numbers s0 (length (done w)) →
  v4l2_sequence <$> ds
  = sequence_numbers (s0 + Z.of_nat (length (done w))) (length ds) →
  r_sequence r = u32 (s0 + Z.of_nat (length (done w)) + Z.of_nat (length ds)) →
  let w' := set_done (done w ++ ds) (on_chan (with_ring r) w) in
  v4l2_sequence <$> done w' = sequence_numbers s0 (length (done w'))
  ∧ sequence (chan w') = u32 (s0 + Z.of_nat (length (done w'))).
Proof.
  intros Hd Hds Hr w'.
  assert (Hdw : done w' = done w ++ ds) by reflexivity.
  assert (Hsw : sequence (chan w') = r_sequence r) by (destruct r; reflexivity).
  rewrite Hdw, Hsw, length_app, fmap_app, sequence_numbers_app, Hd, Hds, Hr.
  split; [reflexivity|]. f_equal. lia.
Qed.

Lemma numbered_op s0 o w w' :
  v4l2_sequence <$> done w = sequence_numbers s0 (length (done w)) →
  sequence (chan w) = u32 (s0 + Z.of_nat (length (done w))) →
  run_op o w = Some w' →
  v4l2_sequence <$> done w' = sequence_numbers s0 (length (done w'))
  ∧ sequence (chan w') = u32 (s0 + Z.of_nat (length (done w'))).
Proof.
  intros Hd Hs.
  assert (Hfree : ∀ frames,
            free_ring_buffers frames w = Some w' →
            v4l2_sequence <$> done w' = sequence_numbers s0 (length (done w'))
            ∧ sequence (chan w') = u32 (s0 + Z.of_nat (length (done w')))).
  { intros frames E. rewrite free_ring_buffers_ring in E.
    apply ring_result_Some in E as (ds & r & E & ->).
    destruct (ring_free_seq _ _ (ring_of (chan w)) _ _ _ Hs E) as [Hds Hr].
    apply numbered_step; assumption. }
  destruct o as [|b|cs st|frames|].
  - rewrite run_op_init. intros [= <-]. split; [exact Hd|exact Hs].
  - rewrite run_op_add. intros [= <-]. split; [exact Hd|].
    assert (Hsq : sequence (chan (on_chan (add_buffer_to_ring b) w)) = sequence (chan w)).
    { assert (H1 : ∀ r c, sequence (with_ring r c) = r_sequence r)
        by (intros [] ?; reflexivity).
      assert (H2 : ∀ c w0, chan (set_chan c w0) = c) by reflexivity.
      unfold on_chan. rewrite add_ring, H2, H1. reflexivity. }
    rewrite Hsq. exact Hs.
  - rewrite run_op_frame_start, tegra_channel_ring_buffer_ring. intros E.
    apply ring_result_Some in E as (ds & r & E & ->).
    set (w0 := on_chan (set_capture_state cs) w) in *.
    assert (Hs0 : r_sequence (ring_of (chan w0)) = u32 (s0 + Z.of_nat (length (done w0))))
      by exact Hs.
    destruct (ring_frame_start_seq _ _ _ _ _ _ Hs0 E) as [Hds Hr].
    apply numbered_step; assumption.
  - apply Hfree.
  - apply Hfree.
Qed.

Lemma numbered_ops s0 ops : ∀ w w',
  v4l2_sequence <$> done w = sequence_numbers s0 (length (done w)) →
  sequence (chan w) = u32 (s0 + Z.of_nat (length (done w))) →
  run_ops ops w = Some w' →
  v4l2_sequence <$> done w' = sequence_numbers s0 (length (done w'))
  ∧ sequence (chan w') = u32 (s0 + Z.of_nat (length (done w'))).
Proof.
  induction ops as [|o ops IH]; intros w w' Hd Hs.
  - intros [= <-]. split; assumption.
  - rewrite run_ops_cons.
    destruct (run_op o w) as [w1|] eqn:E; [|discriminate].
    rewrite bind_Some_l.
    destruct (numbered_op _ _ _ _ Hd Hs E) as [Hd1 Hs1].
    apply IH; assumption.
Qed.

(** X2: whatever ring-buffer functions are called in whatever order
    after the ring is initialised, the completions that
    [free_ring_buffers] issues carry consecutive sequence numbers
    (modulo [2^32]) starting at the channel's [sequence] counter, and
    the counter has advanced by their number: error frames and
    re-initialisations of the ring neither skip nor repeat a
    number. *)
Theorem completions_numbered ops w w' :
  0 ≤ sequence (chan w) < 2 ^ 32 →
  run_ops ops (fresh_ring w) = Some w' →
  v4l2_sequence <$> done w'
  = sequence_numbers (sequence (chan w)) (length (done w'))
  ∧ sequence (chan w') = u32 (sequence (chan w) + Z.of_nat (length (done w'))).
Proof.
  intros Hseq E.
  apply (numbered_ops (sequence (chan w)) ops (fresh_ring w) w'); [reflexivity| |exact E].
  change (sequence (chan (fresh_ring w))) with (sequence (chan w)).
  change (Z.of_nat (length (done (fresh_ring w)))) with 0.
  rewrite Z.add_0_r, u32_small by exact Hseq. reflexivity.
Qed.

(** *** First in, first out *)

Lemma free_all_op_fifo w out :
  ring_ok (ring_of (chan w)) out →
  ∃ w' ds, run_op FreeAll w = Some w' ∧ done w' = done w ++ ds
           ∧ vb <$> ds = out ∧ ring_ok (ring_of (chan w')) [].
Proof.
  intros Hok.
  change (run_op FreeAll w)
    with (free_ring_buffers (s32 (r_num_buffers (ring_of (chan w)))) w).
  rewrite free_ring_buffers_ring.
  destruct (ring_free_all_ok (capture_state (chan w)) _ _ Hok)
    as (ds & r & E & Hvb & Hok' & _).
  rewrite E.
  exists (set_done (done w ++ ds) (on_chan (with_ring r) w)), ds.
  split; [reflexivity|]. split; [reflexivity|]. split; [exact Hvb|].
  assert (Hr' : ring_of (chan (set_done (done w ++ ds) (on_chan (with_ring r) w))) = r)
    by (destruct r; reflexivity).
  rewrite Hr'. exact Hok'.
Qed.

Lemma driver_order_fifo n : ∀ ops w out,
  (length ops ≤ n)%nat → driver_order ops = true → no_init ops = true →
  ring_ok (ring_of (chan w)) out → (length out ≤ 2)%nat →
  ∃ w' out',
    run_ops ops w = Some w' ∧ ring_ok (ring_of (chan w')) out'
    ∧ (vb <$> done w') ++ out' = (vb <$> done w) ++ out ++ added ops.
Proof.
  induction n as [n IH] using (well_founded_induction lt_wf).
  intros ops w out Hn Hord Hni Hok Hlen.
  destruct ops as [|o rest].
  { exists w, out. split; [reflexivity|]. split; [exact Hok|].
    cbn [added omap list_omap]. rewrite app_nil_r. reflexivity. }
  cbn [length] in Hn.
  destruct o as [|b|cs st|frames|]; cbn [driver_order] in Hord; try discriminate.
  - (* Add *)
    destruct (add_op_ok b w out Hok Hlen) as [Hok1 Hd1].
    destruct rest as [|o2 rest].
    { eexists _, _. split; [rewrite run_ops_cons, run_op_add, bind_Some_l; reflexivity|].
      split; [exact Hok1|]. rewrite Hd1. reflexivity. }
    destruct o2 as [|b2|cs st|frames|]; try discriminate.
    destruct (frame_start_op_ok cs st _ _ Hok1)
      as (w2 & ds & out2 & E2 & Hd2 & Hvb2 & Hok2 & Hlen2 & _).
    cbn [length] in Hn.
    destruct (IH (length rest) ltac:(lia) rest w2 out2
                ltac:(lia) Hord Hni Hok2 Hlen2) as (w' & out' & E & Hok' & Hfifo).
    exists w', out'. split.
    { rewrite run_ops_cons, run_op_add, bind_Some_l, run_ops_cons, E2, bind_Some_l.
      exact E. }
    split; [exact Hok'|].
    rewrite Hfifo, Hd2, Hd1, fmap_app.
    change (added (Add b :: FrameStart cs st :: rest)) with (b :: added rest).
    rewrite <- !app_assoc. f_equal.
    rewrite (app_assoc (vb <$> ds)), Hvb2, <- app_assoc. reflexivity.
  - (* FreeAll *)
    destruct (free_all_op_fifo w out Hok) as (w1 & ds & E1 & Hd1 & Hvb1 & Hok1).
    destruct (IH (length rest) ltac:(lia) rest w1 []
                ltac:(lia) Hord Hni Hok1 ltac:(cbn [length]; lia))
      as (w' & out' & E & Hok' & Hfifo).
    exists w', out'. split.
    { rewrite run_ops_cons, E1, bind_Some_l. exact E. }
    split; [exact Hok'|].
    rewrite Hfifo, Hd1, fmap_app, Hvb1.
    change (added (FreeAll :: rest)) with (added rest).
    rewrite <- !app_assoc. reflexivity.
Qed.

(** X3: as long as the ring is not re-initialised, the functions
    called in the driver's order hand the buffers back first in, first
    out: after any such call sequence the buffers completed so far,
    in completion order, followed by the buffers still in the ring,
    oldest first, are exactly the buffers added, in the order they were
    added.  No buffer is lost, completed twice or overtaken, whatever
    the capture states of the frames. *)
Theorem ring_first_in_first_out ops w :
  length (buffers (chan w)) = 4%nat →
  length (buffer_state (chan w)) = 4%nat →
  0 ≤ sequence (chan w) < 2 ^ 32 →
  driver_order ops = true → no_init ops = true →
  ∃ w' out,
    run_ops ops (fresh_ring w) = Some w'
    ∧ ring_ok (ring_of (chan w')) out
    ∧ (vb <$> done w') ++ out = added ops.
Proof.
  intros Hb Hs Hseq Hord Hni.
  destruct (driver_order_fifo (length ops) ops (fresh_ring w) []
              ltac:(lia) Hord Hni (fresh_ring_ok _ Hb Hs Hseq)
              ltac:(cbn [length]; lia))
    as (w' & out & E & Hok & Hfifo).
  exists w', out. split; [exact E|]. split; [exact Hok|exact Hfifo].
Qed.

(** ** Frames without error, and failure to start the stream *)

Section Frames.
Context `{kernel_headers}.

Lemma frame_step_result w cs st rec w1 ds r :
  hw_erase w1 = hw_erase (set_recovered rec (on_chan (set_capture_state cs) w)) →
  ring_frame_start cs st (ring_of (chan w)) = Some (ds, r) →
  ∃ w', tegra_channel_ring_buffer st w1 = Some w'
        ∧ hw_erase w' = hw_erase (after_frame w cs rec ds r)
        ∧ is_streaming (chan w') = is_streaming (chan w1)
        ∧ mmio w' = mmio w1.
Proof.
  intros He Hr.
  destruct (frame_step w cs st rec w1 ds r He Hr) as (w' & E & He').
  destruct (tegra_channel_ring_buffer st w1) as [w''|] eqn:E1; [|discriminate E].
  rewrite bind_Some_l in E. injection E as ->.
  exists w'. split; [reflexivity|]. split; [exact He'|].
  rewrite tegra_channel_ring_buffer_ring in E1.
  apply ring_result_Some in E1 as (ds1 & r1 & _ & ->).
  destruct r1. split; reflexivity.
Qed.

(** X4: a frame whose sync-point waits all succeed and whose error
    status reads zero leaves the capture state at [CAPTURE_GOOD] and
    calls no recovery; it completes no buffer while fewer than two
    earlier buffers are in the ring and exactly the oldest one when
    there are two, so the buffer just captured always stays in the
    ring. *)
Theorem capture_frame_good hw w b out :
  ring_ok (ring_of (chan w)) (out ++ [buf b]) →
  stream_enables hw w →
  (∀ index, (index < Z.to_nat (valid_ports (chan w)))%nat → syncpt_wait hw index = 0) →
  (pg_mode (vi w) = 0 → fst (tegra_channel_error_status hw w) = 0) →
  ∃ w' ds out',
    tegra_channel_capture_frame hw b w = Some (0, w')
    ∧ capture_state (chan w') = CAPTURE_GOOD
    ∧ recovered w' = recovered w
    ∧ done w' = done w ++ ds
    ∧ (vb <$> ds) ++ out' = out ++ [buf b]
    ∧ length ds = (length out - 1)%nat
    ∧ out' ≠ []
    ∧ ring_ok (ring_of (chan w')) out'.
Proof.
  intros Hok Hen Hwait Herr.
  destruct (capture_frame_prefix hw b w Hen) as (w0 & He0 & ->).
  destruct (capture_frame_armed_good hw w0) as (w1 & He1 & ->).
  { rewrite (erase_valid_ports _ _ He0). exact Hwait. }
  { rewrite (erase_pg_mode _ _ He0).
    destruct (error_status_erase hw w0 w He0) as [-> _]. exact Herr. }
  destruct (ring_frame_start_ok CAPTURE_GOOD VB2_BUF_STATE_DONE _ _ Hok)
    as (ds & r & out' & Hr & Hvb & Hok' & Hlen' & _ & Hgood).
  destruct (frame_step_result w CAPTURE_GOOD VB2_BUF_STATE_DONE (recovered w) w1 ds r)
    as (w' & E & He' & _).
  { rewrite He1, erase_set_capture_state, He0. rsimpl. reflexivity. }
  { exact Hr. }
  rewrite E, bind_Some_l.
  exists w', ds, out'. split; [reflexivity|].
  split; [exact (after_frame_capture_state _ _ _ _ _ _ He')|].
  split; [exact (after_frame_recovered _ _ _ _ _ _ He')|].
  split; [exact (after_frame_done _ _ _ _ _ _ He')|].
  split; [exact Hvb|].
  assert (Hlds : length ds = (length out - 1)%nat).
  { rewrite (Hgood eq_refl), length_app. cbn [length]. lia. }
  split; [exact Hlds|].
  split.
  { intros ->. apply (f_equal length) in Hvb.
    rewrite !length_app, length_fmap in Hvb. cbn [length] in Hvb. lia. }
  rewrite (after_frame_ring _ _ _ _ _ _ He'). exact Hok'.
Qed.

Lemma enable_stream_fails hw w :
  pg_mode (vi w) = 0 → is_streaming (chan w) = false → s_stream_ret hw ≠ 0 →
  ∃ w', tegra_channel_enable_stream hw w = (s_stream_ret hw, w')
        ∧ hw_erase w' = hw_erase w
        ∧ is_streaming (chan w') = false.
Proof.
  intros Hpg Hs Hret. unfold tegra_channel_enable_stream. cbv zeta.
  set (w1 := call (tegra_csi_pad_control ENABLE) w).
  assert (Hpg1 : pg_mode (vi w1) = 0) by exact Hpg.
  rewrite bool_decide_false by (rewrite Hpg1; intros Hne; apply Hne; reflexivity).
  unfold tegra_channel_set_stream.
  assert (Hs1 : is_streaming (chan w1) = false) by exact Hs.
  rewrite bool_decide_false by (rewrite Hs1; discriminate).
  rewrite (bool_decide_true (s_stream_ret hw ≠ 0)) by exact Hret.
  set (w2 := call (s_stream true) w1).
  assert (He2 : hw_erase w2 = hw_erase w)
    by (subst w2 w1; rewrite !hw_only_call; reflexivity).
  assert (Hs2 : is_streaming (chan w2) = false) by exact Hs.
  destruct (s_stream_ret hw <? 0).
  - exists w2. split; [reflexivity|]. split; assumption.
  - eexists. split; [reflexivity|]. split.
    + destruct (bool_decide _); rewrite ?hw_only_call; exact He2.
    + destruct (bool_decide _); exact Hs2.
Qed.

Lemma program_frame_start_streaming b n w :
  is_streaming (chan (for_index n (program_frame_start b) w)) = is_streaming (chan w).
Proof.
  unfold for_index. generalize (seq 0 (Z.to_nat n)). intros l. revert w.
  induction l as [|i l IH]; intros w; cbn [fold_left]; [reflexivity|].
  rewrite IH. unfold program_frame_start. cbv zeta.
  destruct (bool_decide _); reflexivity.
Qed.

(** X5: when the sub-devices refuse to start streaming at the first
    frame, [tegra_channel_capture_frame] returns their error code, sets
    the capture state to [CAPTURE_ERROR], leaves the channel not
    streaming, hands every buffer in the ring back with
    [VB2_BUF_STATE_ERROR], the one just dequeued included, and leaves
    the ring empty; no recovery is called. *)
Theorem capture_frame_stream_refused hw w b out :
  ring_ok (ring_of (chan w)) (out ++ [buf b]) →
  bfirst_fstart (chan w) = false →
  pg_mode (vi w) = 0 →
  is_streaming (chan w) = false →
  s_stream_ret hw ≠ 0 →
  ∃ w' ds,
    tegra_channel_capture_frame hw b w = Some (s_stream_ret hw, w')
    ∧ capture_state (chan w') = CAPTURE_ERROR
    ∧ is_streaming (chan w') = false
    ∧ recovered w' = recovered w
    ∧ done w' = done w ++ ds
    ∧ vb <$> ds = out ++ [buf b]
    ∧ Forall (fun d => state d = VB2_BUF_STATE_ERROR) ds
    ∧ num_buffers (chan w') = 0.
Proof.
  intros Hok Hfirst Hpg Hs Hret. unfold tegra_channel_capture_frame. cbv zeta.
  set (w1 := for_index _ (program_frame_start b) w).
  assert (He1 : hw_erase w1 = hw_erase w).
  { subst w1. apply hw_only_for_index. intros i. apply hw_only_program_frame_start. }
  assert (Hs1 : is_streaming (chan w1) = false).
  { subst w1. rewrite program_frame_start_streaming. exact Hs. }
  rewrite (erase_bfirst _ _ He1), Hfirst. cbn [negb].
  destruct (enable_stream_fails hw w1) as (w2 & E2 & He2 & Hs2).
  { rewrite (erase_pg_mode _ _ He1). exact Hpg. }
  { exact Hs1. }
  { exact Hret. }
  rewrite E2, (bool_decide_true (s_stream_ret hw ≠ 0)) by exact Hret.
  destruct (ring_frame_start_ok CAPTURE_ERROR VB2_BUF_STATE_ERROR _ _ Hok)
    as (ds & r & out' & Hr & Hvb & Hok' & _ & Hcs & _).
  destruct Hcs as [-> Hst]; [discriminate|]. rewrite app_nil_r in Hvb.
  destruct (frame_step_result w CAPTURE_ERROR VB2_BUF_STATE_ERROR (recovered w)
              (on_chan (set_capture_state CAPTURE_ERROR) w2) ds r)
    as (w' & E & He' & Hs' & _).
  { rewrite erase_set_capture_state, He2, He1. rsimpl. reflexivity. }
  { exact Hr. }
  rewrite E, bind_Some_l.
  exists w', ds. split; [reflexivity|].
  split; [exact (after_frame_capture_state _ _ _ _ _ _ He')|].
  split; [rewrite Hs'; exact Hs2|].
  split; [exact (after_frame_recovered _ _ _ _ _ _ He')|].
  split; [exact (after_frame_done _ _ _ _ _ _ He')|].
  split; [exact Hvb|]. split; [exact Hst|].
  change (num_buffers (chan w')) with (r_num_buffers (ring_of (chan w'))).
  rewrite (after_frame_ring _ _ _ _ _ _ He'). apply Hok'.
Qed.

Lemma set_capture_twice q1 q2 c : set_capture q2 (set_capture q1 c) = set_capture q2 c.
Proof. destruct c. reflexivity. Qed.

Lemma set_capture_same c : set_capture (capture c) c = c.
Proof. destruct c. reflexivity. Qed.

(** X6: once a capture has returned an error the capture thread takes
    no buffer any more: whatever is submitted and however often the
    thread is woken, no buffer is completed, no register is written,
    and the buffers submitted since pile up in the submission queue,
    in order (they stay where they are in bypass mode), until the
    stream is stopped. *)
Theorem thread_idle_after_error acts : ∀ err w,
  err ≠ 0 →
  ∃ w',
    run_actions acts (err, w) = Some (err, w')
    ∧ chan w'
      = (if bypass (chan w) then chan w
         else set_capture (capture (chan w) ++ submitted acts) (chan w))
    ∧ done w' = done w ∧ recovered w' = recovered w ∧ mmio w' = mmio w.
Proof.
  induction acts as [|a acts IH]; intros err w Herr.
  - exists w. split; [reflexivity|]. split; [|repeat split].
    destruct (bypass (chan w)); [reflexivity|].
    cbn [submitted omap list_omap]. rewrite app_nil_r, set_capture_same. reflexivity.
  - destruct a as [b|hw].
    + set (w1 := tegra_channel_buffer_queue b w).
      destruct (IH err w1 Herr) as (w' & E & Hc & Hd & Hr & Hm).
      exists w'. split; [exact E|].
      assert (Hsub : submitted (Submit b :: acts) = b :: submitted acts) by reflexivity.
      rewrite Hsub, Hc, Hd, Hr, Hm. subst w1. unfold tegra_channel_buffer_queue.
      destruct (bypass (chan w)) eqn:Hb.
      * rewrite Hb. repeat split.
      * assert (Hb1 : bypass (chan (call wake_up_interruptible
                        (on_chan (fun c => set_capture (capture c ++ [b]) c) w))) = false).
        { destruct w as [c ? ? ? ? ?]. destruct c. exact Hb. }
        rewrite Hb1. split; [|repeat split].
        destruct w as [c ? ? ? ? ?]. destruct c. rsimpl.
        rewrite <- app_assoc. reflexivity.
    + assert (Hturn : run_action (Turn hw) (err, w) = Some (err, w)).
      { unfold run_action, kthread_capture_turn. cbn [fst snd].
        rewrite bool_decide_true by exact Herr. reflexivity. }
      destruct (IH err w Herr) as (w' & E & Hc & Hd & Hr & Hm).
      exists w'. split.
      { change (run_actions (Turn hw :: acts) (err, w))
          with (run_action (Turn hw) (err, w) ≫= run_actions acts).
        rewrite Hturn, bind_Some_l. exact E. }
      split; [exact Hc|]. repeat split; assumption.
Qed.

End Frames.

(** ** Stopping and failing to start: where the buffers go *)

Section Buffers.
Context `{kernel_headers}.

Lemma buffer_done_list st (q : list tegra_channel_buffer) : ∀ w,
  let w' := fold_left
              (fun w b =>
                 vb2_buffer_done {| vb := buf b; state := st; v4l2_sequence := None |} w)
              q w in
  done w' = done w ++ queued_done st q
  ∧ chan w' = chan w ∧ vi w' = vi w ∧ recovered w' = recovered w ∧ mmio w' = mmio w
  ∧ calls w' = calls w.
Proof.
  unfold queued_done.
  induction q as [|b q IH]; intros w; cbn [fold_left fmap list_fmap].
  - rewrite app_nil_r. repeat split.
  - destruct (IH (vb2_buffer_done
                    {| vb := buf b; state := st; v4l2_sequence := None |} w))
      as (Hd & Hc & Hv & Hr & Hm & Hcl).
    cbv zeta in Hd, Hc, Hv, Hr, Hm, Hcl.
    rewrite Hd, Hc, Hv, Hr, Hm, Hcl. unfold vb2_buffer_done.
    destruct w. cbn. rewrite <- app_assoc. repeat split.
Qed.

Lemma queued_buf_done_all st w :
  let w' := tegra_channel_queued_buf_done st w in
  done w' = done w ++ queued_done st (capture (chan w))
  ∧ chan w' = set_capture [] (chan w)
  ∧ vi w' = vi w ∧ recovered w' = recovered w ∧ mmio w' = mmio w ∧ calls w' = calls w.
Proof.
  unfold tegra_channel_queued_buf_done. cbv zeta.
  destruct (buffer_done_list st (capture (chan w)) w) as (Hd & Hc & Hv & Hr & Hm & Hcl).
  cbv zeta in Hd, Hc, Hv, Hr, Hm, Hcl.
  set (w1 := fold_left _ _ _) in *.
  destruct w1 as [c1 v1 d1 r1 m1 cl1]. cbn in *. subst. repeat split.
Qed.

Lemma queued_done_vb st q : vb <$> queued_done st q = buf <$> q.
Proof.
  unfold queued_done. rewrite <- list_fmap_compose. reflexivity.
Qed.

Lemma syncpt_wait_loop_erase hw l : ∀ w,
  ∃ rec cs,
    hw_erase (snd (syncpt_wait_loop hw l w))
    = hw_erase (set_recovered rec (on_chan (set_capture_state cs) w)).
Proof.
  induction l as [|i l IH]; intros w; cbn [syncpt_wait_loop].
  - exists (recovered w), (capture_state (chan w)). cbn [snd].
    destruct w as [c ? ? ? ? ?]. destruct c. reflexivity.
  - destruct (bool_decide (syncpt_wait hw i ≠ 0)).
    + eexists _, CAPTURE_TIMEOUT. cbn [snd].
      rewrite erase_set_capture_state, ec_recover_erase.
      rsimpl. reflexivity.
    + destruct (IH (call (nvhost_syncpt_wait_timeout_ext i) w)) as (rec & cs & ->).
      exists rec, cs. rsimpl. reflexivity.
Qed.

(** The pending capture made on the way out: the head of the queue
    joins the ring and the ring is emptied. *)
Lemma capture_done_flushes hw w out b q :
  capture (chan w) = b :: q →
  ring_ok (ring_of (chan w)) out → (length out ≤ 2)%nat →
  ∃ w' ds,
    tegra_channel_capture_done hw w = Some w'
    ∧ done w' = done w ++ ds
    ∧ vb <$> ds = out ++ [buf b]
    ∧ Forall (fun d => state d = VB2_BUF_STATE_ERROR) ds
    ∧ capture (chan w') = q
    ∧ bypass (chan w') = bypass (chan w)
    ∧ pg_mode (vi w') = pg_mode (vi w)
    ∧ capture_state (chan w') = CAPTURE_IDLE
    ∧ ring_ok (ring_of (chan w')) [].
Proof.
  intros Hq Hok Hlen.
  unfold tegra_channel_capture_done. cbv zeta.
  rewrite (dequeue_ring w b q Hq).
  set (wd := on_chan _ w).
  assert (Hrd : ring_of (chan wd) = ring_add (buf b) (ring_of (chan w))).
  { subst wd. destruct w as [c ? ? ? ? ?]. cbn [chan on_chan].
    apply ring_of_with_ring. }
  assert (Hokd : ring_ok (ring_of (chan wd)) (out ++ [buf b])).
  { rewrite Hrd. apply ring_add_ok; assumption. }
  cbv iota.
  set (w2 := for_index _ _ wd).
  assert (He2 : hw_erase w2 = hw_erase wd).
  { subst w2. apply hw_only_for_index. intros i w'. rsimpl. reflexivity. }
  destruct (syncpt_wait_loop_erase hw (seq 0 (Z.to_nat (valid_ports (chan w2)))) w2)
    as (rec & cs & He3).
  destruct (syncpt_wait_loop hw _ w2) as [err w3]. cbn [snd] in He3.
  set (st := if bool_decide (err ≠ 0) then VB2_BUF_STATE_ERROR else VB2_BUF_STATE_DONE).
  destruct (ring_frame_start_ok CAPTURE_IDLE st _ _ Hokd)
    as (ds & r & out' & Hr & Hvb & Hok' & _ & Hcs & _).
  destruct Hcs as [-> Hst]; [discriminate|]. rewrite app_nil_r in Hvb.
  destruct (frame_step_result wd CAPTURE_IDLE st rec
              (on_chan (set_capture_state CAPTURE_IDLE) w3) ds r)
    as (w' & E & He' & _).
  { rewrite erase_set_capture_state, He3, erase_set_recovered,
      erase_set_capture_state, He2.
    rsimpl. reflexivity. }
  { exact Hr. }
  exists w', ds. split; [exact E|].
  split; [exact (after_frame_done _ _ _ _ _ _ He')|].
  split; [exact Hvb|]. split; [exact Hst|].
  split.
  { rewrite (after_frame_capture _ _ _ _ _ _ He'). subst wd.
    destruct w as [c ? ? ? ? ?]. destruct c. reflexivity. }
  split.
  { rewrite (after_frame_bypass _ _ _ _ _ _ He'). subst wd.
    destruct w as [c ? ? ? ? ?]. destruct c. reflexivity. }
  split.
  { rewrite (erase_pg_mode _ _ He'). reflexivity. }
  split; [exact (after_frame_capture_state _ _ _ _ _ _ He')|].
  rewrite (after_frame_ring _ _ _ _ _ _ He'). exact Hok'.
Qed.

Lemma free_all_world w out :
  ring_ok (ring_of (chan w)) out →
  ∃ w' ds,
    free_ring_buffers (s32 (num_buffers (chan w))) w = Some w'
    ∧ done w' = done w ++ ds ∧ vb <$> ds = out
    ∧ ring_ok (ring_of (chan w')) []
    ∧ capture (chan w') = capture (chan w)
    ∧ bypass (chan w') = bypass (chan w)
    ∧ (capture_state (chan w) ≠ CAPTURE_GOOD →
       Forall (fun d => state d = VB2_BUF_STATE_ERROR) ds).
Proof.
  intros Hok. rewrite free_ring_buffers_ring.
  change (num_buffers (chan w)) with (r_num_buffers (ring_of (chan w))).
  destruct (ring_free_all_ok (capture_state (chan w)) _ _ Hok)
    as (ds & r & E & Hvb & Hok' & _ & Hst).
  rewrite E.
  exists (set_done (done w ++ ds) (on_chan (with_ring r) w)), ds.
  split; [reflexivity|]. split; [reflexivity|]. split; [exact Hvb|].
  split; [destruct r; exact Hok'|].
  split; [destruct w as [c ? ? ? ? ?]; destruct c, r; reflexivity|].
  split; [destruct w as [c ? ? ? ? ?]; destruct c, r; reflexivity|].
  exact Hst.
Qed.

Lemma queued_done_state st q : Forall (fun d => state d = st) (queued_done st q).
Proof.
  unfold queued_done. apply Forall_fmap. apply Forall_forall. intros b _. reflexivity.
Qed.

(** X7: stopping the stream hands every buffer the driver still holds
    back to videobuf2, each exactly once and oldest first: the buffers
    in the ring, then the buffer of the pending capture made on the
    way out when the channel was streaming in state [CAPTURE_GOOD],
    then the rest of the submission queue.  The call returns 0 and
    leaves the ring and the queue empty.  When the capture state is
    not [CAPTURE_GOOD], or when the pending capture is made, every one
    of these buffers is returned in state [VB2_BUF_STATE_ERROR], the
    frames already in the ring included. *)
Theorem stop_streaming_returns_all hw w out :
  bypass (chan w) = false →
  ring_ok (ring_of (chan w)) out → (length out ≤ 2)%nat →
  ∃ w' ds,
    tegra_channel_stop_streaming hw w = Some (0, w')
    ∧ done w' = done w ++ ds
    ∧ vb <$> ds = out ++ (buf <$> capture (chan w))
    ∧ capture (chan w') = []
    ∧ ring_ok (ring_of (chan w')) []
    ∧ (capture_state (chan w) ≠ CAPTURE_GOOD
       ∨ (is_streaming (chan w) = true ∧ capture (chan w) ≠ []) →
       Forall (fun d => state d = VB2_BUF_STATE_ERROR) ds).
Proof.
  intros Hb Hok Hlen. unfold tegra_channel_stop_streaming. rewrite Hb. cbn [negb].
  set (wk := tegra_channel_stop_kthreads w).
  assert (Hek : hw_erase wk = hw_erase w) by apply hw_only_stop_kthreads.
  assert (Hokk : ring_ok (ring_of (chan wk)) out)
    by (rewrite (erase_ring _ _ Hek); exact Hok).
  set (bad := capture_state (chan w) ≠ CAPTURE_GOOD
              ∨ (is_streaming (chan w) = true ∧ capture (chan w) ≠ [])).
  assert (Hcd : ∃ w1 ds1 out1,
             (if is_streaming (chan w)
                 && bool_decide (capture_state (chan wk) = CAPTURE_GOOD)
              then tegra_channel_capture_done hw wk else Some wk) = Some w1
             ∧ done w1 = done w ++ ds1
             ∧ ring_ok (ring_of (chan w1)) out1
             ∧ (vb <$> ds1) ++ out1 ++ (buf <$> capture (chan w1))
               = out ++ (buf <$> capture (chan w))
             ∧ bypass (chan w1) = false
             ∧ Forall (fun d => state d = VB2_BUF_STATE_ERROR) ds1
             ∧ (bad → capture_state (chan w1) ≠ CAPTURE_GOOD)).
  { rewrite (erase_capture_state _ _ Hek).
    destruct (is_streaming (chan w)) eqn:Hs;
      destruct (bool_decide (capture_state (chan w) = CAPTURE_GOOD)) eqn:Hg;
      cbn [andb].
    1: destruct (capture (chan wk)) as [|b q] eqn:Hq.
    2: { destruct (capture_done_flushes hw wk out b q Hq Hokk Hlen)
           as (w1 & ds1 & E & Hd & Hvb & Hst & Hq1 & Hb1 & _ & Hcs1 & Hok1).
         exists w1, ds1, []. split; [exact E|].
         rewrite Hd, Hvb, Hq1, Hb1, (erase_done _ _ Hek), (erase_bypass _ _ Hek).
         rewrite <- (erase_capture _ _ Hek), Hq. cbn [fmap list_fmap app].
         rewrite <- app_assoc.
         split; [reflexivity|]. split; [exact Hok1|]. split; [reflexivity|].
         split; [exact Hb|]. split; [exact Hst|].
         intros _. rewrite Hcs1. discriminate. }
    1: rewrite capture_done_empty by exact Hq.
    all: exists wk, [], out; split; [reflexivity|].
    all: rewrite (erase_done _ _ Hek), (erase_capture _ _ Hek),
           (erase_bypass _ _ Hek), (erase_capture_state _ _ Hek).
    all: split; [rewrite app_nil_r; reflexivity|].
    all: split; [exact Hokk|]. all: split; [reflexivity|].
    all: split; [exact Hb|]. all: split; [constructor|].
    all: apply bool_decide_eq_true in Hg || apply bool_decide_eq_false in Hg.
    all: intros [Hbad|[Hst Hne] ]; try assumption; try discriminate.
    exfalso. apply Hne. rewrite <- (erase_capture _ _ Hek). exact Hq. }
  destruct Hcd as (w1 & ds1 & out1 & -> & Hd1 & Hok1 & Hvb1 & Hb1 & Hst1 & Hcs1).
  rewrite bind_Some_l.
  destruct (free_all_world w1 out1 Hok1)
    as (wf & ds2 & -> & Hd2 & Hvb2 & Hokf & Hqf & Hbf & Hst2).
  rewrite bind_Some_l.
  set (wq := tegra_channel_queued_buf_done VB2_BUF_STATE_ERROR wf).
  destruct (queued_buf_done_all VB2_BUF_STATE_ERROR wf) as (Hdq & Hcq & _).
  cbv zeta in Hdq, Hcq. fold wq in Hdq, Hcq.
  rewrite bind_Some_l.
  match goal with
  | |- ∃ w' ds, Some (0, ?big) = _ ∧ _ => set (wz := big)
  end.
  assert (Hez : hw_erase wz = hw_erase wq).
  { subst wz. rewrite hw_only_call.
    set (w2 := call _ _).
    assert (He2 : hw_erase w2 = hw_erase wq).
    { subst w2. rewrite hw_only_call, hw_only_writel.
      rewrite hw_only_for_index.
      2:{ intros i w''. cbv beta zeta. destruct (bool_decide (u32 _ ≠ 0)).
          - unfold tegra_channel_clear_singleshot. rsimpl. reflexivity.
          - rsimpl. reflexivity. }
      rewrite hw_only_writel. reflexivity. }
    set (w3 := if bool_decide (pg_mode (vi w2) = 0) then _ else w2).
    assert (He3 : hw_erase w3 = hw_erase wq).
    { subst w3. destruct (bool_decide (pg_mode _ = 0)); [|exact He2].
      rewrite hw_only_call, (hw_only_set_stream hw false w2). exact He2. }
    destruct (negb (bypass (chan w3))); [|exact He3].
    rewrite hw_only_update_clknbw. exact He3. }
  exists wz, (ds1 ++ ds2 ++ queued_done VB2_BUF_STATE_ERROR (capture (chan wf))).
  split; [reflexivity|].
  split.
  { rewrite (erase_done _ _ Hez), Hdq, Hd2, Hd1, <- !app_assoc. reflexivity. }
  split.
  { rewrite !fmap_app, queued_done_vb, Hvb2, Hqf. exact Hvb1. }
  split.
  { rewrite (erase_capture _ _ Hez), Hcq. destruct (chan wf). reflexivity. }
  split.
  { rewrite (erase_ring _ _ Hez), Hcq.
    assert (Hrq : ring_of (set_capture [] (chan wf)) = ring_of (chan wf))
      by (destruct (chan wf); reflexivity).
    rewrite Hrq. exact Hokf. }
  intros Hbad. apply Forall_app. split; [exact Hst1|].
  apply Forall_app. split; [exact (Hst2 (Hcs1 Hbad))|apply queued_done_state].
Qed.

End Buffers.

(** ** Starting the stream *)

Section Start.
Context `{kernel_headers}.

Lemma keeps_queue_erase w wx wy :
  hw_erase wy = hw_erase wx → keeps_queue w wx → keeps_queue w wy.
Proof.
  intros He (Hd & Hq & Hr). unfold keeps_queue.
  rewrite (erase_done _ _ He), (erase_capture _ _ He), (erase_recovered _ _ He).
  repeat split; assumption.
Qed.

Lemma keeps_queue_refl w : keeps_queue w w.
Proof. repeat split. Qed.

Lemma keeps_queue_hw w wx f : hw_only f → keeps_queue w wx → keeps_queue w (f wx).
Proof. intros Hf. apply keeps_queue_erase. apply Hf. Qed.

Lemma keeps_queue_chan w wx (f : tegra_channel → tegra_channel) :
  (∀ c, capture (f c) = capture c) →
  keeps_queue w wx → keeps_queue w (on_chan f wx).
Proof.
  intros Hf (Hd & Hq & Hr). destruct wx as [c ? ? ? ? ?].
  unfold keeps_queue. cbn in *. rewrite Hf. repeat split; assumption.
Qed.

Lemma returns_queue_done st w wx :
  keeps_queue w wx → returns_queue st w (tegra_channel_queued_buf_done st wx).
Proof.
  intros (Hd & Hq & Hr).
  destruct (queued_buf_done_all st wx) as (Hd' & Hc' & _ & Hr' & _).
  cbv zeta in Hd', Hc', Hr'. unfold returns_queue.
  rewrite Hd', Hc', Hr', Hd, Hq, Hr. destruct (chan wx). repeat split.
Qed.

(** X8: [tegra_channel_start_streaming] either fails with a negative
    code, and then hands every buffer of the submission queue back to
    videobuf2 in state [VB2_BUF_STATE_QUEUED], in queue order, leaving
    the queue empty; or it returns a code that is not negative, and
    then completes no buffer and leaves the queue as it is.  It never
    runs the error recovery.  The thread creation either succeeds or
    yields an error pointer, whose code is negative. *)
Theorem start_streaming_queue hw w :
  kthread_run_ret hw ≤ 0 →
  let r := tegra_channel_start_streaming hw w in
  (fst r < 0 → returns_queue VB2_BUF_STATE_QUEUED w (snd r))
  ∧ (0 ≤ fst r → keeps_queue w (snd r)).
Proof.
  intros Hk.
  set (Q := fun r : Z * world =>
              (fst r < 0 → returns_queue VB2_BUF_STATE_QUEUED w (snd r))
              ∧ (0 ≤ fst r → keeps_queue w (snd r))).
  change (Q (tegra_channel_start_streaming hw w)).
  assert (Qfail : ∀ ret wx, ret < 0 → keeps_queue w wx →
            Q (ret, tegra_channel_queued_buf_done VB2_BUF_STATE_QUEUED wx)).
  { intros ret wx Hret Hkq. split; cbn [fst snd]; [|lia].
    intros _. apply returns_queue_done. exact Hkq. }
  assert (Qok : ∀ ret wx, 0 ≤ ret → keeps_queue w wx → Q (ret, wx)).
  { intros ret wx Hret Hkq. split; cbn [fst snd]; [lia|]. intros _. exact Hkq. }
  assert (Hstop : ∀ wx, keeps_queue w wx →
            keeps_queue w (if bool_decide (pg_mode (vi wx) = 0)
                           then call media_entity_pipeline_stop wx else wx)).
  { intros wx Hkq. destruct (bool_decide _); [|exact Hkq].
    apply keeps_queue_hw; [apply hw_only_call|exact Hkq]. }
  assert (Hoff : ∀ wx, keeps_queue w wx →
            keeps_queue w (if bool_decide (pg_mode (vi wx) = 0)
                           then snd (tegra_channel_set_stream hw false wx) else wx)).
  { intros wx Hkq. destruct (bool_decide _); [|exact Hkq].
    apply (keeps_queue_hw w wx _ (hw_only_set_stream hw false)). exact Hkq. }
  unfold tegra_channel_start_streaming. cbv zeta.
  set (wa := tegra_channel_ec_init w).
  assert (Ha : keeps_queue w wa)
    by (apply keeps_queue_hw; [apply hw_only_ec_init|apply keeps_queue_refl]).
  set (p := if bool_decide (pg_mode (vi wa) = 0)
            then (pipeline_start_ret hw, call media_entity_pipeline_start wa)
            else (0, wa)).
  assert (Hp : keeps_queue w (snd p)).
  { subst p. destruct (bool_decide _); cbn [snd]; [|exact Ha].
    apply keeps_queue_hw; [apply hw_only_call|exact Ha]. }
  destruct p as [ret wb]. cbn [snd] in Hp.
  destruct (Z.ltb_spec ret 0) as [Hneg|Hpos]; [apply Qfail; assumption|].
  destruct (bypass (chan wb)).
  - pose proof (hw_only_set_stream hw true wb) as Hon. cbv beta in Hon.
    destruct (tegra_channel_set_stream hw true wb) as [ret1 wc]. cbn [snd] in Hon.
    assert (Hc : keeps_queue w wc) by (apply (keeps_queue_erase w wb); assumption).
    destruct (Z.ltb_spec ret1 0) as [Hneg1|Hpos1].
    + apply Qfail; [exact Hneg1|]. apply Hstop. exact Hc.
    + apply Qok; [exact Hpos1|].
      repeat (apply keeps_queue_hw; [apply hw_only_call|]). exact Hc.
  - set (wd := for_index _ _ _).
    assert (Hd : keeps_queue w wd).
    { subst wd. apply keeps_queue_hw.
      - apply hw_only_for_index. intros i w'. rsimpl. reflexivity.
      - apply keeps_queue_chan; [intros c; destruct c; reflexivity|exact Hp]. }
    pose proof (hw_only_capture_setup wd) as Hset. cbv beta in Hset.
    assert (Hret : fst (tegra_channel_capture_setup wd) = 0) by reflexivity.
    destruct (tegra_channel_capture_setup wd) as [ret2 we]. cbn [fst snd] in Hset, Hret.
    subst ret2. change (0 <? 0) with false. cbv iota.
    assert (He : keeps_queue w we) by (apply (keeps_queue_erase w wd); assumption).
    set (wf := on_chan (set_kthread_capture_start true) _).
    assert (Hf : keeps_queue w wf).
    { subst wf.
      apply keeps_queue_chan; [intros c; destruct c; reflexivity|].
      apply keeps_queue_hw; [apply hw_only_call|].
      apply keeps_queue_hw; [apply hw_only_update_clknbw|].
      apply keeps_queue_chan; [intros c; destruct c; reflexivity|].
      apply keeps_queue_chan; [intros c; destruct c; reflexivity|]. exact He. }
    destruct (bool_decide (kthread_run_ret hw ≠ 0)) eqn:Ek.
    + apply bool_decide_eq_true in Ek.
      apply Qfail; [lia|]. apply Hstop, Hoff. exact Hf.
    + apply Qok; [lia|exact Hf].
Qed.

End Start.

(** ** Bandwidth bookkeeping *)

Section Bandwidth.
Context `{kernel_headers}.

Lemma format_kbyteps_range c : 0 ≤ format_kbyteps c < 2 ^ 31.
Proof.
  unfold format_kbyteps.
  pose proof (u32_nonneg (width (format c) * height (format c) * FRAMERATE * BPP_MEM)).
  pose proof (u32_lt (width (format c) * height (format c) * FRAMERATE * BPP_MEM)).
  split; [apply Z.div_pos; lia|].
  apply Z.div_lt_upper_bound; lia.
Qed.

Lemma s32_opp_small z : 0 ≤ z < 2 ^ 31 → s32 (- z) = - z.
Proof.
  intros Hz. unfold s32. cbv zeta.
  destruct (Z.eq_dec z 0) as [->|Hnz]; [reflexivity|].
  assert (Hm : (- z) mod 2 ^ 32 = 2 ^ 32 - z).
  { symmetry. apply (Z.mod_unique_pos _ _ (-1)); lia. }
  rewrite Hm. destruct (Z.ltb_spec (2 ^ 32 - z) (2 ^ 31)); lia.
Qed.

Lemma update_clknbw_on w :
  let w' := tegra_channel_update_clknbw 1 w in
  chan w' = set_requested_hz
              (u32 (width (format (chan w)) * height (format (chan w)) * FRAMERATE))
              (set_requested_kbyteps (s32 (format_kbyteps (chan w))) (chan w))
  ∧ vi w' = {| pg_mode := pg_mode (vi w);
               aggregated_kbyteps :=
                 ulong (aggregated_kbyteps (vi w) + s32 (format_kbyteps (chan w))) |}
  ∧ done w' = done w ∧ recovered w' = recovered w.
Proof.
  unfold tegra_channel_update_clknbw, format_kbyteps.
  change (0 <? 1) with true. cbv iota zeta.
  destruct w as [c v d r m cl]. destruct c, v. rsimpl.
  assert (He : ∀ z, 1 * z = z) by (intros; lia).
  rewrite !He. repeat split.
Qed.

(** X9: the bandwidth request made when a stream starts is withdrawn
    in full when it stops: [tegra_channel_update_clknbw] with [on = 1]
    adds the bandwidth of the channel's format to the device's
    [aggregated_kbyteps], and a following call with [on = 0] subtracts
    the same amount, so the aggregate is back at its earlier value
    (modulo the width of [unsigned long]); the channel is left
    requesting minus that bandwidth and a clock rate of 0, and its
    format, queue and ring are untouched. *)
Theorem clknbw_on_off w :
  let w1 := tegra_channel_update_clknbw 1 w in
  let w2 := tegra_channel_update_clknbw 0 w1 in
  aggregated_kbyteps (vi w1)
  = ulong (aggregated_kbyteps (vi w) + format_kbyteps (chan w))
  ∧ aggregated_kbyteps (vi w2) = ulong (aggregated_kbyteps (vi w))
  ∧ chan w2 = set_requested_hz 0
                (set_requested_kbyteps (- format_kbyteps (chan w)) (chan w))
  ∧ pg_mode (vi w2) = pg_mode (vi w).
Proof.
  intros w1 w2.
  destruct (update_clknbw_on w) as (Hc1 & Hv1 & _). cbv zeta in Hc1, Hv1.
  destruct (update_clknbw_off w1) as (Hc2 & Hv2 & _). cbv zeta in Hc2, Hv2.
  fold w1 in Hc1, Hv1. fold w2 in Hc2, Hv2.
  assert (Hf : format_kbyteps (chan w1) = format_kbyteps (chan w)).
  { rewrite Hc1. unfold format_kbyteps. destruct (chan w). reflexivity. }
  pose proof (format_kbyteps_range (chan w)) as Hk.
  rewrite Hf in Hc2, Hv2.
  rewrite (s32_opp_small _ Hk) in Hc2, Hv2.
  rewrite (s32_small _ Hk) in Hc1, Hv1.
  rewrite Hv2, Hv1, Hc2, Hc1. cbn [aggregated_kbyteps pg_mode].
  split; [reflexivity|]. split.
  { unfold ulong. rewrite Zplus_mod_idemp_l. f_equal. lia. }
  split; [destruct (chan w); reflexivity|reflexivity].
Qed.

End Bandwidth.

(** ** Gang mode: selection and buffer offsets *)

Section GangOffsets.
Context `{kernel_headers}.

Lemma gang_buffer_offset_frame c bo i :
  Gang.gang_buffer_offset (set_buffer_offset bo c) i = Gang.gang_buffer_offset c i.
Proof. destruct c. reflexivity. Qed.

Lemma set_buffer_offset_twice bo1 bo2 c :
  set_buffer_offset bo2 (set_buffer_offset bo1 c) = set_buffer_offset bo2 c.
Proof. destruct c. reflexivity. Qed.

Lemma gang_offsets_fold c l : ∀ bo,
  fold_left
    (fun c i =>
       set_buffer_offset (<[i := Gang.gang_buffer_offset c i]> (buffer_offset c)) c)
    l (set_buffer_offset bo c)
  = set_buffer_offset
      (fold_left (fun bo i => <[i := Gang.gang_buffer_offset c i]> bo) l bo) c.
Proof.
  induction l as [|i l IH]; intros bo; cbn [fold_left]; [reflexivity|].
  rewrite gang_buffer_offset_frame, set_buffer_offset_twice.
  assert (Hbo : buffer_offset (set_buffer_offset bo c) = bo) by (destruct c; reflexivity).
  rewrite Hbo. apply IH.
Qed.

Lemma gang_buffer_offsets_frame c :
  Gang.gang_buffer_offsets c
  = set_buffer_offset (buffer_offset (Gang.gang_buffer_offsets c)) c.
Proof.
  unfold Gang.gang_buffer_offsets.
  generalize (seq 0 (Z.to_nat (total_ports c))). intros l.
  pose proof (gang_offsets_fold c l (buffer_offset c)) as E.
  assert (E0 : set_buffer_offset (buffer_offset c) c = c) by (destruct c; reflexivity).
  rewrite E0 in E. rewrite E. destruct c. reflexivity.
Qed.

Lemma insert_fold_lookup {A} (f : nat → A) n : ∀ bo : list A,
  (n ≤ length bo)%nat →
  let bo' := fold_left (fun bo i => <[i := f i]> bo) (seq 0 n) bo in
  length bo' = length bo
  ∧ (∀ i, (i < n)%nat → bo' !! i = Some (f i))
  ∧ (∀ i, (n ≤ i)%nat → bo' !! i = bo !! i).
Proof.
  induction n as [|n IH]; intros bo Hn.
  - cbn. split; [reflexivity|]. split; [intros i Hi; lia|reflexivity].
  - rewrite seq_S, fold_left_app. cbn [fold_left plus].
    destruct (IH bo ltac:(lia)) as (Hlen & Hin & Hout). cbv zeta in Hlen, Hin, Hout.
    set (bo1 := fold_left _ (seq 0 n) bo) in *.
    cbv zeta. split; [rewrite length_insert; exact Hlen|]. split.
    + intros i Hi. destruct (decide (i = n)) as [->|Hne].
      * apply list_lookup_insert_eq. lia.
      * rewrite list_lookup_insert_ne by congruence. apply Hin. lia.
    + intros i Hi. rewrite list_lookup_insert_ne by lia. apply Hout. lia.
Qed.

Lemma aligned_low_bits x k :
  0 ≤ k → Z.land (u32 (x + 2 ^ k - 1)) (Gang.not32 (2 ^ k - 1)) mod 2 ^ k = 0.
Proof.
  intros Hk. rewrite <- Z.land_ones by exact Hk.
  apply Z.bits_inj'. intros i Hi.
  rewrite !Z.land_spec, Z.bits_0.
  destruct (Z.ltb_spec i k) as [Hlt|Hge].
  - unfold Gang.not32. rewrite (u32_land_ones (Z.lnot _)), Z.land_spec.
    rewrite Z.lnot_spec by exact Hi.
    assert (Hones : 2 ^ k - 1 = Z.ones k) by (rewrite Z.ones_equiv; lia).
    rewrite Hones, Z.ones_spec_low by lia.
    cbn [negb andb]. rewrite andb_false_r. reflexivity.
  - rewrite (Z.ones_spec_high k) by lia. apply andb_false_r.
Qed.

(** X10: [gang_buffer_offsets] places the ports of a channel at equal
    distances in the buffer: [buffer_offset[i]] is [i] times one
    stride, in 32-bit arithmetic, for every port index below
    [total_ports], so port 0 is at offset 0; the stride is a multiple
    of [TEGRA_SURFACE_ALIGNMENT] (a power of two), namely the gang
    line length rounded up in the side-by-side and non-gang modes and
    the gang image size rounded up in the top-bottom modes.  Entries
    from [total_ports] on and all other fields of the channel are
    untouched. *)
Theorem gang_offsets_evenly_spaced c k :
  TEGRA_SURFACE_ALIGNMENT = 2 ^ k → 0 ≤ k →
  (Z.to_nat (total_ports c) ≤ length (buffer_offset c))%nat →
  let c' := Gang.gang_buffer_offsets c in
  ∃ stride,
    (∀ i, (i < Z.to_nat (total_ports c))%nat →
          buffer_offset c' !! i = Some (u32 (Z.of_nat i * stride)))
    ∧ (∀ i, (Z.to_nat (total_ports c) ≤ i)%nat →
            buffer_offset c' !! i = buffer_offset c !! i)
    ∧ stride mod TEGRA_SURFACE_ALIGNMENT = 0
    ∧ (gang_mode c = CAMERA_NO_GANG_MODE ∨ gang_mode c = CAMERA_GANG_L_R
       ∨ gang_mode c = CAMERA_GANG_R_L →
       stride = u32 (round_up (gang_bytesperline c) TEGRA_SURFACE_ALIGNMENT))
    ∧ (gang_mode c = CAMERA_GANG_T_B ∨ gang_mode c = CAMERA_GANG_B_T →
       stride = u32 (round_up (gang_sizeimage c) TEGRA_SURFACE_ALIGNMENT))
    ∧ c' = set_buffer_offset (buffer_offset c') c.
Proof.
  intros Halign Hk Hlen c'.
  assert (Hc' : c' = set_buffer_offset
                       (fold_left (fun bo i => <[i := Gang.gang_buffer_offset c i]> bo)
                          (seq 0 (Z.to_nat (total_ports c))) (buffer_offset c)) c).
  { subst c'. unfold Gang.gang_buffer_offsets.
    rewrite <- gang_offsets_fold. f_equal. destruct c. reflexivity. }
  destruct (insert_fold_lookup (Gang.gang_buffer_offset c) _ _ Hlen) as (_ & Hin & Hout).
  cbv zeta in Hin, Hout.
  assert (Hbo : buffer_offset c'
                = fold_left (fun bo i => <[i := Gang.gang_buffer_offset c i]> bo)
                    (seq 0 (Z.to_nat (total_ports c))) (buffer_offset c))
    by (rewrite Hc'; destruct c; reflexivity).
  set (unit := if bool_decide (gang_mode c = CAMERA_NO_GANG_MODE
                               ∨ gang_mode c = CAMERA_GANG_L_R
                               ∨ gang_mode c = CAMERA_GANG_R_L)
               then gang_bytesperline c
               else if bool_decide (gang_mode c = CAMERA_GANG_T_B
                                    ∨ gang_mode c = CAMERA_GANG_B_T)
               then gang_sizeimage c else 0).
  exists (Z.land (u32 (unit + TEGRA_SURFACE_ALIGNMENT - 1))
            (Gang.not32 (TEGRA_SURFACE_ALIGNMENT - 1))).
  split; [intros i Hi; rewrite Hbo, (Hin i Hi); reflexivity|].
  split; [intros i Hi; rewrite Hbo; apply Hout; exact Hi|].
  split; [rewrite Halign; apply aligned_low_bits; exact Hk|].
  split.
  { intros Hm. subst unit. rewrite bool_decide_true by exact Hm.
    rewrite Halign. apply align_round_up. exact Hk. }
  split.
  { intros Hm. subst unit.
    rewrite bool_decide_false
      by (intros [E|[E|E]]; destruct Hm as [E'|E']; rewrite E in E'; discriminate).
    rewrite bool_decide_true by exact Hm.
    rewrite Halign. apply align_round_up. exact Hk. }
  rewrite Hbo. exact Hc'.
Qed.

(** X11: [update_gang_mode] only ever selects the left-right gang mode
    or no gang mode: left-right, with every port of the channel valid
    and half the format width per port, exactly when the width read as
    [int] exceeds 1920 and the height exceeds 1080; otherwise a single
    valid port carrying the full width.  The gang height is the format
    height in both cases, the gang line length is the gang width times
    the bytes per pixel and the gang image size that line length times
    the format height, each in 32-bit arithmetic; the format itself is
    not changed. *)
Theorem update_gang_mode_selects c :
  let c' := Gang.update_gang_mode c in
  let W := width (format c) in
  let H := height (format c) in
  (if (1920 <? s32 W) && (1080 <? s32 H)
   then gang_mode c' = CAMERA_GANG_L_R ∧ valid_ports c' = total_ports c
        ∧ gang_width c' = Z.shiftr W 1
   else gang_mode c' = CAMERA_NO_GANG_MODE ∧ valid_ports c' = 1
        ∧ gang_width c' = W)
  ∧ gang_height c' = H
  ∧ gang_bytesperline c' = u32 (gang_width c' * bpp (fmtinfo c))
  ∧ gang_sizeimage c' = u32 (gang_bytesperline c' * H)
  ∧ format c' = format c ∧ fmtinfo c' = fmtinfo c
  ∧ total_ports c' = total_ports c.
Proof.
  intros c' W H0.
  assert (Hframe : ∀ c0,
            let c1 := Gang.gang_buffer_offsets c0 in
            gang_mode c1 = gang_mode c0 ∧ valid_ports c1 = valid_ports c0
            ∧ gang_width c1 = gang_width c0 ∧ gang_height c1 = gang_height c0
            ∧ gang_bytesperline c1 = gang_bytesperline c0
            ∧ gang_sizeimage c1 = gang_sizeimage c0
            ∧ format c1 = format c0 ∧ fmtinfo c1 = fmtinfo c0
            ∧ total_ports c1 = total_ports c0).
  { intros c0. cbv zeta. rewrite (gang_buffer_offsets_frame c0).
    destruct c0. repeat split. }
  subst c'. unfold Gang.update_gang_mode, Gang.update_gang_mode_params. cbv zeta.
  fold W H0.
  destruct ((1920 <? s32 W) && (1080 <? s32 H0)).
  - match goal with |- context [Gang.gang_buffer_offsets ?c0] =>
      destruct (Hframe c0) as (-> & -> & -> & -> & -> & -> & -> & -> & ->) end.
    subst W H0. unfold Gang.gang_mode_width, Gang.gang_mode_height.
    destruct c. rsimpl.
    rewrite bool_decide_true by (left; reflexivity).
    rewrite bool_decide_false by (intros [?|?]; discriminate).
    repeat split.
  - match goal with |- context [Gang.gang_buffer_offsets ?c0] =>
      destruct (Hframe c0) as (-> & -> & -> & -> & -> & -> & -> & -> & ->) end.
    subst W H0. unfold Gang.gang_mode_width, Gang.gang_mode_height.
    destruct c. rsimpl.
    rewrite !bool_decide_false by (intros [?|?]; discriminate).
    repeat split.
Qed.

End GangOffsets.

(** ** Port lookup: ports without a match, and the chain of bricks *)

Section Bricks.
Import Graph.
Variable of_node_cmp : string → string → Z.

Lemma visit_port_skips_ret index p l :
  skips_port of_node_cmp index p →
  ∃ l', visit_port of_node_cmp index l p = Next l' ∧ l_chan l' = l_chan l
        ∧ (ret l' = ret l ∨ ret l' = 0 ∨ ret l' = - EINVAL)
        ∧ ((node_is of_node_cmp p "port" = true → find_property p "reg" ≠ None) →
           ret l' = ret l ∨ ret l' = 0).
Proof.
  unfold visit_port, of_property_read_u32.
  intros [Hname|[Hreg|(r & Hreg & Hne)]].
  - rewrite Hname. exists l. repeat split; left; reflexivity.
  - destruct (node_is of_node_cmp p "port");
      [|exists l; repeat split; left; reflexivity].
    rewrite Hreg. cbn. eexists. split; [reflexivity|]. split; [reflexivity|].
    split; [right; right; reflexivity|]. intros Hn. exfalso. apply Hn; reflexivity.
  - destruct (node_is of_node_cmp p "port");
      [|exists l; repeat split; left; reflexivity].
    rewrite Hreg. cbn. rewrite bool_decide_true by exact Hne.
    eexists. split; [reflexivity|]. split; [reflexivity|].
    split; [right; left; reflexivity|]. intros _. right; reflexivity.
Qed.

Lemma skipped_ports index ps : ∀ l,
  Forall (skips_port of_node_cmp index) ps →
  ∃ l', for_each_child (visit_port of_node_cmp index) ps l = Next l'
        ∧ l_chan l' = l_chan l
        ∧ (ps = [] → l' = l)
        ∧ (ret l' = ret l ∨ ret l' = 0 ∨ ret l' = - EINVAL)
        ∧ (Forall (fun p => node_is of_node_cmp p "port" = true →
                            find_property p "reg" ≠ None) ps →
           ret l' = ret l ∨ ret l' = 0).
Proof.
  induction ps as [|p ps IH]; intros l Hps.
  - exists l. repeat split; left; reflexivity.
  - apply Forall_cons in Hps as [Hp Hps].
    destruct (visit_port_skips_ret index p l Hp) as (l1 & E1 & Hc1 & Hr1 & Hg1).
    destruct (IH l1 Hps) as (l2 & E2 & Hc2 & _ & Hr2 & Hg2).
    exists l2. cbn [for_each_child]. rewrite E1.
    split; [exact E2|]. split; [congruence|]. split; [discriminate|].
    split.
    + destruct Hr2 as [-> | [-> | ->] ]; [exact Hr1|right; left; reflexivity|
                                      right; right; reflexivity].
    + intros Hall. apply Forall_cons in Hall as [Hpr Hall].
      destruct (Hg2 Hall) as [-> | ->]; [exact (Hg1 Hpr)|right; reflexivity].
Qed.

(** X12: when no child of the ports node is a port with the wanted
    [reg], [tegra_vi_get_port_info] leaves the channel exactly as it
    was and reports nothing about the missing port: it returns 0, or
    [-EINVAL] left over from a port node without a [reg] property, and
    it returns 0 whenever every port node has a [reg]. *)
Theorem get_port_info_no_port c node index :
  Forall (skips_port of_node_cmp index) (children (ports_of of_node_cmp node)) →
  snd (tegra_vi_get_port_info of_node_cmp c node index) = c
  ∧ (fst (tegra_vi_get_port_info of_node_cmp c node index) = 0
     ∨ fst (tegra_vi_get_port_info of_node_cmp c node index) = - EINVAL)
  ∧ (Forall (fun p => node_is of_node_cmp p "port" = true →
                      find_property p "reg" ≠ None)
       (children (ports_of of_node_cmp node)) →
     fst (tegra_vi_get_port_info of_node_cmp c node index) = 0).
Proof.
  intros Hall. unfold tegra_vi_get_port_info. fold (ports_of of_node_cmp node).
  destruct (skipped_ports index _ {| l_chan := c; value := 0xFFFF; ret := 0 |} Hall)
    as (l' & -> & Hc & _ & Hr & Hg).
  cbn [fst snd ret l_chan] in *. split; [exact Hc|]. split.
  - destruct Hr as [-> | [-> | ->] ]; [left|left|right]; reflexivity.
  - intros Hreg. destruct (Hg Hreg) as [-> | ->]; reflexivity.
Qed.

Lemma s32_int z : - 2 ^ 31 ≤ z < 2 ^ 31 → s32 z = z.
Proof.
  intros Hz. unfold s32. cbv zeta.
  destruct (Z.le_gt_cases 0 z) as [Hpos|Hneg].
  - rewrite Z.mod_small by lia. destruct (Z.ltb_spec z (2 ^ 31)); lia.
  - assert (Hm : z mod 2 ^ 32 = z + 2 ^ 32).
    { symmetry. apply (Z.mod_unique_pos _ _ (-1)); lia. }
    rewrite Hm. destruct (Z.ltb_spec (z + 2 ^ 32) (2 ^ 31)); lia.
Qed.

Lemma visit_endpoint_bricks l ep csi bw a b d rest :
  node_is of_node_cmp ep "endpoint" = true →
  find_property ep "csi-port" = Some csi →
  find_property ep "bus-width" = Some bw →
  0 ≤ bw ≤ 12 →
  port (l_chan l) = a :: b :: d :: rest →
  ∃ l', visit_endpoint of_node_cmp l ep = Next l'
        ∧ ret l' = 0
        ∧ l_chan l'
          = set_numlanes bw
              (set_port (brick_chain (bricks_needed bw) (u8 (s32 csi))
                         ++ drop (bricks_needed bw) (port (l_chan l)))
                 (l_chan l)).
Proof.
  intros Hname Hcsi Hbw Hrange Hport.
  unfold visit_endpoint, of_property_read_u32.
  rewrite Hname, Hcsi, Hbw. cbn [negb].
  rewrite (s32_small bw) by lia.
  rewrite (u32_small bw) by lia.
  destruct (Z.ltb_spec 12 bw); [lia|].
  rewrite (s32_int (bw - 4)) by lia.
  set (p0 := u8 (s32 csi)).
  destruct l as [c v r]. cbn [l_chan] in *.
  assert (Hcases : bw = 0 ∨ bw = 1 ∨ bw = 2 ∨ bw = 3 ∨ bw = 4 ∨ bw = 5 ∨ bw = 6
                   ∨ bw = 7 ∨ bw = 8 ∨ bw = 9 ∨ bw = 10 ∨ bw = 11 ∨ bw = 12) by lia.
  destruct c. cbn in Hport. subst.
  repeat (destruct Hcases as [->|Hcases]); try subst bw.
  all: eexists; split; [reflexivity|]; split; [reflexivity|].
  all: reflexivity.
Qed.

Lemma skipped_endpoints es : ∀ l,
  Forall (fun e => node_is of_node_cmp e "endpoint" = false) es →
  for_each_child (visit_endpoint of_node_cmp) es l = Next l.
Proof.
  induction es as [|e es IH]; intros l Hes; [reflexivity|].
  apply Forall_cons in Hes as [He Hes].
  cbn [for_each_child]. rewrite (visit_endpoint_skips of_node_cmp e l He).
  apply IH. exact Hes.
Qed.

Lemma for_each_child_app body pre rest l l' :
  for_each_child body pre l = Next l' →
  for_each_child body (pre ++ rest) l = for_each_child body rest l'.
Proof.
  revert l. induction pre as [|n pre IH]; intros l; cbn [app for_each_child].
  - intros [= ->]. reflexivity.
  - destruct (body l n); [discriminate|]. apply IH.
Qed.

(** X13: an endpoint with a bus width of at most 12 lanes gets one CSI
    brick for every four lanes or part of four (and one when the width
    is 0): [tegra_vi_get_port_info] stores the endpoint's csi-port in
    [port[0]] and in each further entry the entry before it plus two,
    modulo six, so three bricks starting at port 0, 1, ..., 5 are that
    port and the two ports two and four further round the six;
    [numlanes] is the bus width, the entries of [port] beyond the
    bricks and all other fields are untouched, and the call returns 0
    when the port is the last child of the ports node. *)
Theorem get_port_info_bricks c node index pre p post epre ep epost reg csi bw :
  children (ports_of of_node_cmp node) = pre ++ p :: post →
  Forall (skips_port of_node_cmp index) pre →
  Forall (skips_port of_node_cmp index) post →
  node_is of_node_cmp p "port" = true →
  find_property p "reg" = Some reg →
  u32 (s32 reg) = index →
  children p = epre ++ ep :: epost →
  Forall (fun e => node_is of_node_cmp e "endpoint" = false) epre →
  Forall (fun e => node_is of_node_cmp e "endpoint" = false) epost →
  node_is of_node_cmp ep "endpoint" = true →
  find_property ep "csi-port" = Some csi →
  find_property ep "bus-width" = Some bw →
  0 ≤ bw ≤ 12 →
  (3 ≤ length (port c))%nat →
  let r := tegra_vi_get_port_info of_node_cmp c node index in
  let n := bricks_needed bw in
  snd r = set_numlanes bw
            (set_port (brick_chain n (u8 (s32 csi)) ++ drop n (port c)) c)
  ∧ (fst r = 0 ∨ fst r = - EINVAL)
  ∧ (post = [] → fst r = 0)
  ∧ (n = 1%nat ↔ bw ≤ 4) ∧ (n = 2%nat ↔ 5 ≤ bw ≤ 8) ∧ (n = 3%nat ↔ 9 ≤ bw)
  ∧ (0 ≤ csi ≤ PORT_F →
     brick_chain n (u8 (s32 csi))
     = take n [csi; (csi + 2) mod 6; (csi + 4) mod 6]).
Proof.
  intros Hports Hpre Hpost Hname Hreg Hindex Heps Hepre Hepost Hep Hcsi Hbw Hrange
    Hlen r n.
  assert (Hr : ∃ l',
             for_each_child (visit_port of_node_cmp index) (pre ++ p :: post)
               {| l_chan := c; value := 0xFFFF; ret := 0 |} = Next l'
             ∧ l_chan l'
               = set_numlanes bw
                   (set_port (brick_chain n (u8 (s32 csi)) ++ drop n (port c)) c)
             ∧ (ret l' = 0 ∨ ret l' = - EINVAL)
             ∧ (post = [] → ret l' = 0)).
  { destruct (skipped_ports index pre {| l_chan := c; value := 0xFFFF; ret := 0 |} Hpre)
      as (l1 & E1 & Hc1 & _).
    rewrite (for_each_child_app _ _ _ _ _ E1). cbn [for_each_child].
    cbn [l_chan] in Hc1.
    assert (Hvisit : ∃ l2, visit_port of_node_cmp index l1 p = Next l2
                           ∧ ret l2 = 0
                           ∧ l_chan l2
                             = set_numlanes bw
                                 (set_port (brick_chain n (u8 (s32 csi))
                                            ++ drop n (port c)) c)).
    { unfold visit_port, of_property_read_u32.
      rewrite Hname, Hreg. cbn [negb].
      change (0 <? 0) with false. cbv iota.
      rewrite bool_decide_false by (intros Hne; apply Hne; exact Hindex).
      rewrite Heps.
      set (l2 := Build_locals _ _ _).
      rewrite (for_each_child_app _ epre (ep :: epost) l2 l2)
        by (apply skipped_endpoints; exact Hepre).
      cbn [for_each_child].
      assert (Hc2 : l_chan l2 = c) by exact Hc1.
      destruct (port c) as [|a [|b [|d rest]]] eqn:Hp; cbn [length] in Hlen; try lia.
      destruct (visit_endpoint_bricks l2 ep csi bw a b d rest Hep Hcsi Hbw Hrange)
        as (l3 & -> & Hr3 & Hc3).
      { rewrite Hc2. exact Hp. }
      rewrite (skipped_endpoints epost l3 Hepost).
      exists l3. split; [reflexivity|]. split; [exact Hr3|].
      rewrite Hc3, Hc2, Hp. reflexivity. }
    destruct Hvisit as (l2 & -> & Hr2 & Hc2).
    destruct (skipped_ports index post l2 Hpost) as (l3 & -> & Hc3 & Hnil & Hr3 & _).
    exists l3. split; [reflexivity|]. split; [congruence|]. split.
    - rewrite Hr2 in Hr3. destruct Hr3 as [-> | [-> | ->] ];
        [left|left|right]; reflexivity.
    - intros Hp. rewrite (Hnil Hp). exact Hr2. }
  destruct Hr as (l' & E & Hc & Hret & Hlast).
  assert (Hrv : r = (ret l', l_chan l')).
  { subst r. unfold tegra_vi_get_port_info. fold (ports_of of_node_cmp node).
    rewrite Hports, E. reflexivity. }
  rewrite Hrv. cbn [fst snd].
  split; [exact Hc|]. split; [exact Hret|]. split; [exact Hlast|].
  assert (Hcases : bw = 0 ∨ bw = 1 ∨ bw = 2 ∨ bw = 3 ∨ bw = 4 ∨ bw = 5 ∨ bw = 6
                   ∨ bw = 7 ∨ bw = 8 ∨ bw = 9 ∨ bw = 10 ∨ bw = 11 ∨ bw = 12) by lia.
  assert (Hn : (bw ≤ 4 ∧ n = 1%nat) ∨ (5 ≤ bw ≤ 8 ∧ n = 2%nat)
               ∨ (9 ≤ bw ∧ n = 3%nat)).
  { subst n. clear -Hcases.
    repeat (destruct Hcases as [-> | Hcases]); try subst bw;
      [left|left|left|left|left|right; left|right; left|right; left|right; left|
       right; right|right; right|right; right|right; right];
      (split; [lia|reflexivity]). }
  split; [destruct Hn as [ [? ->] | [ [? ->] | [? ->] ] ]; split; intros; (lia || reflexivity || discriminate)|].
  split; [destruct Hn as [ [? ->] | [ [? ->] | [? ->] ] ]; split; intros; (lia || reflexivity || discriminate)|].
  split; [destruct Hn as [ [? ->] | [ [? ->] | [? ->] ] ]; split; intros; (lia || reflexivity || discriminate)|].
  intros Hcsi_range. unfold PORT_F in Hcsi_range.
  rewrite (s32_small csi) by lia.
  assert (Hc6 : csi = 0 ∨ csi = 1 ∨ csi = 2 ∨ csi = 3 ∨ csi = 4 ∨ csi = 5) by lia.
  clear -Hc6 Hn.
  destruct Hn as [ [_ ->] | [ [_ ->] | [_ ->] ] ];
    repeat (destruct Hc6 as [-> | Hc6]); try subst csi; reflexivity.
Qed.

End Bricks.

(** ** Format table lookups *)

Section FormatTable.
Import Core.

Lemma get_by_code_from rows : ∀ i code,
  0 ≤ i → i + Z.of_nat (length rows) < 2 ^ 31 →
  match get_format_by_code_from rows code with
  | None =>
      get_idx_by_code_from rows i code = -1
      ∧ Forall (fun r => e_code r ≠ code) rows
  | Some r =>
      ∃ k : nat,
        get_idx_by_code_from rows i code = i + Z.of_nat k
        ∧ rows !! k = Some r ∧ e_code r = code
        ∧ ∀ j r', (j < k)%nat → rows !! j = Some r' → e_code r' ≠ code
  end.
Proof.
  induction rows as [|r rows IH]; intros i code Hi Hlen;
    cbn [get_format_by_code_from get_idx_by_code_from].
  - split; [reflexivity|constructor].
  - cbn [length] in Hlen.
    destruct (bool_decide (e_code r = code)) eqn:E.
    + apply bool_decide_eq_true in E. exists 0%nat.
      rewrite s32_small by lia. split; [lia|]. split; [reflexivity|].
      split; [exact E|]. intros j r' Hj. lia.
    + apply bool_decide_eq_false in E.
      rewrite (u32_small (i + 1)) by lia.
      specialize (IH (i + 1) code ltac:(lia) ltac:(lia)).
      destruct (get_format_by_code_from rows code) as [r0|].
      * destruct IH as (k & Hidx & Hk & Hc & Hfirst).
        exists (S k). split; [rewrite Hidx; lia|]. split; [exact Hk|].
        split; [exact Hc|]. intros j r' Hj Hr'.
        destruct j as [|j]; [cbn in Hr'; congruence|].
        apply (Hfirst j r'); [lia|exact Hr'].
      * destruct IH as [Hidx Hall]. split; [exact Hidx|].
        constructor; assumption.
Qed.

(** X14: the two lookups by media bus code agree.
    [tegra_core_get_idx_by_code] returns -1 exactly when
    [tegra_core_get_format_by_code] returns NULL, which is when no row
    of the table carries the code; otherwise the index returned is
    that of the row the pointer refers to, the first row with that
    code.  The table has fewer than [2^31] rows. *)
Theorem code_lookups_agree (tegra_video_formats : list format_entry) code :
  Z.of_nat (length tegra_video_formats) < 2 ^ 31 →
  let idx := tegra_core_get_idx_by_code tegra_video_formats code in
  match tegra_core_get_format_by_code tegra_video_formats code with
  | None => idx = -1 ∧ Forall (fun r => e_code r ≠ code) tegra_video_formats
  | Some r =>
      0 ≤ idx < Z.of_nat (length tegra_video_formats)
      ∧ tegra_video_formats !! Z.to_nat idx = Some r
      ∧ e_code r = code
      ∧ ∀ j r', (j < Z.to_nat idx)%nat → tegra_video_formats !! j = Some r' →
                e_code r' ≠ code
  end.
Proof.
  intros Hlen idx. subst idx.
  unfold tegra_core_get_idx_by_code, tegra_core_get_format_by_code.
  pose proof (get_by_code_from tegra_video_formats 0 code ltac:(lia) ltac:(lia)) as Hg.
  destruct (get_format_by_code_from tegra_video_formats code) as [r|]; [|exact Hg].
  destruct Hg as (k & -> & Hk & Hc & Hfirst).
  apply lookup_lt_Some in Hk as Hlt.
  rewrite Z.add_0_l, Nat2Z.id.
  split; [lia|]. split; [exact Hk|]. split; [exact Hc|exact Hfirst].
Qed.

Lemma get_by_fourcc_from rows : ∀ fourcc k r,
  rows !! k = Some r → e_fourcc r = fourcc →
  ∃ j r', (j ≤ k)%nat ∧ get_format_by_fourcc_from rows fourcc = Some r'
          ∧ rows !! j = Some r' ∧ e_fourcc r' = fourcc
          ∧ ∀ i r'', (i < j)%nat → rows !! i = Some r'' → e_fourcc r'' ≠ fourcc.
Proof.
  induction rows as [|r0 rows IH]; intros fourcc k r Hk Hf; [discriminate|].
  cbn [get_format_by_fourcc_from].
  destruct (bool_decide (e_fourcc r0 = fourcc)) eqn:E.
  - apply bool_decide_eq_true in E. exists 0%nat, r0.
    split; [lia|]. split; [reflexivity|]. split; [reflexivity|].
    split; [exact E|]. intros i r'' Hi. lia.
  - apply bool_decide_eq_false in E.
    destruct k as [|k]; [cbn in Hk; congruence|].
    destruct (IH fourcc k r Hk Hf) as (j & r' & Hj & Hg & Hl & Hf' & Hfirst).
    exists (S j), r'. split; [lia|]. split; [exact Hg|]. split; [exact Hl|].
    split; [exact Hf'|]. intros i r'' Hi Hr''.
    destruct i as [|i]; [cbn in Hr''; congruence|].
    apply (Hfirst i r''); [lia|exact Hr''].
Qed.

Context `{kernel_headers}.

(** X15: every 4CC [tegra_core_get_fourcc_by_idx] hands out for an
    index inside the table is known to
    [tegra_core_get_format_by_fourcc], which answers with the first
    row carrying that 4CC: a row at or before the index, not
    necessarily the row the 4CC was read from.  For an index past the
    end the default 4CC is returned and no row is read.  The table is
    not empty and [unsigned long] has at least 32 bits. *)
Theorem enumerated_fourcc_is_known
    (tegra_video_formats : list format_entry) (V4L2_PIX_FMT_SGRBG10 index : Z) :
  tegra_video_formats ≠ [] →
  Z.of_nat (length tegra_video_formats) < 2 ^ 31 →
  32 ≤ BITS_PER_LONG →
  0 ≤ index < 2 ^ 32 →
  let n := Z.of_nat (length tegra_video_formats) in
  ∃ fourcc,
    tegra_core_get_fourcc_by_idx tegra_video_formats V4L2_PIX_FMT_SGRBG10 index
    = Some fourcc
    ∧ (n ≤ index → fourcc = V4L2_PIX_FMT_SGRBG10)
    ∧ (index < n →
       (e_fourcc <$> tegra_video_formats !! Z.to_nat index) = Some fourcc
       ∧ ∃ j r, (j ≤ Z.to_nat index)%nat
                ∧ tegra_core_get_format_by_fourcc tegra_video_formats fourcc = Some r
                ∧ tegra_video_formats !! j = Some r
                ∧ e_fourcc r = fourcc
                ∧ ∀ i r', (i < j)%nat → tegra_video_formats !! i = Some r' →
                          e_fourcc r' ≠ fourcc).
Proof.
  intros Hne Hlen Hbits Hidx n.
  assert (Hpos : 0 < n).
  { subst n. destruct tegra_video_formats; [congruence|]. cbn [length]. lia. }
  assert (Hsz : Capture.ulong (ARRAY_SIZE tegra_video_formats - 1) = n - 1).
  { unfold Capture.ulong, ARRAY_SIZE. fold n. apply Z.mod_small.
    assert (2 ^ 32 ≤ 2 ^ BITS_PER_LONG) by (apply Z.pow_le_mono_r; lia). lia. }
  unfold tegra_core_get_fourcc_by_idx. rewrite Hsz.
  destruct (Z.ltb_spec (n - 1) index) as [Hout|Hin].
  - exists V4L2_PIX_FMT_SGRBG10. split; [reflexivity|]. split; [reflexivity|]. lia.
  - destruct (lookup_lt_is_Some_2 tegra_video_formats (Z.to_nat index)) as [r Hr].
    { subst n. lia. }
    rewrite Hr. cbn [fmap option_fmap option_map]. exists (e_fourcc r).
    split; [reflexivity|]. split; [lia|]. intros _. split; [reflexivity|].
    unfold tegra_core_get_format_by_fourcc.
    apply (get_by_fourcc_from _ _ _ r Hr). reflexivity.
Qed.

End FormatTable.

(** ** Test pattern generator formats *)

Section TpgFormats.
Import Tpg.
Variable TEGRA_DEF_WIDTH TEGRA_DEF_HEIGHT : Z.
Variable V4L2_MBUS_FMT_SRGGB10_1X10 V4L2_MBUS_FMT_RGBA8888_4X8_LE : Z.
Variable V4L2_FIELD_NONE V4L2_COLORSPACE_SRGB : Z.

(** X16: in test-pattern mode [tegra_csi_try_mbus_fmt] always returns
    0 and leaves in [*mf] either the format it was given, when that
    is one of the two generator codes with field none and colorspace
    sRGB at 1280x720, 1920x1080 or 3840x2160, or else the first
    generator format at the default size; trying the result again
    changes nothing.  Outside test-pattern mode it returns [-EINVAL]
    and leaves [*mf] alone. *)
Theorem try_mbus_fmt_settles pg_mode mf :
  let try_fmt :=
    tegra_csi_try_mbus_fmt TEGRA_DEF_WIDTH TEGRA_DEF_HEIGHT
      V4L2_MBUS_FMT_SRGGB10_1X10 V4L2_MBUS_FMT_RGBA8888_4X8_LE
      V4L2_FIELD_NONE V4L2_COLORSPACE_SRGB in
  let default_fmt :=
    {| mf_width := TEGRA_DEF_WIDTH; mf_height := TEGRA_DEF_HEIGHT;
       mf_code := V4L2_MBUS_FMT_SRGGB10_1X10;
       mf_field := V4L2_FIELD_NONE; mf_colorspace := V4L2_COLORSPACE_SRGB |} in
  (pg_mode = 0 → try_fmt pg_mode mf = (- EINVAL, mf))
  ∧ (pg_mode ≠ 0 →
     fst (try_fmt pg_mode mf) = 0
     ∧ (snd (try_fmt pg_mode mf) = mf ∨ snd (try_fmt pg_mode mf) = default_fmt)
     ∧ (snd (try_fmt pg_mode mf) = mf ↔
        mf = default_fmt
        ∨ ((mf_code mf = V4L2_MBUS_FMT_SRGGB10_1X10
            ∨ mf_code mf = V4L2_MBUS_FMT_RGBA8888_4X8_LE)
           ∧ mf_field mf = V4L2_FIELD_NONE
           ∧ mf_colorspace mf = V4L2_COLORSPACE_SRGB
           ∧ ((mf_width mf = 1280 ∧ mf_height mf = 720)
              ∨ (mf_width mf = 1920 ∧ mf_height mf = 1080)
              ∨ (mf_width mf = 3840 ∧ mf_height mf = 2160))))
     ∧ try_fmt pg_mode (snd (try_fmt pg_mode mf)) = try_fmt pg_mode mf).
Proof.
  cbv zeta.
  unfold tegra_csi_try_mbus_fmt.
  split.
  { intros ->. reflexivity. }
  intros Hpg. rewrite !bool_decide_false by exact Hpg.
  set (sup := tpg_supported _ _ _ _ _ _) in *.
  assert (Hsup : ∀ m, sup m = true ↔
            (mf_code m = V4L2_MBUS_FMT_SRGGB10_1X10
             ∨ mf_code m = V4L2_MBUS_FMT_RGBA8888_4X8_LE)
            ∧ mf_field m = V4L2_FIELD_NONE
            ∧ mf_colorspace m = V4L2_COLORSPACE_SRGB
            ∧ ((mf_width m = 1280 ∧ mf_height m = 720)
               ∨ (mf_width m = 1920 ∧ mf_height m = 1080)
               ∨ (mf_width m = 3840 ∧ mf_height m = 2160))).
  { intros m. subst sup. unfold tpg_supported, tegra_csi_tpg_fmts, tegra_csi_tpg_sizes.
    cbn [existsb mf_code mf_field mf_colorspace fs_width fs_height].
    rewrite !orb_false_r, !orb_true_iff, !andb_true_iff, !orb_true_iff,
      !bool_decide_eq_true.
    tauto. }
  cbn [tegra_csi_tpg_fmts].
  destruct (sup mf) eqn:E; cbn [fst snd].
  - rewrite E. split; [reflexivity|]. split; [left; reflexivity|].
    split; [|reflexivity].
    split; [intros _; right; apply Hsup; exact E|reflexivity].
  - split; [reflexivity|]. split; [right; reflexivity|].
    split.
    + split.
      * intros <-. left. reflexivity.
      * intros [->|Hs]; [reflexivity|]. apply Hsup in Hs. congruence.
    + match goal with |- context [sup ?m] => destruct (sup m) end; reflexivity.
Qed.

Lemma try_mbus_fmt_fixed pg_mode mf :
  pg_mode ≠ 0 →
  let try_fmt :=
    tegra_csi_try_mbus_fmt TEGRA_DEF_WIDTH TEGRA_DEF_HEIGHT
      V4L2_MBUS_FMT_SRGGB10_1X10 V4L2_MBUS_FMT_RGBA8888_4X8_LE
      V4L2_FIELD_NONE V4L2_COLORSPACE_SRGB in
  try_fmt pg_mode (snd (try_fmt pg_mode mf)) = (0, snd (try_fmt pg_mode mf)).
Proof.
  intros Hpg. cbv zeta. unfold tegra_csi_try_mbus_fmt.
  rewrite !bool_decide_false by exact Hpg.
  cbn [tegra_csi_tpg_fmts].
  destruct (tpg_supported _ _ _ _ _ _ mf) eqn:E; cbn [snd].
  - rewrite E. reflexivity.
  - match goal with |- context [tpg_supported ?a ?b ?c ?d ?e ?f ?m] =>
      destruct (tpg_supported a b c d e f m) end; reflexivity.
Qed.


End TpgFormats.

(** ** Bandwidth over a whole session *)

Section SessionBandwidth.
Context `{kernel_headers}.

Lemma ks_writel m : keeps_static (writel m).
Proof. intros w. reflexivity. Qed.

Lemma ks_call e : keeps_static (call e).
Proof. intros w. reflexivity. Qed.

Lemma ks_recover p : keeps_static (tegra_csi_error_recover p).
Proof. intros w. reflexivity. Qed.

Lemma ks_chan (f : tegra_channel → tegra_channel) :
  (∀ c, format (f c) = format c ∧ bypass (f c) = bypass c) →
  keeps_static (on_chan f).
Proof.
  intros Hf w. destruct (Hf (chan w)) as [Hfmt Hb].
  unfold static. destruct w as [c v d r m cl]. cbn in *. rewrite Hfmt, Hb. reflexivity.
Qed.

Lemma ks_then f g : keeps_static f → keeps_static g → keeps_static (fun w => g (f w)).
Proof. intros Hf Hg w. rewrite Hg, Hf. reflexivity. Qed.

Lemma ks_list {A} (body : A → world → world) (l : list A) :
  (∀ i, keeps_static (body i)) →
  keeps_static (fun w => fold_left (fun w i => body i w) l w).
Proof.
  intros Hb. induction l as [|i l IH]; intros w; cbn [fold_left]; [reflexivity|].
  rewrite IH. apply Hb.
Qed.

Lemma ks_for_index n body : (∀ i, keeps_static (body i)) → keeps_static (for_index n body).
Proof. intros Hb. apply (ks_list body). exact Hb. Qed.

Ltac ks_field := intros c; destruct c; split; reflexivity.

Lemma ks_ring_result w res w' :
  ring_result w res = Some w' → static w' = static w.
Proof.
  intros E. apply ring_result_Some in E as (ds & r & _ & ->).
  destruct w as [c v d r0 m cl]. destruct c, r. reflexivity.
Qed.

Lemma ks_free frames w w' : free_ring_buffers frames w = Some w' → static w' = static w.
Proof. rewrite free_ring_buffers_ring. apply ks_ring_result. Qed.

Lemma ks_ring_buffer st w w' :
  tegra_channel_ring_buffer st w = Some w' → static w' = static w.
Proof. rewrite tegra_channel_ring_buffer_ring. apply ks_ring_result. Qed.

Lemma ks_program_frame_start b index : keeps_static (program_frame_start b index).
Proof.
  intros w. unfold program_frame_start. cbv zeta.
  destruct (bool_decide _); [reflexivity|].
  rewrite ks_chan by ks_field. reflexivity.
Qed.

Lemma ks_set_stream hw on : keeps_static (fun w => snd (tegra_channel_set_stream hw on w)).
Proof.
  intros w. unfold tegra_channel_set_stream.
  destruct (bool_decide (is_streaming (chan w) = on)); [reflexivity|].
  destruct (bool_decide (s_stream_ret hw ≠ 0)); cbn [snd]; [reflexivity|].
  rewrite ks_chan by ks_field. reflexivity.
Qed.

Lemma ks_capture_setup : keeps_static (fun w => snd (tegra_channel_capture_setup w)).
Proof.
  intros w. unfold tegra_channel_capture_setup. cbv zeta. cbn [snd].
  apply ks_for_index. intros i w'. reflexivity.
Qed.

Lemma ks_enable_stream hw : keeps_static (fun w => snd (tegra_channel_enable_stream hw w)).
Proof.
  intros w. unfold tegra_channel_enable_stream. cbv zeta.
  set (w1 := call (tegra_csi_pad_control ENABLE) w).
  assert (H1 : static w1 = static w) by reflexivity.
  assert (Hcal : ∀ wx,
            static (if bool_decide (pg_mode (vi (call tegra_mipi_bias_pad_enable wx)) = 0)
                    then call (tegra_channel_mipi_cal 0)
                           (call tegra_mipi_bias_pad_enable wx)
                    else call tegra_mipi_bias_pad_enable wx)
            = static wx).
  { intros wx. destruct (bool_decide _); reflexivity. }
  destruct (bool_decide (pg_mode (vi w1) ≠ 0)).
  - cbn [snd]. rewrite Hcal. rewrite ks_chan by ks_field.
    rewrite ks_for_index by (intros i w'; reflexivity). exact H1.
  - pose proof (ks_set_stream hw true w1) as Hs. cbv beta in Hs.
    destruct (tegra_channel_set_stream hw true w1) as [ret w2]. cbn [snd] in Hs.
    destruct (ret <? 0); cbn [snd]; [rewrite Hs; exact H1|].
    rewrite Hcal, Hs. exact H1.
Qed.

Lemma ks_error_status_fold hw l : ∀ e w,
  static (snd (fold_left (error_status_body hw) l (e, w))) = static w.
Proof.
  induction l as [|i l IH]; intros e w; cbn [fold_left]; [reflexivity|].
  unfold error_status_body at 2. unfold Csi.tegra_csi_error. cbv zeta.
  rewrite IH. reflexivity.
Qed.

Lemma ks_error_status hw : keeps_static (fun w => snd (tegra_channel_error_status hw w)).
Proof.
  intros w. unfold tegra_channel_error_status.
  change (fold_left _ ?l ?a) with (fold_left (error_status_body hw) l a).
  apply ks_error_status_fold.
Qed.

Lemma ks_clear_singleshot index : keeps_static (tegra_channel_clear_singleshot index).
Proof. intros w. reflexivity. Qed.

Lemma ks_ec_recover hw : keeps_static (tegra_channel_ec_recover hw).
Proof.
  intros w. unfold tegra_channel_ec_recover, tegra_channel_vi_csi_recover. cbv zeta.
  rewrite ks_for_index by (intros i w'; reflexivity).
  rewrite (ks_capture_setup _), !ks_writel.
  rewrite ks_for_index
    by (intros i w'; destruct (bool_decide _);
        [apply ks_chan; ks_field|reflexivity]).
  rewrite ks_for_index by (intros i w'; reflexivity).
  rewrite ks_writel, ks_call.
  unfold tegra_channel_capture_error. apply ks_for_index. intros i w'. reflexivity.
Qed.

Lemma ks_syncpt_wait_loop hw l : keeps_static (fun w => snd (syncpt_wait_loop hw l w)).
Proof.
  induction l as [|i l IH]; intros w; cbn [syncpt_wait_loop]; [reflexivity|].
  destruct (bool_decide _); cbn [snd].
  - rewrite ks_chan by ks_field. rewrite ks_ec_recover. reflexivity.
  - rewrite (IH _). reflexivity.
Qed.

Lemma ks_capture_frame_armed hw w e w' :
  capture_frame_armed hw w = Some (e, w') → static w' = static w.
Proof.
  unfold capture_frame_armed. cbv zeta.
  set (w1 := on_chan (set_capture_state CAPTURE_GOOD) _).
  assert (H1 : static w1 = static w).
  { subst w1. rewrite ks_chan by ks_field.
    apply ks_for_index. intros i w0. reflexivity. }
  pose proof (ks_syncpt_wait_loop hw (seq 0 (Z.to_nat (valid_ports (chan w)))) w1) as H2.
  cbv beta in H2.
  destruct (syncpt_wait_loop hw _ w1) as [err w2]. cbn [snd] in H2.
  set (p := if bool_decide (err = 0) && bool_decide (pg_mode (vi w2) = 0) then _ else _).
  assert (Hp : static (snd p) = static w2).
  { subst p. destruct (_ && _); [|reflexivity].
    pose proof (ks_error_status hw w2) as H3. cbv beta in H3.
    destruct (tegra_channel_error_status hw w2) as [err' w3]. cbn [snd] in H3.
    destruct (bool_decide _); cbn [snd]; [|exact H3].
    rewrite ks_chan by ks_field. exact H3. }
  destruct p as [st w3]. cbn [snd] in Hp.
  destruct (tegra_channel_ring_buffer st w3) as [w4|] eqn:E; [|discriminate].
  rewrite bind_Some_l. intros [= _ <-].
  rewrite (ks_ring_buffer _ _ _ E), Hp, H2. exact H1.
Qed.

Lemma ks_capture_frame hw b w e w' :
  tegra_channel_capture_frame hw b w = Some (e, w') → static w' = static w.
Proof.
  unfold tegra_channel_capture_frame. cbv zeta.
  set (w1 := for_index _ (program_frame_start b) w).
  assert (H1 : static w1 = static w)
    by (apply ks_for_index; intros i; apply ks_program_frame_start).
  destruct (negb (bfirst_fstart (chan w1))).
  - pose proof (ks_enable_stream hw w1) as H2. cbv beta in H2.
    destruct (tegra_channel_enable_stream hw w1) as [err w2]. cbn [snd] in H2.
    destruct (bool_decide (err ≠ 0)).
    + destruct (tegra_channel_ring_buffer _ _) as [w3|] eqn:E; [|discriminate].
      rewrite bind_Some_l. intros [= _ <-].
      rewrite (ks_ring_buffer _ _ _ E). rewrite ks_chan by ks_field. rewrite H2. exact H1.
    + intros E. rewrite (ks_capture_frame_armed _ _ _ _ E).
      rewrite ks_for_index by (intros i w0; reflexivity).
      rewrite H2. exact H1.
  - intros E. rewrite (ks_capture_frame_armed _ _ _ _ E). exact H1.
Qed.

Lemma ks_dequeue : keeps_static (fun w => snd (dequeue_buffer w)).
Proof.
  intros w. unfold dequeue_buffer. destruct (capture (chan w)); [reflexivity|].
  cbn [snd]. apply ks_chan. intros c. rewrite add_ring. destruct c.
  split; reflexivity.
Qed.

Lemma ks_turn hw e w e' w' :
  kthread_capture_turn hw e w = Some (e', w') → static w' = static w.
Proof.
  unfold kthread_capture_turn.
  destruct (bool_decide (e ≠ 0)); [intros [= _ <-]; reflexivity|].
  pose proof (ks_dequeue w) as Hd. cbv beta in Hd.
  destruct (dequeue_buffer w) as [[b|] w1]; cbn [snd] in Hd.
  - intros E. rewrite (ks_capture_frame _ _ _ _ _ E). exact Hd.
  - intros [= _ <-]. exact Hd.
Qed.

Lemma ks_buffer_queue b : keeps_static (tegra_channel_buffer_queue b).
Proof.
  intros w. unfold tegra_channel_buffer_queue.
  destruct (bypass (chan w)); [reflexivity|].
  rewrite ks_call. apply ks_chan. ks_field.
Qed.

Lemma ks_run_actions acts : ∀ s s',
  run_actions acts s = Some s' → static (snd s') = static (snd s).
Proof.
  induction acts as [|a acts IH]; intros s s'; cbn [run_actions].
  - intros [= <-]. reflexivity.
  - destruct (run_action a s) as [s1|] eqn:E; [|discriminate].
    rewrite bind_Some_l. intros E'. rewrite (IH _ _ E').
    destruct a as [b|hw]; cbn [run_action] in E.
    + injection E as <-. cbn [snd]. apply ks_buffer_queue.
    + destruct s1 as [e1 w1]. cbn [snd]. apply (ks_turn _ _ _ _ _ E).
Qed.

Lemma static_clknbw_on w :
  static (tegra_channel_update_clknbw 1 w)
  = ({| pg_mode := pg_mode (vi w);
        aggregated_kbyteps :=
          ulong (aggregated_kbyteps (vi w) + format_kbyteps (chan w)) |},
     format (chan w), bypass (chan w)).
Proof.
  destruct (update_clknbw_on w) as (Hc & Hv & _). cbv zeta in Hc, Hv.
  unfold static. rewrite Hc, Hv.
  rewrite (s32_small _ (format_kbyteps_range (chan w))).
  destruct (chan w). reflexivity.
Qed.

Lemma static_clknbw_off w :
  static (tegra_channel_update_clknbw 0 w)
  = ({| pg_mode := pg_mode (vi w);
        aggregated_kbyteps :=
          ulong (aggregated_kbyteps (vi w) - format_kbyteps (chan w)) |},
     format (chan w), bypass (chan w)).
Proof.
  destruct (update_clknbw_off w) as (Hc & Hv & _). cbv zeta in Hc, Hv.
  unfold static. rewrite Hc, Hv.
  rewrite (s32_opp_small _ (format_kbyteps_range (chan w))).
  destruct (chan w). reflexivity.
Qed.

Lemma static_format_kbyteps w1 w2 :
  static w1 = static w2 → format_kbyteps (chan w1) = format_kbyteps (chan w2).
Proof. unfold static, format_kbyteps. intros [= _ -> _]. reflexivity. Qed.

Lemma static_parts w1 w2 :
  static w1 = static w2 →
  vi w1 = vi w2 ∧ format (chan w1) = format (chan w2)
  ∧ bypass (chan w1) = bypass (chan w2).
Proof. unfold static. intros [= -> -> ->]. repeat split. Qed.

Lemma ks_queued_buf_done st : keeps_static (tegra_channel_queued_buf_done st).
Proof.
  intros w. destruct (queued_buf_done_all st w) as (_ & Hc & Hv & _).
  cbv zeta in Hc, Hv. unfold static. rewrite Hc, Hv. destruct (chan w). reflexivity.
Qed.

Lemma ks_stop_kthreads : keeps_static tegra_channel_stop_kthreads.
Proof.
  intros w. unfold tegra_channel_stop_kthreads.
  destruct (kthread_capture_start (chan w)); [|reflexivity].
  rewrite ks_chan by ks_field. reflexivity.
Qed.

Lemma ks_capture_done hw w w' :
  tegra_channel_capture_done hw w = Some w' → static w' = static w.
Proof.
  unfold tegra_channel_capture_done. cbv zeta.
  pose proof (ks_dequeue w) as Hd. cbv beta in Hd.
  destruct (dequeue_buffer w) as [[b|] w1]; cbn [snd] in Hd;
    [|intros [= <-]; exact Hd].
  set (w2 := for_index _ _ w1).
  assert (H2 : static w2 = static w1)
    by (apply ks_for_index; intros i w0; reflexivity).
  pose proof (ks_syncpt_wait_loop hw (seq 0 (Z.to_nat (valid_ports (chan w2)))) w2) as H3.
  cbv beta in H3.
  destruct (syncpt_wait_loop hw _ w2) as [err w3]. cbn [snd] in H3.
  intros E. rewrite (ks_ring_buffer _ _ _ E). rewrite ks_chan by ks_field.
  rewrite H3, H2. exact Hd.
Qed.

(** What a stream start that returns 0 leaves of the VI device, the
    format and the bypass flag. *)
Lemma start_streaming_static hw w :
  fst (tegra_channel_start_streaming hw w) = 0 →
  static (snd (tegra_channel_start_streaming hw w))
  = (if bypass (chan w) then vi w
     else {| pg_mode := pg_mode (vi w);
             aggregated_kbyteps :=
               ulong (aggregated_kbyteps (vi w) + format_kbyteps (chan w)) |},
     format (chan w), bypass (chan w)).
Proof.
  unfold tegra_channel_start_streaming. cbv zeta.
  set (wa := tegra_channel_ec_init w).
  assert (Ha : static wa = static w).
  { subst wa. unfold tegra_channel_ec_init. rewrite ks_writel.
    apply ks_chan. ks_field. }
  set (p := if bool_decide (pg_mode (vi wa) = 0)
            then (pipeline_start_ret hw, call media_entity_pipeline_start wa)
            else (0, wa)).
  assert (Hp : static (snd p) = static w)
    by (subst p; destruct (bool_decide _); exact Ha).
  destruct p as [ret wb]. cbn [snd] in Hp.
  assert (Hbw : bypass (chan wb) = bypass (chan w))
    by (unfold static in Hp; congruence).
  destruct (Z.ltb_spec ret 0) as [Hneg|Hpos]; [cbn [fst]; lia|].
  rewrite Hbw. destruct (bypass (chan w)) eqn:Hb.
  - pose proof (ks_set_stream hw true wb) as Hon. cbv beta in Hon.
    destruct (tegra_channel_set_stream hw true wb) as [ret1 wc]. cbn [snd] in Hon.
    destruct (Z.ltb_spec ret1 0) as [Hneg1|Hpos1]; [cbn [fst]; lia|].
    cbn [fst snd]. intros _. rewrite !ks_call, Hon, Hp.
    unfold static. rewrite Hb. reflexivity.
  - set (wd := for_index _ _ _).
    assert (Hd : static wd = static w).
    { subst wd. rewrite ks_for_index by (intros i w'; reflexivity).
      rewrite ks_chan by ks_field. exact Hp. }
    pose proof (ks_capture_setup wd) as Hset. cbv beta in Hset.
    assert (Hret : fst (tegra_channel_capture_setup wd) = 0) by reflexivity.
    destruct (tegra_channel_capture_setup wd) as [ret2 we]. cbn [fst snd] in Hset, Hret.
    subst ret2. change (0 <? 0) with false. cbv iota.
    set (wi := on_chan tegra_channel_init_ring_buffer (on_chan (set_sequence 0) we)).
    assert (Hi : static wi = static w).
    { subst wi. rewrite ks_chan by ks_field. rewrite ks_chan by ks_field.
      rewrite Hset. exact Hd. }
    destruct (bool_decide (kthread_run_ret hw ≠ 0)) eqn:Ek.
    + apply bool_decide_eq_true in Ek. cbn [fst]. intros Hz. congruence.
    + cbn [fst snd]. intros _.
      rewrite ks_chan by ks_field. rewrite ks_call, static_clknbw_on.
      rewrite (static_format_kbyteps _ _ Hi).
      destruct (static_parts _ _ Hi) as (-> & -> & ->). rewrite Hb. reflexivity.
Qed.

Lemma stop_streaming_static hw w r :
  tegra_channel_stop_streaming hw w = Some r →
  static (snd r)
  = (if bypass (chan w) then vi w
     else {| pg_mode := pg_mode (vi w);
             aggregated_kbyteps :=
               ulong (aggregated_kbyteps (vi w) - format_kbyteps (chan w)) |},
     format (chan w), bypass (chan w)).
Proof.
  unfold tegra_channel_stop_streaming. cbv zeta.
  match goal with
  | |- ?first ≫= _ = _ → _ =>
      assert (Hfirst : ∀ w1, first = Some w1 → static w1 = static w)
  end.
  { destruct (negb (bypass (chan w))); [|intros w1 [= <-]; reflexivity].
    intros w1.
    set (wk := tegra_channel_stop_kthreads w).
    assert (Hk : static wk = static w) by apply ks_stop_kthreads.
    destruct (is_streaming (chan w) && _).
    - destruct (tegra_channel_capture_done hw wk) as [w2|] eqn:E2; [|discriminate].
      rewrite bind_Some_l.
      destruct (free_ring_buffers _ w2) as [w3|] eqn:E3; [|discriminate].
      rewrite bind_Some_l. intros [= <-].
      rewrite ks_call, ks_writel.
      rewrite ks_for_index
        by (intros i w0; cbv beta zeta; destruct (bool_decide _); reflexivity).
      rewrite ks_writel, ks_queued_buf_done, (ks_free _ _ _ E3),
        (ks_capture_done _ _ _ E2). exact Hk.
    - rewrite bind_Some_l.
      destruct (free_ring_buffers _ wk) as [w3|] eqn:E3; [|discriminate].
      rewrite bind_Some_l. intros [= <-].
      rewrite ks_call, ks_writel.
      rewrite ks_for_index
        by (intros i w0; cbv beta zeta; destruct (bool_decide _); reflexivity).
      rewrite ks_writel, ks_queued_buf_done, (ks_free _ _ _ E3). exact Hk. }
  match goal with
  | |- ?first ≫= _ = _ → _ => destruct first as [w1|]; [|discriminate]
  end.
  specialize (Hfirst w1 eq_refl). rewrite bind_Some_l. intros [= <-]. cbn [snd].
  rewrite ks_call.
  set (w2 := if bool_decide (pg_mode (vi w1) = 0) then _ else w1).
  assert (H2 : static w2 = static w).
  { subst w2. destruct (bool_decide _); [|exact Hfirst].
    rewrite ks_call, (ks_set_stream hw false w1). exact Hfirst. }
  assert (Hb2 : bypass (chan w2) = bypass (chan w))
    by (unfold static in H2; congruence).
  rewrite Hb2. destruct (bypass (chan w)) eqn:Hb; cbn [negb].
  - rewrite H2. unfold static. rewrite Hb. reflexivity.
  - rewrite static_clknbw_off, (static_format_kbyteps _ _ H2).
    destruct (static_parts _ _ H2) as (-> & -> & ->). rewrite Hb. reflexivity.
Qed.

(** X18: the bandwidth bookkeeping balances over a whole session.
    Whatever the hardware does in between (time-outs, error status,
    recoveries, a stream that fails to start at the first frame), a
    stream that was started, ran any sequence of buffer submissions
    and capture-thread turns and was stopped leaves the device's
    [aggregated_kbyteps] at the value it had before the start (modulo
    the width of [unsigned long]; untouched in bypass mode), and
    leaves [pg_mode], the format and the bypass flag as they were. *)
Theorem session_bandwidth_balanced hw_start acts hw_stop w0 w' :
  session hw_start acts hw_stop w0 = Some w' →
  aggregated_kbyteps (vi w')
  = (if bypass (chan w0) then aggregated_kbyteps (vi w0)
     else ulong (aggregated_kbyteps (vi w0)))
  ∧ pg_mode (vi w') = pg_mode (vi w0)
  ∧ format (chan w') = format (chan w0)
  ∧ bypass (chan w') = bypass (chan w0).
Proof.
  unfold session.
  pose proof (start_streaming_static hw_start w0) as Hstart.
  destruct (tegra_channel_start_streaming hw_start w0) as [ret w1].
  cbn [fst snd] in Hstart.
  destruct (bool_decide (ret ≠ 0)) eqn:Eret; [discriminate|].
  apply bool_decide_eq_false in Eret.
  assert (Hz : ret = 0) by (destruct (decide (ret = 0)); [assumption|contradiction]).
  specialize (Hstart Hz).
  destruct (run_actions acts (0, w1)) as [s|] eqn:Erun; [|discriminate].
  rewrite bind_Some_l.
  pose proof (ks_run_actions _ _ _ Erun) as Hrun. cbn [snd] in Hrun.
  destruct (tegra_channel_stop_streaming hw_stop (snd s)) as [r|] eqn:Estop;
    [|discriminate].
  cbn [fmap option_fmap option_map]. intros [= <-].
  pose proof (stop_streaming_static _ _ _ Estop) as Hstop.
  assert (Hfk : format_kbyteps (chan (snd s)) = format_kbyteps (chan w0)).
  { rewrite (static_format_kbyteps _ _ Hrun).
    unfold static in Hstart. unfold format_kbyteps. injection Hstart as _ -> _.
    reflexivity. }
  rewrite Hfk in Hstop. clear Hfk.
  assert (Hs : static (snd s)
               = (if bypass (chan w0) then vi w0
                  else {| pg_mode := pg_mode (vi w0);
                          aggregated_kbyteps :=
                            ulong (aggregated_kbyteps (vi w0)
                                   + format_kbyteps (chan w0)) |},
                  format (chan w0), bypass (chan w0)))
    by (rewrite Hrun; exact Hstart).
  unfold static in Hs. injection Hs as Hv Hf Hb.
  rewrite Hv, Hf, Hb in Hstop.
  unfold static in Hstop. injection Hstop as Hv' Hf' Hb'.
  rewrite Hv', Hf', Hb'. destruct (bypass (chan w0)).
  - repeat split.
  - cbn [aggregated_kbyteps pg_mode]. split; [|repeat split].
    unfold ulong. rewrite Zminus_mod_idemp_l. f_equal. lia.
Qed.

Lemma resources_set_stream hw on w :
  resources (snd (tegra_channel_set_stream hw on w)) = resources w.
Proof.
  unfold tegra_channel_set_stream.
  destruct (bool_decide (is_streaming (chan w) = on)); [reflexivity|].
  destruct (bool_decide (s_stream_ret hw ≠ 0)); cbn [snd]; [reflexivity|].
  destruct w as [c v d r m cl]. destruct c. reflexivity.
Qed.

Lemma resources_queued_buf_done st w :
  resources (tegra_channel_queued_buf_done st w) = resources w.
Proof.
  destruct (queued_buf_done_all st w) as (_ & Hc & Hv & _).
  cbv zeta in Hc, Hv. unfold resources. rewrite Hc, Hv. destruct (chan w). reflexivity.
Qed.

(** X19: when the capture thread cannot be created,
    [tegra_channel_start_streaming] returns the error code and hands
    the queued buffers back, but does not undo what it did just
    before: the bandwidth of the format stays added to the device's
    [aggregated_kbyteps], the channel keeps its bandwidth and clock
    requests, and the thread handle stays set (to the error pointer).
    The channel is not in bypass mode and the pipeline starts. *)
Theorem start_streaming_thread_failure hw w :
  bypass (chan w) = false →
  pg_mode (vi w) ≠ 0 ∨ 0 ≤ pipeline_start_ret hw →
  kthread_run_ret hw < 0 →
  let r := tegra_channel_start_streaming hw w in
  fst r = kthread_run_ret hw
  ∧ resources (snd r)
    = ({| pg_mode := pg_mode (vi w);
          aggregated_kbyteps :=
            ulong (aggregated_kbyteps (vi w) + format_kbyteps (chan w)) |},
       format_kbyteps (chan w),
       u32 (width (format (chan w)) * height (format (chan w)) * FRAMERATE),
       true)
  ∧ capture (chan (snd r)) = [].
Proof.
  intros Hb Hpipe Hk. cbv zeta.
  unfold tegra_channel_start_streaming. cbv zeta.
  set (wa := tegra_channel_ec_init w).
  assert (Ha : static wa = static w).
  { subst wa. unfold tegra_channel_ec_init. rewrite ks_writel.
    apply ks_chan. ks_field. }
  destruct (static_parts _ _ Ha) as (Hva & _ & _).
  rewrite Hva.
  set (p := if bool_decide (pg_mode (vi w) = 0)
            then (pipeline_start_ret hw, call media_entity_pipeline_start wa)
            else (0, wa)).
  assert (Hp : 0 ≤ fst p ∧ static (snd p) = static w).
  { subst p. destruct (bool_decide (pg_mode (vi w) = 0)) eqn:E; cbn [fst snd].
    - apply bool_decide_eq_true in E. split; [|exact Ha].
      destruct Hpipe; [congruence|assumption].
    - split; [lia|exact Ha]. }
  destruct p as [ret wb]. cbn [fst snd] in Hp. destruct Hp as [Hret Hp].
  destruct (Z.ltb_spec ret 0); [lia|].
  destruct (static_parts _ _ Hp) as (_ & _ & Hbb). rewrite Hbb, Hb.
  set (wd := for_index _ _ _).
  assert (Hd : static wd = static w).
  { subst wd. rewrite ks_for_index by (intros i w'; reflexivity).
    rewrite ks_chan by ks_field. exact Hp. }
  pose proof (ks_capture_setup wd) as Hset. cbv beta in Hset.
  assert (Hret2 : fst (tegra_channel_capture_setup wd) = 0) by reflexivity.
  destruct (tegra_channel_capture_setup wd) as [ret2 we]. cbn [fst snd] in Hset, Hret2.
  subst ret2. change (0 <? 0) with false. cbv iota.
  set (wi := on_chan tegra_channel_init_ring_buffer (on_chan (set_sequence 0) we)).
  assert (Hi : static wi = static w).
  { subst wi. rewrite ks_chan by ks_field. rewrite ks_chan by ks_field.
    rewrite Hset. exact Hd. }
  rewrite bool_decide_true by lia.
  set (wj := on_chan (set_kthread_capture_start true)
               (call kthread_run (tegra_channel_update_clknbw 1 wi))).
  assert (Hj : resources wj
               = ({| pg_mode := pg_mode (vi w);
                     aggregated_kbyteps :=
                       ulong (aggregated_kbyteps (vi w) + format_kbyteps (chan w)) |},
                  format_kbyteps (chan w),
                  u32 (width (format (chan w)) * height (format (chan w)) * FRAMERATE),
                  true)).
  { destruct (update_clknbw_on wi) as (Hc & Hv & _). cbv zeta in Hc, Hv.
    rewrite (s32_small _ (format_kbyteps_range (chan wi))) in Hc, Hv.
    rewrite (static_format_kbyteps _ _ Hi) in Hc, Hv.
    destruct (static_parts _ _ Hi) as (Hvi & Hfi & _).
    rewrite Hvi in Hv. rewrite Hfi in Hc.
    subst wj. unfold resources.
    set (wu := tegra_channel_update_clknbw 1 wi) in *.
    destruct wu as [cu vu du ru mu clu]. cbn in Hc, Hv. subst cu vu.
    destruct (chan wi). reflexivity. }
  cbn [fst snd]. split; [reflexivity|].
  destruct (queued_buf_done_all VB2_BUF_STATE_QUEUED
              (if bool_decide
                    (pg_mode
                       (vi (if bool_decide (pg_mode (vi wj) = 0)
                            then snd (tegra_channel_set_stream hw false wj)
                            else wj)) = 0)
               then call media_entity_pipeline_stop
                      (if bool_decide (pg_mode (vi wj) = 0)
                       then snd (tegra_channel_set_stream hw false wj) else wj)
               else if bool_decide (pg_mode (vi wj) = 0)
                    then snd (tegra_channel_set_stream hw false wj) else wj))
    as (_ & Hcq & _).
  cbv zeta in Hcq.
  split.
  - rewrite resources_queued_buf_done.
    assert (Hoff : resources (if bool_decide (pg_mode (vi wj) = 0)
                              then snd (tegra_channel_set_stream hw false wj) else wj)
                   = resources wj)
      by (match goal with |- context [bool_decide ?P] => destruct (bool_decide P) end;
          [apply resources_set_stream|reflexivity]).
    match goal with |- context [bool_decide ?P] => destruct (bool_decide P) end;
      [|rewrite Hoff; exact Hj].
    change (resources (call ?e ?x)) with (resources x). rewrite Hoff. exact Hj.
  - rewrite Hcq. match goal with |- capture (set_capture [] ?c) = [] => destruct c end.
    reflexivity.
Qed.

End SessionBandwidth.

(** ** The further statements on sample data *)

Section Cases.
#[local] Existing Instance Sample.headers.

Lemma completions_numbered_witness :
  ∃ w',
    run_ops (Cases.three_frames ++ [FreeAll]) (fresh_ring Sample.world0) = Some w'
    ∧ v4l2_sequence <$> done w'
      = sequence_numbers (sequence (chan Sample.world0)) (length (done w'))
    ∧ sequence (chan w')
      = u32 (sequence (chan Sample.world0) + Z.of_nat (length (done w'))).
Proof.
  destruct (run_ops (Cases.three_frames ++ [FreeAll]) (fresh_ring Sample.world0))
    as [w'|] eqn:E; [|vm_compute in E; discriminate E].
  exists w'. split; [reflexivity|].
  apply (completions_numbered (Cases.three_frames ++ [FreeAll]) Sample.world0 w').
  - vm_compute. split; [discriminate|reflexivity].
  - exact E.
Defined.

Lemma ring_first_in_first_out_witness :
  ∃ w' out,
    run_ops (Cases.three_frames ++ [Add 4%nat]) (fresh_ring Sample.world0) = Some w'
    ∧ ring_ok (ring_of (chan w')) out
    ∧ (vb <$> done w') ++ out = added (Cases.three_frames ++ [Add 4%nat]).
Proof.
  apply (ring_first_in_first_out (Cases.three_frames ++ [Add 4%nat]) Sample.world0).
  - reflexivity.
  - reflexivity.
  - vm_compute. split; [discriminate|reflexivity].
  - reflexivity.
  - reflexivity.
Defined.

Lemma capture_frame_good_witness :
  ∃ w' ds out',
    tegra_channel_capture_frame Sample.hw_ok (Sample.buffer 1)
      Sample.world_in_flight = Some (0, w')
    ∧ capture_state (chan w') = CAPTURE_GOOD
    ∧ recovered w' = recovered Sample.world_in_flight
    ∧ done w' = done Sample.world_in_flight ++ ds
    ∧ (vb <$> ds) ++ out' = [] ++ [buf (Sample.buffer 1)]
    ∧ length ds = (length (@nil vb2_buffer) - 1)%nat
    ∧ out' ≠ []
    ∧ ring_ok (ring_of (chan w')) out'.
Proof.
  apply (capture_frame_good Sample.hw_ok Sample.world_in_flight (Sample.buffer 1) []).
  - exact world_in_flight_ok.
  - right. right. reflexivity.
  - intros index _. reflexivity.
  - intros _. vm_compute. reflexivity.
Defined.

Lemma world_first_frame_ok :
  ring_ok (ring_of (chan Cases.world_first_frame)) ([] ++ [buf (Sample.buffer 1)]).
Proof.
  unfold ring_ok.
  repeat split;
    first [ vm_compute; reflexivity | vm_compute; intros; discriminate
          | vm_compute; lia ].
Qed.

Lemma capture_frame_stream_refused_witness :
  ∃ w' ds,
    tegra_channel_capture_frame Cases.hw_refused (Sample.buffer 1)
      Cases.world_first_frame = Some (s_stream_ret Cases.hw_refused, w')
    ∧ capture_state (chan w') = CAPTURE_ERROR
    ∧ is_streaming (chan w') = false
    ∧ recovered w' = recovered Cases.world_first_frame
    ∧ done w' = done Cases.world_first_frame ++ ds
    ∧ vb <$> ds = [] ++ [buf (Sample.buffer 1)]
    ∧ Forall (fun d => state d = VB2_BUF_STATE_ERROR) ds
    ∧ num_buffers (chan w') = 0.
Proof.
  apply (capture_frame_stream_refused Cases.hw_refused Cases.world_first_frame
           (Sample.buffer 1) []).
  - exact world_first_frame_ok.
  - reflexivity.
  - reflexivity.
  - reflexivity.
  - vm_compute. discriminate.
Defined.

Lemma thread_idle_after_error_witness :
  ∃ w',
    run_actions Sample.five_buffers (-19, Sample.world0) = Some (-19, w')
    ∧ chan w'
      = (if bypass (chan Sample.world0) then chan Sample.world0
         else set_capture (capture (chan Sample.world0)
                           ++ submitted Sample.five_buffers) (chan Sample.world0))
    ∧ done w' = done Sample.world0 ∧ recovered w' = recovered Sample.world0
    ∧ mmio w' = mmio Sample.world0.
Proof.
  apply (thread_idle_after_error Sample.five_buffers (-19) Sample.world0).
  lia.
Defined.

Lemma world_streaming_ok :
  ring_ok (ring_of (chan Cases.world_streaming)) [buf (Sample.buffer 1)].
Proof.
  unfold ring_ok.
  repeat split;
    first [ vm_compute; reflexivity | vm_compute; intros; discriminate
          | vm_compute; lia ].
Qed.

Lemma stop_streaming_returns_all_witness :
  ∃ w' ds,
    tegra_channel_stop_streaming Sample.hw_ok Cases.world_streaming = Some (0, w')
    ∧ done w' = done Cases.world_streaming ++ ds
    ∧ vb <$> ds = [buf (Sample.buffer 1)]
                  ++ (buf <$> capture (chan Cases.world_streaming))
    ∧ capture (chan w') = []
    ∧ ring_ok (ring_of (chan w')) []
    ∧ (capture_state (chan Cases.world_streaming) ≠ CAPTURE_GOOD
       ∨ (is_streaming (chan Cases.world_streaming) = true
          ∧ capture (chan Cases.world_streaming) ≠ []) →
       Forall (fun d => state d = VB2_BUF_STATE_ERROR) ds).
Proof.
  apply (stop_streaming_returns_all Sample.hw_ok Cases.world_streaming
           [buf (Sample.buffer 1)]).
  - reflexivity.
  - exact world_streaming_ok.
  - simpl. lia.
Defined.

Lemma start_streaming_queue_witness :
  let r := tegra_channel_start_streaming Cases.hw_no_thread Cases.world_queued in
  (fst r < 0 → returns_queue VB2_BUF_STATE_QUEUED Cases.world_queued (snd r))
  ∧ (0 ≤ fst r → keeps_queue Cases.world_queued (snd r)).
Proof.
  apply (start_streaming_queue Cases.hw_no_thread Cases.world_queued).
  vm_compute. discriminate.
Defined.

Lemma gang_offsets_evenly_spaced_witness :
  let c' := Gang.gang_buffer_offsets Sample.channel_4k in
  ∃ stride,
    (∀ i, (i < Z.to_nat (total_ports Sample.channel_4k))%nat →
          buffer_offset c' !! i = Some (u32 (Z.of_nat i * stride)))
    ∧ (∀ i, (Z.to_nat (total_ports Sample.channel_4k) ≤ i)%nat →
            buffer_offset c' !! i = buffer_offset Sample.channel_4k !! i)
    ∧ stride mod TEGRA_SURFACE_ALIGNMENT = 0
    ∧ (gang_mode Sample.channel_4k = CAMERA_NO_GANG_MODE
       ∨ gang_mode Sample.channel_4k = CAMERA_GANG_L_R
       ∨ gang_mode Sample.channel_4k = CAMERA_GANG_R_L →
       stride = u32 (round_up (gang_bytesperline Sample.channel_4k)
                       TEGRA_SURFACE_ALIGNMENT))
    ∧ (gang_mode Sample.channel_4k = CAMERA_GANG_T_B
       ∨ gang_mode Sample.channel_4k = CAMERA_GANG_B_T →
       stride = u32 (round_up (gang_sizeimage Sample.channel_4k)
                       TEGRA_SURFACE_ALIGNMENT))
    ∧ c' = set_buffer_offset (buffer_offset c') Sample.channel_4k.
Proof.
  apply (gang_offsets_evenly_spaced Sample.channel_4k 6).
  - reflexivity.
  - lia.
  - simpl. lia.
Defined.

Lemma get_port_info_no_port_witness :
  snd (Graph.tegra_vi_get_port_info Sample.of_node_cmp Sample.channel
         Cases.vi_node_8 5) = Sample.channel
  ∧ (fst (Graph.tegra_vi_get_port_info Sample.of_node_cmp Sample.channel
            Cases.vi_node_8 5) = 0
     ∨ fst (Graph.tegra_vi_get_port_info Sample.of_node_cmp Sample.channel
              Cases.vi_node_8 5) = - EINVAL)
  ∧ (Forall (fun p => Graph.node_is Sample.of_node_cmp p "port" = true →
                      Graph.find_property p "reg" ≠ None)
       (Graph.children (Graph.ports_of Sample.of_node_cmp Cases.vi_node_8)) →
     fst (Graph.tegra_vi_get_port_info Sample.of_node_cmp Sample.channel
            Cases.vi_node_8 5) = 0).
Proof.
  apply (get_port_info_no_port Sample.of_node_cmp Sample.channel Cases.vi_node_8 5).
  constructor; [right; left; reflexivity|].
  constructor; [|constructor].
  right. right. exists 0. split; [reflexivity|vm_compute; discriminate].
Defined.

Lemma get_port_info_bricks_witness :
  let r := Graph.tegra_vi_get_port_info Sample.of_node_cmp Sample.channel
             Cases.vi_node_8 0 in
  let n := bricks_needed 8 in
  snd r = set_numlanes 8
            (set_port (brick_chain n (u8 (s32 1)) ++ drop n (port Sample.channel))
               Sample.channel)
  ∧ (fst r = 0 ∨ fst r = - EINVAL)
  ∧ (@nil Graph.device_node = [] → fst r = 0)
  ∧ (n = 1%nat ↔ 8 ≤ 4) ∧ (n = 2%nat ↔ 5 ≤ 8 ≤ 8) ∧ (n = 3%nat ↔ 9 ≤ 8)
  ∧ (0 ≤ 1 ≤ PORT_F →
     brick_chain n (u8 (s32 1)) = take n [1; (1 + 2) mod 6; (1 + 4) mod 6]).
Proof.
  apply (get_port_info_bricks Sample.of_node_cmp Sample.channel Cases.vi_node_8 0
           [Graph.Build_device_node (Some "port"%string) [] []]
           (Sample.port_node 0 [Sample.endpoint 1 8]) []
           [] (Sample.endpoint 1 8) [] 0 1 8).
  - reflexivity.
  - constructor; [right; left; reflexivity|constructor].
  - constructor.
  - reflexivity.
  - reflexivity.
  - reflexivity.
  - reflexivity.
  - constructor.
  - constructor.
  - reflexivity.
  - reflexivity.
  - reflexivity.
  - lia.
  - simpl. lia.
Defined.

Lemma code_lookups_agree_witness :
  let idx := Core.tegra_core_get_idx_by_code Cases.formats 0x2006 in
  match Core.tegra_core_get_format_by_code Cases.formats 0x2006 with
  | None => idx = -1 ∧ Forall (fun r => Core.e_code r ≠ 0x2006) Cases.formats
  | Some r =>
      0 ≤ idx < Z.of_nat (length Cases.formats)
      ∧ Cases.formats !! Z.to_nat idx = Some r
      ∧ Core.e_code r = 0x2006
      ∧ ∀ j r', (j < Z.to_nat idx)%nat → Cases.formats !! j = Some r' →
                Core.e_code r' ≠ 0x2006
  end.
Proof.
  apply (code_lookups_agree Cases.formats 0x2006).
  simpl. lia.
Defined.

Lemma enumerated_fourcc_is_known_witness :
  let n := Z.of_nat (length Cases.formats) in
  ∃ fourcc,
    Core.tegra_core_get_fourcc_by_idx Cases.formats 0x30314142 2 = Some fourcc
    ∧ (n ≤ 2 → fourcc = 0x30314142)
    ∧ (2 < n →
       (Core.e_fourcc <$> Cases.formats !! Z.to_nat 2) = Some fourcc
       ∧ ∃ j r, (j ≤ Z.to_nat 2)%nat
                ∧ Core.tegra_core_get_format_by_fourcc Cases.formats fourcc = Some r
                ∧ Cases.formats !! j = Some r
                ∧ Core.e_fourcc r = fourcc
                ∧ ∀ i r', (i < j)%nat → Cases.formats !! i = Some r' →
                          Core.e_fourcc r' ≠ fourcc).
Proof.
  apply (enumerated_fourcc_is_known Cases.formats 0x30314142 2).
  - discriminate.
  - simpl. lia.
  - simpl. lia.
  - lia.
Defined.


Lemma session_bandwidth_balanced_witness :
  ∃ w',
    session Sample.hw_ok Sample.five_buffers Sample.hw_timeout Sample.world0 = Some w'
    ∧ aggregated_kbyteps (vi w')
      = (if bypass (chan Sample.world0) then aggregated_kbyteps (vi Sample.world0)
         else ulong (aggregated_kbyteps (vi Sample.world0)))
    ∧ pg_mode (vi w') = pg_mode (vi Sample.world0)
    ∧ format (chan w') = format (chan Sample.world0)
    ∧ bypass (chan w') = bypass (chan Sample.world0).
Proof.
  destruct (session Sample.hw_ok Sample.five_buffers Sample.hw_timeout Sample.world0)
    as [w'|] eqn:E; [|vm_compute in E; discriminate E].
  exists w'. split; [reflexivity|].
  exact (session_bandwidth_balanced Sample.hw_ok Sample.five_buffers Sample.hw_timeout
           Sample.world0 w' E).
Defined.

Lemma start_streaming_thread_failure_witness :
  let r := tegra_channel_start_streaming Cases.hw_no_thread Cases.world_queued in
  fst r = kthread_run_ret Cases.hw_no_thread
  ∧ resources (snd r)
    = ({| pg_mode := pg_mode (vi Cases.world_queued);
          aggregated_kbyteps :=
            ulong (aggregated_kbyteps (vi Cases.world_queued)
                   + format_kbyteps (chan Cases.world_queued)) |},
       format_kbyteps (chan Cases.world_queued),
       u32 (width (format (chan Cases.world_queued))
            * height (format (chan Cases.world_queued)) * FRAMERATE),
       true)
  ∧ capture (chan (snd r)) = [].
Proof.
  apply (start_streaming_thread_failure Cases.hw_no_thread Cases.world_queued).
  - reflexivity.
  - right. vm_compute. discriminate.
  - vm_compute. reflexivity.
Defined.

End Cases.
